(* ===== verification/_CoqProject ===== *)
-Q . S2P
Prelude.v
Fmt.v
Layout.v
Platform.v
RefPlatform.v
Sys.v
VgaBuffer.v
Serial.v
Panic.v
Bump.v
FrameAlloc.v
Paging.v
Memory.v
KernelHeap.v
ElfTypes.v
ElfLoad.v
SyscallLib.v
Machine.v
ThreadData.v
UserSlice.v
SyscallHandler.v
SyscallAbi.v
InterruptAbi.v
Executor.v
SimpleExecutor.v
Keyboard.v
Gdt.v
Interrupts.v
Exceptions.v
System.v
Boot.v
TestHarness.v
UserProgram.v
Embed.v
