(* ===== verification/Prelude.v ===== *)
(** * Zulu OS: a verification library for the kernel in [src/]

    Zulu OS is a small x86-64 kernel in Rust.  It boots, sets up its
    descriptor tables, a heap and a user stack, loads one embedded ELF program
    and runs it in user mode; the program talks to the kernel through three
    system calls.  Beside that path there is an executor for asynchronous
    kernel tasks and a keyboard task fed by interrupts.  This library
    translates that code into Rocq functions and proves what makes it correct.

    ** The parts and the files that model them

    - [Prelude]: shared notions.  [outcome] is the result of code that may
      panic, fault or halt, [stateful] adds a state, [result] is Rust's
      [Result]; machine integers are [Z] with their wrap-around written out
      and the overflow checks of the build profile as the class [Build];
      loops are [for_each], [try_each] and [stateful_each] with their
      invariant rules.
    - [Fmt]: what is used of [core::fmt] and [core::str]: literals, numbers
      in decimal and hexadecimal, valid UTF-8.
    - [Layout]: [#[repr(C)]] structures, their offsets and alignment.
    - [Platform]: the crates the kernel calls ([x86_64], [spin],
      [bootloader], [object], [crossbeam-queue], [futures-util],
      [conquer-once]), each a class of operations and a class of laws with
      their documented behaviour.  [RefPlatform] has an executable instance
      of every one; the witnesses run on them.
    - [Sys] ([sys.rs]): interrupt control.
    - [VgaBuffer] ([vga_buffer.rs]): the text console.
    - [Serial] ([serial.rs], [exit_qemu] of [lib.rs]): the serial line and
      the debug port of the emulator; [Host] is console, line and port.
    - [Panic] ([main.rs], [lib.rs]): the two panic handlers.
    - [Bump] ([allocator/bump.rs], [align_up] of [allocator/mod.rs]): the
      heap allocator, with a step relation for concurrent callers.
    - [FrameAlloc] ([memory.rs]): the frame allocator; it is an instance of
      [FrameSource], the interface the mapping loops are verified against.
    - [Paging]: what mapping fresh pages does, shared by all mapping loops.
    - [Memory] ([memory.rs]): the static mapper and the guards on it.
    - [KernelHeap] ([allocator/mod.rs]): mapping the heap.
    - [ElfTypes], [ElfLoad] ([elf/types.rs], [elf/mod.rs]): the loader.
    - [SyscallLib] ([syscall/src/lib.rs]): call numbers, errors, wrappers.
    - [Machine]: an interpreter of the instructions the repository's
      assembly uses, with interrupt delivery and privilege changes; it
      carries the state of the Rust code as its [world].
    - [ThreadData] ([syscall/mod.rs]): the thread data behind GS, its
      representation in memory and [with_thread_data].
    - [UserSlice] ([syscall/mod.rs]): checking pointers passed by programs.
    - [SyscallHandler] ([syscall/handler.rs], [io.rs], [process.rs]):
      dispatch and the three calls.
    - [SyscallAbi] (the assembly of [syscall/src/lib.rs],
      [syscall/handler.rs] and [main.rs]): entry to and exit from the kernel.
    - [InterruptAbi] ([interrupts.rs]): the breakpoint handler, and the
      calling convention of the handlers the compiler generates.
    - [Executor], [SimpleExecutor], [Keyboard] ([task/]): the executors and
      the keyboard stream, with step relations for interrupts.
    - [Gdt], [Interrupts] ([gdt.rs], [interrupts.rs]): descriptor tables,
      stacks, the interrupt table and the hardware interrupt handlers.
    - [Exceptions] ([interrupts.rs]): the exception handlers and [my_write].
    - [System]: user code, system calls and hardware interrupts as one
      transition system on [Machine]; it composes [SyscallAbi],
      [SyscallHandler], [InterruptAbi], [Interrupts] and [Keyboard].
    - [Boot] ([main.rs], [lib.rs]): [kernel_main], which uses most of the
      above in turn.
    - [TestHarness] ([lib.rs], the [tests] modules): the test runner, the
      test kernel and its unit tests.
    - [UserProgram] ([userspace_test/src/main.rs]): the embedded program.
    - [Embed] ([build.rs], [CHILD_PROCESS] of [main.rs]): how it gets there.

    ** What is shown

    - Boot: [kernel_main] reaches user mode with the address space it means
      to build, user pages never share a frame with the kernel heap, and the
      embedded program then runs to its end.
    - The running system: whatever the order of user instructions, system
      calls and interrupts, the machine stays ready for the next event, every
      system call that returns comes back to the program, and interrupts
      leave no trace in it.
    - Loader: total correctness on loadable files; permissions of shared
      pages and the page after a segment; relocation; the panics of bad files.
    - Memory: frames are handed out once; live heap blocks are disjoint under
      every interleaving, failed allocations included, until the bump pointer
      wraps around, which they can bring about; the heap range is mapped
      exactly.
    - System calls: the round trip through both assembly routines; exact
      acceptance of user buffers and their soundness; what each call does on
      every branch; the kernel heap stays out of reach; a loaded program
      prints its own bytes; the arguments that panic the kernel.
    - Assembly: interrupts, and breakpoints in kernel code, return to the code
      they interrupted; a breakpoint in user code ends in a double fault.
    - Errors: what each exception and a panic end in, on the screen, on the
      serial line and at the debug port, locks held included.
    - Console: its index loops agree with a reference on whole rows, and
      printing refines a terminal that scrolls 25 lines of 80.
    - Tasks: the ready loop terminates, in FIFO order, without losing or
      inventing wakes; the processor never sleeps with work queued; the
      keyboard stream delivers every accepted scancode in order and never
      misses a wake-up.
    - Tests: what the runner reports for any mix of passing and panicking
      tests, and that the kernel's own unit tests pass.

    Theorems named in the last section of each file are the properties; a
    lemma with the suffix [_witness] applies each at a concrete input.

    ** Bounds and fuel

    The executors need fuel ([run_ready_tasks], [run] of the simple one).
    Their theorems give a fuel that is enough, computed from a bound on the
    wakes or polls the futures still make.  The interpreter [Machine.run]
    takes a number of steps; the theorems state it (19 for a system call
    through the stub, 14 without it, 7 for a breakpoint, 6 to enter user
    mode).  [Exceptions.raise] takes the number of nested faults, of which
    there are at most two when the handler's own stack is mapped.  Mapping
    one page takes at most four frames, its own and three page tables
    ([FRAMES_PER_PAGE]), which is where the frame counts in the hypotheses
    come from.

    ** What is not modelled

    - Caches of the processor: the TLB flush after a mapping, and memory
      ordering between cores (the kernel runs on one core; interleavings of
      atomic steps are modelled).
    - The page table in memory: the mapper behind its root is a parameter
      with the documented behaviour of the [Mapper] trait.
    - [System] keeps the memory of the machine apart from the physical memory
      the Rust code works on: the bytes a program hands to a system call are
      those of [SyscallHandler], not of the machine.  The handlers of system
      calls write no user memory.
    - Buffers that wrap around the end of the address space, in the theorems
      on user pointers.
    - Formatting beyond [Fmt]: the [Debug] text of library types and of
      [PanicInfo] is a parameter.
    - Heap allocations inside [elf::load] (its [Vec] and [BTreeMap]).
    - The compiled Rust functions called from assembly are assumed, in
      [SyscallAbi], [InterruptAbi] and [System], to keep their calling
      conventions; what they compute is the model of their source.
    - The integration tests under [kernel/tests], and [process/mod.rs], an
      empty structure that no code uses.

    ** Plan for extensions

    The integration tests that use the heap; a page table in memory as an
    instance of the mapper; the asynchronous tasks and the system in one
    transition system. *)
From Stdlib Require Export ZArith Lia.
From stdpp Require Export sorting.
From stdpp Require Export base tactics decidable numbers option gmap list.

#[global] Open Scope Z_scope.

(** ** Ways a kernel computation can stop

    A Rust panic ends in [main.rs]'s panic handler, which prints and halts.
    The constructors record the reason; [HltLoop] is [sys::hlt_loop], entered
    on purpose, [SpinLoop] an empty [loop {}], [Deadlock] a spin lock taken
    twice on one core, and [Undefined] behaviour Rust leaves undefined. *)
Inductive stop : Set :=
  | Overflow
  | OutOfBounds
  | UnwrapNone
  | ExpectFailed
  | AssertFailed
  | ExplicitPanic
  | NonCanonical
  | PageFault
  | GeneralProtection
  | CratePanic
  | HltLoop
  | SpinLoop
  | Deadlock
  | Undefined.

#[global] Instance stop_eq_dec : EqDecision stop.
Proof. solve_decision. Defined.

(** Result of running Rust code that may not return normally. *)
Inductive outcome (A : Type) : Type :=
  | Ret (a : A)
  | Stop (s : stop).
Arguments Ret {A} a.
Arguments Stop {A} s.

#[global] Instance outcome_ret : MRet outcome := fun A a => Ret a.
#[global] Instance outcome_bind : MBind outcome :=
  fun A B f m => match m with Ret a => f a | Stop s => Stop s end.
#[global] Instance outcome_fmap : FMap outcome :=
  fun A B f m => match m with Ret a => Ret (f a) | Stop s => Stop s end.

(** The reasons that are Rust panics, which call the panic handler. *)
Definition is_panic (s : stop) : bool :=
  match s with
  | Overflow | OutOfBounds | UnwrapNone | ExpectFailed | AssertFailed | ExplicitPanic
  | NonCanonical | CratePanic => true
  | PageFault | GeneralProtection | HltLoop | SpinLoop | Deadlock | Undefined => false
  end.

(** Rust's [Result<A, E>]. *)
Inductive result (A E : Type) : Type :=
  | Ok (a : A)
  | Err (e : E).
Arguments Ok {A E} a.
Arguments Err {A E} e.

(** [Option::unwrap] and [Result::unwrap]/[expect]. *)
Definition unwrap {A} (o : option A) : outcome A :=
  match o with Some a => Ret a | None => Stop UnwrapNone end.

Definition expect {A E} (r : result A E) : outcome A :=
  match r with Ok a => Ret a | Err _ => Stop ExpectFailed end.

Definition is_ret {A} (m : outcome A) : Prop := exists a, m = Ret a.

(** Code that also changes a state [S]: the state is kept when it stops. *)
Definition stateful (S A : Type) : Type := S -> outcome A * S.

#[global] Instance stateful_ret {S} : MRet (stateful S) := fun A a s => (Ret a, s).
#[global] Instance stateful_bind {S} : MBind (stateful S) :=
  fun A B f m s => match m s with (Ret a, s') => f a s' | (Stop r, s') => (Stop r, s') end.

(** Code that leaves the state alone. *)
Definition lift {S A} (m : outcome A) : stateful S A := fun s => (m, s).

(** ** Loops

    [for_each l f s] is [for x in l { f(x) }] with the loop-carried state
    [s]; the first iteration that does not return ends the loop. *)
Fixpoint for_each {A S} (l : list A) (f : A -> S -> outcome S) (s : S) : outcome S :=
  match l with
  | [] => Ret s
  | x :: l' => s' ← f x s; for_each l' f s'
  end.

(** The same loop over code with a state of its own. *)
Fixpoint stateful_each {A S} (l : list A) (f : A -> stateful S unit) : stateful S unit :=
  match l with
  | [] => mret tt
  | x :: l' => _ ← f x; stateful_each l' f
  end.

(** The half-open range [lo..hi] over [usize] indices. *)
Definition range (lo hi : nat) : list nat := seq lo (hi - lo).

(** ** Machine integers

    A [u64]/[usize] is a [Z] in [0, 2^64); an [i64]/[isize] is a [Z] in
    [-2^63, 2^63). *)
Definition u64_modulus : Z := 2 ^ 64.
Definition wrap64 (z : Z) : Z := z mod u64_modulus.
Definition isize_MAX : Z := 2 ^ 63 - 1.

(** [z as i64] for a [u64] [z], and [z as u64] for an [i64] [z]. *)
Definition as_i64 (z : Z) : Z := if z <? 2 ^ 63 then z else z - u64_modulus.
Definition as_u64 (z : Z) : Z := wrap64 z.

(** [!z] on a [u64]. *)
Definition not64 (z : Z) : Z := u64_modulus - 1 - z.

Definition is_u64 (z : Z) : Prop := 0 <= z < u64_modulus.

(** Cargo profile: the [dev] profile checks arithmetic for overflow, the
    [release] profile wraps. *)
Class Build := { overflow_checks : bool }.

(** A [u64] result computed in the current profile. *)
Definition arith64 `{Build} (z : Z) : outcome Z :=
  if (0 <=? z) && (z <? u64_modulus) then Ret z
  else if overflow_checks then Stop Overflow else Ret (wrap64 z).

Definition uadd `{Build} (a b : Z) : outcome Z := arith64 (a + b).
Definition usub `{Build} (a b : Z) : outcome Z := arith64 (a - b).

(** The same for [i64] results. *)
Definition arith_i64 `{Build} (z : Z) : outcome Z :=
  if (- 2 ^ 63 <=? z) && (z <? 2 ^ 63) then Ret z
  else if overflow_checks then Stop Overflow else Ret (as_i64 (wrap64 z)).

Definition dev_build : Build := {| overflow_checks := true |}.

(** ** Sequencing of stateful code *)

Lemma stateful_bind_stop {S A B} (m : stateful S A) (f : A -> stateful S B) s r s' :
  m s = (Stop r, s') -> (m ≫= f) s = (Stop r, s').
Proof. unfold mbind, stateful_bind. by intros ->. Qed.

Lemma stateful_bind_ret {S A B} (m : stateful S A) (f : A -> stateful S B) s a s' :
  m s = (Ret a, s') -> (m ≫= f) s = f a s'.
Proof. unfold mbind, stateful_bind. by intros ->. Qed.

Lemma elem_of_drop_sub {A} n (l : list A) x : x ∈ drop n l -> x ∈ l.
Proof. intros Hx. rewrite <- (take_drop n l). apply elem_of_app. by right. Qed.

(** ** Reachability *)

(** An invariant of every step holds in every reachable state. *)
Lemma rtc_preserved {A} (P : A -> Prop) (R : relation A) :
  (forall x y, P x -> R x y -> P y) -> forall x y, rtc R x y -> P x -> P y.
Proof. intros Hstep x y. induction 1; eauto. Qed.

(** ** Loop rules *)

Lemma for_each_app {A S} (l k : list A) (f : A -> S -> outcome S) s :
  for_each (l ++ k) f s = for_each l f s ≫= for_each k f.
Proof.
  revert s. induction l as [|x l IH]; intros s; [done|].
  simpl. destruct (f x s); simpl; [apply IH|done].
Qed.

Lemma for_each_map {A B S} (g : A -> B) l (f : B -> S -> outcome S) s :
  for_each (map g l) f s = for_each l (fun x => f (g x)) s.
Proof.
  revert s. induction l as [|x l IH]; intros s; [done|].
  simpl. destruct (f (g x) s); simpl; [apply IH|done].
Qed.

(** A loop body that preserves [I] and always returns makes the loop return
    in a state that satisfies [I]. *)
Lemma for_each_inv {A S} (I : S -> Prop) (l : list A) (f : A -> S -> outcome S) s :
  I s -> (forall x s, x ∈ l -> I s -> exists s', f x s = Ret s' /\ I s') ->
  exists s', for_each l f s = Ret s' /\ I s'.
Proof.
  revert s. induction l as [|x l IH]; intros s Hs Hf; [by exists s|].
  destruct (Hf x s) as (s1 & E1 & H1); [by left|done|].
  destruct (IH s1) as (s2 & E2 & H2); [done| |].
  - intros y s' Hy. apply Hf. by right.
  - exists s2. split; [|done]. simpl. by rewrite E1.
Qed.

(** The invariant of a loop over a prefix of its list. *)
Lemma for_each_prefix {A S} (P : list A -> S -> Prop) (l : list A) f s :
  P [] s ->
  (forall done x rest s, l = done ++ x :: rest -> P done s ->
     exists s', f x s = Ret s' /\ P (done ++ [x]) s') ->
  exists s', for_each l f s = Ret s' /\ P l s'.
Proof.
  intros H0 Hstep.
  assert (forall rest pre s, l = pre ++ rest -> P pre s ->
            exists s', for_each rest f s = Ret s' /\ P l s') as Hgen.
  { intros rest; induction rest as [|x rest IH]; intros pre s1 -> Hpre.
    - rewrite app_nil_r in *. by exists s1.
    - destruct (Hstep pre x rest s1) as (s2 & E & H2); [done|done|].
      destruct (IH (pre ++ [x]) s2) as (s3 & E3 & H3).
      + by rewrite <- app_assoc.
      + done.
      + exists s3. split; [|done]. simpl. by rewrite E. }
  by apply (Hgen l []).
Qed.

Lemma stateful_each_inv {A S} (I : S -> Prop) (l : list A) (f : A -> stateful S unit) s :
  I s -> (forall x s, x ∈ l -> I s -> exists s', f x s = (Ret tt, s') /\ I s') ->
  exists s', stateful_each l f s = (Ret tt, s') /\ I s'.
Proof.
  revert s. induction l as [|x l IH]; intros s Hs Hf; [by exists s|].
  destruct (Hf x s) as (s1 & E1 & H1); [by left|done|].
  destruct (IH s1) as (s2 & E2 & H2); [done|intros y s' Hy; apply Hf; by right|].
  exists s2. split; [|done]. simpl. by rewrite (stateful_bind_ret _ _ _ _ _ E1).
Qed.

Lemma for_each_range {S} (P : nat -> S -> Prop) (lo hi : nat) f s :
  (lo <= hi)%nat -> P lo s ->
  (forall i s, (lo <= i < hi)%nat -> P i s -> exists s', f i s = Ret s' /\ P (i + 1)%nat s') ->
  exists s', for_each (range lo hi) f s = Ret s' /\ P hi s'.
Proof.
  unfold range. intros Hle. remember (hi - lo)%nat as n eqn:Hn.
  revert lo s Hle Hn. induction n as [|n IH]; intros lo s Hle Hn H0 Hstep; simpl.
  - exists s. split; [done|]. by replace hi with lo by lia.
  - destruct (Hstep lo s) as (s1 & -> & H1); [lia|done|]. simpl.
    apply IH; [lia|lia|by replace (Datatypes.S lo) with (lo + 1)%nat by lia|].
    intros i s' Hi. apply Hstep. lia.
Qed.

(** ** Lists *)

(** The last [n] elements of a list. *)
Definition lastn {A} (n : nat) (l : list A) : list A := drop (length l - n) l.

Lemma lastn_app_r {A} n (l k : list A) :
  (n <= length k)%nat -> lastn n (l ++ k) = lastn n k.
Proof.
  intros Hn. unfold lastn. rewrite length_app, drop_app_ge by lia. f_equal. lia.
Qed.

Lemma lastn_all {A} n (l : list A) : length l = n -> lastn n l = l.
Proof. intros <-. unfold lastn. by rewrite Nat.sub_diag. Qed.

Lemma insert_take_drop_next {A} (l k : list A) (i : nat) x :
  l !! i = Some x -> (i < length k)%nat ->
  <[i := x]> (take i l ++ drop i k) = take (i + 1) l ++ drop (i + 1) k.
Proof.
  intros Hx Hi. pose proof (lookup_lt_Some _ _ _ Hx) as Hl.
  assert (length (take i l) = i) as Ht by (rewrite length_take; lia).
  destruct (lookup_lt_is_Some_2 k i Hi) as [y Hy].
  rewrite (drop_S k y i Hy).
  rewrite insert_app_r_alt by lia. rewrite Ht, Nat.sub_diag. simpl.
  rewrite Nat.add_1_r, (take_S_r l i x Hx), <- app_assoc. done.
Qed.

Lemma length_tail {A} (l : list A) : length (tail l) = (length l - 1)%nat.
Proof. destruct l; simpl; lia. Qed.

Lemma list_alter_as_insert {A} (f : A -> A) (l : list A) i x :
  l !! i = Some x -> alter f i l = <[i := f x]> l.
Proof.
  intros Hx. apply list_eq. intros j. destruct (decide (i = j)) as [->|Hne].
  - rewrite list_lookup_alter_eq, Hx. simpl.
    by rewrite list_lookup_insert_eq by (by eapply lookup_lt_Some).
  - by rewrite list_lookup_alter_ne, list_lookup_insert_ne.
Qed.

(** ** Arithmetic *)

Lemma arith64_ret `{Build} z : is_u64 z -> arith64 z = Ret z.
Proof.
  unfold is_u64, arith64. intros [H0 H1].
  destruct (Z.leb_spec 0 z), (Z.ltb_spec z u64_modulus); simpl; try lia; done.
Qed.

Lemma uadd_ret `{Build} a b : is_u64 (a + b) -> uadd a b = Ret (a + b).
Proof. apply arith64_ret. Qed.

Lemma usub_ret `{Build} a b : is_u64 (a - b) -> usub a b = Ret (a - b).
Proof. apply arith64_ret. Qed.

Lemma arith_i64_ret `{Build} z : - 2 ^ 63 <= z < 2 ^ 63 -> arith_i64 z = Ret z.
Proof.
  intros [H0 H1]. unfold arith_i64.
  destruct (Z.leb_spec (- 2 ^ 63) z), (Z.ltb_spec z (2 ^ 63)); simpl; try lia; done.
Qed.

Lemma wrap64_small z : is_u64 z -> wrap64 z = z.
Proof. apply Z.mod_small. Qed.

(** Masking with [!(2^k - 1)] rounds down to a multiple of [2^k]. *)
Lemma land_not64_ones v k :
  is_u64 v -> 0 <= k < 64 -> Z.land v (not64 (2 ^ k - 1)) = v / 2 ^ k * 2 ^ k.
Proof.
  unfold is_u64, u64_modulus. intros Hv Hk.
  assert (2 ^ k - 1 = Z.ones k) as E by (rewrite Z.ones_equiv; lia).
  assert (not64 (2 ^ k - 1) = Z.ldiff (Z.ones 64) (Z.ones k)) as ->.
  { unfold not64, u64_modulus. rewrite E.
    replace (2 ^ 64 - 1) with (Z.ones 64) by reflexivity.
    apply Z.sub_nocarry_ldiff. apply Z.bits_inj'. intros n Hn.
    rewrite Z.ldiff_spec, !Z.testbit_ones_nonneg, Z.bits_0 by lia.
    destruct (Z.ltb_spec n k), (Z.ltb_spec n 64); simpl; lia || done. }
  assert (Z.land v (Z.ldiff (Z.ones 64) (Z.ones k)) = Z.ldiff (Z.land v (Z.ones 64)) (Z.ones k)) as ->.
  { apply Z.bits_inj'. intros n Hn. rewrite !Z.land_spec, !Z.ldiff_spec, Z.land_spec.
    by destruct (Z.testbit v n), (Z.testbit (Z.ones 64) n), (Z.testbit (Z.ones k) n). }
  rewrite Z.land_ones, Z.mod_small by lia.
  rewrite Z.ldiff_ones_r, Z.shiftr_div_pow2, Z.shiftl_mul_pow2 by lia. done.
Qed.

(** Bounds of masked and combined bit sets. *)
Lemma land_mask_range f m : 0 <= m -> 0 <= Z.land f m <= m.
Proof.
  intros Hm. split; [apply Z.land_nonneg; by right|].
  enough (Z.land f m = m - Z.ldiff m f).
  { assert (0 <= Z.ldiff m f) by (apply Z.ldiff_nonneg; by left). lia. }
  rewrite Z.sub_nocarry_ldiff; apply Z.bits_inj'; intros n Hn;
    rewrite ?Z.land_spec, !Z.ldiff_spec, ?Z.bits_0; by destruct (Z.testbit f n), (Z.testbit m n).
Qed.

Lemma testbit_above a n k : 0 <= n <= k -> 0 <= a < 2 ^ n -> Z.testbit a k = false.
Proof.
  intros Hk Ha. apply Z.testbit_false; [lia|]. rewrite Z.div_small; [done|].
  pose proof (Z.pow_le_mono_r 2 n k). lia.
Qed.

Lemma lor_range a b n : 0 <= n -> 0 <= a < 2 ^ n -> 0 <= b < 2 ^ n -> 0 <= Z.lor a b < 2 ^ n.
Proof.
  intros Hn Ha Hb. split; [apply Z.lor_nonneg; lia|].
  assert (Z.lor a b = Z.lor a b mod 2 ^ n) as ->; [|apply Z.mod_pos_bound; lia].
  rewrite <- Z.land_ones by done. apply Z.bits_inj'. intros k Hk.
  rewrite Z.land_spec, Z.lor_spec, Z.testbit_ones_nonneg by done.
  destruct (Z.ltb_spec k n); [by rewrite andb_true_r|].
  by rewrite andb_false_r, !(testbit_above _ n) by lia.
Qed.

(** ** Sorted lists *)

Lemma StronglySorted_base_filter {A} (R : A -> A -> Prop) (P : A -> Prop)
  `{forall x, Decision (P x)} l :
  StronglySorted R l -> StronglySorted R (base.filter P l).
Proof.
  induction 1 as [|x l Hl IH Hx]; [constructor|]. rewrite filter_cons.
  case_decide; [|done]. constructor; [done|].
  apply Forall_forall. intros y Hy. apply list_elem_of_filter in Hy as [_ Hy].
  rewrite Forall_forall in Hx. by apply Hx.
Qed.

Lemma StronglySorted_seqZ (f : Z -> Z) k n :
  (forall i j, i < j -> f i < f j) -> StronglySorted Z.lt (f <$> seqZ k n).
Proof.
  intros Hf. unfold seqZ. rewrite <- list_fmap_compose.
  generalize 0%nat as j. induction (Z.to_nat n) as [|m IH]; intros j; simpl; [constructor|].
  constructor; [apply IH|]. apply Forall_fmap, Forall_forall. intros i Hi.
  apply elem_of_seq in Hi. simpl. apply Hf. lia.
Qed.

(** ** Loops with early return

    [try_each l f s] is [for x in l { f(x)?; }]: the first [Err] is returned
    to the caller, with the state reached. *)
Fixpoint try_each {A S E} (l : list A) (f : A -> S -> outcome (result unit E * S)) (s : S)
  : outcome (result unit E * S) :=
  match l with
  | [] => Ret (Ok tt, s)
  | x :: l' =>
      '(r, s') ← f x s;
      match r with
      | Ok _ => try_each l' f s'
      | Err e => Ret (Err e, s')
      end
  end.

Lemma try_each_prefix {A S E} (P : list A -> S -> Prop) (l : list A)
  (f : A -> S -> outcome (result unit E * S)) s :
  P [] s ->
  (forall done x rest s, l = done ++ x :: rest -> P done s ->
     exists s', f x s = Ret (Ok tt, s') /\ P (done ++ [x]) s') ->
  exists s', try_each l f s = Ret (Ok tt, s') /\ P l s'.
Proof.
  intros H0 Hstep.
  assert (forall rest pre s, l = pre ++ rest -> P pre s ->
            exists s', try_each rest f s = Ret (Ok tt, s') /\ P l s') as Hgen.
  { intros rest; induction rest as [|x rest IH]; intros pre s1 -> Hpre.
    - rewrite app_nil_r in *. by exists s1.
    - destruct (Hstep pre x rest s1) as (s2 & E2 & H2); [done|done|].
      destruct (IH (pre ++ [x]) s2) as (s3 & E3 & H3).
      + by rewrite <- app_assoc.
      + done.
      + exists s3. split; [|done]. simpl. by rewrite E2. }
  by apply (Hgen l []).
Qed.

Lemma StronglySorted_lt_NoDup (l : list Z) : StronglySorted Z.lt l -> NoDup l.
Proof.
  induction 1 as [|x l Hl IH Hx]; constructor; [|done].
  intros Hin. rewrite Forall_forall in Hx. specialize (Hx x Hin). lia.
Qed.

(** ** [alloc::collections::BTreeMap]

    A [BTreeMap] with integer keys is a [gmap]; iteration visits the entries
    in ascending key order. *)
Definition key_le {V} (x y : Z * V) : Prop := x.1 <= y.1.

#[global] Instance key_le_dec {V} : RelDecision (@key_le V).
Proof. intros x y. unfold key_le. apply _. Defined.

#[global] Instance key_le_total {V} : Total (@key_le V).
Proof. intros x y. unfold key_le. lia. Qed.

Definition btree_iter {V} (m : gmap Z V) : list (Z * V) := merge_sort key_le (map_to_list m).

Lemma btree_iter_perm {V} (m : gmap Z V) : btree_iter m ≡ₚ map_to_list m.
Proof. apply merge_sort_Permutation. Qed.

Lemma elem_of_btree_iter {V} (m : gmap Z V) k v : (k, v) ∈ btree_iter m <-> m !! k = Some v.
Proof. rewrite btree_iter_perm. apply elem_of_map_to_list. Qed.

Lemma NoDup_btree_iter {V} (m : gmap Z V) : NoDup (btree_iter m).*1.
Proof. rewrite btree_iter_perm. apply NoDup_fst_map_to_list. Qed.

Lemma length_btree_iter {V} (m : gmap Z V) : length (btree_iter m) = size m.
Proof. by rewrite btree_iter_perm, length_map_to_list. Qed.
