(* ===== verification/Fmt.v ===== *)
(** * Text ([core::fmt], [core::str])

    What the kernel uses of the formatting machinery of the standard library:
    string literals, numbers in decimal and in upper-case hexadecimal, and the
    check that bytes are valid UTF-8.  Text is a list of bytes. *)
From S2P Require Import Prelude.
From Stdlib Require Import Ascii String.
Export StringSyntax.
#[local] Open Scope Z_scope.

Module Fmt.

(** The bytes of a literal. *)
Fixpoint str (s : String.string) : list Z :=
  match s with
  | String.EmptyString => []
  | String.String c s' => Z.of_N (Ascii.N_of_ascii c) :: str s'
  end.

Arguments str s%_string.

(** ** Numbers *)

(** The digits of [n] in base [b], most significant first. *)
Fixpoint digits (fuel : nat) (b n : Z) : list Z :=
  match fuel with
  | O => []
  | S fuel' => if n <? b then [n] else digits fuel' b (n / b) ++ [n mod b]
  end.

Definition digit_char (d : Z) : Z := if d <? 10 then 48 + d else 55 + d.

(** [{}] and [{:X}] of a [u64]; 64 digits are enough in any base. *)
Definition decimal (n : Z) : list Z := map digit_char (digits 64 10 n).
Definition upper_hex (n : Z) : list Z := map digit_char (digits 64 16 n).

(** ** UTF-8 *)

Definition continuation (b : Z) : bool := (128 <=? b) && (b <=? 191).
Definition between (lo hi b : Z) : bool := (lo <=? b) && (b <=? hi).

(** The second byte a first byte of a three- or four-byte sequence allows:
    overlong forms, surrogates and code points past U+10FFFF are excluded. *)
Definition second_of_three (a b : Z) : bool :=
  if a =? 0xE0 then between 0xA0 0xBF b
  else if a =? 0xED then between 0x80 0x9F b
  else between 0xE1 0xEF a && continuation b.
Definition second_of_four (a b : Z) : bool :=
  if a =? 0xF0 then between 0x90 0xBF b
  else if a =? 0xF4 then between 0x80 0x8F b
  else between 0xF1 0xF3 a && continuation b.

(** [core::str::from_utf8(bytes).is_ok()]. *)
Fixpoint valid_utf8 (l : list Z) : bool :=
  match l with
  | [] => true
  | a :: l1 =>
      if between 0 127 a then valid_utf8 l1 else
      match l1 with
      | [] => false
      | b :: l2 =>
          if between 0xC2 0xDF a then continuation b && valid_utf8 l2 else
          match l2 with
          | [] => false
          | c :: l3 =>
              if second_of_three a b then continuation c && valid_utf8 l3 else
              match l3 with
              | [] => false
              | d :: l4 => second_of_four a b && continuation c && continuation d && valid_utf8 l4
              end
          end
      end
  end.

(** [from_utf8(bytes)]: the string has the same bytes. *)
Definition from_utf8 (l : list Z) : result (list Z) unit := if valid_utf8 l then Ok l else Err tt.

(** ** Lemmas *)

(** The number digits stand for. *)
Definition value (b : Z) (ds : list Z) : Z := foldl (fun acc d => acc * b + d) 0 ds.

Lemma value_snoc b ds d : value b (ds ++ [d]) = value b ds * b + d.
Proof. unfold value. by rewrite foldl_app. Qed.

Lemma digits_value fuel b n :
  2 <= b -> 0 <= n < b ^ Z.of_nat fuel -> (0 < fuel)%nat -> value b (digits fuel b n) = n.
Proof.
  intros Hb. revert n. induction fuel as [|fuel IH]; intros n Hn Hf; [lia|]. cbn [digits].
  destruct (Z.ltb_spec n b); [unfold value; simpl; lia|].
  assert (0 < fuel)%nat.
  { destruct fuel; [|lia]. change (Z.of_nat 1) with 1 in Hn. rewrite Z.pow_1_r in Hn. lia. }
  rewrite value_snoc, IH; [|split; [apply Z.div_pos; lia|]|done].
  - pose proof (Z.div_mod n b). lia.
  - apply Z.div_lt_upper_bound; [lia|]. rewrite Nat2Z.inj_succ, Z.pow_succ_r in Hn; lia.
Qed.

(** Decimal numbers are made of digits only. *)
Lemma digits_range fuel b n : 2 <= b -> 0 <= n -> Forall (fun d => 0 <= d < b) (digits fuel b n).
Proof.
  intros Hb. revert n. induction fuel as [|fuel IH]; intros n Hn; [constructor|]. cbn [digits].
  destruct (Z.ltb_spec n b); [repeat constructor; lia|]. apply Forall_app. split.
  - apply IH, Z.div_pos; lia.
  - repeat constructor; apply Z.mod_pos_bound; lia.
Qed.

Lemma decimal_chars n : 0 <= n -> Forall (fun c => 48 <= c <= 57) (decimal n).
Proof.
  intros Hn. unfold decimal. apply Forall_map. eapply Forall_impl; [by apply (digits_range 64 10)|].
  intros d Hd. simpl in Hd. unfold compose, digit_char. destruct (Z.ltb_spec d 10); lia.
Qed.

(** Text in the ASCII range is valid UTF-8. *)
Lemma ascii_valid l : Forall (fun b => 0 <= b <= 127) l -> valid_utf8 l = true.
Proof.
  induction 1 as [|b l Hb Hl IH]; [done|]. simpl. unfold between.
  destruct (Z.leb_spec 0 b), (Z.leb_spec b 127); simpl; try lia. done.
Qed.

Example utf8_samples :
  valid_utf8 [0xC3; 0xA9] = true /\ valid_utf8 [0xC0; 0x80] = false /\ valid_utf8 [0xED; 0xA0; 0x80] = false /\
  valid_utf8 [0xF0; 0x9F; 0x98; 0x80] = true /\ valid_utf8 [0xE2; 0x82] = false.
Proof. done. Qed.

Example decimal_120 : decimal 120 = str "120" /\ upper_hex 48879 = str "BEEF".
Proof. done. Qed.

End Fmt.
