(* ===== verification/Layout.v ===== *)
(** * The layout of structures

    [#[repr(C)]] as the language defines it: the fields in order, each at the
    next multiple of its alignment.  The system call assembly and the embedded
    program rely on it. *)
From S2P Require Import Prelude.

Module Layout.

Record layout : Set := mkLayout { size : Z; align : Z }.

Definition round_up (n a : Z) : Z := (n + a - 1) / a * a.

Fixpoint offsets (from : Z) (fields : list layout) : list Z :=
  match fields with
  | [] => []
  | f :: rest => round_up from (align f) :: offsets (round_up from (align f) + size f) rest
  end.

(** [offset_of!] of a field by its position. *)
Definition offset_of (fields : list layout) (i : nat) : Z := default 0 (offsets 0 fields !! i).

Definition struct_align (fields : list layout) : Z := foldr Z.max 1 (align <$> fields).

(** [[T; 0]] has no size but the alignment of its elements. *)
Definition zero_array (l : layout) : layout := mkLayout 0 (align l).

End Layout.
