(* ===== verification/Platform.v ===== *)
(** * Interfaces of the crates the kernel calls

    Code outside the repository (the [x86_64], [spin], [bootloader],
    [object], [crossbeam-queue], [futures-util] and [conquer-once] crates) is
    a parameter of the model.  Each crate is a class of operations, the
    argument of every definition that calls it, and a class of laws, which
    state the documented behaviour the kernel relies on.  [RefPlatform]
    gives one executable instance of each, so that no law is vacuous. *)
From S2P Require Import Prelude.

(** ** [x86_64::instructions::interrupts] and [spin::Mutex] *)

(** [cpu] is the part of the processor state that holds the interrupt flag.
    [without_interrupts get put f] runs [f] on a larger state [S] whose [cpu]
    component is accessed with [get] and [put]. *)
Class InterruptsApi := {
  cpu : Type;
  are_enabled : cpu -> bool;
  interrupts_enable : cpu -> cpu;
  interrupts_disable : cpu -> cpu;
  interrupts_enable_and_hlt : cpu -> cpu;
  instructions_hlt : cpu -> cpu;
  x86_without_interrupts {S A : Type} (get : S -> cpu) (put : cpu -> S -> S)
    (f : S -> outcome A * S) : S -> outcome A * S
}.

Class InterruptsLaws `{InterruptsApi} : Prop := {
  enable_sets : forall c, are_enabled (interrupts_enable c) = true;
  disable_clears : forall c, are_enabled (interrupts_disable c) = false;
  enable_and_hlt_sets : forall c, are_enabled (interrupts_enable_and_hlt c) = true;
  hlt_keeps : forall c, are_enabled (instructions_hlt c) = are_enabled c;
  without_interrupts_run : forall S A get put (f : S -> outcome A * S) s,
    x86_without_interrupts get put f s =
    if are_enabled (get s) then
      match f (put (interrupts_disable (get s)) s) with
      | (Ret a, s') => (Ret a, put (interrupts_enable (get s')) s')
      | (Stop r, s') => (Stop r, s')
      end
    else f s
}.

(** [with_lock f m] is [{ let mut g = m.lock(); f(&mut g) }]: the guard is
    dropped when [f] returns.  On the kernel's one core a lock that is held is
    never released while its next taker spins. *)
Class MutexApi := {
  mutex : Type -> Type;
  mutex_new {A : Type} : A -> mutex A;
  is_locked {A : Type} : mutex A -> bool;
  contents {A : Type} : mutex A -> A;
  with_lock {A B : Type} (f : A -> outcome B * A) : mutex A -> outcome B * mutex A
}.

Class MutexLaws `{MutexApi} : Prop := {
  new_unlocked : forall A (a : A), is_locked (mutex_new a) = false;
  new_contents : forall A (a : A), contents (mutex_new a) = a;
  with_lock_free : forall A B (f : A -> outcome B * A) (m : mutex A),
    is_locked m = false ->
    (with_lock f m).1 = (f (contents m)).1 /\
    contents (with_lock f m).2 = (f (contents m)).2 /\
    (is_ret (f (contents m)).1 -> is_locked (with_lock f m).2 = false);
  with_lock_held : forall A B (f : A -> outcome B * A) (m : mutex A),
    is_locked m = true -> with_lock f m = (Stop Deadlock, m)
}.

(** ** [x86_64::{VirtAddr, PhysAddr}] and [x86_64::structures::paging]

    A [VirtAddr] is represented by its [as_u64()], a [Page<Size4KiB>] and a
    [PhysFrame] by the [as_u64()] of their start addresses. *)

Definition PAGE_SIZE : Z := 4096.

(** Canonical addresses of the 48-bit virtual address space. *)
Definition canonical (a : Z) : Prop :=
  0 <= a < 2 ^ 47 \/ u64_modulus - 2 ^ 47 <= a < u64_modulus.

#[global] Instance canonical_dec a : Decision (canonical a).
Proof. unfold canonical. apply _. Defined.

(** The documented effect of [VirtAddr::try_new]: bit 47 is sign extended;
    bits 48 to 64 must be a sign extension already, or all null. *)
Definition sign_extended (a : Z) : option Z :=
  if decide (canonical a) then Some a
  else if (2 ^ 47 <=? a) && (a <? 2 ^ 48) then Some (a + (u64_modulus - 2 ^ 48))
  else None.

Definition align_down (a : Z) : Z := a - a mod PAGE_SIZE.

(** Start addresses of 4 KiB pages and frames. *)
Definition is_frame (f : Z) : Prop := 0 <= f < 2 ^ 52 /\ f mod PAGE_SIZE = 0.
Definition is_page (p : Z) : Prop := canonical p /\ p mod PAGE_SIZE = 0.

Class AddrApi := {
  VirtAddr_try_new : Z -> option Z;
  VirtAddr_new : Z -> outcome Z;
  VirtAddr_add : Z -> Z -> outcome Z;
  VirtAddr_sub : Z -> Z -> outcome Z;
  PhysAddr_new : Z -> outcome Z;
  Page_containing_address : Z -> Z;
  Page_range : Z -> Z -> list Z;
  Page_range_inclusive : Z -> Z -> list Z;
  PhysFrame_containing_address : Z -> Z
}.

Class AddrLaws `{AddrApi} : Prop := {
  try_new_spec : forall a, is_u64 a -> VirtAddr_try_new a = sign_extended a;
  new_spec : forall a, is_u64 a ->
    VirtAddr_new a = match sign_extended a with Some b => Ret b | None => Stop NonCanonical end;
  add_spec : forall a n, canonical a -> 0 <= n -> is_u64 (a + n) ->
    VirtAddr_add a n = VirtAddr_new (a + n);
  sub_spec : forall a n, canonical a -> 0 <= n -> is_u64 (a - n) ->
    VirtAddr_sub a n = VirtAddr_new (a - n);
  phys_new_spec : forall a, 0 <= a < 2 ^ 52 -> PhysAddr_new a = Ret a;
  page_containing_spec : forall a, canonical a -> Page_containing_address a = align_down a;
  frame_containing_spec : forall a, 0 <= a < 2 ^ 52 ->
    PhysFrame_containing_address a = align_down a;
  page_range_elem : forall lo hi p, is_page lo -> is_page hi ->
    p ∈ Page_range lo hi <-> is_page p /\ lo <= p < hi;
  page_range_sorted : forall lo hi, is_page lo -> is_page hi ->
    StronglySorted Z.lt (Page_range lo hi);
  page_range_inclusive_elem : forall lo hi p, is_page lo -> is_page hi ->
    p ∈ Page_range_inclusive lo hi <-> is_page p /\ lo <= p <= hi;
  page_range_inclusive_sorted : forall lo hi, is_page lo -> is_page hi ->
    StronglySorted Z.lt (Page_range_inclusive lo hi)
}.

(** [PageTableFlags]: a set of bits of a [u64]; the crate says which. *)
Class FlagBits := {
  PRESENT_bit : Z;
  WRITABLE_bit : Z;
  USER_ACCESSIBLE_bit : Z;
  NO_EXECUTE_bit : Z
}.

Class FlagLaws `{FlagBits} : Prop := {
  flag_bits_distinct : NoDup [PRESENT_bit; WRITABLE_bit; USER_ACCESSIBLE_bit; NO_EXECUTE_bit];
  flag_bits_range : Forall (fun b => 0 <= b < 64)
    [PRESENT_bit; WRITABLE_bit; USER_ACCESSIBLE_bit; NO_EXECUTE_bit]
}.

Section Flags.
Context `{FlagBits}.

Definition PRESENT : Z := 2 ^ PRESENT_bit.
Definition WRITABLE : Z := 2 ^ WRITABLE_bit.
Definition USER_ACCESSIBLE : Z := 2 ^ USER_ACCESSIBLE_bit.
Definition NO_EXECUTE : Z := 2 ^ NO_EXECUTE_bit.

End Flags.

(** The [bitflags] operations [|], [contains] and [set]. *)
Definition flags_union (f g : Z) : Z := Z.lor f g.
Definition flags_contains (f g : Z) : bool := Z.land f g =? g.
Definition flags_set (f g : Z) (value : bool) : Z :=
  if value then Z.lor f g else Z.ldiff f g.

(** [trait FrameAllocator<Size4KiB>]. *)
Class FrameAllocator (FA : Type) := {
  allocate_frame : FA -> outcome (option Z * FA)
}.

(** What a frame allocator promises its clients: it hands out a stream of
    distinct, aligned frames until the stream ends.  [free] is the rest of
    the stream. *)
Class FrameSource (FA : Type) `{FrameAllocator FA} := {
  source_ok : FA -> Prop;
  free : FA -> list Z;
  free_nodup : forall s, source_ok s -> NoDup (free s);
  free_aligned : forall s, source_ok s ->
    Forall is_frame (free s);
  allocate_pops : forall s f fs, source_ok s -> free s = f :: fs ->
    exists s', allocate_frame s = Ret (Some f, s') /\ source_ok s' /\ free s' = fs;
  allocate_empty : forall s, source_ok s -> free s = [] ->
    exists s', allocate_frame s = Ret (None, s')
}.

Inductive TranslateResult : Set :=
  | Mapped (frame offset flags : Z)
  | NotMapped
  | InvalidFrameAddress (addr : Z).

Inductive MapToError : Set :=
  | FrameAllocationFailed
  | ParentEntryHugePage
  | PageAlreadyMapped (frame : Z).

Inductive FlagUpdateError : Set :=
  | PageNotMapped
  | FlagParentEntryHugePage.

(** [Mapper<Size4KiB>] and [Translate] of the page table [PT].  The TLB flush
    that follows a change is not modelled: [translate] walks the table. *)
Class Mapper (PT : Type) := {
  map_to {FA : Type} `{FrameAllocator FA} (page frame flags : Z) (pt : PT) (fa : FA)
    : outcome (result unit MapToError * PT * FA);
  update_flags (page flags : Z) (pt : PT) : result unit FlagUpdateError * PT;
  translate (pt : PT) (addr : Z) : TranslateResult
}.

(** A page-table walk creates at most three tables. *)
Definition TABLES : nat := 3.

(** [plain pt p]: page [p] can be mapped, no huge page is in the way. *)
Class MapperLaws (PT : Type) `{Mapper PT} `{FlagBits} : Type := {
  plain : PT -> Z -> Prop;
  map_to_ok : forall FA `{FrameSource FA} page frame flags pt (fa : FA),
    source_ok fa -> is_page page -> is_frame frame ->
    flags_contains flags PRESENT = true -> plain pt page -> translate pt page = NotMapped -> (TABLES <= length (free fa))%nat ->
    exists pt' fa' n, map_to page frame flags pt fa = Ret (Ok tt, pt', fa') /\
      source_ok fa' /\ (n <= TABLES)%nat /\ free fa' = drop n (free fa) /\
      (forall p, plain pt p -> plain pt' p) /\
      (forall a, canonical a -> translate pt' a =
         if decide (align_down a = page) then Mapped frame (a - page) flags
         else translate pt a);
  map_to_mapped : forall FA `{FrameSource FA} page frame flags pt (fa : FA) f o g,
    source_ok fa -> is_page page -> translate pt page = Mapped f o g ->
    exists e pt' fa' n, map_to page frame flags pt fa = Ret (Err e, pt', fa') /\
      source_ok fa' /\ (n <= TABLES)%nat /\ free fa' = drop n (free fa) /\
      (forall p, plain pt p -> plain pt' p) /\
      (forall a, canonical a -> translate pt' a = translate pt a);
  update_flags_ok : forall page flags pt f o g,
    is_page page -> flags_contains flags PRESENT = true ->
    translate pt page = Mapped f o g -> plain pt page ->
    exists pt', update_flags page flags pt = (Ok tt, pt') /\
      (forall p, plain pt p -> plain pt' p) /\
      (forall a, canonical a -> translate pt' a =
         if decide (align_down a = page) then Mapped f (a - page) flags
         else translate pt a);
  translate_in_page : forall pt a, canonical a ->
    translate pt a = match translate pt (align_down a) with
                     | Mapped f o g => Mapped f (o + (a - align_down a)) g
                     | r => r
                     end
}.

(** ** [bootloader::bootinfo] *)
Class BootInfoApi := {
  MemoryRegion : Type;
  region_is_usable : MemoryRegion -> bool;
  range_start_addr : MemoryRegion -> Z;
  range_end_addr : MemoryRegion -> Z
}.

(** Regions are ranges of whole frames. *)
Class BootInfoLaws `{BootInfoApi} : Prop := {
  range_aligned : forall r, range_start_addr r mod PAGE_SIZE = 0 /\ range_end_addr r mod PAGE_SIZE = 0
}.

(** ** [object::elf] and [object::read::elf] *)

(** A program header, read through its accessors as little-endian [u32] and
    [u64] values. *)
Record ProgramHeader64 : Set := mkPhdr {
  p_type : Z;
  p_flags : Z;
  p_offset : Z;
  p_vaddr : Z;
  p_filesz : Z;
  p_memsz : Z;
  p_align : Z
}.

Class ElfApi := {
  FileHeader64 : Type;
  FileHeader64_parse : list Z -> result FileHeader64 unit;
  program_headers : FileHeader64 -> list Z -> result (list ProgramHeader64) unit;
  e_entry : FileHeader64 -> Z
}.

(** The constants of the ELF format the loader names. *)
Class ElfConsts := {
  PT_NULL : Z; PT_LOAD : Z; PT_DYNAMIC : Z; PT_INTERP : Z; PT_NOTE : Z;
  PT_SHLIB : Z; PT_PHDR : Z; PT_TLS : Z; PT_LOOS : Z; PT_GNU_EH_FRAME : Z;
  PT_GNU_STACK : Z; PT_GNU_RELRO : Z; PT_HIOS : Z; PT_LOPROC : Z; PT_HIPROC : Z;
  PF_X_bit : Z; PF_W_bit : Z; PF_R_bit : Z
}.

(** The segment types are distinct (the enum in [types.rs] would not compile
    otherwise), and so are the permission bits. *)
Class ElfConstsLaws `{ElfConsts} : Prop := {
  segment_types_distinct : NoDup
    [PT_NULL; PT_LOAD; PT_DYNAMIC; PT_INTERP; PT_NOTE; PT_SHLIB; PT_PHDR; PT_TLS; PT_LOOS;
     PT_GNU_EH_FRAME; PT_GNU_STACK; PT_GNU_RELRO; PT_HIOS; PT_LOPROC; PT_HIPROC];
  permission_bits_distinct : NoDup [PF_X_bit; PF_W_bit; PF_R_bit];
  permission_bits_range : Forall (fun b => 0 <= b < 32) [PF_X_bit; PF_W_bit; PF_R_bit]
}.

Definition PF_X `{ElfConsts} : Z := 2 ^ PF_X_bit.
Definition PF_W `{ElfConsts} : Z := 2 ^ PF_W_bit.
Definition PF_R `{ElfConsts} : Z := 2 ^ PF_R_bit.

(** ** [crossbeam_queue::ArrayQueue], [futures_util::task::AtomicWaker] and
    [conquer_once::spin::OnceCell]

    [elements] is the contents of a queue, oldest first. *)
Class ArrayQueueApi := {
  ArrayQueue : Type -> Type;
  queue_new {A : Type} : nat -> ArrayQueue A;
  queue_push {A : Type} : A -> ArrayQueue A -> result unit A * ArrayQueue A;
  queue_pop {A : Type} : ArrayQueue A -> option A * ArrayQueue A;
  queue_is_empty {A : Type} : ArrayQueue A -> bool;
  capacity {A : Type} : ArrayQueue A -> nat;
  elements {A : Type} : ArrayQueue A -> list A
}.

(** A bounded FIFO queue; a push into a full queue gives the value back. *)
Class ArrayQueueLaws `{ArrayQueueApi} : Prop := {
  new_elements : forall A n, elements (queue_new (A := A) n) = [];
  new_capacity : forall A n, capacity (queue_new (A := A) n) = n;
  push_room : forall A (a : A) q, (length (elements q) < capacity q)%nat ->
    exists q', queue_push a q = (Ok tt, q') /\ elements q' = elements q ++ [a] /\ capacity q' = capacity q;
  push_full : forall A (a : A) q, (capacity q <= length (elements q))%nat ->
    exists q', queue_push a q = (Err a, q') /\ elements q' = elements q /\ capacity q' = capacity q;
  pop_some : forall A (q : ArrayQueue A) a l, elements q = a :: l ->
    exists q', queue_pop q = (Some a, q') /\ elements q' = l /\ capacity q' = capacity q;
  pop_none : forall A (q : ArrayQueue A), elements q = [] ->
    exists q', queue_pop q = (None, q') /\ elements q' = [] /\ capacity q' = capacity q;
  is_empty_spec : forall A (q : ArrayQueue A), queue_is_empty q = true <-> elements q = []
}.

(** A cell for one waker.  [waker_take] is also the first half of
    [AtomicWaker::wake], which then wakes what it took. *)
Class AtomicWakerApi := {
  AtomicWaker : Type -> Type;
  atomic_waker_new {W : Type} : AtomicWaker W;
  waker_register {W : Type} : W -> AtomicWaker W -> AtomicWaker W;
  waker_take {W : Type} : AtomicWaker W -> option W * AtomicWaker W
}.

Class AtomicWakerLaws `{AtomicWakerApi} : Prop := {
  take_new : forall W, (waker_take (W := W) atomic_waker_new).1 = None;
  take_registered : forall W (w : W) c, (waker_take (waker_register w c)).1 = Some w;
  take_taken : forall W (c : AtomicWaker W), (waker_take (waker_take c).2).1 = None
}.

Class OnceCellApi := {
  OnceCell : Type -> Type;
  cell_uninit {A : Type} : OnceCell A;
  try_init_once {A : Type} : (unit -> A) -> OnceCell A -> OnceCell A;
  try_get {A : Type} : OnceCell A -> option A;
  (** The cell with its contents changed through a shared reference. *)
  cell_update {A : Type} : (A -> A) -> OnceCell A -> OnceCell A
}.

Class OnceCellLaws `{OnceCellApi} : Prop := {
  get_uninit : forall A, try_get (cell_uninit (A := A)) = None;
  get_init : forall A (f : unit -> A) c, try_get (try_init_once f c) =
    match try_get c with Some a => Some a | None => Some (f tt) end;
  get_update : forall A (f : A -> A) c, try_get (cell_update f c) = f <$> try_get c
}.
