(* ===== verification/RefPlatform.v ===== *)
(** * Reference instances of the crate interfaces

    One executable instance for each class of [Platform], with its laws.
    The theorems of the library hold for every instance; these are the
    concrete inputs at which they are evaluated. *)
From S2P Require Import Prelude Platform.

Module Ref.

(** ** Interrupts and spin locks *)

(** The interrupt flag alone. *)
Definition interrupts : InterruptsApi := {|
  cpu := bool;
  are_enabled := fun c => c;
  interrupts_enable := fun _ => true;
  interrupts_disable := fun _ => false;
  interrupts_enable_and_hlt := fun _ => true;
  instructions_hlt := fun c => c;
  x86_without_interrupts := fun S A get put f s =>
    if get s then
      match f (put false s) with
      | (Ret a, s') => (Ret a, put true s')
      | (Stop r, s') => (Stop r, s')
      end
    else f s
|}.

Lemma interrupts_laws : @InterruptsLaws interrupts.
Proof. by split. Qed.

Definition spin_lock {A B : Type} (f : A -> outcome B * A) (m : bool * A)
  : outcome B * (bool * A) :=
  if m.1 then (Stop Deadlock, m)
  else match f m.2 with
       | (Ret b, a) => (Ret b, (false, a))
       | (Stop s, a) => (Stop s, (true, a))
       end.

(** A lock word and the protected value; locking a held lock spins. *)
Definition mutexes : MutexApi := {|
  mutex := fun A => (bool * A)%type;
  mutex_new := fun A a => (false, a);
  is_locked := fun A m => m.1;
  contents := fun A m => m.2;
  with_lock := fun A B f m => spin_lock f m
|}.

Lemma mutexes_laws : @MutexLaws mutexes.
Proof.
  split; [done|done| |]; intros A B f [l a]; simpl; intros ->; unfold spin_lock; simpl; [|done].
  destruct (f a) as [[b|s] a']; simpl; (split; [done|split; [done|]]); [done|].
  by intros [? ?].
Qed.

(** ** Addresses and pages *)

Definition virt_new (a : Z) : outcome Z :=
  match sign_extended a with Some b => Ret b | None => Stop NonCanonical end.

(** The pages from [lo] on, [n] page sizes long. *)
Definition pages_from (lo n : Z) : list Z :=
  base.filter canonical ((fun i => lo + PAGE_SIZE * i) <$> seqZ 0 n).

Definition addresses : AddrApi := {|
  VirtAddr_try_new := sign_extended;
  VirtAddr_new := virt_new;
  VirtAddr_add := fun a n => if a + n <? u64_modulus then virt_new (a + n) else Stop Overflow;
  VirtAddr_sub := fun a n => if n <=? a then virt_new (a - n) else Stop Overflow;
  PhysAddr_new := fun a => if a <? 2 ^ 52 then Ret a else Stop CratePanic;
  Page_containing_address := align_down;
  Page_range := fun lo hi => pages_from lo ((hi - lo) / PAGE_SIZE);
  Page_range_inclusive := fun lo hi => pages_from lo ((hi - lo) / PAGE_SIZE + 1);
  PhysFrame_containing_address := align_down
|}.

Lemma elem_of_pages_from lo n p :
  lo mod PAGE_SIZE = 0 ->
  p ∈ pages_from lo n <-> is_page p /\ lo <= p < lo + PAGE_SIZE * n.
Proof.
  intros Hlo. unfold pages_from, is_page, PAGE_SIZE in *.
  rewrite list_elem_of_filter, list_elem_of_fmap. setoid_rewrite elem_of_seqZ. split.
  - intros [Hc (i & -> & Hi)]. split_and!; [done| |lia|lia].
    by rewrite Z.mul_comm, Z_mod_plus_full.
  - intros [[Hc Hm] Hp]. split; [done|]. exists ((p - lo) / 4096).
    assert ((p - lo) mod 4096 = 0) as Hd by (by rewrite Zminus_mod, Hm, Hlo).
    apply Z.div_exact in Hd; lia.
Qed.

Lemma pages_from_sorted lo n : StronglySorted Z.lt (pages_from lo n).
Proof.
  apply StronglySorted_base_filter, StronglySorted_seqZ. unfold PAGE_SIZE. lia.
Qed.

Lemma addresses_laws : @AddrLaws addresses.
Proof.
  split; simpl; try done.
  - intros a n _ Hn [_ Hlt]. by destruct (Z.ltb_spec (a + n) u64_modulus); [|lia].
  - intros a n _ Hn [Hge _]. by destruct (Z.leb_spec n a); [|lia].
  - intros a Ha. by destruct (Z.ltb_spec a (2 ^ 52)); [|lia].
  - intros lo hi p [_ Hlo] [_ Hhi]. rewrite elem_of_pages_from by done.
    assert ((hi - lo) mod PAGE_SIZE = 0) as Hd by (by rewrite Zminus_mod, Hlo, Hhi).
    unfold PAGE_SIZE in *. apply Z.div_exact in Hd; [|lia]. split; intros [? ?]; split; done || lia.
  - intros. apply pages_from_sorted.
  - intros lo hi p [_ Hlo] [_ Hhi]. rewrite elem_of_pages_from by done.
    assert ((hi - lo) mod PAGE_SIZE = 0) as Hd by (by rewrite Zminus_mod, Hlo, Hhi).
    split; intros [Hp ?]; (split; [done|]); destruct Hp as [_ Hp]; unfold PAGE_SIZE in *;
      apply Z.div_exact in Hd, Hp, Hlo; lia.
  - intros. apply pages_from_sorted.
Qed.

(** The bits the processor gives the four flags. *)
Definition flag_bits : FlagBits := {|
  PRESENT_bit := 0; WRITABLE_bit := 1; USER_ACCESSIBLE_bit := 2; NO_EXECUTE_bit := 63
|}.

Lemma flag_bits_laws : @FlagLaws flag_bits.
Proof.
  split.
  - apply (bool_decide_unpack _). vm_compute. done.
  - repeat constructor; simpl; lia.
Qed.

(** ** A page table *)

(** Leaf entries by page, and the 2 MiB regions that have a last-level
    table; mapping into a new region takes one frame for its table. *)
Record page_table : Type := mkTable {
  leaves : gmap Z (Z * Z);
  tables : gset Z
}.

Definition empty_table : page_table := mkTable ∅ ∅.

Definition table_translate (pt : page_table) (a : Z) : TranslateResult :=
  match leaves pt !! align_down a with
  | Some (f, fl) => Mapped f (a - align_down a) fl
  | None => NotMapped
  end.

Definition table_map {FA : Type} `{FrameAllocator FA} (page frame flags : Z)
  (pt : page_table) (fa : FA) : outcome (result unit MapToError * page_table * FA) :=
  match leaves pt !! page with
  | Some (f, _) => Ret (Err (PageAlreadyMapped f), pt, fa)
  | None =>
      let region := page / 2 ^ 21 in
      if decide (region ∈ tables pt) then
        Ret (Ok tt, mkTable (<[page := (frame, flags)]> (leaves pt)) (tables pt), fa)
      else
        '(o, fa) ← allocate_frame fa;
        Ret (match o with
             | None => (Err FrameAllocationFailed, pt, fa)
             | Some _ => (Ok tt, mkTable (<[page := (frame, flags)]> (leaves pt))
                                         ({[region]} ∪ tables pt), fa)
             end)
  end.

Definition table_update (page flags : Z) (pt : page_table)
  : result unit FlagUpdateError * page_table :=
  match leaves pt !! page with
  | None => (Err PageNotMapped, pt)
  | Some (f, _) => (Ok tt, mkTable (<[page := (f, flags)]> (leaves pt)) (tables pt))
  end.

Definition mapper : Mapper page_table := {|
  map_to := fun FA _ => table_map;
  update_flags := table_update;
  translate := table_translate
|}.

(** The effect of an inserted leaf on translation. *)
Lemma table_translate_insert page frame flags lv tb a :
  table_translate (mkTable (<[page := (frame, flags)]> lv) tb) a =
  if decide (align_down a = page) then Mapped frame (a - page) flags
  else table_translate (mkTable lv tb) a.
Proof.
  unfold table_translate. simpl. rewrite lookup_insert.
  destruct (decide (page = align_down a)) as [->|Hne].
  - by rewrite decide_True.
  - by rewrite decide_False.
Qed.

Lemma table_translate_page pt page :
  is_page page -> table_translate pt page =
  match leaves pt !! page with Some (f, fl) => Mapped f 0 fl | None => NotMapped end.
Proof.
  intros [_ Hp]. unfold table_translate, align_down. rewrite Hp, Z.sub_0_r, Z.sub_diag. done.
Qed.

#[program] Definition mapper_laws (FB : FlagBits) : @MapperLaws page_table mapper FB :=
  {| plain := fun _ _ => True |}.
Next Obligation.
  intros FB FA ? ? page frame flags pt fa Hok Hpage Hfr _ _ Hnm Hlen. simpl in *.
  rewrite table_translate_page in Hnm by done. unfold table_map.
  destruct (leaves pt !! page) as [[f fl]|]; [done|]. case_decide as Hreg.
  - eexists _, fa, 0%nat. split_and!; [done|done|lia|done|done|].
    intros a _. by rewrite table_translate_insert.
  - destruct (free fa) as [|f fs] eqn:Ef; [simpl in Hlen; unfold TABLES in Hlen; lia|].
    destruct (allocate_pops fa f fs Hok Ef) as (fa' & -> & Hok' & Ef'). simpl.
    eexists _, fa', 1%nat. split_and!; [done|done|unfold TABLES; lia|done|done|].
    intros a _. by rewrite table_translate_insert.
Qed.
Next Obligation.
  intros FB FA ? ? page frame flags pt fa f o g Hok Hpage Hm. simpl in *.
  rewrite table_translate_page in Hm by done. unfold table_map.
  destruct (leaves pt !! page) as [[f' fl]|]; [|done].
  eexists _, pt, fa, 0%nat. split_and!; try done. lia.
Qed.
Next Obligation.
  intros FB page flags pt f o g Hpage _ Hm _. simpl in *.
  rewrite table_translate_page in Hm by done. unfold table_update.
  destruct (leaves pt !! page) as [[f' fl]|]; [|done]. injection Hm as -> _ _.
  eexists. split_and!; [done|done|]. intros a _. by rewrite table_translate_insert.
Qed.
Next Obligation.
  intros FB pt a Ha. simpl. unfold table_translate.
  assert (align_down (align_down a) = align_down a) as ->.
  { unfold align_down, PAGE_SIZE. rewrite Zminus_mod_idemp_r, Z.sub_diag, Z.mod_0_l by lia. lia. }
  destruct (leaves pt !! align_down a) as [[f fl]|]; [|done]. f_equal. lia.
Qed.

(** ** Memory map *)

(** A region as [(usable, first frame number, end frame number)]. *)
Definition boot_info : BootInfoApi := {|
  MemoryRegion := (bool * Z * Z)%type;
  region_is_usable := fun r => r.1.1;
  range_start_addr := fun r => r.1.2 * PAGE_SIZE;
  range_end_addr := fun r => r.2 * PAGE_SIZE
|}.

Lemma boot_info_laws : @BootInfoLaws boot_info.
Proof. split. intros [[u a] b]. split; apply Z_mod_mult. Qed.

(** ** ELF *)

(** The values of the System V ABI. *)
Definition elf_consts : ElfConsts := {|
  PT_NULL := 0; PT_LOAD := 1; PT_DYNAMIC := 2; PT_INTERP := 3; PT_NOTE := 4;
  PT_SHLIB := 5; PT_PHDR := 6; PT_TLS := 7; PT_LOOS := 0x60000000;
  PT_GNU_EH_FRAME := 0x6474e550; PT_GNU_STACK := 0x6474e551; PT_GNU_RELRO := 0x6474e552;
  PT_HIOS := 0x6fffffff; PT_LOPROC := 0x70000000; PT_HIPROC := 0x7fffffff;
  PF_X_bit := 0; PF_W_bit := 1; PF_R_bit := 2
|}.

Lemma elf_consts_laws : @ElfConstsLaws elf_consts.
Proof.
  split.
  - apply (bool_decide_unpack _). vm_compute. done.
  - apply (bool_decide_unpack _). vm_compute. done.
  - repeat constructor; simpl; lia.
Qed.

(** A file whose headers are given, whatever its bytes. *)
Definition elf_file (entry : Z) (phs : list ProgramHeader64) : ElfApi := {|
  FileHeader64 := unit;
  FileHeader64_parse := fun _ => Ok tt;
  program_headers := fun _ _ => Ok phs;
  e_entry := fun _ => entry
|}.

(** ** Queues, wakers and once-cells *)

(** A queue as its capacity and contents. *)
Definition array_queue : ArrayQueueApi := {|
  ArrayQueue := fun A => (nat * list A)%type;
  queue_new := fun A n => (n, []);
  queue_push := fun A a q =>
    if decide (length q.2 < q.1)%nat then (Ok tt, (q.1, q.2 ++ [a])) else (Err a, q);
  queue_pop := fun A q => match q.2 with [] => (None, q) | a :: l => (Some a, (q.1, l)) end;
  queue_is_empty := fun A q => match q.2 with [] => true | _ => false end;
  capacity := fun A q => q.1;
  elements := fun A q => q.2
|}.

Lemma array_queue_laws : @ArrayQueueLaws array_queue.
Proof.
  split; simpl; try done.
  - intros A a q Hq. rewrite decide_True by done. by eexists.
  - intros A a q Hq. rewrite decide_False by lia. by eexists.
  - intros A q a l ->. by eexists.
  - intros A q E. rewrite E. by eexists.
  - intros A q. by destruct q.2.
Qed.

Definition atomic_wakers : AtomicWakerApi := {|
  AtomicWaker := option;
  atomic_waker_new := fun W => None;
  waker_register := fun W w _ => Some w;
  waker_take := fun W c => (c, None)
|}.

Lemma atomic_wakers_laws : @AtomicWakerLaws atomic_wakers.
Proof. by split. Qed.

Definition once_cells : OnceCellApi := {|
  OnceCell := option;
  cell_uninit := fun A => None;
  try_init_once := fun A f c => match c with Some a => Some a | None => Some (f tt) end;
  try_get := fun A c => c;
  cell_update := fun A f c => f <$> c
|}.

Lemma once_cells_laws : @OnceCellLaws once_cells.
Proof. split; [done|..]; by intros A f [a|]. Qed.

End Ref.
