(* ===== verification/Sys.v ===== *)
(** * Interrupt control ([kernel/src/sys.rs])

    The wrappers every other part of the kernel goes through to disable,
    enable and wait for interrupts.  A caller's state [S] holds the processor
    state, read with [get] and replaced with [put]. *)
From S2P Require Import Prelude Platform.

Module Sys.

Section Operations.
Context `{InterruptsApi}.

Definition without_interrupts {S A : Type} (get : S -> cpu) (put : cpu -> S -> S)
  (f : S -> outcome A * S) (s : S) : outcome A * S :=
  x86_without_interrupts get put f s.

(** [f] runs with interrupts disabled; enabling and halting is one step, so
    no interrupt is taken between them. *)
Definition wait_for_interrupts_if {S : Type} (get : S -> cpu) (put : cpu -> S -> S)
  (f : S -> outcome bool * S) (s : S) : outcome unit * S :=
  let s := put (interrupts_disable (get s)) s in
  match f s with
  | (Ret true, s) => (Ret tt, put (interrupts_enable_and_hlt (get s)) s)
  | (Ret false, s) => (Ret tt, put (interrupts_enable (get s)) s)
  | (Stop r, s) => (Stop r, s)
  end.

Definition hlt (c : cpu) : cpu := instructions_hlt c.

Definition enable_interrupts (c : cpu) : cpu := interrupts_enable c.
Definition disable_interrupts (c : cpu) : cpu := interrupts_disable c.

(** [hlt_loop] never returns. *)
Definition hlt_loop {A : Type} (c : cpu) : outcome A * cpu := (Stop HltLoop, hlt c).

End Operations.

End Sys.
