(* ===== verification/VgaBuffer.v ===== *)
(** * The VGA text buffer ([kernel/src/vga_buffer.rs])

    [Writer] keeps a 25 x 80 screen and always writes on its bottom row;
    [new_line] scrolls.  The file models every operation of the module and
    proves that the screen refines an unbounded terminal: what is visible is
    the last 25 rows of everything ever printed. *)
From S2P Require Import Prelude Platform RefPlatform Sys.

Module Vga.

Inductive Color : Set :=
  | Black | Blue | Green | Cyan | Red | Magenta | Brown | LightGray
  | DarkGray | LightBlue | LightGreen | LightCyan | LightRed | Pink
  | Yellow | White.

#[export] Instance Color_eq_dec : EqDecision Color.
Proof. solve_decision. Defined.

(** [color as u8]. *)
Definition Color_as_u8 (c : Color) : Z :=
  match c with
  | Black => 0 | Blue => 1 | Green => 2 | Cyan => 3
  | Red => 4 | Magenta => 5 | Brown => 6 | LightGray => 7
  | DarkGray => 8 | LightBlue => 9 | LightGreen => 10 | LightCyan => 11
  | LightRed => 12 | Pink => 13 | Yellow => 14 | White => 15
  end.

(** [ColorCode::new]: [<<] on a [u8] drops the bits above the eighth. *)
Definition ColorCode_new (foreground background : Color) : Z :=
  Z.lor ((Z.shiftl (Color_as_u8 background) 4) mod 256) (Color_as_u8 foreground).

Record ScreenChar : Set := mkScreenChar {
  ascii_character : Z;
  char_color : Z
}.

#[export] Instance ScreenChar_eq_dec : EqDecision ScreenChar.
Proof. solve_decision. Defined.

Definition BUFFER_HEIGHT : nat := 25.
Definition BUFFER_WIDTH : nat := 80.

(** [chars: [[Volatile<ScreenChar>; BUFFER_WIDTH]; BUFFER_HEIGHT]]. *)
Abbreviation Buffer := (list (list ScreenChar)).

Record Writer : Set := mkWriter {
  column_position : nat;
  color_code : Z;
  buffer : Buffer
}.

(** [self.buffer.chars[row][col].read()] and [.write(c)]: both indices are
    bounds checked. *)
Definition chars_read (b : Buffer) (row col : nat) : outcome ScreenChar :=
  match b !! row ≫= fun r => r !! col with
  | Some c => Ret c
  | None => Stop OutOfBounds
  end.

Definition chars_write (b : Buffer) (row col : nat) (c : ScreenChar) : outcome Buffer :=
  match b !! row with
  | None => Stop OutOfBounds
  | Some r => match r !! col with
              | None => Stop OutOfBounds
              | Some _ => Ret (<[row := <[col := c]> r]> b)
              end
  end.

Definition set_buffer (b : Buffer) (w : Writer) : Writer :=
  mkWriter (column_position w) (color_code w) b.
Definition set_column (n : nat) (w : Writer) : Writer :=
  mkWriter n (color_code w) (buffer w).

Definition blank_of (w : Writer) : ScreenChar := mkScreenChar 32 (color_code w).

Definition clear_row (row : nat) (w : Writer) : outcome Writer :=
  let blank := blank_of w in
  for_each (range 0 BUFFER_WIDTH)
    (fun col w => b ← chars_write (buffer w) row col blank; mret (set_buffer b w)) w.

(** The body of the inner loop of [new_line]. *)
Definition copy_up (row col : nat) (w : Writer) : outcome Writer :=
  character ← chars_read (buffer w) row col;
  b ← chars_write (buffer w) (row - 1) col character;
  mret (set_buffer b w).

Definition new_line (w : Writer) : outcome Writer :=
  w ← for_each (range 1 BUFFER_HEIGHT)
        (fun row => for_each (range 0 BUFFER_WIDTH) (copy_up row)) w;
  w ← clear_row (BUFFER_HEIGHT - 1) w;
  mret (set_column 0 w).

Definition write_byte (byte : Z) (w : Writer) : outcome Writer :=
  if byte =? 10 then new_line w
  else
    w ← (if decide (BUFFER_WIDTH <= column_position w)%nat then new_line w else mret w);
    let row := (BUFFER_HEIGHT - 1)%nat in
    let col := column_position w in
    b ← chars_write (buffer w) row col (mkScreenChar byte (color_code w));
    mret (set_column (col + 1) (set_buffer b w)).

(** The byte [write_string] sends for a byte of the string. *)
Definition printable (byte : Z) : Z :=
  if ((32 <=? byte) && (byte <=? 126)) || (byte =? 10) then byte else 254.

Definition write_string (s : list Z) (w : Writer) : outcome Writer :=
  for_each s (fun byte => write_byte (printable byte)) w.

(** [fmt::Write::write_str] for [Writer]; [write_fmt] calls it once for each
    formatted piece. *)
Definition write_str (s : list Z) (w : Writer) : outcome Writer := write_string s w.
Definition write_fmt (pieces : list (list Z)) (w : Writer) : outcome Writer :=
  for_each pieces write_str w.

(** The loop of [print_bytes]: bytes go to [write_byte] unfiltered. *)
Definition write_bytes (bytes : list Z) (w : Writer) : outcome Writer :=
  for_each bytes write_byte w.

(** ** The global writer

    [WRITER] is a spin lock around the writer; [print] and [print_bytes]
    take it with interrupts disabled. *)
Section Console.
Context `{InterruptsApi} `{MutexApi}.

Record Console : Type := mkConsole {
  console_cpu : cpu;
  WRITER : mutex Writer
}.

Definition put_cpu (c : cpu) (k : Console) : Console := mkConsole c (WRITER k).

(** The [lazy_static] initialiser over the memory found at [0xb8000]. *)
Definition WRITER_init (screen : Buffer) : mutex Writer :=
  mutex_new (mkWriter 0 (ColorCode_new Yellow Black) screen).

(** A writer operation run on the locked writer; after a panic nobody gets
    the lock again, so what the writer holds then does not matter. *)
Definition locked (f : Writer -> outcome Writer) (w : Writer) : outcome unit * Writer :=
  match f w with
  | Ret w' => (Ret tt, w')
  | Stop s => (Stop s, w)
  end.

Definition lock_writer (f : Writer -> outcome Writer) (k : Console) : outcome unit * Console :=
  let '(r, m) := with_lock (locked f) (WRITER k) in (r, mkConsole (console_cpu k) m).

Definition print (args : list (list Z)) (k : Console) : outcome unit * Console :=
  Sys.without_interrupts console_cpu put_cpu (lock_writer (write_fmt args)) k.

Definition println (args : list (list Z)) (k : Console) : outcome unit * Console :=
  print (args ++ [[10]]) k.

Definition print_bytes (bytes : list Z) (k : Console) : outcome unit * Console :=
  Sys.without_interrupts console_cpu put_cpu (lock_writer (write_bytes bytes)) k.

End Console.

(** ** Shape of the screen *)

Definition row_wf (r : list ScreenChar) : Prop := length r = BUFFER_WIDTH.

(** The Rust array type fixes the dimensions; the column never passes the
    right edge. *)
Record wf (w : Writer) : Prop := {
  wf_height : length (buffer w) = BUFFER_HEIGHT;
  wf_width : Forall row_wf (buffer w);
  wf_column : (column_position w <= BUFFER_WIDTH)%nat
}.

Definition blank_row (color : Z) : list ScreenChar :=
  replicate BUFFER_WIDTH (mkScreenChar 32 color).

(** Pure descriptions of the two effects on the screen. *)
Definition scrolled (w : Writer) : Writer :=
  mkWriter 0 (color_code w) (tail (buffer w) ++ [blank_row (color_code w)]).

Definition typed (byte : Z) (w : Writer) : Writer :=
  mkWriter (column_position w + 1) (color_code w)
    (alter (insert (column_position w) (mkScreenChar byte (color_code w)))
       (BUFFER_HEIGHT - 1)%nat (buffer w)).

(** The reference: a byte typed on the bottom row, after a scroll when the row
    is full. *)
Definition keystroke (w : Writer) (byte : Z) : Writer :=
  if byte =? 10 then scrolled w
  else if decide (BUFFER_WIDTH <= column_position w)%nat then typed byte (scrolled w)
  else typed byte w.

(** A terminal line: the cells typed so far, blank to the right edge. *)
Definition pad (color : Z) (cur : list ScreenChar) : list ScreenChar :=
  cur ++ replicate (BUFFER_WIDTH - length cur) (mkScreenChar 32 color).

(** Reference semantics of printing, without a screen: the lines produced by
    [bs] when [cur] is already on the current line.  Lines end at a newline
    byte or when the line is full. *)
Fixpoint render (color : Z) (cur : list ScreenChar) (bs : list Z) : list (list ScreenChar) :=
  match bs with
  | [] => [pad color cur]
  | b :: bs' =>
      if b =? 10 then pad color cur :: render color [] bs'
      else if decide (BUFFER_WIDTH <= length cur)%nat
           then pad color cur :: render color [mkScreenChar b color] bs'
           else render color (cur ++ [mkScreenChar b color]) bs'
  end.

(** [cur] is what has been typed on the bottom row. *)
Record shows (cur : list ScreenChar) (w : Writer) : Prop := {
  shows_wf : wf w;
  shows_column : column_position w = length cur;
  shows_row : buffer w !! (BUFFER_HEIGHT - 1)%nat = Some (pad (color_code w) cur)
}.

#[local] Arguments Nat.sub : simpl never.

Create HintDb vga.
#[export] Hint Resolve wf_height wf_width wf_column : vga.

Lemma chars_write_ret (b : Buffer) row col c r :
  b !! row = Some r -> (col < length r)%nat ->
  chars_write b row col c = Ret (<[row := <[col := c]> r]> b).
Proof.
  intros Hr Hc. unfold chars_write. rewrite Hr.
  by destruct (lookup_lt_is_Some_2 r col Hc) as [x ->].
Qed.

Lemma chars_read_ret (b : Buffer) row col r c :
  b !! row = Some r -> r !! col = Some c -> chars_read b row col = Ret c.
Proof. intros Hr Hc. unfold chars_read. rewrite Hr. simpl. by rewrite Hc. Qed.

Lemma clear_row_ret row w r :
  buffer w !! row = Some r -> row_wf r ->
  clear_row row w = Ret (set_buffer (<[row := blank_row (color_code w)]> (buffer w)) w).
Proof.
  intros Hr Hlen. unfold clear_row, row_wf in *.
  edestruct (for_each_range (fun i w' => w' = set_buffer
    (<[row := take i (blank_row (color_code w)) ++ drop i r]> (buffer w)) w))
    as (w' & E & ->); [| | |rewrite E].
  - lia.
  - rewrite take_0, drop_0, app_nil_l, list_insert_id by done. by destruct w.
  - intros i s Hi ->. simpl. eexists. rewrite (chars_write_ret _ _ _ _ (take i (blank_row (color_code w)) ++ drop i r)).
    + simpl. split; [done|]. unfold set_buffer; simpl. f_equal.
      rewrite list_insert_insert_eq. f_equal.
      apply insert_take_drop_next; [|lia]. apply lookup_replicate. split; [done|lia].
    + apply list_lookup_insert_eq. by eapply lookup_lt_Some.
    + rewrite length_app, length_take, length_drop. unfold blank_row.
      rewrite length_replicate. lia.
  - f_equal. f_equal. f_equal. rewrite <- Hlen at 2. rewrite drop_all, app_nil_r.
    by rewrite take_ge by (unfold blank_row; rewrite length_replicate; lia).
Qed.

(** Copying one row up replaces row [row - 1] by row [row]. *)
Lemma copy_row_ret row w src dst :
  (0 < row)%nat -> buffer w !! row = Some src -> buffer w !! (row - 1)%nat = Some dst ->
  row_wf src -> row_wf dst ->
  for_each (range 0 BUFFER_WIDTH) (copy_up row) w =
  Ret (set_buffer (<[(row - 1)%nat := src]> (buffer w)) w).
Proof.
  unfold row_wf. intros Hrow Hsrc Hdst Ls Ld.
  edestruct (for_each_range (fun i w' => w' = set_buffer
    (<[(row - 1)%nat := take i src ++ drop i dst]> (buffer w)) w))
    as (w' & E & ->); [| | |rewrite E].
  - lia.
  - rewrite take_0, drop_0, app_nil_l, list_insert_id by done. by destruct w.
  - intros i s Hi ->.
    destruct (lookup_lt_is_Some_2 src i) as [c Hc]; [lia|].
    eexists. unfold copy_up. simpl.
    rewrite (chars_read_ret _ _ _ src c); [|by rewrite list_lookup_insert_ne by lia|done].
    simpl. rewrite (chars_write_ret _ _ _ _ (take i src ++ drop i dst)).
    + simpl. split; [done|]. unfold set_buffer; simpl. f_equal.
      rewrite list_insert_insert_eq. f_equal. apply insert_take_drop_next; [done|lia].
    + apply list_lookup_insert_eq. by eapply lookup_lt_Some.
    + rewrite length_app, length_take, length_drop. lia.
  - f_equal. f_equal. f_equal. rewrite <- Ld at 2. rewrite drop_all, app_nil_r.
    by rewrite take_ge by lia.
Qed.

(** The whole copying loop drops the top row and keeps the bottom one. *)
Lemma copy_rows_ret w :
  wf w ->
  for_each (range 1 BUFFER_HEIGHT)
    (fun row => for_each (range 0 BUFFER_WIDTH) (copy_up row)) w =
  Ret (set_buffer (tail (buffer w) ++ drop (BUFFER_HEIGHT - 1) (buffer w)) w).
Proof.
  intros [Hh Hw _]. rewrite Forall_lookup in Hw.
  edestruct (for_each_range (fun i w' => w' = set_buffer
    (take (i - 1) (tail (buffer w)) ++ drop (i - 1) (buffer w)) w)) as (w' & E & ->);
    [| | |rewrite E].
  - unfold BUFFER_HEIGHT. lia.
  - simpl. by destruct w.
  - intros i s Hi ->.
    destruct (lookup_lt_is_Some_2 (buffer w) i) as [src Hsrc]; [lia|].
    destruct (lookup_lt_is_Some_2 (buffer w) (i - 1)) as [dst Hdst]; [lia|].
    assert (length (take (i - 1) (tail (buffer w))) = (i - 1)%nat) as Ht.
    { rewrite length_take, length_tail. lia. }
    eexists. rewrite (copy_row_ret i _ src dst); [split; [done|]|lia| | |eauto|eauto].
    + unfold set_buffer; simpl. f_equal.
      replace (i + 1 - 1)%nat with ((i - 1) + 1)%nat by lia.
      apply insert_take_drop_next; [|lia].
      rewrite lookup_tail. by replace (S (i - 1)) with i by lia.
    + simpl. rewrite lookup_app_r by lia. rewrite Ht, lookup_drop.
      by replace (i - 1 + (i - (i - 1)))%nat with i by lia.
    + simpl. rewrite lookup_app_r by lia. rewrite Ht, lookup_drop.
      by replace (i - 1 + (i - 1 - (i - 1)))%nat with (i - 1)%nat by lia.
  - f_equal. f_equal. f_equal. apply take_ge. rewrite length_tail. lia.
Qed.

Lemma new_line_ret w : wf w -> new_line w = Ret (scrolled w).
Proof.
  intros Hwf. unfold new_line. rewrite copy_rows_ret by done. simpl.
  destruct Hwf as [Hh Hw _].
  destruct (lookup_lt_is_Some_2 (buffer w) 24) as [bot Hbot];
    [unfold BUFFER_HEIGHT in *; lia|].
  assert (length (tail (buffer w)) = 24%nat) as Ht
    by (rewrite length_tail, Hh; reflexivity).
  assert (drop 24 (buffer w) = [bot]) as Hd.
  { rewrite (drop_S _ bot) by done. by rewrite drop_ge by (rewrite Hh; reflexivity). }
  change (BUFFER_HEIGHT - 1)%nat with 24%nat. rewrite Hd.
  rewrite (clear_row_ret 24 _ bot).
  - simpl. unfold scrolled, set_buffer, set_column. simpl. do 2 f_equal.
    rewrite insert_app_r_alt by lia. by rewrite Ht.
  - simpl. rewrite lookup_app_r by lia. by rewrite Ht.
  - rewrite Forall_lookup in Hw. by eapply Hw.
Qed.

Lemma scrolled_wf w : wf w -> wf (scrolled w).
Proof.
  intros [Hh Hw Hc]. split; simpl; [|apply Forall_app; split|lia].
  - rewrite length_app, length_tail, Hh. reflexivity.
  - destruct (buffer w); simpl in *; [by constructor|by inversion Hw].
  - repeat constructor.
Qed.

Lemma scrolled_shows w : wf w -> shows [] (scrolled w).
Proof.
  intros Hwf. split; [by apply scrolled_wf|done|]. simpl.
  rewrite lookup_app_r; rewrite length_tail, (wf_height _ Hwf); [reflexivity|done].
Qed.

Lemma pad_snoc color cur c :
  (length cur < BUFFER_WIDTH)%nat ->
  <[length cur := c]> (pad color cur) = pad color (cur ++ [c]).
Proof.
  intros Hl. unfold pad. rewrite insert_app_r_alt, Nat.sub_diag by lia.
  rewrite length_app. simpl.
  replace (BUFFER_WIDTH - length cur)%nat with (S (BUFFER_WIDTH - (length cur + 1))) by lia.
  simpl. by rewrite <- app_assoc.
Qed.

(** Typing on the bottom row, below the right edge. *)
Lemma type_ret byte w :
  wf w -> (column_position w < BUFFER_WIDTH)%nat ->
  (b ← chars_write (buffer w) (BUFFER_HEIGHT - 1)%nat (column_position w)
         (mkScreenChar byte (color_code w));
   mret (set_column (column_position w + 1) (set_buffer b w))) = Ret (typed byte w) /\
  wf (typed byte w).
Proof.
  intros [Hh Hw Hc] Hlt.
  destruct (lookup_lt_is_Some_2 (buffer w) (BUFFER_HEIGHT - 1)) as [r Hr];
    [rewrite Hh; unfold BUFFER_HEIGHT; lia|].
  assert (row_wf r) as Lr by (rewrite Forall_lookup in Hw; by eapply Hw).
  assert (alter (insert (column_position w) (mkScreenChar byte (color_code w)))
            (BUFFER_HEIGHT - 1)%nat (buffer w) =
          <[(BUFFER_HEIGHT - 1)%nat := <[column_position w := mkScreenChar byte (color_code w)]> r]>
            (buffer w)) as Ealt.
  { by rewrite (list_alter_as_insert _ _ _ r). }
  split.
  - rewrite (chars_write_ret _ _ _ _ r) by (done || (unfold row_wf in *; lia)).
    simpl. unfold typed, set_column, set_buffer; simpl. by rewrite Ealt.
  - split; simpl; rewrite ?Ealt.
    + by rewrite length_insert.
    + apply Forall_insert; [done|]. unfold row_wf. by rewrite length_insert.
    + lia.
Qed.

Lemma typed_shows byte w cur :
  shows cur w -> (length cur < BUFFER_WIDTH)%nat ->
  shows (cur ++ [mkScreenChar byte (color_code w)]) (typed byte w).
Proof.
  intros [Hwf Hcol Hrow] Hl. split.
  - apply type_ret; [done|lia].
  - simpl. rewrite length_app. simpl. lia.
  - simpl. rewrite list_lookup_alter_eq, Hrow, Hcol. simpl. f_equal. by apply pad_snoc.
Qed.

(** The three cases of [write_byte]. *)
Lemma write_byte_ret byte w :
  wf w ->
  write_byte byte w = Ret (keystroke w byte).
Proof.
  intros Hwf. unfold write_byte, keystroke. destruct (byte =? 10); [by apply new_line_ret|].
  case_decide as Hfull.
  - rewrite new_line_ret by done. apply type_ret; [by apply scrolled_wf|].
    simpl. unfold BUFFER_WIDTH. lia.
  - apply type_ret; [done|lia].
Qed.

Lemma write_byte_wf byte w :
  wf w -> exists w', write_byte byte w = Ret w' /\ wf w' /\ color_code w' = color_code w.
Proof.
  intros Hwf. rewrite write_byte_ret by done. eexists. split; [done|]. unfold keystroke.
  destruct (byte =? 10); [by split; [apply scrolled_wf|]|].
  case_decide; (split; [|done]).
  - apply type_ret; [by apply scrolled_wf|]. simpl. unfold BUFFER_WIDTH. lia.
  - apply type_ret; [done|lia].
Qed.

Lemma render_nonempty color cur bs : (1 <= length (render color cur bs))%nat.
Proof.
  revert cur. induction bs as [|b bs IH]; intros cur; simpl; [lia|].
  destruct (b =? 10); [simpl; lia|]. case_decide; [simpl; lia|apply IH].
Qed.

(** Scrolling the screen and dropping the finished line into the history
    leave the same visible rows. *)
Lemma scroll_history w cur (rest : list (list ScreenChar)) :
  shows cur w -> (1 <= length rest)%nat ->
  lastn BUFFER_HEIGHT (take (BUFFER_HEIGHT - 1) (buffer (scrolled w)) ++ rest) =
  lastn BUFFER_HEIGHT
    (take (BUFFER_HEIGHT - 1) (buffer w) ++ pad (color_code w) cur :: rest).
Proof.
  intros [[Hh _ _] _ Hrow] Hrest.
  assert (length (tail (buffer w)) = (BUFFER_HEIGHT - 1)%nat) as Ht
    by (rewrite length_tail, Hh; reflexivity).
  simpl. rewrite take_app_le, take_ge by lia.
  destruct (buffer w) as [|top b]; [discriminate Hh|]. simpl in Ht, Hh, Hrow |- *.
  assert (b = take 23 b ++ [pad (color_code w) cur]) as Eb.
  { rewrite <- (take_drop 23 b) at 1. f_equal.
    rewrite (drop_S _ (pad (color_code w) cur)) by exact Hrow.
    rewrite drop_ge; [done|]. unfold BUFFER_HEIGHT in Hh. lia. }
  change (take (BUFFER_HEIGHT - 1) (top :: b)) with (top :: take 23 b).
  rewrite Eb at 1. rewrite <- app_assoc. simpl.
  change (top :: take 23 b ++ pad (color_code w) cur :: rest)
    with ([top] ++ (take 23 b ++ pad (color_code w) cur :: rest)).
  rewrite (lastn_app_r _ [top]); [done|]. rewrite length_app, length_take. cbn [length].
  unfold BUFFER_HEIGHT in *. lia.
Qed.

Lemma take_typed byte w :
  take (BUFFER_HEIGHT - 1) (buffer (typed byte w)) = take (BUFFER_HEIGHT - 1) (buffer w).
Proof. by apply take_alter_ge. Qed.

Lemma shows_visible w cur :
  shows cur w ->
  lastn BUFFER_HEIGHT (take (BUFFER_HEIGHT - 1) (buffer w) ++ [pad (color_code w) cur]) = buffer w.
Proof.
  intros [[Hh _ _] _ Hrow].
  rewrite <- take_S_r by done.
  change (S (BUFFER_HEIGHT - 1)) with BUFFER_HEIGHT.
  rewrite <- Hh, take_ge by lia. by apply lastn_all.
Qed.

Lemma write_bytes_shows bs w cur :
  shows cur w ->
  exists w' cur', write_bytes bs w = Ret w' /\ shows cur' w' /\ color_code w' = color_code w /\
    buffer w' =
      lastn BUFFER_HEIGHT (take (BUFFER_HEIGHT - 1) (buffer w) ++ render (color_code w) cur bs).
Proof.
  revert w cur. induction bs as [|b bs IH]; intros w cur Hs.
  - exists w, cur. repeat split; [by apply Hs..|]. symmetry. by apply shows_visible.
  - unfold write_bytes in *. simpl. rewrite write_byte_ret by apply Hs. unfold keystroke.
    rewrite (shows_column _ _ Hs).
    assert (shows [] (scrolled w)) as Hsc by apply scrolled_shows, Hs.
    simpl. destruct (b =? 10).
    + destruct (IH _ _ Hsc) as (w' & cur' & E & Hs' & Ec & Eb).
      exists w', cur'. repeat split; [done|apply Hs'..|done|].
      rewrite Eb. apply scroll_history; [done|apply render_nonempty].
    + case_decide as Hfull.
      * assert (shows [mkScreenChar b (color_code w)] (typed b (scrolled w))) as Ht
          by (apply (typed_shows b _ [] Hsc); unfold BUFFER_WIDTH; simpl; lia).
        destruct (IH _ _ Ht) as (w' & cur' & E & Hs' & Ec & Eb).
        exists w', cur'. repeat split; [done|apply Hs'..|done|].
        rewrite Eb, take_typed. apply scroll_history; [done|apply render_nonempty].
      * destruct (IH _ _ (typed_shows b w cur Hs ltac:(lia))) as (w' & cur' & E & Hs' & Ec & Eb).
        exists w', cur'. repeat split; [done|apply Hs'..|done|].
        by rewrite Eb, take_typed.
Qed.

Lemma write_string_bytes s w : write_string s w = write_bytes (map printable s) w.
Proof. unfold write_string, write_bytes. by rewrite for_each_map. Qed.

Lemma write_fmt_concat pieces w :
  write_fmt pieces w = write_bytes (map printable (concat pieces)) w.
Proof.
  unfold write_fmt. revert w. induction pieces as [|p ps IH]; intros w; [done|].
  simpl. rewrite map_app. unfold write_bytes at 1. rewrite for_each_app.
  unfold write_str. rewrite write_string_bytes. unfold write_bytes.
  destruct (for_each _ _ _); simpl; [apply IH|done].
Qed.

(** A line of printable text that fits renders as one line. *)
Definition is_text (b : Z) : Prop := 32 <= b <= 126.
Definition cells (color : Z) (s : list Z) : list ScreenChar :=
  map (fun b => mkScreenChar b color) s.

Lemma render_line color cur s rest :
  Forall is_text s -> (length cur + length s <= BUFFER_WIDTH)%nat ->
  render color cur (s ++ 10 :: rest) = pad color (cur ++ cells color s) :: render color [] rest.
Proof.
  revert cur. induction s as [|b s IH]; intros cur Ht Hlen; simpl.
  - by rewrite app_nil_r.
  - inversion Ht as [|? ? Hb Ht']; subst. unfold is_text in Hb. simpl in Hlen.
    destruct (Z.eqb_spec b 10); [lia|]. case_decide; [lia|].
    rewrite IH; [|done|rewrite length_app; simpl; lia].
    by rewrite <- app_assoc.
Qed.

Lemma printable_text s : Forall is_text s -> map printable s = s.
Proof.
  induction 1 as [|b s Hb Hs IH]; [done|]. simpl. rewrite IH. f_equal.
  unfold printable, is_text in *.
  destruct (Z.leb_spec 32 b), (Z.leb_spec b 126); simpl; try lia; done.
Qed.

Lemma lastn_last_two {A} n (l : list A) a b :
  (n <= length l)%nat -> lastn (n + 2) (l ++ [a; b]) !! n = Some a.
Proof.
  intros Hn. unfold lastn. rewrite length_app, lookup_drop. cbn [length].
  rewrite lookup_app_r by lia.
  by replace (length l + 2 - (n + 2) + n - length l)%nat with 0%nat by lia.
Qed.

Section ConsoleProofs.
Context `{InterruptsLaws} `{MutexLaws}.

(** The console after a critical section that leaves the writer at [w]:
    unlocked, with the interrupt flag it had before. *)
Definition console_at (k k' : Console) (w : Writer) : Prop :=
  contents (WRITER k') = w /\ is_locked (WRITER k') = false /\
  are_enabled (console_cpu k') = are_enabled (console_cpu k).

Lemma critical_section f k w :
  is_locked (WRITER k) = false -> f (contents (WRITER k)) = Ret w ->
  exists k', Sys.without_interrupts console_cpu put_cpu (lock_writer f) k = (Ret tt, k') /\
             console_at k k' w.
Proof.
  intros Hfree Hf. unfold Sys.without_interrupts. rewrite without_interrupts_run.
  destruct (with_lock_free _ _ (locked f) (WRITER k) Hfree) as (E1 & E2 & E3).
  assert (locked f (contents (WRITER k)) = (Ret tt, w)) as Hl
    by (unfold locked; by rewrite Hf).
  rewrite Hl in E1, E2, E3. simpl in E1, E2, E3.
  assert (is_locked (with_lock (locked f) (WRITER k)).2 = false) as E3'
    by (apply E3; by exists tt).
  assert (forall c, lock_writer f (mkConsole c (WRITER k)) =
            (Ret tt, mkConsole c (with_lock (locked f) (WRITER k)).2)) as Hrun.
  { intros c. unfold lock_writer. simpl.
    destruct (with_lock (locked f) (WRITER k)) as [r m] eqn:Ew. simpl in *. by rewrite E1. }
  destruct k as [c m]. simpl in *. destruct (are_enabled c) eqn:Hen.
  - unfold put_cpu at 1. simpl. rewrite Hrun. eexists. split; [done|].
    repeat split; simpl; [done|done|]. by rewrite enable_sets.
  - rewrite Hrun. eexists. split; [done|]. by repeat split.
Qed.

(** Printing never fails on a well-formed, unlocked writer. *)
Definition console_ok (k : Console) : Prop :=
  is_locked (WRITER k) = false /\ wf (contents (WRITER k)).

Lemma write_bytes_wf bs w :
  wf w -> exists w', write_bytes bs w = Ret w' /\ wf w' /\ color_code w' = color_code w.
Proof.
  intros Hw. unfold write_bytes.
  destruct (for_each_inv (fun w' => wf w' /\ color_code w' = color_code w) bs write_byte w)
    as (w' & E & Hw' & Hc); [done| |by exists w'].
  intros b s _ [Hs Hc]. destruct (write_byte_wf b s Hs) as (s' & E & Hs' & Hc').
  exists s'. by rewrite Hc'.
Qed.

Lemma print_ok args k :
  console_ok k -> exists k', print args k = (Ret tt, k') /\ console_ok k' /\
    are_enabled (console_cpu k') = are_enabled (console_cpu k).
Proof.
  intros [Hfree Hwf].
  destruct (write_bytes_wf (map printable (concat args)) _ Hwf) as (w & E & Hw & _).
  rewrite <- write_fmt_concat in E.
  destruct (critical_section (write_fmt args) k w Hfree E) as (k' & Ek & Hk1 & Hk2 & Hk3).
  exists k'. split; [done|]. split; [|done]. split; [done|]. by rewrite Hk1.
Qed.

Lemma println_ok args k :
  console_ok k -> exists k', println args k = (Ret tt, k') /\ console_ok k' /\
    are_enabled (console_cpu k') = are_enabled (console_cpu k).
Proof. apply print_ok. Qed.

(** What [print] does to a screen whose bottom row shows [cur]. *)
Lemma print_shows args k cur :
  is_locked (WRITER k) = false -> shows cur (contents (WRITER k)) ->
  let w := contents (WRITER k) in
  exists k' w', print args k = (Ret tt, k') /\ console_at k k' w' /\
    buffer w' = lastn BUFFER_HEIGHT (take (BUFFER_HEIGHT - 1) (buffer w) ++
                  render (color_code w) cur (map printable (concat args))).
Proof.
  intros Hfree Hs w.
  destruct (write_bytes_shows (map printable (concat args)) w cur Hs)
    as (w' & cur' & E & _ & _ & Eb).
  rewrite <- write_fmt_concat in E.
  destruct (critical_section (write_fmt args) k w' Hfree E) as (k' & Ek & Hk).
  by exists k', w'.
Qed.

(** After an empty line and a line of at most 80 printable characters, row 23
    of the screen holds exactly that line. *)
Lemma println_shown s k :
  console_ok k -> Forall is_text s -> (length s <= BUFFER_WIDTH)%nat ->
  exists k1 k2, println [] k = (Ret tt, k1) /\ println [s] k1 = (Ret tt, k2) /\ console_ok k2 /\
    are_enabled (console_cpu k2) = are_enabled (console_cpu k) /\
    forall i c, s !! i = Some c ->
      chars_read (buffer (contents (WRITER k2))) (BUFFER_HEIGHT - 2) i =
      Ret (mkScreenChar c (color_code (contents (WRITER k)))).
Proof.
  intros [Hfree Hwf] Ht Hlen. set (w := contents (WRITER k)) in *.
  assert (write_fmt [[10]] w = Ret (scrolled w)) as E1.
  { rewrite write_fmt_concat. unfold write_bytes. simpl. by rewrite write_byte_ret. }
  destruct (critical_section _ k _ Hfree E1) as (k1 & Ek1 & Ew1 & Hfree1 & Hc1).
  destruct (write_bytes_shows (s ++ [10]) _ _ (scrolled_shows w Hwf))
    as (w2 & cur2 & E2 & Hs2 & _ & Eb).
  assert (write_fmt ([s] ++ [[10]]) (contents (WRITER k1)) = Ret w2) as E2'.
  { rewrite Ew1, write_fmt_concat. simpl. rewrite map_app, printable_text by done. exact E2. }
  destruct (critical_section _ k1 _ Hfree1 E2') as (k2 & Ek2 & Ew2 & Hfree2 & Hc2).
  exists k1, k2. split_and!; [done|done|split; [done|rewrite Ew2; apply Hs2]|congruence|]. intros i c Hi.
  rewrite Ew2, Eb, render_line by (solve [done | simpl; lia]).
  apply (chars_read_ret _ _ _ (pad (color_code w) (cells (color_code w) s))).
  - apply (lastn_last_two 23). rewrite length_take.
    rewrite (wf_height _ (scrolled_wf w Hwf)). by apply Nat.leb_le.
  - unfold pad, cells. rewrite lookup_app_l by (rewrite length_map; by eapply lookup_lt_Some).
    change (map ?f s) with (f <$> s). by rewrite list_lookup_fmap, Hi.
Qed.

(** With the writer locked, printing spins for ever. *)
Lemma print_locked args k :
  is_locked (WRITER k) = true ->
  exists k', print args k = (Stop Deadlock, k') /\ WRITER k' = WRITER k.
Proof.
  intros Hheld. unfold print, Sys.without_interrupts. rewrite without_interrupts_run. unfold lock_writer.
  destruct (are_enabled (console_cpu k)); cbn [WRITER put_cpu]; rewrite with_lock_held by done; by eexists.
Qed.

End ConsoleProofs.

(** ** Properties *)

(** C32: The index loops of the writer agree with a reference on whole rows:
    new_line is dropping the top row and adding a blank one, and writing any
    bytes is typing them one after the other at the bottom, with a scroll
    where the row is full; no index leaves the 25 by 80 buffer. *)
Theorem write_bytes_equals_reference bs w :
  wf w ->
  new_line w = Ret (scrolled w) /\ write_bytes bs w = Ret (foldl keystroke w bs) /\ wf (foldl keystroke w bs).
Proof.
  intros Hw. split; [by apply new_line_ret|]. unfold write_bytes.
  revert w Hw. induction bs as [|b bs IH]; intros w Hw; [done|]. simpl.
  destruct (write_byte_wf b w Hw) as (w' & E & Hw' & _). pose proof (write_byte_ret b w Hw) as E'.
  rewrite E in E'. injection E' as ->. rewrite E. by apply IH.
Qed.

(** C15: print refines a terminal: with the writer unlocked it returns, leaves
    the lock free and the interrupt flag as it was, and the screen shows the
    last 25 lines of the history followed by the text, wrapped at 80 columns,
    with bytes outside printable ASCII replaced by 0xfe. *)
Theorem print_refines_terminal `{InterruptsLaws} `{MutexLaws} args k cur :
  is_locked (WRITER k) = false -> shows cur (contents (WRITER k)) ->
  let w := contents (WRITER k) in
  exists k' w', print args k = (Ret tt, k') /\ console_at k k' w' /\
    buffer w' = lastn BUFFER_HEIGHT (take (BUFFER_HEIGHT - 1) (buffer w) ++
                  render (color_code w) cur (map printable (concat args))).
Proof. apply print_shows. Qed.

(** print_bytes refines the same terminal without filtering: the screen
    shows the history followed by the bytes as they are, the lock is free
    again and the interrupt flag is as before. *)
Theorem print_bytes_refines_terminal `{InterruptsLaws} `{MutexLaws} bytes k cur :
  is_locked (WRITER k) = false -> shows cur (contents (WRITER k)) ->
  let w := contents (WRITER k) in
  exists k' w', print_bytes bytes k = (Ret tt, k') /\ console_at k k' w' /\
    buffer w' = lastn BUFFER_HEIGHT (take (BUFFER_HEIGHT - 1) (buffer w) ++
                  render (color_code w) cur bytes).
Proof.
  intros Hfree Hs w.
  destruct (write_bytes_shows bytes w cur Hs) as (w' & cur' & E & _ & _ & Eb).
  destruct (critical_section (write_bytes bytes) k w' Hfree E) as (k' & Ek & Hk).
  by exists k', w'.
Qed.

(** ** The properties at a concrete screen *)
Section Witnesses.
#[local] Existing Instance Ref.interrupts.
#[local] Existing Instance Ref.mutexes.
#[local] Existing Instance Ref.interrupts_laws.
#[local] Existing Instance Ref.mutexes_laws.

Definition blank_screen : Buffer := replicate BUFFER_HEIGHT (blank_row 14).
Definition boot_console : Console := mkConsole true (WRITER_init blank_screen).

Lemma blank_screen_wf : wf (contents (WRITER boot_console)).
Proof. split; [reflexivity|repeat constructor|vm_compute; lia]. Qed.

Lemma blank_screen_shows : shows [] (contents (WRITER boot_console)).
Proof. split; [apply blank_screen_wf|reflexivity|reflexivity]. Qed.

Lemma write_bytes_equals_reference_witness :
  let w := contents (WRITER boot_console) in
  write_bytes [72; 10; 200] w = Ret (typed 200 (scrolled (typed 72 w))).
Proof. apply (write_bytes_equals_reference [72; 10; 200]). apply blank_screen_wf. Defined.

Lemma print_refines_terminal_witness :
  exists k' w', print [[72; 105]; [10]] boot_console = (Ret tt, k') /\
    console_at boot_console k' w' /\
    buffer w' = lastn 25 (take 24 blank_screen ++ render 14 [] [72; 105; 10]).
Proof.
  exact (print_refines_terminal [[72; 105]; [10]] boot_console [] eq_refl blank_screen_shows).
Defined.

Lemma print_bytes_refines_terminal_witness :
  exists k' w', print_bytes [7; 72] boot_console = (Ret tt, k') /\
    console_at boot_console k' w' /\
    buffer w' = lastn 25 (take 24 blank_screen ++ render 14 [] [7; 72]).
Proof.
  exact (print_bytes_refines_terminal [7; 72] boot_console [] eq_refl blank_screen_shows).
Defined.

End Witnesses.

End Vga.
