(* ===== verification/Serial.v ===== *)
(** * The serial port ([kernel/src/serial.rs]) and leaving the emulator
      ([exit_qemu] of [kernel/src/lib.rs])

    The test kernels report to the host through a serial line and end the
    emulator through a debug port.  [Host] is what those tests can reach: the
    console with the processor, the serial port and the port writes made. *)
From S2P Require Import Prelude Fmt Platform RefPlatform Sys VgaBuffer.

Module Serial.
Import Fmt Vga.

(** [uart_16550::SerialPort] as a [fmt::Write]; [sent] are the bytes that went
    out on the line. *)
Class SerialApi := {
  SerialPort : Type;
  SerialPort_new : Z -> SerialPort;
  serial_init : SerialPort -> SerialPort;
  serial_write_str : list Z -> SerialPort -> result unit unit * SerialPort;
  sent : SerialPort -> list Z
}.

(** Backspace and delete are sent as three bytes; any other byte as it is. *)
Definition plain (b : Z) : Prop := b <> 8 /\ b <> 127.

Class SerialLaws `{SerialApi} : Prop := {
  write_str_sends : forall s p, Forall plain s ->
    exists p', serial_write_str s p = (Ok tt, p') /\ sent p' = sent p ++ s
}.

Inductive QemuExitCode : Set := Success | Failed.

(** [exit_code as u32]. *)
Definition QemuExitCode_as_u32 (c : QemuExitCode) : Z :=
  match c with Success => 0x10 | Failed => 0x11 end.

Section Operations.
Context `{InterruptsApi} `{MutexApi} `{SerialApi}.

Record Host : Type := mkHost {
  host_console : Console;
  SERIAL1 : mutex SerialPort;
  port_writes : list (Z * Z)
}.

Definition host_cpu (h : Host) : cpu := console_cpu (host_console h).
Definition put_host_cpu (c : cpu) (h : Host) : Host :=
  mkHost (put_cpu c (host_console h)) (SERIAL1 h) (port_writes h).

(** The [lazy_static] initialiser. *)
Definition SERIAL1_init : mutex SerialPort := mutex_new (serial_init (SerialPort_new 0x3F8)).

(** [fmt::Write::write_fmt]: the pieces in order, up to the first error. *)
Fixpoint serial_write_fmt (pieces : list (list Z)) (p : SerialPort) : result unit unit * SerialPort :=
  match pieces with
  | [] => (Ok tt, p)
  | s :: rest =>
      match serial_write_str s p with
      | (Ok _, p) => serial_write_fmt rest p
      | (Err e, p) => (Err e, p)
      end
  end.

(** [.lock().write_fmt(args).expect("Printing to serial failed")]. *)
Definition lock_serial (args : list (list Z)) : stateful Host unit := fun h =>
  let '(r, m) := with_lock (fun p => let '(r, p) := serial_write_fmt args p in (expect r, p)) (SERIAL1 h) in
  (r, mkHost (host_console h) m (port_writes h)).

(** [_print]. *)
Definition serial_print (args : list (list Z)) : stateful Host unit :=
  Sys.without_interrupts host_cpu put_host_cpu (lock_serial args).

Definition serial_println (args : list (list Z)) : stateful Host unit := serial_print (args ++ [[10]]).

(** [Port::new(port).write(value)]. *)
Definition port_write (port value : Z) : stateful Host unit := fun h =>
  (Ret tt, mkHost (host_console h) (SERIAL1 h) (port_writes h ++ [(port, value)])).

(** [hlt_loop] on the host's processor. *)
Definition host_hlt_loop {A : Type} : stateful Host A := fun h =>
  let '(r, c) := Sys.hlt_loop (host_cpu h) in (r, put_host_cpu c h).

Definition exit_qemu {A : Type} (exit_code : QemuExitCode) : stateful Host A :=
  _ ← port_write 0xf4 (QemuExitCode_as_u32 exit_code);
  host_hlt_loop.

(** Code that uses the console only. *)
Definition at_console {A : Type} (f : Console -> outcome A * Console) : stateful Host A := fun h =>
  let '(r, c) := f (host_console h) in (r, mkHost c (SERIAL1 h) (port_writes h)).

End Operations.

(** ** The device behind the debug port

    [isa-debug-exit] at [0xf4] ends the emulator with twice the value written
    plus one. *)
Definition emulator_status (v : Z) : Z := 2 * v + 1.

(** [test-success-exit-code] of [kernel/Cargo.toml]. *)
Definition test_success_exit_code : Z := 33.

Section Proofs.
Context `{InterruptsLaws} `{MutexLaws} `{SerialLaws}.

(** What has been sent so far, and the line being free. *)
Definition line (h : Host) : list Z := sent (contents (SERIAL1 h)).
Definition line_free (h : Host) : Prop := is_locked (SERIAL1 h) = false.

(** [h'] is [h] after [bs] went out on the line. *)
Record transmitted (bs : list Z) (h h' : Host) : Prop := {
  tr_line : line h' = line h ++ bs;
  tr_free : line_free h';
  tr_writer : WRITER (host_console h') = WRITER (host_console h);
  tr_cpu : are_enabled (host_cpu h') = are_enabled (host_cpu h);
  tr_ports : port_writes h' = port_writes h
}.

Lemma serial_write_fmt_sends pieces p :
  Forall plain (concat pieces) ->
  exists p', serial_write_fmt pieces p = (Ok tt, p') /\ sent p' = sent p ++ concat pieces.
Proof.
  revert p. induction pieces as [|s rest IH]; intros p Hp; simpl in *.
  - exists p. by rewrite app_nil_r.
  - apply Forall_app in Hp as [Hs Hrest]. destruct (write_str_sends s p Hs) as (p1 & -> & E1).
    destruct (IH p1 Hrest) as (p2 & E2 & E3). exists p2. split; [done|]. by rewrite E3, E1, app_assoc.
Qed.

Lemma serial_print_sends args h :
  line_free h -> Forall plain (concat args) ->
  exists h', serial_print args h = (Ret tt, h') /\ transmitted (concat args) h h'.
Proof.
  intros Hfree Hp. destruct (serial_write_fmt_sends args (contents (SERIAL1 h)) Hp) as (p' & E1 & E2).
  destruct (with_lock_free _ _ (fun p => let '(r, p) := serial_write_fmt args p in (expect r, p)) _ Hfree)
    as (L1 & L2 & L3). rewrite E1 in L1, L2, L3. simpl in L1, L2, L3.
  set (m := with_lock _ (SERIAL1 h)) in *.
  assert (is_locked m.2 = false) as L3' by (apply L3; by exists tt).
  assert (forall c, lock_serial args (put_host_cpu c h) =
            (Ret tt, mkHost (put_cpu c (host_console h)) m.2 (port_writes h))) as Hrun.
  { intros c. unfold lock_serial. cbn [SERIAL1 put_host_cpu host_console port_writes]. fold m.
    destruct m as [r q]. simpl in *. by rewrite L1. }
  unfold serial_print, Sys.without_interrupts. rewrite without_interrupts_run.
  destruct (are_enabled (host_cpu h)) eqn:Hen.
  - rewrite Hrun. eexists. split; [reflexivity|].
    split; unfold line, line_free, host_cpu in *; simpl; [by rewrite L2, E2|done|done|by rewrite enable_sets|done].
  - assert (put_host_cpu (host_cpu h) h = h) as Eh by (destruct h as [[] ? ?]; reflexivity).
    rewrite <- Eh, Hrun. eexists. split; [reflexivity|].
    split; unfold line, line_free, host_cpu in *; simpl; [by rewrite L2, E2|done..].
Qed.

Lemma serial_println_sends args h :
  line_free h -> Forall plain (concat args) ->
  exists h', serial_println args h = (Ret tt, h') /\ transmitted (concat args ++ [10]) h h'.
Proof.
  intros Hfree Hp. destruct (serial_print_sends (args ++ [[10]]) h Hfree) as (h' & E & T);
    rewrite concat_app in *; simpl in *.
  - apply Forall_app. split; [done|]. by repeat constructor.
  - by exists h'.
Qed.

Lemma transmitted_trans bs cs h1 h2 h3 :
  transmitted bs h1 h2 -> transmitted cs h2 h3 -> transmitted (bs ++ cs) h1 h3.
Proof.
  intros [A1 A2 A3 A4 A5] [B1 B2 B3 B4 B5]. split; [by rewrite B1, A1, app_assoc|done|congruence..].
Qed.

(** [exit_qemu] never returns; it leaves the code on the debug port and the
    processor halted. *)
Lemma exit_qemu_stops {A} code h :
  exists h', exit_qemu (A := A) code h = (Stop HltLoop, h') /\
    port_writes h' = port_writes h ++ [(0xf4, QemuExitCode_as_u32 code)] /\
    SERIAL1 h' = SERIAL1 h /\ WRITER (host_console h') = WRITER (host_console h).
Proof. eexists. split; [reflexivity|done]. Qed.

End Proofs.

(** ** Properties *)

(** [serial_println!] sends its text and a newline when the port is unlocked;
    called while the port is locked it spins with nothing sent. *)
Theorem serial_println_spec `{InterruptsLaws} `{MutexLaws} `{SerialLaws} args h :
  Forall plain (concat args) ->
  (is_locked (SERIAL1 h) = false ->
     exists h', serial_println args h = (Ret tt, h') /\ transmitted (concat args ++ [10]) h h') /\
  (is_locked (SERIAL1 h) = true ->
     exists h', serial_println args h = (Stop Deadlock, h') /\ line h' = line h).
Proof.
  intros Hp. split; [intros Hfree; by apply serial_println_sends|]. intros Hheld.
  unfold serial_println, serial_print, Sys.without_interrupts. rewrite without_interrupts_run.
  unfold lock_serial. destruct (are_enabled (host_cpu h)).
  - cbn [SERIAL1 put_host_cpu]. rewrite with_lock_held by done. by eexists.
  - rewrite with_lock_held by done. by eexists.
Qed.

(** The exit code the harness sends for success is the one [Cargo.toml] takes
    for success, and the other is not. *)
Lemma exit_codes_match :
  emulator_status (QemuExitCode_as_u32 Success) = test_success_exit_code /\
  emulator_status (QemuExitCode_as_u32 Failed) <> test_success_exit_code.
Proof. done. Qed.

(** ** A reference port *)
Section Witnesses.
#[local] Existing Instance Ref.interrupts.
#[local] Existing Instance Ref.interrupts_laws.
#[local] Existing Instance Ref.mutexes.
#[local] Existing Instance Ref.mutexes_laws.

(** The line as the list of bytes sent. *)
Definition wire_byte (b : Z) : list Z := if decide (b = 8 \/ b = 127) then [8; 32; 8] else [b].
Definition wire : SerialApi := {|
  SerialPort := list Z;
  SerialPort_new := fun _ => [];
  serial_init := fun p => p;
  serial_write_str := fun s p => (Ok tt, p ++ concat (map wire_byte s));
  sent := fun p => p
|}.

Lemma wire_laws : @SerialLaws wire.
Proof.
  split. intros s p Hs. eexists. split; [reflexivity|]. simpl. f_equal.
  induction Hs as [|b s [Hb1 Hb2] Hs IH]; [done|]. simpl. unfold wire_byte at 1.
  rewrite decide_False by tauto. simpl. by f_equal.
Qed.

#[local] Existing Instance wire.
#[local] Existing Instance wire_laws.

Definition idle_host : Host := mkHost boot_console SERIAL1_init [].

Lemma serial_println_spec_witness :
  exists h', serial_println [str "ok"] idle_host = (Ret tt, h') /\
    line h' = [111; 107; 10].
Proof.
  destruct (serial_println_spec [str "ok"] idle_host) as [Hs _].
  - repeat constructor; discriminate.
  - destruct (Hs eq_refl) as (h' & E & T). exists h'. split; [exact E|]. rewrite (tr_line _ _ _ T). reflexivity.
Defined.

End Witnesses.

End Serial.
