(* ===== verification/Panic.v ===== *)
(** * Panics ([kernel/src/main.rs], [kernel/src/lib.rs])

    Both kernels abort on a panic: the panicking code is left where it is,
    locks it holds stay held, and the panic handler runs.  The kernel's own
    handler prints on the console and halts; the one of the test kernels
    reports on the serial line and ends the emulator. *)
From S2P Require Import Prelude Fmt Platform RefPlatform Sys VgaBuffer Serial.

Module Panic.
Import Fmt Vga Serial.

(** The text of [PanicInfo]: of a panic with a message of its own, and of the
    panics the language and the libraries raise. *)
Class PanicFmt := {
  panic_info : list Z -> list Z;
  panic_message : stop -> list Z
}.

Section Operations.
Context `{InterruptsApi} `{MutexApi} `{SerialApi}.

(** [panic] of [main.rs]. *)
Definition panic {A : Type} (info : list Z) : stateful Host A :=
  _ ← at_console (println [info]);
  host_hlt_loop.

(** [test_panic_handler]. *)
Definition test_panic_handler {A : Type} (info : list Z) : stateful Host A :=
  _ ← serial_println [str "[failed]" ++ [10]];
  _ ← serial_println [str "Error: "; info; [10]];
  exit_qemu Failed.

(** A kernel running [m] with panic handler [handler]. *)
Definition on_panic {A : Type} `{PanicFmt} (handler : list Z -> stateful Host A) (m : stateful Host A)
  : stateful Host A := fun h =>
  match m h with
  | (Stop r, h') => if is_panic r then handler (panic_info (panic_message r)) h' else (Stop r, h')
  | done => done
  end.

End Operations.

Section Proofs.
Context `{InterruptsLaws} `{MutexLaws} `{SerialApi}.

Lemma at_console_ret {A} (f : Console -> outcome A * Console) h a c :
  f (host_console h) = (Ret a, c) -> at_console f h = (Ret a, mkHost c (SERIAL1 h) (port_writes h)).
Proof. unfold at_console. by intros ->. Qed.

(** [h'] is [h] with a line of text printed on the console. *)
Record line_printed (cur : list ScreenChar) (text : list Z) (h h' : Host) : Prop := {
  lp_free : is_locked (WRITER (host_console h')) = false;
  lp_screen : let w := contents (WRITER (host_console h)) in
    buffer (contents (WRITER (host_console h'))) =
      lastn BUFFER_HEIGHT (take (BUFFER_HEIGHT - 1) (buffer w) ++
        render (color_code w) cur (map printable text ++ [10]));
  lp_serial : SERIAL1 h' = SERIAL1 h
}.

(** Steps that leave the console and the line alone keep the text. *)
Lemma line_printed_kept cur text h h1 h2 :
  line_printed cur text h h1 -> WRITER (host_console h2) = WRITER (host_console h1) ->
  SERIAL1 h2 = SERIAL1 h1 -> line_printed cur text h h2.
Proof. intros [P1 P2 P3] Ew Es. split; rewrite ?Ew, ?Es; [exact P1|exact P2|exact P3]. Qed.

Lemma println_prints args h cur :
  is_locked (WRITER (host_console h)) = false -> shows cur (contents (WRITER (host_console h))) ->
  exists h', at_console (println args) h = (Ret tt, h') /\ line_printed cur (concat args) h h' /\
    port_writes h' = port_writes h.
Proof.
  intros Hfree Hs. set (w := contents (WRITER (host_console h))) in *.
  destruct (write_bytes_shows (map printable (concat args) ++ [10]) w cur Hs) as (w' & cur' & E & _ & _ & Eb).
  assert (write_fmt (args ++ [[10]]) w = Ret w') as Ew.
  { by rewrite write_fmt_concat, concat_app, map_app. }
  destruct (critical_section _ (host_console h) w' Hfree Ew) as (k & Ek & Hk1 & Hk2 & _).
  eexists. split; [exact (at_console_ret _ _ _ _ Ek)|]. split; [split|]; simpl; by rewrite ?Hk1.
Qed.

Lemma println_deadlocks args h :
  is_locked (WRITER (host_console h)) = true ->
  exists h', at_console (println args) h = (Stop Deadlock, h') /\
    WRITER (host_console h') = WRITER (host_console h) /\ port_writes h' = port_writes h.
Proof.
  intros Hheld. destruct (print_locked (args ++ [[10]]) (host_console h) Hheld) as (k & Ek & Hk).
  eexists. split; [unfold at_console, println; by rewrite Ek|done].
Qed.

(** The panic handler when the writer is free: the message is on the screen
    and the processor halts. *)
Lemma panic_prints {A} info h cur :
  is_locked (WRITER (host_console h)) = false -> shows cur (contents (WRITER (host_console h))) ->
  exists h', panic (A := A) info h = (Stop HltLoop, h') /\ line_printed cur info h h' /\
    port_writes h' = port_writes h.
Proof.
  intros Hfree Hs. destruct (println_prints [info] h cur Hfree Hs) as (h1 & E1 & [P1 P2 P3] & P4).
  simpl concat in P2. rewrite app_nil_r in P2.
  unfold panic. rewrite (stateful_bind_ret _ _ _ _ _ E1). eexists. split; [reflexivity|]. by split.
Qed.

(** A panic while the console is locked never gets its message out. *)
Lemma panic_deadlocks {A} info h :
  is_locked (WRITER (host_console h)) = true ->
  exists h', panic (A := A) info h = (Stop Deadlock, h') /\
    WRITER (host_console h') = WRITER (host_console h) /\ port_writes h' = port_writes h.
Proof.
  intros Hheld. destruct (println_deadlocks [info] h Hheld) as (h1 & E1 & Hw & Hp).
  exists h1. split; [|done]. unfold panic. by rewrite (stateful_bind_stop _ _ _ _ _ E1).
Qed.

End Proofs.

Section TestProofs.
Context `{InterruptsLaws} `{MutexLaws} `{SerialLaws}.

Lemma test_panic_handler_reports {A} info h :
  line_free h -> Forall plain info ->
  exists h', test_panic_handler (A := A) info h = (Stop HltLoop, h') /\
    line h' = line h ++ str "[failed]" ++ [10; 10] ++ str "Error: " ++ info ++ [10; 10] /\
    port_writes h' = port_writes h ++ [(0xf4, 0x11)] /\
    WRITER (host_console h') = WRITER (host_console h).
Proof.
  intros Hfree Hp.
  destruct (serial_println_sends [str "[failed]" ++ [10]] h Hfree) as (h1 & E1 & T1);
    [by repeat constructor|].
  destruct (serial_println_sends [str "Error: "; info; [10]] h1 (tr_free _ _ _ T1)) as (h2 & E2 & T2).
  { simpl. repeat (constructor; [done|]). apply Forall_app. split; [done|by repeat constructor]. }
  destruct (exit_qemu_stops (A := A) Failed h2) as (h3 & E3 & Hp3 & Hs3 & Hw3).
  pose proof (transmitted_trans _ _ _ _ _ T1 T2) as [T _ Tw _ Tp].
  exists h3. split_and!.
  - unfold test_panic_handler. rewrite (stateful_bind_ret _ _ _ _ _ E1), (stateful_bind_ret _ _ _ _ _ E2). exact E3.
  - unfold line in *. rewrite Hs3, T. f_equal. cbn [concat]. rewrite <- !app_assoc. by simpl.
  - by rewrite Hp3, Tp.
  - by rewrite Hw3, Tw.
Qed.

End TestProofs.

(** ** Properties *)

(** C39: The panic handler prints the message on the screen and halts when the
    console is unlocked; when the panicking code holds the console lock it
    spins for ever and the message is lost. *)
Theorem panic_handler_spec `{InterruptsLaws} `{MutexLaws} `{SerialApi} {A : Type} info h cur :
  shows cur (contents (WRITER (host_console h))) ->
  let w := contents (WRITER (host_console h)) in
  (is_locked (WRITER (host_console h)) = false ->
     exists h', panic (A := A) info h = (Stop HltLoop, h') /\
       buffer (contents (WRITER (host_console h'))) =
         lastn BUFFER_HEIGHT (take (BUFFER_HEIGHT - 1) (buffer w) ++
           render (color_code w) cur (map printable info ++ [10]))) /\
  (is_locked (WRITER (host_console h)) = true ->
     exists h', panic (A := A) info h = (Stop Deadlock, h') /\
       WRITER (host_console h') = WRITER (host_console h)).
Proof.
  intros Hs w. split; intros Hl.
  - destruct (panic_prints (A := A) info h cur Hl Hs) as (h' & E & [_ Eb _] & _). by exists h'.
  - destruct (panic_deadlocks (A := A) info h Hl) as (h' & E & Ew & _). by exists h'.
Qed.

Section Witnesses.
#[local] Existing Instance Ref.interrupts.
#[local] Existing Instance Ref.interrupts_laws.
#[local] Existing Instance Ref.mutexes.
#[local] Existing Instance Ref.mutexes_laws.
#[local] Existing Instance wire.

(** Formatting that shows the message. *)
Definition plain_panic : PanicFmt := {|
  panic_info := fun text => str "panicked: " ++ text;
  panic_message := fun _ => str "runtime error"
|}.

Lemma panic_handler_spec_witness :
  exists h', panic (A := unit) (str "oh no") idle_host = (Stop HltLoop, h') /\
    buffer (contents (WRITER (host_console h'))) =
      lastn 25 (take 24 blank_screen ++ render 14 [] (str "oh no" ++ [10])).
Proof.
  apply (panic_handler_spec (A := unit) (str "oh no") idle_host []); [apply blank_screen_shows|reflexivity].
Defined.

End Witnesses.

End Panic.
