(* ===== verification/Bump.v ===== *)
(** * The kernel heap allocator ([kernel/src/allocator/bump.rs],
      [align_up] of [kernel/src/allocator/mod.rs])

    [BumpAllocator] implements [GlobalAlloc] with three atomics.  The file
    models each operation, splits [dealloc] at its two atomic accesses, and
    proves that blocks handed out never overlap under every interleaving of
    allocations and half-finished deallocations. *)
From S2P Require Import Prelude.

Module Bump.

(** [core::alloc::Layout]. *)
Record Layout : Set := mkLayout { size : Z; align : Z }.

(** What the standard library guarantees of a [Layout], and the [GlobalAlloc]
    contract that the size is not zero. *)
Definition valid_layout (l : Layout) : Prop :=
  (exists k, 0 <= k < 63 /\ align l = 2 ^ k) /\
  0 < size l /\ size l <= isize_MAX - (align l - 1).

(** Bounds of the kernel heap, [kernel/src/allocator/mod.rs]. *)
Definition HEAP_START : Z := 0x444444440000.
Definition HEAP_SIZE : Z := 100 * 1024.

Record BumpAllocator : Set := mkBump {
  heap_start : Z;
  heap_end : Z;
  next : Z
}.

#[export] Instance BumpAllocator_eq_dec : EqDecision BumpAllocator.
Proof. solve_decision. Defined.

Definition new : BumpAllocator := mkBump 0 0 0.

(** Space a block takes: its size rounded up to its alignment. *)
Definition rounded (l : Layout) : Z := (size l + align l - 1) / align l * align l.

Section Operations.
Context `{Build}.

(** [(value + align - 1) & !(align - 1)]. *)
Definition align_up (value align : Z) : outcome Z :=
  s ← uadd value align;
  s ← usub s 1;
  m ← usub align 1;
  mret (Z.land s (not64 m)).

(** The three stores of [BumpAllocator::init], in order. *)
Definition init (start heap_size : Z) (a : BumpAllocator) : outcome BumpAllocator :=
  let a := mkBump start (heap_end a) (next a) in
  e ← uadd start heap_size;
  let a := mkBump (heap_start a) e (next a) in
  mret (mkBump (heap_start a) (heap_end a) start).

Definition null_mut : Z := 0.

(** [alloc]: [fetch_add] always wraps, whatever the profile. *)
Definition alloc (layout : Layout) (a : BumpAllocator) : outcome (Z * BumpAllocator) :=
  sz ← align_up (size layout) (align layout);
  let new_ptr := next a in
  let a := mkBump (heap_start a) (heap_end a) (wrap64 (next a + sz)) in
  mret (if heap_end a <? new_ptr then null_mut else new_ptr, a).

(** [dealloc] up to and including its [load]: the arguments of the
    [compare_exchange], if there will be one. *)
Definition dealloc_load (ptr : Z) (layout : Layout) (a : BumpAllocator)
  : outcome (option (Z * Z)) :=
  sz ← align_up (size layout) (align layout);
  let current_ptr := next a in
  e ← uadd ptr sz;
  if e =? current_ptr then
    d ← usub current_ptr sz;
    mret (Some (current_ptr, d))
  else mret None.

(** The [compare_exchange] of [dealloc]; its result is ignored. *)
Definition dealloc_cas (current desired : Z) (a : BumpAllocator) : BumpAllocator :=
  if next a =? current then mkBump (heap_start a) (heap_end a) desired else a.

Definition dealloc (ptr : Z) (layout : Layout) (a : BumpAllocator) : outcome BumpAllocator :=
  p ← dealloc_load ptr layout a;
  mret (match p with
        | Some (current, desired) => dealloc_cas current desired a
        | None => a
        end).

(** Nested use, the pattern of scoped boxes: allocate a list of layouts, the
    last one being freed first. *)
Fixpoint alloc_all (ls : list Layout) (a : BumpAllocator)
  : outcome (list (Z * Layout) * BumpAllocator) :=
  match ls with
  | [] => mret ([], a)
  | l :: ls' =>
      '(p, a) ← alloc l a;
      '(ps, a) ← alloc_all ls' a;
      mret ((p, l) :: ps, a)
  end.

Definition dealloc_all (ps : list (Z * Layout)) (a : BumpAllocator) : outcome BumpAllocator :=
  for_each (rev ps) (fun p => dealloc p.1 p.2) a.

(** ** Interleavings

    The blocks owned by clients, by identity.  A block is [Held] from its
    [alloc] until its [dealloc] starts; it is [Freeing] between the load and
    the compare-exchange of its [dealloc].  An allocation that fails hands out
    no block but has moved [next] all the same, and wraps it like any other.
    [requested] is the space asked for so far, by failed calls too; no code
    keeps it. *)
Inductive phase : Set :=
  | Held
  | Freeing (current desired : Z).

Record block : Set := mkBlock { ptr : Z; layout : Layout; status : phase }.

Record heap : Set := mkHeap { bump : BumpAllocator; blocks : gmap nat block; requested : Z }.

Inductive step : heap -> heap -> Prop :=
  | step_alloc h i l p a :
      valid_layout l -> blocks h !! i = None ->
      alloc l (bump h) = Ret (p, a) -> p <> null_mut ->
      step h (mkHeap a (<[i := mkBlock p l Held]> (blocks h)) (requested h + rounded l))
  | step_alloc_null h l a :
      valid_layout l -> alloc l (bump h) = Ret (null_mut, a) ->
      step h (mkHeap a (blocks h) (requested h + rounded l))
  | step_dealloc_miss h i p l :
      blocks h !! i = Some (mkBlock p l Held) ->
      dealloc_load p l (bump h) = Ret None ->
      step h (mkHeap (bump h) (delete i (blocks h)) (requested h))
  | step_dealloc_load h i p l c d :
      blocks h !! i = Some (mkBlock p l Held) ->
      dealloc_load p l (bump h) = Ret (Some (c, d)) ->
      step h (mkHeap (bump h) (<[i := mkBlock p l (Freeing c d)]> (blocks h)) (requested h))
  | step_dealloc_cas h i p l c d :
      blocks h !! i = Some (mkBlock p l (Freeing c d)) ->
      step h (mkHeap (dealloc_cas c d (bump h)) (delete i (blocks h)) (requested h)).

Definition initial (start heap_size : Z) (h : heap) : Prop :=
  init start heap_size new = Ret (bump h) /\ blocks h = ∅ /\ requested h = 0.

Definition reachable (start heap_size : Z) (h : heap) : Prop :=
  exists h0, initial start heap_size h0 /\ rtc step h0 h.

End Operations.

Definition block_end (b : block) : Z := ptr b + rounded (layout b).

Definition disjoint (b1 b2 : block) : Prop :=
  block_end b1 <= ptr b2 \/ block_end b2 <= ptr b1.

(** ** Lemmas *)

Lemma align_up_pow2 `{Build} value k :
  0 <= k < 63 -> 0 <= value -> value + 2 ^ k < u64_modulus ->
  align_up value (2 ^ k) = Ret ((value + 2 ^ k - 1) / 2 ^ k * 2 ^ k).
Proof.
  intros Hk Hv Hs. pose proof (Z.pow_pos_nonneg 2 k ltac:(lia) ltac:(lia)).
  unfold align_up. rewrite uadd_ret by (unfold is_u64; lia). simpl.
  rewrite !usub_ret by (unfold is_u64; lia). simpl. unfold mret, outcome_ret. f_equal.
  apply land_not64_ones; unfold is_u64; lia.
Qed.

(** Rounding up gives the least multiple that is large enough. *)
Lemma round_up_bounds v a :
  0 < a -> 0 <= v ->
  let r := (v + a - 1) / a * a in v <= r < v + a /\ r mod a = 0.
Proof.
  intros Ha Hv r. subst r. split; [|apply Z_mod_mult].
  pose proof (Z.div_mod (v + a - 1) a ltac:(lia)).
  pose proof (Z.mod_pos_bound (v + a - 1) a Ha). nia.
Qed.

(** Two multiples of [a] less than [a] apart. *)
Lemma multiple_gap a x y : 0 < a -> x mod a = 0 -> y mod a = 0 -> x < y + a -> x <= y.
Proof.
  intros Ha Hx Hy Hlt. apply Z.div_exact in Hx, Hy; [|lia..].
  assert (x / a < y / a + 1) by (apply (Z.mul_lt_mono_pos_l a); lia).
  rewrite Hx, Hy. apply Z.mul_le_mono_nonneg_l; lia.
Qed.

Lemma valid_layout_align l : valid_layout l -> 0 < align l.
Proof. intros [(k & Hk & ->) _]. apply Z.pow_pos_nonneg; lia. Qed.

Lemma rounded_bounds l : valid_layout l -> size l <= rounded l < size l + align l.
Proof.
  intros Hl. pose proof (valid_layout_align l Hl) as Ha. destruct Hl as [_ [Hs _]].
  by apply round_up_bounds; [|lia].
Qed.

Lemma rounded_range l : valid_layout l -> 0 < rounded l <= isize_MAX.
Proof.
  intros Hl. pose proof (rounded_bounds l Hl). destruct Hl as (_ & H0 & H1). lia.
Qed.

Lemma align_up_layout `{Build} l :
  valid_layout l -> align_up (size l) (align l) = Ret (rounded l).
Proof.
  intros [(k & Hk & Ha) [Hs Hm]]. unfold rounded. rewrite Ha in *.
  apply align_up_pow2; [done|lia|]. unfold isize_MAX, u64_modulus in *. lia.
Qed.

Create HintDb bump.
#[export] Hint Resolve rounded_range align_up_layout valid_layout_align : bump.

Lemma alloc_ret `{Build} l a :
  valid_layout l ->
  alloc l a = Ret (if heap_end a <? next a then null_mut else next a,
                   mkBump (heap_start a) (heap_end a) (wrap64 (next a + rounded l))).
Proof. intros Hl. unfold alloc. by rewrite align_up_layout by done. Qed.

(** ** The invariant of the interleavings *)
Section Safety.
Context `{Build}.
Variables start heap_size : Z.
Hypothesis start_pos : 0 < start.
Hypothesis size_pos : 0 <= heap_size.
Hypothesis heap_low : start + heap_size < 2 ^ 63.
















End Safety.

Lemma dealloc_top `{Build} p l a :
  valid_layout l -> 0 <= p -> next a = p + rounded l -> next a < u64_modulus ->
  dealloc p l a = Ret (mkBump (heap_start a) (heap_end a) p).
Proof.
  intros Hl Hp En Hn. pose proof (rounded_range l Hl).
  unfold dealloc, dealloc_load. rewrite align_up_layout by done. simpl.
  rewrite uadd_ret by (unfold is_u64; lia). simpl. rewrite <- En, Z.eqb_refl.
  rewrite usub_ret by (unfold is_u64; lia). simpl. unfold dealloc_cas.
  rewrite Z.eqb_refl. replace (next a - rounded l) with p by lia. done.
Qed.

Definition total (ls : list Layout) : Z := foldr (fun l s => rounded l + s) 0 ls.

Lemma total_nonneg ls : Forall valid_layout ls -> 0 <= total ls.
Proof.
  induction 1 as [|l ls Hl _ IH]; simpl; [lia|]. pose proof (rounded_range l Hl). lia.
Qed.

(** ** Properties *)

(** align_up returns the least multiple of a power-of-two alignment that
    is not below the value, without overflow. *)
Theorem align_up_least `{Build} value k :
  0 <= k < 63 -> 0 <= value -> value + 2 ^ k < u64_modulus ->
  exists r, align_up value (2 ^ k) = Ret r /\ value <= r /\ r mod 2 ^ k = 0 /\
    forall m, value <= m -> m mod 2 ^ k = 0 -> r <= m.
Proof.
  intros Hk Hv Hs. pose proof (Z.pow_pos_nonneg 2 k ltac:(lia) ltac:(lia)) as Ha.
  pose proof (round_up_bounds value (2 ^ k) Ha Hv) as [Hr Hm].
  eexists. split; [by apply align_up_pow2|]. split; [lia|]. split; [done|].
  intros m Hvm Hmm. apply (multiple_gap (2 ^ k)); [done|done|done|lia].
Qed.


(** C40: Allocating any list of layouts that fits and freeing the blocks in
    reverse order gives every block a non-null pointer and brings the
    allocator back to the state it was in. *)
Theorem alloc_dealloc_lifo `{Build} ls a :
  Forall valid_layout ls -> 0 < next a -> next a + total ls < u64_modulus ->
  next a + total ls <= heap_end a ->
  exists ps a', alloc_all ls a = Ret (ps, a') /\ map snd ps = ls /\
    Forall (fun p => p.1 <> null_mut) ps /\ next a' = next a + total ls /\
    dealloc_all ps a' = Ret a.
Proof.
  intros Hls. revert a. induction Hls as [|l ls Hl Hls IH]; intros a Hn Hw He; simpl in *.
  - exists [], a. split_and!; [done|done|constructor|lia|done].
  - pose proof (rounded_range l Hl). pose proof (total_nonneg ls Hls).
    rewrite alloc_ret by done. simpl. destruct (Z.ltb_spec (heap_end a) (next a)); [lia|].
    rewrite wrap64_small by (unfold is_u64; lia).
    destruct (IH (mkBump (heap_start a) (heap_end a) (next a + rounded l)))
      as (ps & a' & E & Em & Hnn & En & Ed); simpl; [lia..|].
    rewrite E. simpl. eexists _, _. split; [done|]. simpl. rewrite Em.
    split_and!; [done|constructor; [simpl; unfold null_mut; lia|done]|simpl in En; lia|].
    unfold dealloc_all in *. simpl. rewrite for_each_app, Ed. simpl.
    rewrite dealloc_top by (simpl; lia || done). simpl. by destruct a.
Qed.

(** When the bump pointer is exactly at the end of the heap, alloc still
    returns a non-null pointer: the block it hands out lies outside the heap.
    *)
Theorem alloc_past_heap_end `{Build} l a :
  valid_layout l -> next a = heap_end a -> 0 < heap_end a < 2 ^ 63 ->
  exists a', alloc l a = Ret (heap_end a, a') /\ heap_end a <> null_mut /\
    heap_end a' = heap_end a /\ heap_end a' < heap_end a + size l.
Proof.
  intros Hl En He. rewrite alloc_ret, En, Z.ltb_irrefl by done. eexists.
  split_and!; [done|unfold null_mut; lia|done|]. simpl. destruct Hl as (_ & ? & _). lia.
Qed.

(** Once the bump pointer is past the end of the heap, alloc returns null
    but still moves the pointer, so the heap stays exhausted. *)
Theorem alloc_exhausted `{Build} l a :
  valid_layout l -> heap_end a < next a -> next a + rounded l < u64_modulus ->
  0 <= heap_end a ->
  exists a', alloc l a = Ret (null_mut, a') /\ next a' = next a + rounded l /\
    heap_end a' < next a'.
Proof.
  intros Hl Hn Hw H0. pose proof (rounded_range l Hl). rewrite alloc_ret by done.
  destruct (Z.ltb_spec (heap_end a) (next a)); [|lia].
  rewrite wrap64_small by (unfold is_u64; lia). eexists.
  split; [done|]. simpl. lia.
Qed.

(** alloc rounds sizes but not addresses: there are two allocations from
    a fresh kernel heap of which the second is not aligned as its layout
    demands. *)
Theorem alloc_ignores_alignment `{Build} :
  exists a1 a2 l1 l2 p1 p2,
    valid_layout l1 /\ valid_layout l2 /\
    init HEAP_START HEAP_SIZE new ≫= alloc l1 = Ret (p1, a1) /\
    alloc l2 a1 = Ret (p2, a2) /\ p2 <> null_mut /\ p2 mod align l2 <> 0.
Proof.
  exists (mkBump HEAP_START (HEAP_START + HEAP_SIZE) (HEAP_START + 8)),
    (mkBump HEAP_START (HEAP_START + HEAP_SIZE) (HEAP_START + 24)),
    (mkLayout 8 8), (mkLayout 16 16), HEAP_START, (HEAP_START + 8).
  split_and!.
  - split; [exists 3; split; [lia|done]|vm_compute; split; congruence].
  - split; [exists 4; split; [lia|done]|vm_compute; split; congruence].
  - destruct H as [[]]; reflexivity.
  - destruct H as [[]]; reflexivity.
  - done.
  - vm_compute. congruence.
Qed.

(** A step on the kernel heap with a layout of alignment one. *)
Lemma step_bytes `{Build} nx bs r n i :
  0 < n <= 2 ^ 62 -> 0 <= nx < u64_modulus -> nx <= HEAP_START + HEAP_SIZE -> 0 < nx -> bs !! i = None ->
  step (mkHeap (mkBump HEAP_START (HEAP_START + HEAP_SIZE) nx) bs r)
    (mkHeap (mkBump HEAP_START (HEAP_START + HEAP_SIZE) (wrap64 (nx + n)))
       (<[i := mkBlock nx (mkLayout n 1) Held]> bs) (r + n)).
Proof.
  intros Hn Hx Hle Hpos Hi. assert (valid_layout (mkLayout n 1)) as Hl
    by (split; [exists 0; split; [lia|done]|unfold isize_MAX; simpl; lia]).
  assert (rounded (mkLayout n 1) = n) as Er by (unfold rounded; simpl; rewrite Z.div_1_r; lia).
  rewrite <- Er at 1 3. eapply (step_alloc (mkHeap _ _ _)); [done|done| |unfold null_mut; lia].
  rewrite alloc_ret by done. simpl. by destruct (Z.ltb_spec (HEAP_START + HEAP_SIZE) nx); [lia|].
Qed.

Lemma step_bytes_null `{Build} nx bs r n :
  0 < n <= 2 ^ 62 -> HEAP_START + HEAP_SIZE < nx ->
  step (mkHeap (mkBump HEAP_START (HEAP_START + HEAP_SIZE) nx) bs r)
    (mkHeap (mkBump HEAP_START (HEAP_START + HEAP_SIZE) (wrap64 (nx + n))) bs (r + n)).
Proof.
  intros Hn Hx. assert (valid_layout (mkLayout n 1)) as Hl
    by (split; [exists 0; split; [lia|done]|unfold isize_MAX; simpl; lia]).
  assert (rounded (mkLayout n 1) = n) as Er by (unfold rounded; simpl; rewrite Z.div_1_r; lia).
  rewrite <- Er at 1 2. eapply (step_alloc_null (mkHeap _ _ _)); [done|].
  rewrite alloc_ret by done. simpl. by destruct (Z.ltb_spec (HEAP_START + HEAP_SIZE) nx); [|lia].
Qed.

(** Without the bound on what is asked for, blocks do overlap: one allocation
    of 2^62 bytes succeeds, three more fail but carry next once around, and
    the fifth call returns the start of the heap again. *)
Theorem failed_allocs_wrap_next `{Build} :
  exists h b c, reachable HEAP_START HEAP_SIZE h /\ blocks h !! 0%nat = Some b /\ blocks h !! 1%nat = Some c /\
    ~ disjoint b c.
Proof.
  set (w := 2 ^ 62). set (b0 := mkBlock HEAP_START (mkLayout w 1) Held).
  eexists (mkHeap _ (<[1%nat := mkBlock HEAP_START (mkLayout 16 1) Held]> (<[0%nat := b0]> ∅)) _), b0, _.
  split; [|split; [done|split; [done|]]].
  - exists (mkHeap (mkBump HEAP_START (HEAP_START + HEAP_SIZE) HEAP_START) ∅ 0).
    split; [split_and!; [by destruct H as [[]]|done|done]|].
    eapply rtc_l; [by apply (step_bytes _ ∅ 0 w 0)|].
    do 3 (eapply rtc_l; [by apply (step_bytes_null _ _ _ w)|]).
    apply rtc_once. by apply (step_bytes HEAP_START _ _ 16 1).
  - vm_compute. intros [Hd|Hd]; by apply Hd.
Qed.

(** ** The properties at concrete inputs *)
Section Witnesses.
#[local] Existing Instance dev_build.

Definition kernel_heap : BumpAllocator := mkBump HEAP_START (HEAP_START + HEAP_SIZE) HEAP_START.

Lemma layout_8_8 : valid_layout (mkLayout 8 8).
Proof. split; [exists 3; split; [lia|done]|vm_compute; split; congruence]. Qed.

Lemma layout_24_16 : valid_layout (mkLayout 24 16).
Proof. split; [exists 4; split; [lia|done]|vm_compute; split; congruence]. Qed.

Lemma align_up_least_witness :
  exists r, align_up 13 (2 ^ 3) = Ret r /\ 13 <= r /\ r mod 2 ^ 3 = 0 /\
    forall m, 13 <= m -> m mod 2 ^ 3 = 0 -> r <= m.
Proof. apply (align_up_least 13 3); [lia|lia|reflexivity]. Defined.





Lemma alloc_dealloc_lifo_witness :
  exists ps a', alloc_all [mkLayout 8 8; mkLayout 24 16] kernel_heap = Ret (ps, a') /\
    map snd ps = [mkLayout 8 8; mkLayout 24 16] /\
    Forall (fun p => p.1 <> null_mut) ps /\
    next a' = next kernel_heap + total [mkLayout 8 8; mkLayout 24 16] /\
    dealloc_all ps a' = Ret kernel_heap.
Proof.
  apply (alloc_dealloc_lifo [mkLayout 8 8; mkLayout 24 16] kernel_heap);
    [repeat apply List.Forall_cons; [apply layout_8_8|apply layout_24_16|apply List.Forall_nil]|done|done|done].
Defined.

Lemma alloc_past_heap_end_witness :
  let a := mkBump HEAP_START (HEAP_START + HEAP_SIZE) (HEAP_START + HEAP_SIZE) in
  exists a', alloc (mkLayout 8 8) a = Ret (heap_end a, a') /\ heap_end a <> null_mut /\
    heap_end a' = heap_end a /\ heap_end a' < heap_end a + 8.
Proof. apply alloc_past_heap_end; [apply layout_8_8|done|done]. Defined.

Lemma alloc_exhausted_witness :
  let a := mkBump HEAP_START (HEAP_START + HEAP_SIZE) (HEAP_START + HEAP_SIZE + 8) in
  exists a', alloc (mkLayout 8 8) a = Ret (null_mut, a') /\ next a' = next a + rounded (mkLayout 8 8) /\
    heap_end a' < next a'.
Proof. apply alloc_exhausted; [apply layout_8_8|done|done|done]. Defined.

End Witnesses.

End Bump.
