(* ===== verification/FrameAlloc.v ===== *)
(** * The physical frame allocator ([kernel/src/memory.rs])

    [BootInfoFrameAllocator] walks the usable regions of the bootloader's
    memory map.  The file models its iterator chain and its counter, and
    proves that it implements [FrameSource]: the interface the heap and the
    ELF loader are verified against. *)
From S2P Require Import Prelude Platform RefPlatform.

Module FrameAlloc.

(** [(lo..hi).step_by(step)] over [u64]. *)
Definition step_by (lo hi step : Z) : list Z :=
  (fun i => lo + step * i) <$> seqZ 0 (if lo <? hi then (hi - lo + step - 1) / step else 0).

(** [Iterator::nth] of an iterator whose items may stop: the skipped items
    are computed too. *)
Fixpoint iter_nth {A} (n : nat) (l : list (outcome A)) : outcome (option A) :=
  match l with
  | [] => mret None
  | m :: l' =>
      a ← m;
      match n with
      | O => mret (Some a)
      | S n' => iter_nth n' l'
      end
  end.

Section Allocator.
Context `{Build} `{AddrApi} `{BootInfoApi}.

Record BootInfoFrameAllocator : Type := mkFrames {
  memory_map : list MemoryRegion;
  next : Z
}.

Definition init (map : list MemoryRegion) : BootInfoFrameAllocator := mkFrames map 0.

(** The start addresses of the frames of the usable regions. *)
Definition frame_addresses (map : list MemoryRegion) : list Z :=
  r ← base.filter (fun r => region_is_usable r = true) map;
  step_by (range_start_addr r) (range_end_addr r) 4096.

(** [usable_frames], the lazy iterator. *)
Definition usable_frames (s : BootInfoFrameAllocator) : list (outcome Z) :=
  (fun addr => a ← PhysAddr_new addr; mret (PhysFrame_containing_address a))
    <$> frame_addresses (memory_map s).

Definition allocate (s : BootInfoFrameAllocator) : outcome (option Z * BootInfoFrameAllocator) :=
  frame ← iter_nth (Z.to_nat (next s)) (usable_frames s);
  n ← uadd (next s) 1;
  mret (frame, mkFrames (memory_map s) n).

(** [n] calls in a row. *)
Fixpoint allocate_many (n : nat) (s : BootInfoFrameAllocator)
  : outcome (list (option Z) * BootInfoFrameAllocator) :=
  match n with
  | O => mret ([], s)
  | S n' =>
      '(f, s) ← allocate s;
      '(fs, s) ← allocate_many n' s;
      mret (f :: fs, s)
  end.

#[export] Instance BootInfoFrameAllocator_trait : FrameAllocator BootInfoFrameAllocator :=
  {| allocate_frame := allocate |}.

End Allocator.

(** ** The frames of a memory map *)

Lemma elem_of_step_by lo hi step x :
  0 < step -> x ∈ step_by lo hi step <-> exists i, 0 <= i /\ x = lo + step * i /\ x < hi.
Proof.
  intros Hs. unfold step_by. rewrite list_elem_of_fmap. setoid_rewrite elem_of_seqZ.
  assert (forall i, 0 <= i -> (lo + step * i < hi <->
            i < (if lo <? hi then (hi - lo + step - 1) / step else 0))) as Hb.
  { intros i Hi. destruct (Z.ltb_spec lo hi).
    - split; intros Hlt.
      + assert (i + 1 <= (hi - lo + step - 1) / step)
          by (apply Z.div_le_lower_bound; nia). lia.
      + pose proof (Z.mul_div_le (hi - lo + step - 1) step Hs). nia.
    - nia. }
  split.
  - intros (i & -> & Hi). exists i. rewrite Hb; lia.
  - intros (i & Hi & -> & Hlt). exists i. apply Hb in Hlt; [lia|done].
Qed.

Lemma NoDup_step_by lo hi step : 0 < step -> NoDup (step_by lo hi step).
Proof.
  intros Hs. unfold step_by. apply NoDup_fmap_2; [|apply NoDup_seqZ].
  intros i j E. nia.
Qed.

Section Proofs.
Context `{Build} `{AddrLaws} `{BootInfoLaws}.

Definition regions_disjoint (r1 r2 : MemoryRegion) : Prop :=
  range_end_addr r1 <= range_start_addr r2 \/ range_end_addr r2 <= range_start_addr r1.

(** The caller's obligation in the safety comment of [init]: the usable
    regions are memory, and no frame belongs to two of them. *)
Record valid_map (map : list MemoryRegion) : Prop := {
  valid_bounds : forall r, r ∈ map -> region_is_usable r = true ->
    0 <= range_start_addr r /\ range_end_addr r <= 2 ^ 52;
  valid_disjoint : List.ForallOrdPairs regions_disjoint
    (base.filter (fun r => region_is_usable r = true) map)
}.

Lemma elem_of_frame_addresses map f :
  f ∈ frame_addresses map <->
  exists r, r ∈ map /\ region_is_usable r = true /\
    range_start_addr r <= f < range_end_addr r /\ f mod PAGE_SIZE = 0.
Proof.
  unfold frame_addresses. rewrite list_elem_of_bind.
  setoid_rewrite list_elem_of_filter. setoid_rewrite elem_of_step_by; [|lia].
  unfold PAGE_SIZE. split.
  - intros (r & (i & Hi & -> & Hlt) & Hu & Hr). exists r. split_and!; [done|done|lia|done|].
    rewrite Z.mul_comm, Z_mod_plus_full. apply range_aligned.
  - intros (r & Hr & Hu & Hf & Hm). exists r. split; [|done].
    pose proof (proj1 (range_aligned r)) as Hs. unfold PAGE_SIZE in Hs.
    exists ((f - range_start_addr r) / 4096).
    assert ((f - range_start_addr r) mod 4096 = 0) as Hd.
    { by rewrite Zminus_mod, Hm, Hs. }
    apply Z.div_exact in Hd; [|lia]. split_and!; [|lia|lia].
    apply Z.div_pos; lia.
Qed.

Lemma frame_addresses_cons r map :
  frame_addresses (r :: map) =
  (if region_is_usable r then step_by (range_start_addr r) (range_end_addr r) 4096 else [])
  ++ frame_addresses map.
Proof.
  unfold frame_addresses. rewrite filter_cons.
  destruct (region_is_usable r); by case_decide.
Qed.

Lemma NoDup_frame_addresses map : valid_map map -> NoDup (frame_addresses map).
Proof.
  intros [_ Hd]. induction map as [|r map IH]; [constructor|].
  rewrite frame_addresses_cons. rewrite filter_cons in Hd.
  destruct (region_is_usable r) eqn:Hu; case_decide; [|done|done|by apply IH].
  inversion Hd as [|? ? Hr Hrest]; subst. apply NoDup_app. split_and!.
  - apply NoDup_step_by. lia.
  - intros f Hf Hf'. apply elem_of_step_by in Hf as (i & Hi & -> & Hlt); [|lia].
    apply elem_of_frame_addresses in Hf' as (r' & Hr' & Hu' & Hin & _).
    rewrite Forall_forall in Hr.
    destruct (Hr r') as [|]; [by apply list_elem_of_filter|lia..].
  - by apply IH.
Qed.

Lemma frame_addresses_frames map : valid_map map -> Forall is_frame (frame_addresses map).
Proof.
  intros [Hb _]. apply Forall_forall. intros f Hf.
  apply elem_of_frame_addresses in Hf as (r & Hr & Hu & Hin & Hm).
  destruct (Hb r Hr Hu). unfold is_frame. split; [lia|done].
Qed.

(** Distinct aligned addresses below [2^52]: the counter cannot overflow
    while it walks them. *)
Lemma length_frame_addresses map :
  valid_map map -> Z.of_nat (length (frame_addresses map)) <= 2 ^ 52.
Proof.
  intros Hv. assert (frame_addresses map ⊆+ seqZ 0 (2 ^ 52)) as Hsub.
  { apply NoDup_submseteq; [by apply NoDup_frame_addresses|].
    intros f Hf. apply elem_of_seqZ.
    pose proof (frame_addresses_frames map Hv) as Hfr. rewrite Forall_forall in Hfr.
    destruct (Hfr f Hf) as [? _]. lia. }
  apply submseteq_length in Hsub. rewrite length_seqZ in Hsub. lia.
Qed.

Lemma usable_frames_ret s :
  valid_map (memory_map s) -> usable_frames s = Ret <$> frame_addresses (memory_map s).
Proof.
  intros Hv. unfold usable_frames. apply list_fmap_ext. intros i f Hf.
  pose proof (frame_addresses_frames _ Hv) as Hfr. rewrite Forall_lookup in Hfr.
  destruct (Hfr i f Hf) as [Hr Hm].
  rewrite phys_new_spec by done. simpl. rewrite frame_containing_spec by done.
  unfold mret, outcome_ret, align_down. f_equal. lia.
Qed.

Lemma iter_nth_ret {A} n (l : list A) : iter_nth n (Ret <$> l) = Ret (l !! n).
Proof. revert n. induction l as [|x l IH]; intros [|n]; try done. apply IH. Qed.

Lemma allocate_ret s :
  valid_map (memory_map s) -> 0 <= next s -> next s + 1 < u64_modulus ->
  allocate s = Ret (frame_addresses (memory_map s) !! Z.to_nat (next s),
                    mkFrames (memory_map s) (next s + 1)).
Proof.
  intros Hv H0' Hn. unfold allocate. rewrite usable_frames_ret, iter_nth_ret by done. simpl.
  by rewrite uadd_ret by (unfold is_u64; lia).
Qed.

Definition frames_ok (s : BootInfoFrameAllocator) : Prop :=
  valid_map (memory_map s) /\
  0 <= next s <= Z.of_nat (length (frame_addresses (memory_map s))).

Definition frames_free (s : BootInfoFrameAllocator) : list Z :=
  drop (Z.to_nat (next s)) (frame_addresses (memory_map s)).

Lemma frames_ok_allocate s :
  frames_ok s ->
  allocate s = Ret (head (frames_free s), mkFrames (memory_map s) (next s + 1)).
Proof.
  intros [Hv Hn]. pose proof (length_frame_addresses _ Hv).
  rewrite allocate_ret by (done || (unfold u64_modulus; lia)).
  unfold frames_free. by rewrite head_lookup, lookup_drop, Nat.add_0_r.
Qed.

(** [BootInfoFrameAllocator] implements the interface of a frame source. *)
#[export] Program Instance BootInfoFrameAllocator_source :
  FrameSource BootInfoFrameAllocator := {|
    source_ok := frames_ok;
    free := frames_free
  |}.
Next Obligation.
  intros s [Hv _]. unfold frames_free. pose proof (NoDup_frame_addresses _ Hv) as Hnd.
  rewrite <- (take_drop (Z.to_nat (next s))) in Hnd. apply NoDup_app in Hnd. apply Hnd.
Qed.
Next Obligation.
  intros s [Hv _]. apply Forall_drop. by apply frame_addresses_frames.
Qed.
Next Obligation.
  intros s f fs Hok Hf. pose proof Hok as [Hv Hn].
  assert (length (frames_free s) = S (length fs)) as Hlen by (by rewrite Hf).
  unfold frames_free in Hlen. rewrite length_drop in Hlen.
  eexists. split; [|split].
  - simpl. rewrite frames_ok_allocate by done. by rewrite Hf.
  - split; [done|]. simpl. lia.
  - unfold frames_free in *. simpl. rewrite Z2Nat.inj_add, <- drop_drop, Hf by lia. done.
Qed.
Next Obligation.
  intros s Hok Hf. eexists. simpl. rewrite frames_ok_allocate by done. by rewrite Hf.
Qed.

Lemma allocate_many_ret n s :
  valid_map (memory_map s) -> 0 <= next s -> next s + Z.of_nat n < u64_modulus ->
  exists s', allocate_many n s =
    Ret ((fun i => frame_addresses (memory_map s) !! i) <$> seq (Z.to_nat (next s)) n, s').
Proof.
  intros Hv. revert s Hv. induction n as [|n IH]; intros s Hv H0' Hn; [by exists s|].
  simpl. rewrite allocate_ret by (done || lia). simpl.
  destruct (IH (mkFrames (memory_map s) (next s + 1))) as [s' E]; simpl; [done|lia|lia|].
  rewrite E. exists s'. simpl. unfold mret, outcome_ret. do 5 f_equal. lia.
Qed.

End Proofs.

(** ** Properties *)

(** C10: Any number of calls of allocate_frame on a valid memory map never
    hand out a frame twice; every frame is page aligned and inside a usable
    region; once the allocator answers None it answers None for ever, and by
    then every frame of every usable region has been handed out. *)
Theorem frames_handed_out_once `{Build} `{AddrLaws} `{BootInfoLaws} map n :
  valid_map map -> Z.of_nat n < u64_modulus ->
  exists fs s', allocate_many n (init map) = Ret (fs, s') /\ length fs = n /\
    (forall i j f, fs !! i = Some (Some f) -> fs !! j = Some (Some f) -> i = j) /\
    (forall i f, fs !! i = Some (Some f) -> is_frame f /\
       exists r, r ∈ map /\ region_is_usable r = true /\
         range_start_addr r <= f /\ f + PAGE_SIZE <= range_end_addr r) /\
    (forall i, fs !! i = Some None -> forall j, (i <= j < n)%nat -> fs !! j = Some None) /\
    (forall i r f, fs !! i = Some None -> r ∈ map -> region_is_usable r = true ->
       range_start_addr r <= f < range_end_addr r -> f mod PAGE_SIZE = 0 -> Some f ∈ fs).
Proof.
  intros Hv Hn. destruct (allocate_many_ret n (init map)) as [s' E]; [done|done|done|].
  simpl in E. set (F := frame_addresses map) in *.
  exists ((fun i => F !! i) <$> seq 0 n), s'. rewrite length_fmap, length_seq.
  assert (forall i o, ((fun i => F !! i) <$> seq 0 n) !! i = Some o <-> F !! i = o /\ (i < n)%nat) as Hl.
  { intros i o. rewrite list_lookup_fmap_Some. setoid_rewrite lookup_seq.
    split; [by intros (k & -> & -> & Hk)|by intros [<- Hi]; exists i]. }
  split; [done|]. split; [done|]. setoid_rewrite Hl. split_and!.
  - intros i j f [Hi _] [Hj _]. eapply NoDup_lookup; [by apply NoDup_frame_addresses|done|done].
  - intros i f [Hi _]. assert (f ∈ F) as Hf by (by eapply list_elem_of_lookup_2). split.
    + pose proof (frame_addresses_frames map Hv) as Hfr. rewrite Forall_forall in Hfr. by apply Hfr.
    + apply elem_of_frame_addresses in Hf as (r & Hr & Hu & Hin & Hm). exists r.
      split_and!; [done|done|lia|]. destruct (range_aligned r) as [_ He]. unfold PAGE_SIZE in *.
      apply Z.div_exact in Hm, He; lia.
  - intros i [Hi _] j Hj. split; [|lia]. apply lookup_ge_None in Hi. apply lookup_ge_None. lia.
  - intros i r f [Hi Hin] Hr Hu Hf Hm. apply list_elem_of_fmap.
    assert (f ∈ F) as Hf' by (apply elem_of_frame_addresses; eauto).
    apply list_elem_of_lookup_1 in Hf' as [k Hk]. exists k. split; [done|].
    apply elem_of_seq. apply lookup_ge_None in Hi. apply lookup_lt_Some in Hk. lia.
Qed.

(** ** The properties at a concrete memory map *)
Section Witnesses.
#[local] Existing Instance dev_build.
#[local] Existing Instance Ref.addresses.
#[local] Existing Instance Ref.addresses_laws.
#[local] Existing Instance Ref.boot_info.
#[local] Existing Instance Ref.boot_info_laws.

(** Sixty-four frames at 1 MiB, a reserved hole, one frame after it. *)
Definition small_map : list MemoryRegion :=
  [(true, 256, 320); (false, 320, 400); (true, 400, 401)].

Lemma small_map_valid : valid_map small_map.
Proof.
  split.
  - intros r Hr _. repeat (apply elem_of_cons in Hr as [->|Hr]; [vm_compute; split; congruence|]).
    by apply elem_of_nil in Hr.
  - change (base.filter _ small_map) with [(true, 256, 320); (true, 400, 401)].
    repeat constructor. vm_compute. congruence.
Qed.

(** One megabyte of usable memory, enough for the kernel heap. *)
Definition boot_map : list MemoryRegion := [(false, 0, 256); (true, 256, 512)].

Lemma boot_map_valid : valid_map boot_map.
Proof.
  split.
  - intros r Hr _. repeat (apply elem_of_cons in Hr as [->|Hr]; [vm_compute; split; congruence|]).
    by apply elem_of_nil in Hr.
  - change (base.filter _ boot_map) with [(true, 256, 512)]. repeat constructor.
Qed.

Lemma boot_map_ok : source_ok (init boot_map).
Proof. split; [apply boot_map_valid|]. vm_compute. split; congruence. Qed.

Lemma boot_map_free : length (free (init boot_map)) = 256%nat.
Proof. vm_compute. reflexivity. Qed.

Lemma frames_handed_out_once_witness :
  exists fs s', allocate_many 66 (init small_map) = Ret (fs, s') /\ length fs = 66%nat /\
    (forall i j f, fs !! i = Some (Some f) -> fs !! j = Some (Some f) -> i = j) /\
    (forall i f, fs !! i = Some (Some f) -> is_frame f /\
       exists r, r ∈ small_map /\ region_is_usable r = true /\
         range_start_addr r <= f /\ f + PAGE_SIZE <= range_end_addr r) /\
    (forall i, fs !! i = Some None -> forall j, (i <= j < 66)%nat -> fs !! j = Some None) /\
    (forall i r f, fs !! i = Some None -> r ∈ small_map -> region_is_usable r = true ->
       range_start_addr r <= f < range_end_addr r -> f mod PAGE_SIZE = 0 -> Some f ∈ fs).
Proof. apply (frames_handed_out_once small_map 66); [apply small_map_valid|done]. Defined.

End Witnesses.

End FrameAlloc.
