(* ===== verification/Paging.v ===== *)
(** * Mapping fresh pages

    The heap, the user stack and the ELF loader all map pages the same way:
    take a frame, call [map_to].  This file holds what they share: address
    and flag lemmas, and the effect of mapping a set of unmapped pages. *)
From S2P Require Import Prelude Platform RefPlatform.

(** ** Addresses *)

Lemma align_down_bounds a : align_down a <= a < align_down a + PAGE_SIZE.
Proof.
  unfold align_down, PAGE_SIZE. pose proof (Z.mod_pos_bound a 4096 ltac:(lia)). lia.
Qed.

Lemma align_down_mod a : align_down a mod PAGE_SIZE = 0.
Proof. unfold align_down, PAGE_SIZE. by rewrite Zminus_mod_idemp_r, Z.sub_diag. Qed.

Lemma align_down_page p : p mod PAGE_SIZE = 0 -> align_down p = p.
Proof. unfold align_down. lia. Qed.

(** The page of an address between two addresses lies between their pages. *)
Lemma align_down_mono a b : a <= b -> align_down a <= align_down b.
Proof.
  intros Hab. unfold align_down, PAGE_SIZE.
  pose proof (Z.div_mod a 4096). pose proof (Z.div_mod b 4096).
  pose proof (Z.div_le_mono a b 4096). lia.
Qed.

Lemma align_down_unique p a : p mod PAGE_SIZE = 0 -> p <= a < p + PAGE_SIZE -> align_down a = p.
Proof.
  intros Hp Ha. unfold align_down. replace (a mod PAGE_SIZE) with (a - p); [lia|].
  replace a with ((a - p) + p / PAGE_SIZE * PAGE_SIZE) at 2.
  - rewrite Z_mod_plus_full, Z.mod_small; lia.
  - apply Z.div_exact in Hp; unfold PAGE_SIZE in *; lia.
Qed.

Lemma canonical_align_down a : canonical a -> canonical (align_down a).
Proof.
  unfold canonical, align_down, PAGE_SIZE, u64_modulus. intros [Ha|Ha]; [left|right];
    pose proof (Z.mod_pos_bound a 4096); pose proof (Z.mod_le a 4096); [lia|].
  split; [|lia]. pose proof (align_down_mono (2 ^ 64 - 2 ^ 47) a) as Hm.
  unfold align_down, PAGE_SIZE in Hm. change ((2 ^ 64 - 2 ^ 47) mod 4096) with 0 in Hm. lia.
Qed.

Lemma is_page_align_down a : canonical a -> is_page (align_down a).
Proof. split; [by apply canonical_align_down|apply align_down_mod]. Qed.

Lemma canonical_is_u64 a : canonical a -> is_u64 a.
Proof. unfold canonical, is_u64, u64_modulus. lia. Qed.

Lemma sign_extended_canonical a : canonical a -> sign_extended a = Some a.
Proof. intros Ha. unfold sign_extended. by rewrite decide_True. Qed.

Lemma sign_extended_Some a b : is_u64 a -> sign_extended a = Some b -> canonical b.
Proof.
  unfold sign_extended, is_u64, canonical, u64_modulus. intros Ha. case_decide; [by intros [= <-]|].
  destruct (Z.leb_spec (2 ^ 47) a), (Z.ltb_spec a (2 ^ 48)); simpl; intros [= <-]. lia.
Qed.

(** Arithmetic on addresses that stays canonical. *)
Lemma VirtAddr_new_canonical `{AddrLaws} a : canonical a -> VirtAddr_new a = Ret a.
Proof.
  intros Ha. rewrite new_spec, sign_extended_canonical by (done || by apply canonical_is_u64).
  done.
Qed.

Lemma VirtAddr_add_canonical `{AddrLaws} a n :
  canonical a -> 0 <= n -> canonical (a + n) -> VirtAddr_add a n = Ret (a + n).
Proof.
  intros Ha Hn Han. rewrite add_spec by (done || by apply canonical_is_u64).
  by apply VirtAddr_new_canonical.
Qed.

Lemma VirtAddr_sub_canonical `{AddrLaws} a n :
  canonical a -> 0 <= n -> canonical (a - n) -> VirtAddr_sub a n = Ret (a - n).
Proof.
  intros Ha Hn Han. rewrite sub_spec by (done || by apply canonical_is_u64).
  by apply VirtAddr_new_canonical.
Qed.

(** A list of distinct page addresses in a range is as long as the range at
    most. *)
Lemma pages_length l lo n :
  lo mod PAGE_SIZE = 0 -> 0 <= n -> NoDup l ->
  (forall p, p ∈ l -> p mod PAGE_SIZE = 0 /\ lo <= p < lo + PAGE_SIZE * n) ->
  (length l <= Z.to_nat n)%nat.
Proof.
  intros Hlo Hn Hnd Hl.
  assert (l ⊆+ ((fun i => lo + PAGE_SIZE * i) <$> seqZ 0 n)) as Hsub.
  { apply NoDup_submseteq; [done|]. intros p Hp. destruct (Hl p Hp) as [Hm Hr].
    apply list_elem_of_fmap. unfold PAGE_SIZE in *. exists ((p - lo) / 4096).
    rewrite elem_of_seqZ. assert ((p - lo) mod 4096 = 0) as Hd by (by rewrite Zminus_mod, Hm, Hlo).
    apply Z.div_exact in Hd; lia. }
  apply submseteq_length in Hsub. by rewrite length_fmap, length_seqZ in Hsub.
Qed.

Create HintDb paging.
#[export] Hint Resolve canonical_align_down is_page_align_down canonical_is_u64 align_down_mod : paging.

(** ** Flags *)

Lemma flags_contains_bit f b : 0 <= b -> flags_contains f (2 ^ b) = Z.testbit f b.
Proof.
  intros Hb. unfold flags_contains. apply Bool.eq_iff_eq_true. rewrite Z.eqb_eq. split.
  - intros E. apply (f_equal (fun x => Z.testbit x b)) in E.
    rewrite Z.land_spec, Z.pow2_bits_true, andb_true_r in E by done. done.
  - intros E. apply Z.bits_inj'. intros n Hn. rewrite Z.land_spec.
    destruct (decide (b = n)) as [->|Hne].
    + by rewrite Z.pow2_bits_true, E.
    + by rewrite Z.pow2_bits_false, andb_false_r.
Qed.

Lemma flags_union_contained f g : flags_contains f g = true -> flags_union f g = f.
Proof.
  unfold flags_contains, flags_union. rewrite Z.eqb_eq. intros E. apply Z.bits_inj'. intros n Hn.
  apply (f_equal (fun x => Z.testbit x n)) in E. rewrite Z.land_spec in E. rewrite Z.lor_spec.
  by destruct (Z.testbit f n), (Z.testbit g n).
Qed.

Section FlagFacts.
Context `{FlagLaws}.

Lemma flag_bits_nonneg :
  0 <= PRESENT_bit /\ 0 <= WRITABLE_bit /\ 0 <= USER_ACCESSIBLE_bit /\ 0 <= NO_EXECUTE_bit.
Proof.
  pose proof flag_bits_range as Hr. repeat (apply Forall_cons in Hr as [? Hr]). lia.
Qed.

Lemma flag_bits_ne :
  PRESENT_bit <> WRITABLE_bit /\ PRESENT_bit <> USER_ACCESSIBLE_bit /\
  PRESENT_bit <> NO_EXECUTE_bit /\ WRITABLE_bit <> USER_ACCESSIBLE_bit /\
  WRITABLE_bit <> NO_EXECUTE_bit /\ USER_ACCESSIBLE_bit <> NO_EXECUTE_bit.
Proof.
  pose proof flag_bits_distinct as Hd. rewrite !NoDup_cons, !not_elem_of_cons in Hd.
  destruct_and! Hd. by split_and!.
Qed.

(** The bit of a union of flags. *)
Lemma contains_union f g b :
  0 <= b -> flags_contains (flags_union f g) (2 ^ b) = flags_contains f (2 ^ b) || flags_contains g (2 ^ b).
Proof. intros Hb. rewrite !flags_contains_bit by done. apply Z.lor_spec. Qed.

Lemma contains_pow2 b c : 0 <= b -> 0 <= c -> flags_contains (2 ^ b) (2 ^ c) = bool_decide (b = c).
Proof.
  intros Hb Hc. rewrite flags_contains_bit by done. case_bool_decide as E.
  - subst. by apply Z.pow2_bits_true.
  - by apply Z.pow2_bits_false.
Qed.

End FlagFacts.

(** Reduces a [contains] test of a flag expression to booleans. *)
Ltac flag_simpl :=
  let H := fresh in let H' := fresh in
  pose proof flag_bits_nonneg as H; pose proof flag_bits_ne as H';
  destruct_and! H; destruct_and! H';
  unfold PRESENT, WRITABLE, USER_ACCESSIBLE, NO_EXECUTE in *;
  rewrite ?contains_union, ?contains_pow2 by done;
  repeat (case_bool_decide; try lia);
  rewrite ?orb_true_r, ?orb_false_r; simpl.

(** ** Mapping a set of fresh pages *)

(** Frames one mapping can take: the page's own and three tables. *)
Definition FRAMES_PER_PAGE : nat := 4.

Section Extension.
Context {PT : Type} `{MapperLaws PT} {FA : Type} `{FrameSource FA}.

(** Translation through [pt] with the pages of [m] put over it; [m] gives
    each page its frame and flags. *)
Definition overlay (pt : PT) (m : gmap Z (Z * Z)) (a : Z) : TranslateResult :=
  match m !! align_down a with
  | Some (f, fl) => Mapped f (a - align_down a) fl
  | None => translate pt a
  end.

(** [pt] and [fa] are [pt0] and [fa0] after mapping exactly the pages of [m],
    each on a frame of its own taken from [fa0]. *)
Record extends (pt0 : PT) (fa0 : FA) (m : gmap Z (Z * Z)) (pt : PT) (fa : FA) : Prop := {
  ext_ok : source_ok fa;
  ext_free : exists n, (n <= FRAMES_PER_PAGE * size m)%nat /\ free fa = drop n (free fa0) /\
    forall p f fl, m !! p = Some (f, fl) -> f ∈ take n (free fa0);
  ext_inj : forall p q f fl fl', m !! p = Some (f, fl) -> m !! q = Some (f, fl') -> p = q;
  ext_plain : forall p, plain pt0 p -> plain pt p;
  ext_translate : forall a, canonical a -> translate pt a = overlay pt0 m a
}.

Lemma extends_refl pt fa : source_ok fa -> extends pt fa ∅ pt fa.
Proof.
  intros Hok. split; [done| |by intros *; rewrite lookup_empty|done|done].
  exists 0%nat. split; [lia|]. split; [done|]. intros *. by rewrite lookup_empty.
Qed.

Lemma extends_step pt0 fa0 m pt fa page flags :
  source_ok fa0 -> extends pt0 fa0 m pt fa ->
  m !! page = None -> is_page page -> plain pt0 page -> translate pt0 page = NotMapped ->
  flags_contains flags PRESENT = true ->
  (FRAMES_PER_PAGE * (size m + 1) <= length (free fa0))%nat ->
  exists f fa1 pt' fa', allocate_frame fa = Ret (Some f, fa1) /\
    map_to page f flags pt fa1 = Ret (Ok tt, pt', fa') /\
    extends pt0 fa0 (<[page := (f, flags)]> m) pt' fa'.
Proof.
  intros Hok0 [Hok Hfree Hinj Hplain Htr] Hm Hpage Hpl Hnm Hpres Hlen.
  destruct Hfree as (n & Hn & Efree & Hin). unfold FRAMES_PER_PAGE in *.
  destruct (free fa) as [|f fs] eqn:Ef.
  { exfalso. apply (f_equal length) in Efree. rewrite length_drop in Efree. simpl in Efree. lia. }
  destruct (allocate_pops fa f fs Hok Ef) as (fa1 & Ea & Hok1 & Ef1).
  assert (length (f :: fs) = length (drop n (free fa0))) as El by (by rewrite Efree).
  rewrite length_drop in El. simpl in El.
  assert (free fa0 !! n = Some f) as Hnth.
  { rewrite <- (Nat.add_0_r n), <- lookup_drop, <- Efree. done. }
  assert (fs = drop (n + 1) (free fa0)) as Efs.
  { rewrite <- drop_drop, <- Efree. done. }
  assert (is_frame f) as Hfr.
  { pose proof (free_aligned fa0 Hok0) as Hal. rewrite Forall_lookup in Hal. by eapply Hal. }
  assert (translate pt page = NotMapped) as Hnm'.
  { rewrite Htr by apply Hpage. unfold overlay.
    rewrite align_down_page by apply Hpage. by rewrite Hm. }
  destruct (map_to_ok FA page f flags pt fa1) as (pt' & fa' & k & Emap & Hok' & Hk & Ek & Hpl' & Htr');
    [done|done|done|done|by apply Hplain|done|rewrite Ef1; unfold TABLES; lia|].
  exists f, fa1, pt', fa'. split; [done|]. split; [done|]. split.
  - done.
  - exists (n + 1 + k)%nat. rewrite map_size_insert_None by done.
    unfold FRAMES_PER_PAGE, TABLES in *. split; [lia|]. split.
    + rewrite Ek, Ef1, Efs, drop_drop. done.
    + intros p g fl. rewrite lookup_insert. case_decide; intros Hp; simplify_eq.
      * apply (list_elem_of_lookup_2 _ n). rewrite lookup_take_lt by lia. done.
      * apply Hin in Hp. apply list_elem_of_lookup_1 in Hp as [i Hi].
        apply lookup_take_Some in Hi as [Hi Hlt].
        apply (list_elem_of_lookup_2 _ i). rewrite lookup_take_lt by lia. done.
  - assert (forall p fl, m !! p = Some (f, fl) -> False) as Hfresh.
    { intros p fl Hp. apply Hin, list_elem_of_lookup_1 in Hp as [i Hi].
      apply lookup_take_Some in Hi as [Hi Hlt].
      assert (i = n) 
        by (apply (NoDup_lookup (free fa0) i n f); [by apply free_nodup|done|done]).
      lia. }
    intros p q g fl fl'. rewrite !lookup_insert.
    repeat case_decide; intros Hp Hq; simplify_eq; [done|exfalso; eauto..|by eapply Hinj].
  - intros p Hp. by apply Hpl', Hplain.
  - intros a Ha. rewrite Htr' by done. unfold overlay. rewrite lookup_insert.
    destruct (decide (page = align_down a)) as [->|Hne].
    + by rewrite decide_True.
    + rewrite decide_False by congruence. by rewrite Htr.
Qed.

(** [m] maps the pages of [l] with the flags of [l], and nothing else. *)
Definition covers (l : list (Z * Z)) (m : gmap Z (Z * Z)) : Prop :=
  forall p fl, (exists f, m !! p = Some (f, fl)) <-> (p, fl) ∈ l.

Lemma covers_size l m : NoDup l.*1 -> covers l m -> size m = length l.
Proof.
  intros Hnd Hc. rewrite <- (size_dom (D := gset Z)).
  assert (dom m = (list_to_set l.*1 : gset Z)) as ->.
  { apply set_eq. intros p. rewrite elem_of_dom, elem_of_list_to_set, list_elem_of_fmap. split.
    - intros [[f fl] Hp]. exists (p, fl). split; [done|]. apply Hc. by exists f.
    - intros ([p' fl] & -> & Hp). apply Hc in Hp as [f Hp]. by exists (f, fl). }
  rewrite size_list_to_set by done. by rewrite length_fmap.
Qed.

(** The pages of [l] are free to be mapped in [pt]. *)
Record fresh_pages (pt : PT) (l : list (Z * Z)) : Prop := {
  fresh_nodup : NoDup l.*1;
  fresh_each : forall p fl, (p, fl) ∈ l ->
    is_page p /\ plain pt p /\ translate pt p = NotMapped /\ flags_contains fl PRESENT = true
}.

(** Loop invariant: the pages of [done] have been mapped. *)
Definition mapped_prefix (pt0 : PT) (fa0 : FA) (done : list (Z * Z)) (s : PT * FA) : Prop :=
  exists m, extends pt0 fa0 m s.1 s.2 /\ covers done m.

Lemma mapped_prefix_nil pt fa : source_ok fa -> mapped_prefix pt fa [] (pt, fa).
Proof.
  intros Hok. exists ∅. split; [by apply extends_refl|]. intros p fl.
  rewrite lookup_empty. split; [by intros [? ?]|by intros ?%not_elem_of_nil].
Qed.

Lemma mapped_prefix_step pt0 fa0 l done p fl rest s :
  source_ok fa0 -> fresh_pages pt0 l -> (FRAMES_PER_PAGE * length l <= length (free fa0))%nat ->
  l = done ++ (p, fl) :: rest -> mapped_prefix pt0 fa0 done s ->
  exists f fa1 s', allocate_frame s.2 = Ret (Some f, fa1) /\
    map_to p f fl s.1 fa1 = Ret (Ok tt, s'.1, s'.2) /\
    mapped_prefix pt0 fa0 (done ++ [(p, fl)]) s'.
Proof.
  intros Hok [Hnd Hfr] Hlen El (m & Hext & Hcov). subst l.
  destruct (Hfr p fl) as (Hp & Hpl & Hnm & Hpr); [apply elem_of_app; right; left|].
  rewrite fmap_app in Hnd. apply NoDup_app in Hnd as (Hnd & Hdis & _).
  rewrite length_app in Hlen. simpl in Hlen.
  assert (m !! p = None) as Hm.
  { apply eq_None_not_Some. intros [[f fl'] Hf].
    assert ((p, fl') ∈ done) as Hin by (apply Hcov; by exists f).
    apply (Hdis p); [apply list_elem_of_fmap; by exists (p, fl')|left]. }
  destruct (extends_step pt0 fa0 m s.1 s.2 p fl) as (f & fa1 & pt' & fa' & E1 & E2 & Hext');
    [done..|rewrite (covers_size done m) by done; unfold FRAMES_PER_PAGE in *; lia|].
  exists f, fa1, (pt', fa'). split; [done|]. split; [done|]. exists (<[p := (f, fl)]> m).
  split; [done|]. intros q gl. rewrite elem_of_app, list_elem_of_singleton, <- (Hcov q gl).
  setoid_rewrite lookup_insert. case_decide as E; [subst q|].
  - rewrite Hm. split; [intros [? ?]; simplify_eq; by right|].
    intros [[? ?]|?]; simplify_eq. by exists f.
  - split; [by left|]. by intros [?|?]; simplify_eq.
Qed.

Lemma with_flags_fst (fl : Z) (pages : list Z) : ((fun p => (p, fl)) <$> pages).*1 = pages.
Proof. rewrite <- list_fmap_compose. apply list_fmap_id. Qed.

Lemma with_flags_nodup (fl : Z) (pages : list Z) :
  NoDup pages -> NoDup ((fun p => (p, fl)) <$> pages).*1.
Proof. by rewrite with_flags_fst. Qed.

Lemma with_flags_fresh pt (fl : Z) (pages : list Z) :
  flags_contains fl PRESENT = true -> NoDup pages ->
  (forall p, p ∈ pages -> is_page p /\ plain pt p /\ translate pt p = NotMapped) ->
  fresh_pages pt ((fun p => (p, fl)) <$> pages).
Proof.
  intros Hfl Hnd Hp. split; [by apply with_flags_nodup|]. intros p g Hin.
  apply list_elem_of_fmap in Hin as (q & [= -> ->] & Hq). destruct (Hp q Hq) as (? & ? & ?).
  by split_and!.
Qed.

(** The addresses [lo, hi) are backed by frames taken from [fa0], one for
    each page and mapped with flags [fl]; every other translation is as in
    [pt0]. *)
Record range_mapped (pt0 : PT) (fa0 : FA) (lo hi fl : Z) (pt : PT) (fa : FA) : Prop := {
  range_inside : forall a, canonical a -> lo <= a < hi ->
    exists f, f ∈ free fa0 /\ (f ∉ free fa) /\ translate pt a = Mapped f (a - align_down a) fl;
  range_outside : forall a, canonical a -> ~ (lo <= a < hi) -> translate pt a = translate pt0 a;
  range_frames : forall a b f o o' g g', canonical a -> canonical b ->
    lo <= a < hi -> lo <= b < hi ->
    translate pt a = Mapped f o g -> translate pt b = Mapped f o' g' -> align_down a = align_down b;
  range_source : source_ok fa;
  range_free : exists n, (n <= FRAMES_PER_PAGE * Z.to_nat ((hi - lo) / PAGE_SIZE))%nat /\
    free fa = drop n (free fa0);
  range_plain : forall p, plain pt0 p -> plain pt p
}.

Lemma extends_free pt0 fa0 m pt fa p f fl :
  source_ok fa0 -> extends pt0 fa0 m pt fa -> m !! p = Some (f, fl) ->
  f ∈ free fa0 /\ f ∉ free fa.
Proof.
  intros Hok [_ (n & _ & Efree & Htake) _ _ _] Hp. apply Htake in Hp.
  pose proof (free_nodup fa0 Hok) as Hnd. rewrite <- (take_drop n (free fa0)) in Hnd.
  apply NoDup_app in Hnd as (_ & Hdis & _). split.
  - rewrite <- (take_drop n (free fa0)). apply elem_of_app. by left.
  - rewrite Efree. by apply Hdis.
Qed.

Lemma page_in_range lo hi a :
  lo mod PAGE_SIZE = 0 -> hi mod PAGE_SIZE = 0 ->
  (lo <= align_down a < hi <-> lo <= a < hi).
Proof.
  intros Hlo Hhi. pose proof (align_down_bounds a).
  pose proof (align_down_mono lo a) as H1'. pose proof (align_down_mono hi a) as H2'.
  rewrite align_down_page in H1', H2' by done. lia.
Qed.

Lemma extends_range pt0 fa0 m pt fa pages lo hi fl :
  source_ok fa0 -> extends pt0 fa0 m pt fa -> covers ((fun p => (p, fl)) <$> pages) m ->
  lo mod PAGE_SIZE = 0 -> hi mod PAGE_SIZE = 0 -> lo <= hi -> NoDup pages ->
  (forall p, p ∈ pages <-> is_page p /\ lo <= p < hi) ->
  range_mapped pt0 fa0 lo hi fl pt fa.
Proof.
  intros Hok Hext Hcov Hlo Hhi Hle Hnd Hin.
  assert (forall a, canonical a -> lo <= a < hi -> exists f, m !! align_down a = Some (f, fl)) as Hall.
  { intros a Ha Hr. apply Hcov, list_elem_of_fmap. exists (align_down a). split; [done|].
    apply Hin. split; [auto with paging|by apply page_in_range]. }
  pose proof (ext_translate _ _ _ _ _ Hext) as Htr. unfold overlay in Htr. split.
  - intros a Ha Hr. destruct (Hall a Ha Hr) as [f Hf]. exists f.
    destruct (extends_free _ _ _ _ _ _ _ _ Hok Hext Hf). rewrite Htr, Hf by done. done.
  - intros a Ha Hr. rewrite Htr by done.
    destruct (m !! align_down a) as [[f g]|] eqn:E; [|done]. exfalso. apply Hr.
    assert ((align_down a, g) ∈ ((fun p => (p, fl)) <$> pages)) as Hp by (apply Hcov; by exists f).
    apply list_elem_of_fmap in Hp as (q & [= <- <-] & Hq). apply Hin in Hq as [_ Hq].
    by apply (page_in_range lo hi a Hlo Hhi).
  - intros a b f o o' g g' Ha Hb Hra Hrb.
    destruct (Hall a Ha Hra) as [f1 E1], (Hall b Hb Hrb) as [f2 E2].
    rewrite !Htr, E1, E2 by done. intros [= -> _ _] [= -> _ _].
    by eapply (ext_inj _ _ _ _ _ Hext).
  - apply Hext.
  - destruct (ext_free _ _ _ _ _ Hext) as (n & Hn & Efree & _). exists n. split; [|done].
    assert (size m = length pages) as Esz.
    { rewrite (covers_size _ _ (with_flags_nodup fl pages Hnd) Hcov). by rewrite length_fmap. }
    pose proof (Zminus_mod hi lo PAGE_SIZE) as Hm. rewrite Hlo, Hhi in Hm. unfold PAGE_SIZE in *.
    apply Z.div_exact in Hm; [|lia].
    pose proof (pages_length pages lo ((hi - lo) / 4096)) as Hl. unfold PAGE_SIZE in Hl.
    rewrite Esz in Hn. etrans; [exact Hn|]. apply Nat.mul_le_mono_l, Hl; [done|lia|done|].
    intros p Hp. apply Hin in Hp as [[_ Hp] Hr]. split; [done|lia].
  - apply Hext.
Qed.

End Extension.
