(* ===== verification/Memory.v ===== *)
(** * The page mapper ([memory::init], [memory::mapper] and [MapperGuard] of
      [kernel/src/memory.rs])

    The kernel keeps its page mapper in the static [MAPPER], uninitialised
    until [init] has run; [init] and [mapper] give out a guard that refers to
    it, and [with] runs a closure on what it refers to. *)
From S2P Require Import Prelude Platform RefPlatform Paging.

Module Memory.

(** [x86_64]'s [OffsetPageTable] over a level 4 table; [PT] is the mapper. *)
Class OffsetApi (PT : Type) := {
  PageTable : Type;
  OffsetPageTable_new : PageTable -> Z -> PT
}.

Section Operations.
Context `{AddrApi} {PT : Type} `{OffsetApi PT}.

(** [static mut MAPPER: MaybeUninit<OffsetPageTable>]. *)
Definition MAPPER_static : Type := option PT.
Definition MAPPER_uninit : MAPPER_static := None.

(** [MapperGuard]: its only field refers to [MAPPER]. *)
Inductive MapperGuard : Set := guard.

(** [init], with the frame [Cr3::read] returns and the tables found at virtual
    addresses. *)
Definition init (level4_frame : Z) (table_at : Z -> PageTable) (physical_memory_offset : Z)
  : outcome (MapperGuard * MAPPER_static) :=
  virt_addr ← VirtAddr_add physical_memory_offset level4_frame;
  let level_4_table := table_at virt_addr in
  let mapper := OffsetPageTable_new level_4_table physical_memory_offset in
  mret (guard, Some mapper).

(** [mapper]; [assume_init_mut] on an uninitialised static is undefined. *)
Definition mapper (MAPPER : MAPPER_static) : outcome MapperGuard :=
  match MAPPER with Some _ => mret guard | None => Stop Undefined end.

(** [MapperGuard::with]. *)
Definition with_mapper {R : Type} (g : MapperGuard) (f : PT -> outcome (R * PT)) (MAPPER : MAPPER_static)
  : outcome (R * MAPPER_static) :=
  match MAPPER with
  | Some inner => '(r, inner) ← f inner; mret (r, Some inner)
  | None => Stop Undefined
  end.

End Operations.

Lemma memory_init_ret `{AddrLaws} {PT : Type} `{OffsetApi PT} frame (table_at : Z -> PageTable) off :
  canonical off -> 0 <= frame -> canonical (off + frame) ->
  init frame table_at off = Ret (guard, Some (OffsetPageTable_new (table_at (off + frame)) off)).
Proof. intros Ho Hf Hc. unfold init. by rewrite VirtAddr_add_canonical. Qed.

(** Successive uses of the mapper see each other's changes. *)
Lemma with_mapper_bind {PT : Type} `{OffsetApi PT} {A B : Type} (f : PT -> outcome (A * PT))
  (g : A -> PT -> outcome (B * PT)) (MAPPER : MAPPER_static (PT := PT)) :
  ('(a, MAPPER) ← with_mapper guard f MAPPER; gd ← mapper MAPPER; with_mapper gd (g a) MAPPER) =
  with_mapper guard (fun pt => '(a, pt) ← f pt; g a pt) MAPPER.
Proof. destruct MAPPER as [pt|]; [|done]. simpl. by destruct (f pt) as [[a pt']|]. Qed.

End Memory.
