(* ===== verification/KernelHeap.v ===== *)
(** * The kernel heap ([kernel/src/allocator/mod.rs])

    [init_kernel_heap] maps the pages of the heap and hands the range to the
    bump allocator.  It is verified against any page table with
    [MapperLaws] and any frame allocator with [FrameSource]. *)
From S2P Require Import Prelude Platform RefPlatform Paging Bump FrameAlloc.

Module KernelHeap.
Import Bump.

Section Operations.
Context `{Build} `{AddrApi} `{FlagBits} {PT : Type} `{Mapper PT} {FA : Type} `{FrameAllocator FA}.

(** [page_range]: the pages from the first to the last byte of the heap. *)
Definition page_range : outcome (list Z) :=
  heap_start ← VirtAddr_new HEAP_START;
  e ← VirtAddr_add heap_start HEAP_SIZE;
  heap_end ← VirtAddr_sub e 1;
  mret (Page_range_inclusive (Page_containing_address heap_start) (Page_containing_address heap_end)).

Definition heap_flags : Z := flags_union PRESENT WRITABLE.

(** The body of the loop; both errors leave the function through [?]. *)
Definition map_heap_page (page : Z) (s : PT * FA) : outcome (result unit MapToError * (PT * FA)) :=
  let '(mapper, frame_allocator) := s in
  '(o, frame_allocator) ← allocate_frame frame_allocator;
  match o with
  | None => mret (Err FrameAllocationFailed, (mapper, frame_allocator))
  | Some frame =>
      '(r, mapper, frame_allocator) ← map_to page frame heap_flags mapper frame_allocator;
      mret (r, (mapper, frame_allocator))
  end.

(** [ALLOCATOR] is the static bump allocator. *)
Definition init_kernel_heap (mapper : PT) (frame_allocator : FA) (ALLOCATOR : BumpAllocator)
  : outcome (result unit MapToError * PT * FA * BumpAllocator) :=
  pages ← page_range;
  '(r, (mapper, frame_allocator)) ← try_each pages map_heap_page (mapper, frame_allocator);
  match r with
  | Err e => mret (Err e, mapper, frame_allocator, ALLOCATOR)
  | Ok _ =>
      ALLOCATOR ← Bump.init HEAP_START HEAP_SIZE ALLOCATOR;
      mret (Ok tt, mapper, frame_allocator, ALLOCATOR)
  end.

End Operations.

(** Addresses of the heap. *)
Definition in_heap (a : Z) : Prop := HEAP_START <= a < HEAP_START + HEAP_SIZE.

Lemma page_range_ret `{AddrLaws} :
  exists pages, page_range = Ret pages /\ NoDup pages /\ (length pages <= 25)%nat /\
    forall p, p ∈ pages <-> is_page p /\ in_heap p.
Proof.
  set (last := HEAP_START + HEAP_SIZE - 1).
  assert (canonical HEAP_START /\ canonical (HEAP_START + HEAP_SIZE) /\ canonical last) as (Hs & He & Hl)
    by (unfold canonical, last, HEAP_START, HEAP_SIZE; lia).
  assert (page_range = Ret (Page_range_inclusive (align_down HEAP_START) (align_down last))) as ->.
  { unfold page_range. rewrite VirtAddr_new_canonical by done. simpl.
    rewrite VirtAddr_add_canonical by done. simpl.
    rewrite VirtAddr_sub_canonical by done. simpl.
    by rewrite !page_containing_spec by done. }
  assert (is_page (align_down HEAP_START) /\ is_page (align_down last)) as [Hps Hpl]
    by auto with paging.
  set (pages := Page_range_inclusive _ _). exists pages. split; [done|].
  assert (forall p, p ∈ pages <-> is_page p /\ in_heap p) as Hin.
  { intros p. unfold pages. rewrite page_range_inclusive_elem by done.
    assert (align_down HEAP_START = HEAP_START) as -> by done.
    split; intros [Hp Hr]; (split; [done|]); destruct Hp as [_ Hp].
    - unfold in_heap. pose proof (align_down_bounds last). unfold last in *. lia.
    - unfold in_heap in Hr. split; [lia|]. rewrite <- (align_down_page p Hp).
      apply align_down_mono. unfold last. lia. }
  split; [|split; [|done]].
  - by apply StronglySorted_lt_NoDup, page_range_inclusive_sorted.
  - apply (pages_length pages HEAP_START 25); [done|lia| |].
    + by apply StronglySorted_lt_NoDup, page_range_inclusive_sorted.
    + intros p Hp. apply Hin in Hp as [[_ Hm] Hr]. split; [done|]. exact Hr.
Qed.

Section Proofs.
Context `{Build} `{AddrLaws} `{FlagLaws}.
Context {PT : Type} `{!Mapper PT, !MapperLaws PT} {FA : Type} `{FrameSource FA}.

Lemma heap_flags_present : flags_contains heap_flags PRESENT = true.
Proof. unfold heap_flags. by flag_simpl. Qed.

Lemma map_heap_pages pt fa pages :
  source_ok fa -> NoDup pages -> (FRAMES_PER_PAGE * length pages <= length (free fa))%nat ->
  (forall p, p ∈ pages -> is_page p /\ plain pt p /\ translate pt p = NotMapped) ->
  exists pt' fa', try_each pages map_heap_page (pt, fa) = Ret (Ok tt, (pt', fa')) /\
    mapped_prefix pt fa ((fun p => (p, heap_flags)) <$> pages) (pt', fa').
Proof.
  intros Hok Hnd Hlen Hp.
  pose proof (with_flags_fresh pt heap_flags pages heap_flags_present Hnd Hp) as Hfresh.
  destruct (try_each_prefix (E := MapToError)
    (fun done => mapped_prefix pt fa ((fun p => (p, heap_flags)) <$> done))
    pages map_heap_page (pt, fa)) as ([pt' fa'] & E & HP).
  - by apply mapped_prefix_nil.
  - intros done p rest [pt1 fa1] Epages Hpre.
    edestruct (mapped_prefix_step pt fa) as (f & fa2 & [pt' fa'] & E1 & E2 & H');
      [done|exact Hfresh|by rewrite length_fmap|rewrite Epages, fmap_app; reflexivity|exact Hpre|].
    exists (pt', fa'). simpl in *. rewrite E1. simpl. rewrite E2. split; [done|].
    by rewrite fmap_app.
  - by exists pt', fa'.
Qed.

Lemma init_kernel_heap_ret pt fa :
  source_ok fa -> (100 <= length (free fa))%nat ->
  (forall p, is_page p -> in_heap p -> plain pt p /\ translate pt p = NotMapped) ->
  exists pt' fa', init_kernel_heap pt fa Bump.new =
      Ret (Ok tt, pt', fa', mkBump HEAP_START (HEAP_START + HEAP_SIZE) HEAP_START) /\
    range_mapped pt fa HEAP_START (HEAP_START + HEAP_SIZE) (flags_union PRESENT WRITABLE) pt' fa'.
Proof.
  intros Hok Hlen Hheap. destruct page_range_ret as (pages & Epr & Hnd & Hl25 & Hin).
  destruct (map_heap_pages pt fa pages) as (pt' & fa' & Emap & m & Hext & Hcov);
    [done|done|unfold FRAMES_PER_PAGE; lia| |].
  { intros p Hp. apply Hin in Hp as [Hp Hh]. by destruct (Hheap p Hp Hh). }
  exists pt', fa'. split.
  - unfold init_kernel_heap. rewrite Epr. simpl. rewrite Emap. simpl. by destruct H as [[]].
  - by apply (extends_range pt fa m pt' fa' pages).
Qed.

End Proofs.

(** ** Properties *)

(** C14: With the heap range unmapped and enough free frames, init_kernel_heap
    succeeds: the allocator covers HEAP_START to HEAP_START + HEAP_SIZE, each
    page of exactly that range is mapped present and writable on a frame of
    its own taken from the allocator, and no other translation changes. *)
Theorem init_kernel_heap_maps `{Build} `{AddrLaws} `{FlagLaws}
  {PT : Type} `{!Mapper PT, !MapperLaws PT} {FA : Type} `{FrameSource FA} pt (fa : FA) :
  source_ok fa -> (100 <= length (free fa))%nat ->
  (forall p, is_page p -> in_heap p -> plain pt p /\ translate pt p = NotMapped) ->
  exists pt' fa', init_kernel_heap pt fa Bump.new =
      Ret (Ok tt, pt', fa', mkBump HEAP_START (HEAP_START + HEAP_SIZE) HEAP_START) /\
    range_mapped pt fa HEAP_START (HEAP_START + HEAP_SIZE) (flags_union PRESENT WRITABLE) pt' fa'.
Proof. apply init_kernel_heap_ret. Qed.

(** With no free frame, init_kernel_heap returns FrameAllocationFailed
    and leaves the page table and the allocator untouched. *)
Theorem init_kernel_heap_no_frames `{Build} `{AddrLaws} `{FlagBits}
  {PT : Type} `{!Mapper PT} {FA : Type} `{FrameSource FA} pt (fa : FA) a :
  source_ok fa -> free fa = [] ->
  exists fa', init_kernel_heap pt fa a = Ret (Err FrameAllocationFailed, pt, fa', a).
Proof.
  intros Hok Hfree. destruct page_range_ret as (pages & Epr & _ & _ & Hin).
  destruct (allocate_empty fa Hok Hfree) as [fa' Ea].
  assert (HEAP_START ∈ pages) as Hne.
  { apply Hin. split; [split; [unfold canonical, HEAP_START; lia|done]|done]. }
  destruct pages as [|p pages]; [by apply elem_of_nil in Hne|].
  exists fa'. unfold init_kernel_heap. rewrite Epr. simpl. by rewrite Ea.
Qed.

(** ** The properties at a concrete page table *)
Section Witnesses.
#[local] Existing Instance dev_build.
#[local] Existing Instance Ref.addresses.
#[local] Existing Instance Ref.addresses_laws.
#[local] Existing Instance Ref.flag_bits.
#[local] Existing Instance Ref.flag_bits_laws.
#[local] Existing Instance Ref.boot_info.
#[local] Existing Instance Ref.boot_info_laws.
#[local] Existing Instance Ref.mapper.
#[local] Existing Instance Ref.mapper_laws.
#[local] Existing Instance FrameAlloc.BootInfoFrameAllocator_trait.
#[local] Existing Instance FrameAlloc.BootInfoFrameAllocator_source.

Lemma init_kernel_heap_maps_witness :
  let fa := FrameAlloc.init FrameAlloc.boot_map in
  exists pt' fa', init_kernel_heap Ref.empty_table fa Bump.new =
      Ret (Ok tt, pt', fa', mkBump HEAP_START (HEAP_START + HEAP_SIZE) HEAP_START) /\
    range_mapped Ref.empty_table fa HEAP_START (HEAP_START + HEAP_SIZE)
      (flags_union PRESENT WRITABLE) pt' fa'.
Proof.
  apply init_kernel_heap_maps.
  - apply FrameAlloc.boot_map_ok.
  - rewrite FrameAlloc.boot_map_free. lia.
  - intros p _ _. split; [exact I|reflexivity].
Defined.

Lemma init_kernel_heap_no_frames_witness :
  exists fa', init_kernel_heap Ref.empty_table (FrameAlloc.init []) Bump.new =
    Ret (Err FrameAllocationFailed, Ref.empty_table, fa', Bump.new).
Proof.
  apply init_kernel_heap_no_frames; [|reflexivity].
  split; [|vm_compute; split; congruence].
  split; [by intros r ?%elem_of_nil|constructor].
Defined.

End Witnesses.

End KernelHeap.
