(* ===== verification/ElfTypes.v ===== *)
(** * ELF images ([kernel/src/elf/types.rs])

    The data of the loader: segment types, segments with their destination
    in virtual memory, and the relocation of a whole image. *)
From S2P Require Import Prelude Platform RefPlatform Paging.

Module ElfTypes.

Inductive ElfSegmentType : Set :=
  | Null | Load | Dynamic | Interp | Note | Shlib | Phdr | Tls | Loos
  | GnuEhFrame | GnuStack | GnuRelo | Hios | Loproc | Hiproc.

#[export] Instance ElfSegmentType_eq_dec : EqDecision ElfSegmentType.
Proof. solve_decision. Defined.

Definition all_segment_types : list ElfSegmentType :=
  [Null; Load; Dynamic; Interp; Note; Shlib; Phdr; Tls; Loos;
   GnuEhFrame; GnuStack; GnuRelo; Hios; Loproc; Hiproc].

Section Types.
Context `{ElfConsts}.

(** The discriminants of [#[repr(u32)] enum ElfSegmentType]. *)
Definition discriminant (t : ElfSegmentType) : Z :=
  match t with
  | Null => PT_NULL
  | Load => PT_LOAD
  | Dynamic => PT_DYNAMIC
  | Interp => PT_INTERP
  | Note => PT_NOTE
  | Shlib => PT_SHLIB
  | Phdr => PT_PHDR
  | Tls => PT_TLS
  | Loos => PT_LOOS
  | GnuEhFrame => PT_GNU_EH_FRAME
  | GnuStack => PT_GNU_STACK
  | GnuRelo => PT_GNU_RELRO
  | Hios => PT_HIOS
  | Loproc => PT_LOPROC
  | Hiproc => PT_HIPROC
  end.

(** The derived [TryFromPrimitive]: the variant with that discriminant. *)
Definition try_from_primitive (n : Z) : option ElfSegmentType :=
  List.find (fun t => discriminant t =? n) all_segment_types.

End Types.

Record VirtualMapDestination : Set := mkDest {
  start : Z;
  len : Z;
  original_start : Z
}.

Record ElfSegment : Set := mkSegment {
  ty : ElfSegmentType;
  align : Z;
  flags : Z;
  file_range : Z * Z;
  addr : VirtualMapDestination
}.

Record ElfFile : Set := mkElf {
  segments : list ElfSegment;
  entry_point : Z
}.

Section Operations.
Context `{AddrApi}.

(** [VirtualMapDestination::pages]: up to the page of the byte after the
    last. *)
Definition pages (d : VirtualMapDestination) : outcome (list Z) :=
  let virtual_page_start := Page_containing_address (start d) in
  e ← VirtAddr_add (start d) (len d);
  let virtual_page_end := Page_containing_address e in
  mret (Page_range_inclusive virtual_page_start virtual_page_end).

(** [VirtualMapDestination::remap]. *)
Definition dest_remap (f : Z -> outcome Z) (d : VirtualMapDestination)
  : outcome VirtualMapDestination :=
  s ← f (start d);
  mret (mkDest s (len d) (original_start d)).

Definition segment_remap (f : Z -> outcome Z) (s : ElfSegment) : outcome ElfSegment :=
  d ← dest_remap f (addr s);
  mret (mkSegment (ty s) (align s) (flags s) (file_range s) d).

(** [ElfFile::remap]: the entry point first, then the segments in order. *)
Definition remap (f : Z -> outcome Z) (e : ElfFile) : outcome ElfFile :=
  entry ← f (entry_point e);
  segs ← for_each (segments e) (fun s done => s' ← segment_remap f s; mret (done ++ [s'])) [];
  mret (mkElf segs entry).

(** [jmp] and [ElfFile::run]; [code a] is what running the code at [a] does. *)
Definition jmp {W : Type} (code : Z -> stateful W unit) (addr : Z) : stateful W unit := code addr.

Definition run {W A : Type} (code : Z -> stateful W unit) (e : ElfFile) : stateful W A :=
  _ ← jmp code (entry_point e);
  lift (Stop ExplicitPanic).

End Operations.

(** Running a file ends with its code or, if that returns, in a panic. *)
Lemma run_stops {W A : Type} (code : Z -> stateful W unit) e w :
  exists r w', run (A := A) code e w = (Stop r, w') /\
    (code (entry_point e) w = (Stop r, w') \/ code (entry_point e) w = (Ret tt, w') /\ r = ExplicitPanic).
Proof.
  unfold run, jmp, mbind, stateful_bind, lift. destruct (code (entry_point e) w) as [[[]|r] w'].
  - exists ExplicitPanic, w'. auto.
  - exists r, w'. auto.
Qed.

(** ** Properties *)

(** Decoding a segment type number gives a variant exactly when the
    number is that variant's discriminant. *)
Theorem segment_type_roundtrip `{ElfConstsLaws} n t :
  try_from_primitive n = Some t <-> discriminant t = n.
Proof.
  assert (all_segment_types !! (match t with
    | Null => 0 | Load => 1 | Dynamic => 2 | Interp => 3 | Note => 4 | Shlib => 5 | Phdr => 6
    | Tls => 7 | Loos => 8 | GnuEhFrame => 9 | GnuStack => 10 | GnuRelo => 11 | Hios => 12
    | Loproc => 13 | Hiproc => 14 end)%nat = Some t) as Ht by (by destruct t).
  pose proof segment_types_distinct as Hnd.
  change (NoDup (discriminant <$> all_segment_types)) in Hnd. unfold try_from_primitive. split.
  - intros Hf. apply List.find_some in Hf as [_ Hf]. by apply Z.eqb_eq.
  - intros <-. destruct (List.find (fun u => discriminant u =? discriminant t) all_segment_types)
      as [u|] eqn:Ef.
    + apply List.find_some in Ef as [Hu Eu]. apply Z.eqb_eq in Eu. f_equal.
      apply list_elem_of_In, list_elem_of_lookup_1 in Hu as [i Hi].
      apply (f_equal (fmap discriminant)) in Hi as Hi', Ht as Ht'.
      rewrite <- !list_lookup_fmap in Hi', Ht'. simpl in Hi', Ht'. rewrite Eu in Hi'.
      pose proof (NoDup_lookup _ _ _ _ Hnd Hi' Ht') as ->. congruence.
    + apply list_elem_of_lookup_2, list_elem_of_In in Ht.
      apply (List.find_none _ _ Ef) in Ht. by rewrite Z.eqb_refl in Ht.
Qed.

Lemma segment_type_roundtrip_witness :
  @try_from_primitive Ref.elf_consts 0x6474e551 = Some GnuStack.
Proof.
  apply (@segment_type_roundtrip Ref.elf_consts Ref.elf_consts_laws). reflexivity.
Defined.

End ElfTypes.
