(* ===== verification/ElfLoad.v ===== *)
(** * The ELF loader ([kernel/src/elf/mod.rs])

    [load] reads the program headers, relocates the image so that its code
    starts at a fixed address, maps every page it touches, copies the file
    contents and finally drops the write permission it added for copying. *)
From S2P Require Import Prelude Platform RefPlatform Paging FrameAlloc ElfTypes.

Module ElfLoad.
Import ElfTypes.

Definition LOAD_TEXT_SECTION_AT : Z := 0x660000.

Section Parse.
Context `{Build} `{AddrApi} `{FlagBits} `{ElfConsts}.

Definition parse_segment_flags (section : ProgramHeader64) : Z :=
  let bit_flags := p_flags section in
  let flags := PRESENT in
  let flags := if negb (Z.land bit_flags PF_R =? 0) then flags_union flags USER_ACCESSIBLE else flags in
  let flags := if negb (Z.land bit_flags PF_W =? 0) then flags_union flags WRITABLE else flags in
  let flags := if Z.land bit_flags PF_X =? 0 then flags_union flags NO_EXECUTE else flags in
  flags.

(** One iteration of the loop over the program headers. *)
Definition push_segment (segment : ProgramHeader64) (segments : list ElfSegment)
  : outcome (list ElfSegment) :=
  match try_from_primitive (p_type segment) with
  | None => mret segments
  | Some parsed_ty =>
      if decide (parsed_ty = Null) then mret segments
      else if p_memsz segment =? 0 then mret segments
      else
        start ← VirtAddr_new (p_vaddr segment);
        let addr := mkDest start (p_memsz segment) (p_vaddr segment) in
        let offset := p_offset segment in
        let file_size := p_filesz segment in
        file_end ← uadd offset file_size;
        mret (segments ++
          [mkSegment parsed_ty (p_align segment) (parse_segment_flags segment)
             (offset, file_end) addr])
  end.

Definition parse_segments (phs : list ProgramHeader64) : outcome (list ElfSegment) :=
  for_each phs push_segment [].

(** The start of the last executable segment. *)
Definition default_text_addr (segs : list ElfSegment) : option Z :=
  fold_left (fun acc s => if negb (flags_contains (flags s) NO_EXECUTE)
                          then Some (start (addr s)) else acc) segs None.

(** The closure given to [remap]. *)
Definition shift_by (offset_to_apply : Z) (src : Z) : outcome Z :=
  z ← arith_i64 (as_i64 src + offset_to_apply);
  VirtAddr_new (as_u64 z).

Definition relocate (elf_file : ElfFile) : outcome ElfFile :=
  text ← unwrap (default_text_addr (segments elf_file));
  offset_to_apply ← arith_i64 (as_i64 LOAD_TEXT_SECTION_AT - as_i64 text);
  remap (shift_by offset_to_apply) elf_file.

(** The [and_modify] closure: flags of a page shared by two segments. *)
Definition merge_flags (current new : Z) : Z :=
  let current := flags_union current new in
  if negb (flags_contains current NO_EXECUTE) || negb (flags_contains new NO_EXECUTE)
  then flags_set current NO_EXECUTE false
  else current.

(** [entry(page).and_modify(..).or_insert(flags)]. *)
Definition add_page (new : Z) (page : Z) (m : gmap Z Z) : gmap Z Z :=
  match m !! page with
  | Some current => <[page := merge_flags current new]> m
  | None => <[page := new]> m
  end.

Definition pages_to_map (segs : list ElfSegment) : outcome (gmap Z Z) :=
  for_each segs (fun segment m =>
    ps ← pages (addr segment);
    for_each ps (fun page m => mret (add_page (flags segment) page m)) m) ∅.

End Parse.

Section Load.
Context `{Build} `{AddrApi} `{FlagBits} `{ElfConsts} `{ElfApi}.
Context {PT : Type} `{Mapper PT} {FA : Type} `{FrameAllocator FA}.

Definition map_page (entry : Z * Z) (s : PT * FA) : outcome (PT * FA) :=
  let '(page, original_flags) := entry in
  let '(mapper, allocator) := s in
  '(o, allocator) ← allocate_frame allocator;
  frame ← unwrap o;
  let flags := flags_union original_flags WRITABLE in
  '(r, mapper, allocator) ← map_to page frame flags mapper allocator;
  _ ← expect r;
  mret (mapper, allocator).

(** Physical memory, by byte address. *)
Abbreviation memory := (gmap Z Z).

(** A one-byte store of the kernel through the page table. *)
Definition store_byte (pt : PT) (v b : Z) (mem : memory) : outcome memory :=
  if decide (canonical v) then
    match translate pt v with
    | Mapped frame offset flags =>
        if flags_contains flags WRITABLE then mret (<[frame + offset := b]> mem) else Stop PageFault
    | _ => Stop PageFault
    end
  else Stop GeneralProtection.

(** A one-byte load. *)
Definition load_byte (pt : PT) (v : Z) (mem : memory) : option Z :=
  match translate pt v with
  | Mapped frame offset _ => mem !! (frame + offset)
  | _ => None
  end.

(** [&bytes[range]]. *)
Definition slice_range (bytes : list Z) (r : Z * Z) : outcome (list Z) :=
  if (r.1 <=? r.2) && (r.2 <=? Z.of_nat (length bytes))
  then mret (take (Z.to_nat (r.2 - r.1)) (drop (Z.to_nat r.1) bytes))
  else Stop OutOfBounds.

(** [section_dst.copy_from_slice(section_src)]: the two slices have the same
    length, and the destination is at [start]. *)
Definition copy_from_slice (pt : PT) (dst : Z) (src : list Z) (mem : memory) : outcome memory :=
  for_each (imap (fun i b => (Z.of_nat i, b)) src)
    (fun ib => store_byte pt (wrap64 (dst + ib.1)) ib.2) mem.

Definition copy_section (bytes : list Z) (pt : PT) (section : ElfSegment) (mem : memory)
  : outcome memory :=
  if decide (ty section = Load) then
    section_src ← slice_range bytes (file_range section);
    copy_from_slice pt (start (addr section)) section_src mem
  else mret mem.

Definition drop_writable (entry : Z * Z) (mapper : PT) : outcome PT :=
  let '(page, original_flags) := entry in
  if negb (flags_contains original_flags WRITABLE) then
    let '(r, mapper) := update_flags page original_flags mapper in
    _ ← expect r;
    mret mapper
  else mret mapper.

Definition load (bytes : list Z) (mapper : PT) (allocator : FA) (mem : memory)
  : outcome (ElfFile * PT * FA * memory) :=
  elf ← expect (FileHeader64_parse bytes);
  phs ← expect (program_headers elf bytes);
  segs ← parse_segments phs;
  entry ← VirtAddr_new (e_entry elf);
  elf_file ← relocate (mkElf segs entry);
  m ← pages_to_map (segments elf_file);
  '(mapper, allocator) ← for_each (btree_iter m) map_page (mapper, allocator);
  mem ← for_each (segments elf_file) (copy_section bytes mapper) mem;
  mapper ← for_each (btree_iter m) drop_writable mapper;
  mret (elf_file, mapper, allocator, mem).

End Load.

(** ** Reference definitions

    What a program header asks for, what a page of the image is mapped with
    and what a byte of the image holds, written without the loader's
    loops. *)
Section Reference.
Context `{FlagBits} `{ElfConsts}.

(** The segment of a header that is not skipped, before relocation. *)
Definition segment_of (ph : ProgramHeader64) : option ElfSegment :=
  match try_from_primitive (p_type ph) with
  | None => None
  | Some t =>
      if decide (t = Null) then None
      else if p_memsz ph =? 0 then None
      else Some (mkSegment t (p_align ph) (parse_segment_flags ph)
                   (p_offset ph, p_offset ph + p_filesz ph)
                   (mkDest (p_vaddr ph) (p_memsz ph) (p_vaddr ph)))
  end.

Definition shift_segment (delta : Z) (s : ElfSegment) : ElfSegment :=
  mkSegment (ty s) (align s) (flags s) (file_range s)
    (mkDest (start (addr s) + delta) (len (addr s)) (original_start (addr s))).

(** Page [p] holds a byte of the segment. *)
Definition occupies (d : VirtualMapDestination) (p : Z) : Prop :=
  is_page p /\ 0 < len d /\ start d < p + PAGE_SIZE /\ p < start d + len d.

(** Page [p] holds the byte after the last one of the segment. *)
Definition holds_end (d : VirtualMapDestination) (p : Z) : Prop :=
  is_page p /\ p = align_down (start d + len d).

(** The pages the loader takes for a segment: those it occupies and the one
    after it, which is another page when it ends on a page boundary. *)
Definition touches (d : VirtualMapDestination) (p : Z) : Prop := occupies d p \/ holds_end d p.

#[export] Instance touches_dec d p : Decision (touches d p).
Proof. unfold touches, occupies, holds_end, is_page. apply _. Defined.

Lemma touches_page d p : touches d p -> is_page p.
Proof. by intros [[? _]|[? _]]. Qed.

(** The same as an interval of pages. *)
Lemma touches_range d p :
  0 <= len d -> (touches d p <-> is_page p /\ align_down (start d) <= p <= align_down (start d + len d)).
Proof.
  intros Hl. pose proof (align_down_bounds (start d)) as Hb. pose proof (align_down_bounds (start d + len d)) as He.
  pose proof (align_down_mono (start d) (start d + len d) ltac:(lia)) as Hm. split.
  - intros [(Hp & Hl' & H1 & H2)|[Hp ->]]; (split; [done|]); [|lia].
    pose proof (align_down_page p (proj2 Hp)) as Ep. split.
    + pose proof (align_down_mod (start d)) as Hs. destruct Hp as [_ Hp].
      apply Z.div_exact in Hs, Hp; [|unfold PAGE_SIZE; lia..]. unfold PAGE_SIZE in *. lia.
    + pose proof (align_down_mono p (start d + len d) ltac:(lia)). lia.
  - intros [Hp [H1 H2]]. destruct (decide (p = align_down (start d + len d))) as [->|Hne]; [by right|].
    left. unfold occupies. unfold PAGE_SIZE in *. split_and!; [done| |lia|lia].
    destruct (decide (len d = 0)) as [E|]; [|lia]. rewrite E, Z.add_0_r in *. lia.
Qed.

(** The flags of page [p]: those of the segments that touch it, merged in
    order. *)
Definition page_flags_step (p : Z) (acc : option Z) (s : ElfSegment) : option Z :=
  if decide (touches (addr s) p) then
    Some (match acc with Some c => merge_flags c (flags s) | None => flags s end)
  else acc.
Definition page_flags (segs : list ElfSegment) (p : Z) : option Z :=
  fold_left (page_flags_step p) segs None.

(** The file byte at address [v]: the one of the last [Load] segment whose
    file part covers [v]. *)
Definition file_byte_step (bytes : list Z) (v : Z) (acc : option Z) (s : ElfSegment) : option Z :=
  let '(o, e) := file_range s in
  if decide (ty s = Load /\ start (addr s) <= v < start (addr s) + (e - o))
  then bytes !! Z.to_nat (o + (v - start (addr s)))
  else acc.
Definition file_byte (bytes : list Z) (segs : list ElfSegment) (v : Z) : option Z :=
  fold_left (file_byte_step bytes v) segs None.

(** Headers the loader accepts: addresses below the canonical hole and a
    file range that is a [usize]. *)
Definition header_ok (ph : ProgramHeader64) : Prop :=
  forall s, segment_of ph = Some s ->
    0 <= p_vaddr ph < 2 ^ 47 /\ 0 <= p_memsz ph /\ 0 <= p_offset ph /\ 0 <= p_filesz ph /\
    p_offset ph + p_filesz ph < u64_modulus.

(** A relocated segment: it ends below the hole and its file part is inside
    the file and, for a [Load] segment, no longer than its memory. *)
Record segment_ok (bytes : list Z) (s : ElfSegment) : Prop := {
  seg_start : 0 <= start (addr s);
  seg_len : 0 <= len (addr s);
  seg_end : start (addr s) + len (addr s) < 2 ^ 47;
  seg_file : ty s = Load -> 0 <= (file_range s).1 <= (file_range s).2 /\
    (file_range s).2 <= Z.of_nat (length bytes) /\
    (file_range s).2 - (file_range s).1 <= len (addr s)
}.

End Reference.

(** ** Parsing and relocation *)
Section ParseProofs.
Context `{Build} `{AddrLaws} `{FlagLaws} `{ElfConsts}.

Lemma low_canonical a : 0 <= a < 2 ^ 47 -> canonical a.
Proof. by left. Qed.

Lemma push_segment_ret ph acc :
  header_ok ph -> push_segment ph acc = Ret (acc ++ option_list (segment_of ph)).
Proof.
  intros Hok. unfold push_segment, header_ok, segment_of in *.
  destruct (try_from_primitive (p_type ph)) as [t|]; [|by rewrite app_nil_r].
  case_decide; [by rewrite app_nil_r|]. destruct (p_memsz ph =? 0); [by rewrite app_nil_r|].
  edestruct Hok as (Hv & Hm & Ho & Hf & Hsum); [done|].
  rewrite VirtAddr_new_canonical by (by apply low_canonical). simpl.
  by rewrite uadd_ret by (unfold is_u64; lia).
Qed.

Lemma parse_segments_ret phs :
  Forall header_ok phs -> parse_segments phs = Ret (omap segment_of phs).
Proof.
  intros Hphs. unfold parse_segments.
  assert (forall acc, for_each phs push_segment acc = Ret (acc ++ omap segment_of phs)) as Hgen.
  { induction Hphs as [|ph phs Hph Hphs IH]; intros acc; [by rewrite app_nil_r|].
    simpl. rewrite push_segment_ret by done. simpl. rewrite IH. f_equal.
    rewrite <- app_assoc. by destruct (segment_of ph). }
  by rewrite Hgen.
Qed.

Lemma as_i64_low a : a < 2 ^ 63 -> as_i64 a = a.
Proof. intros Ha. unfold as_i64. by destruct (Z.ltb_spec a (2 ^ 63)); [|lia]. Qed.

Lemma shift_by_ret delta a :
  0 <= a < 2 ^ 47 -> 0 <= a + delta < 2 ^ 47 -> shift_by delta a = Ret (a + delta).
Proof.
  intros Ha Had. unfold shift_by. rewrite as_i64_low by lia.
  rewrite arith_i64_ret by lia. simpl. unfold as_u64.
  rewrite wrap64_small by (unfold is_u64, u64_modulus; lia).
  by apply VirtAddr_new_canonical, low_canonical.
Qed.

Lemma remap_ret delta segs entry :
  0 <= entry < 2 ^ 47 -> 0 <= entry + delta < 2 ^ 47 ->
  Forall (fun s => 0 <= start (addr s) < 2 ^ 47 /\ 0 <= start (addr s) + delta < 2 ^ 47) segs ->
  remap (shift_by delta) (mkElf segs entry) =
  Ret (mkElf (shift_segment delta <$> segs) (entry + delta)).
Proof.
  intros He Hed Hs. unfold remap. simpl. rewrite shift_by_ret by done. simpl.
  assert (forall acc, for_each segs (fun s done => s' ← segment_remap (shift_by delta) s;
            mret (done ++ [s'])) acc = Ret (acc ++ (shift_segment delta <$> segs))) as ->.
  { induction Hs as [|s segs [H1' H2'] Hs IH]; intros acc; [by rewrite app_nil_r|].
    simpl. unfold segment_remap, dest_remap. rewrite shift_by_ret by done. simpl.
    rewrite IH, <- app_assoc. done. }
  done.
Qed.

Lemma default_text_addr_elem segs t :
  default_text_addr segs = Some t ->
  exists s, s ∈ segs /\ flags_contains (flags s) NO_EXECUTE = false /\ start (addr s) = t.
Proof.
  unfold default_text_addr. induction segs as [|s segs IH] using rev_ind; [done|].
  rewrite fold_left_app. simpl. destruct (flags_contains (flags s) NO_EXECUTE) eqn:E; simpl.
  - intros Ht. destruct (IH Ht) as (s' & Hs' & ? & ?). exists s'. split; [|done].
    apply elem_of_app. by left.
  - intros [= <-]. exists s. split; [apply elem_of_app; right; left|done].
Qed.

Lemma relocate_ret segs entry t :
  default_text_addr segs = Some t ->
  let delta := LOAD_TEXT_SECTION_AT - t in
  0 <= entry < 2 ^ 47 -> 0 <= entry + delta < 2 ^ 47 ->
  Forall (fun s => 0 <= start (addr s) < 2 ^ 47 /\ 0 <= start (addr s) + delta < 2 ^ 47) segs ->
  relocate (mkElf segs entry) = Ret (mkElf (shift_segment delta <$> segs) (entry + delta)).
Proof.
  intros Ht delta He Hed Hs. unfold relocate. simpl. rewrite Ht. simpl.
  destruct (default_text_addr_elem segs t Ht) as (s & Hs' & _ & <-).
  pose proof Hs as Hall. rewrite Forall_forall in Hall. destruct (Hall s Hs') as [Hlow _].
  rewrite !as_i64_low by (unfold LOAD_TEXT_SECTION_AT; lia).
  rewrite arith_i64_ret by (unfold LOAD_TEXT_SECTION_AT; lia). simpl. by apply remap_ret.
Qed.

End ParseProofs.

(** ** Pages and their flags *)
Section PageProofs.
Context `{AddrLaws} `{FlagLaws}.

Lemma pages_ret d :
  0 <= start d -> 0 <= len d -> start d + len d < 2 ^ 47 ->
  exists ps, pages d = Ret ps /\ NoDup ps /\ forall p, p ∈ ps <-> touches d p.
Proof.
  intros Hs Hl He. unfold pages.
  assert (canonical (start d) /\ canonical (start d + len d)) as [Hcs Hce]
    by (split; apply low_canonical; lia).
  rewrite VirtAddr_add_canonical by done. simpl. rewrite !page_containing_spec by done.
  eexists. split; [done|]. split.
  - apply StronglySorted_lt_NoDup, page_range_inclusive_sorted; auto with paging.
  - intros p. rewrite touches_range by done. apply page_range_inclusive_elem; auto with paging.
Qed.

Lemma add_pages_ret fl ps m :
  NoDup ps ->
  exists m', for_each ps (fun page m => mret (add_page fl page m)) m = Ret m' /\
    forall p, m' !! p = if decide (p ∈ ps)
      then Some (match m !! p with Some c => merge_flags c fl | None => fl end) else m !! p.
Proof.
  intros Hnd. revert m. induction Hnd as [|q ps Hq Hnd IH]; intros m.
  - by exists m.
  - cbn [for_each]. destruct (IH (add_page fl q m)) as (m' & E & Hm'). exists m'. split; [done|]. intros p.
    rewrite Hm'. assert (add_page fl q m !! p = if decide (q = p)
      then Some (match m !! p with Some c => merge_flags c fl | None => fl end) else m !! p) as ->.
    { unfold add_page. destruct (decide (q = p)) as [->|Hne];
        destruct (m !! _); by rewrite ?lookup_insert_eq, ?lookup_insert_ne. }
    destruct (decide (q = p)) as [->|Hne].
    + destruct (decide (p ∈ ps)), (decide (p ∈ p :: ps)) as [|Hn]; try done.
      destruct Hn. left.
    + assert (p ∈ q :: ps <-> p ∈ ps) as Hiff by (rewrite elem_of_cons; naive_solver).
      by destruct (decide (p ∈ ps)), (decide (p ∈ q :: ps)); rewrite Hiff in *.
Qed.

Lemma pages_to_map_ret bytes segs :
  Forall (segment_ok bytes) segs ->
  exists m, pages_to_map segs = Ret m /\ forall p, m !! p = page_flags segs p.
Proof.
  intros Hsegs. unfold pages_to_map.
  destruct (for_each_prefix (fun done m => forall p, m !! p = page_flags done p) segs
    (fun segment m => ps ← pages (addr segment);
       for_each ps (fun page m => mret (add_page (flags segment) page m)) m) (∅ : gmap Z Z))
    as (m & E & Hm); [done| |by exists m].
  intros done s rest m -> Hm. apply Forall_app in Hsegs as [_ Hs]. apply Forall_cons in Hs as [Hs _].
  destruct (pages_ret (addr s)) as (ps & -> & Hnd & Hin); [apply Hs..|]. simpl.
  destruct (add_pages_ret (flags s) ps m Hnd) as (m' & -> & Hm'). exists m'. split; [done|].
  intros p. rewrite Hm', Hm. unfold page_flags. rewrite fold_left_app. simpl.
  unfold page_flags_step at 3. by destruct (decide (p ∈ ps)) as [Hp|Hp], (decide (touches (addr s) p));
    rewrite Hin in Hp.
Qed.

(** The effect of [merge_flags] on each bit. *)
Lemma merge_flags_nx c n :
  flags_contains (merge_flags c n) NO_EXECUTE = flags_contains n NO_EXECUTE.
Proof.
  pose proof flag_bits_nonneg as (_ & _ & _ & Hnx).
  unfold merge_flags, flags_set, flags_union, NO_EXECUTE.
  rewrite !flags_contains_bit, Z.lor_spec by done.
  destruct (Z.testbit c NO_EXECUTE_bit) eqn:Ec, (Z.testbit n NO_EXECUTE_bit) eqn:En; simpl;
    rewrite ?Z.ldiff_spec, ?Z.lor_spec, ?Ec, ?En, ?Z.pow2_bits_true by done; reflexivity.
Qed.

Lemma merge_flags_other c n b :
  0 <= b -> b <> NO_EXECUTE_bit ->
  flags_contains (merge_flags c n) (2 ^ b) = flags_contains c (2 ^ b) || flags_contains n (2 ^ b).
Proof.
  intros Hb Hne. pose proof flag_bits_nonneg as (_ & _ & _ & Hnx).
  unfold merge_flags, flags_set, flags_union, NO_EXECUTE. rewrite !flags_contains_bit by done.
  case_match; rewrite ?Z.ldiff_spec, Z.lor_spec; [|done].
  by rewrite Z.pow2_bits_false, andb_true_r.
Qed.

Lemma page_flags_none segs p :
  page_flags segs p = None <-> Forall (fun s => ~ touches (addr s) p) segs.
Proof.
  unfold page_flags. induction segs as [|s segs IH] using rev_ind; [split; [constructor|done]|].
  rewrite fold_left_app, Forall_app, Forall_singleton. simpl. unfold page_flags_step at 1.
  case_decide; [split; [done|]; by intros [_ ?]|]. rewrite IH. naive_solver.
Qed.

(** A bit other than [NO_EXECUTE] is set on a page when some segment that
    touches the page has it. *)
Lemma page_flags_bit segs p fl b :
  0 <= b -> b <> NO_EXECUTE_bit -> page_flags segs p = Some fl ->
  (flags_contains fl (2 ^ b) = true <->
   exists s, s ∈ segs /\ touches (addr s) p /\ flags_contains (flags s) (2 ^ b) = true).
Proof.
  intros Hb Hne. revert fl. unfold page_flags.
  induction segs as [|s segs IH] using rev_ind; intros fl; [done|].
  rewrite fold_left_app. simpl. unfold page_flags_step at 1.
  setoid_rewrite elem_of_app. setoid_rewrite list_elem_of_singleton.
  case_decide as Ht; [|intros E; rewrite (IH _ E); naive_solver].
  destruct (fold_left (page_flags_step p) segs None) as [c|] eqn:Ec; intros [= <-].
  - rewrite merge_flags_other, orb_true_iff, (IH c) by done. naive_solver.
  - split; [intros Hf; exists s; naive_solver|]. intros (s' & [Hs'| ->] & Ht' & Hf); [|done].
    apply page_flags_none in Ec. rewrite Forall_forall in Ec. by destruct (Ec s' Hs').
Qed.

Lemma page_touched segs p fl :
  page_flags segs p = Some fl -> exists s, s ∈ segs /\ touches (addr s) p.
Proof.
  intros Hfl. destruct (decide (Exists (fun s => touches (addr s) p) segs)) as [Hex|Hnex].
  - by apply Exists_exists in Hex.
  - apply Forall_Exists_neg, page_flags_none in Hnex. congruence.
Qed.

(** [NO_EXECUTE] is the one of the last segment that touches the page. *)
Lemma page_flags_nx segs s rest p fl :
  touches (addr s) p -> Forall (fun r => ~ touches (addr r) p) rest ->
  page_flags (segs ++ s :: rest) p = Some fl ->
  flags_contains fl NO_EXECUTE = flags_contains (flags s) NO_EXECUTE.
Proof.
  intros Ht Hrest. unfold page_flags. rewrite fold_left_app. simpl.
  unfold page_flags_step at 2. rewrite decide_True by done.
  assert (forall acc, fold_left (page_flags_step p) rest acc = acc) as ->.
  { induction Hrest as [|r rest Hr Hrest IH]; intros acc; [done|]. simpl.
    unfold page_flags_step at 2. rewrite decide_False by done. apply IH. }
  destruct (fold_left (page_flags_step p) segs None); intros [= <-]; [apply merge_flags_nx|done].
Qed.

Lemma page_flags_present segs p fl :
  Forall (fun s => flags_contains (flags s) PRESENT = true) segs -> page_flags segs p = Some fl ->
  flags_contains fl PRESENT = true.
Proof.
  intros Hsegs Hfl. pose proof flag_bits_nonneg as (Hp & _ & _ & _).
  pose proof flag_bits_ne as (_ & _ & Hne & _).
  destruct (decide (Exists (fun s => touches (addr s) p) segs)) as [Hex|Hnex].
  - apply Exists_exists in Hex as (s & Hs & Ht). unfold PRESENT.
    apply (page_flags_bit segs p fl PRESENT_bit); [done|done|done|]. exists s.
    rewrite Forall_forall in Hsegs. split_and!; [done|done|by apply Hsegs].
  - apply Forall_Exists_neg, page_flags_none in Hnex. congruence.
Qed.

End PageProofs.

(** ** Mapping, copying and protecting *)
Section LoadProofs.
Context `{Build} `{AddrLaws} `{FlagLaws} `{ElfConsts}.
Context {PT : Type} `{!Mapper PT, !MapperLaws PT} {FA : Type} `{FrameSource FA}.

(** The entries as they are mapped while the file is copied. *)
Definition writable_entry (e : Z * Z) : Z * Z := (e.1, flags_union e.2 WRITABLE).

Lemma writable_entries_fst (l : list (Z * Z)) : (writable_entry <$> l).*1 = l.*1.
Proof. rewrite <- list_fmap_compose. by apply list_fmap_ext. Qed.

Lemma map_pages_ret pt fa m :
  source_ok fa -> (FRAMES_PER_PAGE * size m <= length (free fa))%nat ->
  (forall p fl, m !! p = Some fl ->
     is_page p /\ plain pt p /\ translate pt p = NotMapped /\ flags_contains fl PRESENT = true) ->
  exists pt' fa' M, for_each (btree_iter m) map_page (pt, fa) = Ret (pt', fa') /\
    extends pt fa M pt' fa' /\
    forall p, fst <$> M !! p = None /\ m !! p = None \/
      exists f fl, M !! p = Some (f, flags_union fl WRITABLE) /\ m !! p = Some fl.
Proof.
  intros Hok Hlen Hm.
  assert (fresh_pages pt (writable_entry <$> btree_iter m)) as Hfresh.
  { split; [rewrite writable_entries_fst; apply NoDup_btree_iter|]. intros p fl Hin.
    apply list_elem_of_fmap in Hin as ([q gl] & [= -> ->] & Hq). simpl in *.
    apply elem_of_btree_iter in Hq. destruct (Hm q gl Hq) as (? & ? & ? & Hpr).
    split_and!; [done..|]. pose proof flag_bits_nonneg as (? & _). unfold PRESENT in *.
    by rewrite contains_union, Hpr. }
  destruct (for_each_prefix (fun done => mapped_prefix pt fa (writable_entry <$> done))
    (btree_iter m) map_page (pt, fa)) as ([pt' fa'] & E & M & Hext & Hcov).
  - by apply mapped_prefix_nil.
  - intros done [p fl] rest [pt1 fa1] El Hpre.
    edestruct (mapped_prefix_step pt fa) as (f & fa2 & [pt' fa'] & E1 & E2 & H');
      [done|exact Hfresh|by rewrite length_fmap, length_btree_iter
      |rewrite El, fmap_app; reflexivity|exact Hpre|].
    exists (pt', fa'). simpl in *. rewrite E1. simpl. rewrite E2. split; [done|].
    by rewrite fmap_app.
  - exists pt', fa', M. split; [done|]. split; [done|]. intros p.
    destruct (m !! p) as [fl|] eqn:Em; [right|left].
    + destruct (proj2 (Hcov p (flags_union fl WRITABLE))) as [f Hf]; [|by exists f, fl].
      apply list_elem_of_fmap. exists (p, fl). split; [done|by apply elem_of_btree_iter].
    + split; [|done]. destruct (M !! p) as [[f fl]|] eqn:EM; [|done]. exfalso.
      assert ((p, fl) ∈ writable_entry <$> btree_iter m) as Hin by (apply Hcov; by exists f).
      apply list_elem_of_fmap in Hin as ([q gl] & [= <- ->] & Hq).
      apply elem_of_btree_iter in Hq. simpl in *. congruence.
Qed.

(** *** Copying *)

(** The byte of physical memory behind image address [v]. *)
Definition image_read (M : gmap Z (Z * Z)) (mem : gmap Z Z) (v : Z) : option Z :=
  match M !! align_down v with
  | Some (f, _) => mem !! (f + (v - align_down v))
  | None => None
  end.

(** Image pages lie on distinct aligned frames. *)
Definition frames_distinct (M : gmap Z (Z * Z)) : Prop :=
  (forall p f fl, M !! p = Some (f, fl) -> f mod PAGE_SIZE = 0) /\
  (forall p q f fl fl', M !! p = Some (f, fl) -> M !! q = Some (f, fl') -> p = q).

Lemma image_read_store M mem v f fl b v' :
  frames_distinct M -> M !! align_down v = Some (f, fl) ->
  image_read M (<[f + (v - align_down v) := b]> mem) v' =
  if decide (v' = v) then Some b else image_read M mem v'.
Proof.
  intros [Hal Hinj] Hv. unfold image_read. case_decide as E; [subst v'|].
  - rewrite Hv. apply lookup_insert_eq.
  - destruct (M !! align_down v') as [[f' fl']|] eqn:Hv'; [|done].
    apply lookup_insert_ne. intros Eq. apply E.
    pose proof (align_down_bounds v). pose proof (align_down_bounds v').
    assert (align_down (f + (v - align_down v)) = f) as E1
      by (apply align_down_unique; [by eapply Hal|lia]).
    assert (align_down (f' + (v' - align_down v')) = f') as E2
      by (apply align_down_unique; [by eapply Hal|lia]).
    rewrite Eq, E2 in E1. subst f'.
    assert (align_down v' = align_down v) by (by eapply Hinj). lia.
Qed.

(** What [pt] must satisfy for copying into the image [M] to succeed. *)
Definition writable_image (pt : PT) (M : gmap Z (Z * Z)) : Prop :=
  frames_distinct M /\
  forall v f fl, canonical v -> M !! align_down v = Some (f, fl) ->
    translate pt v = Mapped f (v - align_down v) fl /\ flags_contains fl WRITABLE = true.

Lemma store_byte_ret pt M v b mem f fl :
  writable_image pt M -> canonical v -> M !! align_down v = Some (f, fl) ->
  store_byte pt v b mem = Ret (<[f + (v - align_down v) := b]> mem).
Proof.
  intros [_ Hw] Hc Hv. unfold store_byte. rewrite decide_True by done.
  by destruct (Hw v f fl Hc Hv) as [-> ->].
Qed.

Lemma copy_from_slice_ret pt M dst src mem :
  writable_image pt M -> 0 <= dst -> dst + Z.of_nat (length src) <= 2 ^ 47 ->
  (forall v, dst <= v < dst + Z.of_nat (length src) -> is_Some (M !! align_down v)) ->
  exists mem', copy_from_slice pt dst src mem = Ret mem' /\
    forall v, image_read M mem' v =
      if decide (dst <= v < dst + Z.of_nat (length src)) then src !! Z.to_nat (v - dst)
      else image_read M mem v.
Proof.
  intros Hw Hd He Hin. unfold copy_from_slice.
  destruct (for_each_prefix (fun done mem' => forall v, image_read M mem' v =
      if decide (dst <= v < dst + Z.of_nat (length done)) then src !! Z.to_nat (v - dst)
      else image_read M mem v) (imap (fun i b => (Z.of_nat i, b)) src)
    (fun ib => store_byte pt (wrap64 (dst + ib.1)) ib.2) mem) as (mem' & E & Hm').
  - intros v. rewrite decide_False; [done|]. simpl. lia.
  - intros done [i b] rest mem1 El Hm1.
    assert (imap (fun i b => (Z.of_nat i, b)) src !! length done = Some (i, b)) as Hlk.
    { rewrite El, lookup_app_r, Nat.sub_diag by lia. done. }
    rewrite list_lookup_imap in Hlk. apply fmap_Some in Hlk as (b' & Hb & [= -> <-]).
    pose proof (lookup_lt_Some _ _ _ Hb) as Hlt. set (v0 := dst + Z.of_nat (length done)).
    destruct (Hin v0) as [[f fl] Hf]; [unfold v0; lia|].
    assert (canonical v0) as Hc by (apply low_canonical; unfold v0; lia).
    simpl. rewrite wrap64_small by (unfold is_u64, u64_modulus; lia). fold v0.
    rewrite (store_byte_ret pt M v0 b mem1 f fl) by done. eexists. split; [done|].
    intros v. rewrite (image_read_store M mem1 v0 f fl b v) by (done || apply Hw).
    rewrite Hm1, length_app. simpl. destruct (decide (v = v0)) as [->|Hne].
    + rewrite decide_True by (unfold v0; lia).
      replace (Z.to_nat (v0 - dst)) with (length done) by (unfold v0; lia). done.
    + destruct (decide (dst <= v < dst + Z.of_nat (length done))).
      * by rewrite decide_True by lia.
      * rewrite decide_False; [done|]. unfold v0 in Hne. lia.
  - exists mem'. split; [done|]. intros v. rewrite Hm'. by rewrite length_imap.
Qed.

Lemma slice_range_ret bytes o e :
  0 <= o <= e -> e <= Z.of_nat (length bytes) ->
  exists src, slice_range bytes (o, e) = Ret src /\ Z.of_nat (length src) = e - o /\
    forall i, 0 <= i < e - o -> src !! Z.to_nat i = bytes !! Z.to_nat (o + i).
Proof.
  intros Ho He. unfold slice_range. simpl.
  destruct (Z.leb_spec o e), (Z.leb_spec e (Z.of_nat (length bytes))); [|lia..].
  eexists. split; [done|]. split; [rewrite length_take, length_drop; lia|].
  intros i Hi. rewrite lookup_take_lt, lookup_drop by lia. f_equal. lia.
Qed.

Lemma copy_sections_ret bytes pt M segs mem :
  writable_image pt M -> Forall (segment_ok bytes) segs ->
  (forall s v, s ∈ segs -> ty s = Load ->
     start (addr s) <= v < start (addr s) + ((file_range s).2 - (file_range s).1) ->
     is_Some (M !! align_down v)) ->
  exists mem', for_each segs (copy_section bytes pt) mem = Ret mem' /\
    forall v, image_read M mem' v =
      match file_byte bytes segs v with Some b => Some b | None => image_read M mem v end.
Proof.
  intros Hw Hok Hin.
  apply (for_each_prefix (fun done mem' => forall v, image_read M mem' v =
    match file_byte bytes done v with Some b => Some b | None => image_read M mem v end)); [done|].
  intros done s rest mem1 El Hm1.
  assert (s ∈ segs) as Hs by (rewrite El; apply elem_of_app; right; left).
  assert (segment_ok bytes s) as Hsok by (rewrite Forall_forall in Hok; by apply Hok).
  unfold copy_section. unfold file_byte. setoid_rewrite fold_left_app. simpl.
  unfold file_byte_step at 1. specialize (Hin s). destruct (file_range s) as [o e] eqn:Er.
  destruct (decide (ty s = Load)) as [Hty|Hty].
  - destruct (seg_file _ _ Hsok Hty) as (Ho & He & Hle). rewrite Er in Ho, He, Hle. simpl in *.
    pose proof (seg_start _ _ Hsok). pose proof (seg_end _ _ Hsok).
    destruct (slice_range_ret bytes o e Ho He) as (src & -> & Hlen & Hsrc). simpl.
    destruct (copy_from_slice_ret pt M (start (addr s)) src mem1) as (mem2 & E2 & Hm2);
      [done|lia|lia|intros v Hv; apply Hin; [done|done|lia]|].
    exists mem2. split; [done|]. intros v. rewrite Hm2, Hlen, Hm1.
    destruct (decide (start (addr s) <= v < start (addr s) + (e - o))) as [Hv|Hv].
    + rewrite decide_True by done. rewrite Hsrc by lia.
      destruct (bytes !! Z.to_nat (o + (v - start (addr s)))) eqn:Eb; [done|].
      apply lookup_ge_None in Eb. lia.
    + rewrite decide_False by (by intros [_ ?]). done.
  - exists mem1. split; [done|]. intros v. rewrite decide_False by (by intros [? _]). apply Hm1.
Qed.

(** *** Dropping the write permission *)

(** Translation with the pages of [M] protected as [m] says when [done] holds,
    and writable otherwise. *)
Definition protected (pt0 : PT) (M : gmap Z (Z * Z)) (m : gmap Z Z) (dropped : list Z) (a : Z)
  : TranslateResult :=
  match M !! align_down a, m !! align_down a with
  | Some (f, _), Some fl =>
      Mapped f (a - align_down a)
        (if decide (align_down a ∈ dropped) then fl else flags_union fl WRITABLE)
  | _, _ => translate pt0 a
  end.

Lemma protected_other pt0 M m dropped p a :
  align_down a <> p -> protected pt0 M m (dropped ++ [p]) a = protected pt0 M m dropped a.
Proof.
  intros Hne. unfold protected. destruct (M !! align_down a) as [[f g]|]; [|done].
  destruct (m !! align_down a) as [fl|]; [|done]. f_equal.
  assert (align_down a ∈ dropped ++ [p] <-> align_down a ∈ dropped) as Hiff
    by (rewrite elem_of_app, list_elem_of_singleton; naive_solver).
  by destruct (decide (align_down a ∈ dropped)), (decide (align_down a ∈ dropped ++ [p]));
    rewrite Hiff in *.
Qed.

Lemma protected_at pt0 M m dropped p f g fl a :
  M !! p = Some (f, g) -> m !! p = Some fl -> align_down a = p ->
  protected pt0 M m (dropped ++ [p]) a = Mapped f (a - p) fl /\
  (p ∉ dropped -> protected pt0 M m dropped a = Mapped f (a - p) (flags_union fl WRITABLE)).
Proof.
  intros HM Hm <-. unfold protected. rewrite HM, Hm. split.
  - rewrite decide_True; [done|]. apply elem_of_app. right. left.
  - intros Hn. by rewrite decide_False.
Qed.

(** One iteration of the last loop. *)
Lemma drop_writable_step pt0 M m dropped p f fl pt :
  is_page p -> plain pt p -> flags_contains fl PRESENT = true ->
  M !! p = Some (f, flags_union fl WRITABLE) -> m !! p = Some fl -> p ∉ dropped ->
  (forall a, canonical a -> translate pt a = protected pt0 M m dropped a) ->
  exists pt', drop_writable (p, fl) pt = Ret pt' /\ (forall q, plain pt q -> plain pt' q) /\
    forall a, canonical a -> translate pt' a = protected pt0 M m (dropped ++ [p]) a.
Proof.
  intros Hpage Hplain Hpres HM Hm Hnin Htr.
  assert (forall a, align_down a = p ->
    protected pt0 M m (dropped ++ [p]) a = Mapped f (a - p) fl /\
    protected pt0 M m dropped a = Mapped f (a - p) (flags_union fl WRITABLE)) as Hat.
  { intros a Ea. destruct (protected_at pt0 M m dropped p f _ fl a HM Hm Ea) as [? Hd].
    split; [done|by apply Hd]. }
  simpl. destruct (flags_contains fl WRITABLE) eqn:Hwr; simpl.
  - exists pt. split; [done|]. split; [done|]. intros a Ha. rewrite Htr by done.
    destruct (decide (align_down a = p)) as [Ea|Hne]; [|by rewrite protected_other].
    destruct (Hat a Ea) as [-> ->]. by rewrite flags_union_contained.
  - destruct (update_flags_ok p fl pt f (p - p) (flags_union fl WRITABLE)) as (pt' & -> & Hpl' & Htr');
      [done|done| |done|].
    { rewrite Htr by apply Hpage. apply Hat. apply align_down_page, Hpage. }
    exists pt'. split; [done|]. split; [done|]. intros a Ha. rewrite Htr' by done.
    case_decide as Ea; [by destruct (Hat a Ea) as [-> _]|]. rewrite protected_other by done. by apply Htr.
Qed.

Lemma drop_writable_ret pt0 pt1 M m :
  (forall p fl, m !! p = Some fl -> is_page p /\ plain pt1 p /\
     flags_contains fl PRESENT = true /\ exists f, M !! p = Some (f, flags_union fl WRITABLE)) ->
  (forall a, canonical a -> translate pt1 a = protected pt0 M m [] a) ->
  exists pt2, for_each (btree_iter m) drop_writable pt1 = Ret pt2 /\
    forall a, canonical a -> translate pt2 a = protected pt0 M m (btree_iter m).*1 a.
Proof.
  intros Hm Htr1.
  destruct (for_each_prefix (fun done pt => (forall p, plain pt1 p -> plain pt p) /\
      forall a, canonical a -> translate pt a = protected pt0 M m done.*1 a)
    (btree_iter m) drop_writable pt1) as (pt2 & E & _ & Hpt2); [done| |by exists pt2].
  intros done [p fl] rest pt El [Hpl Htr].
  assert (m !! p = Some fl) as Hp.
  { apply elem_of_btree_iter. rewrite El. apply elem_of_app. right. left. }
  destruct (Hm p fl Hp) as (Hpage & Hplain & Hpres & f & HM).
  assert (p ∉ done.*1) as Hnin.
  { pose proof (NoDup_btree_iter m) as Hnd. rewrite El, fmap_app in Hnd.
    apply NoDup_app in Hnd as (_ & Hdis & _). intros Hin. apply (Hdis p Hin). left. }
  destruct (drop_writable_step pt0 M m done.*1 p f fl pt) as (pt' & E' & Hpl' & Htr');
    [done|by apply Hpl|done..|].
  exists pt'. rewrite fmap_app. split; [done|]. split; [by auto|done].
Qed.

(** *** The whole loader *)

(** Pages a list of segments can touch. *)
Definition page_count (segs : list ElfSegment) : nat :=
  sum_list_with (fun s => Z.to_nat (len (addr s) / PAGE_SIZE + 2)) segs.

Lemma touches_length bytes segs (l : list Z) :
  Forall (segment_ok bytes) segs -> NoDup l ->
  (forall p, p ∈ l -> exists s, s ∈ segs /\ touches (addr s) p) ->
  (length l <= page_count segs)%nat.
Proof.
  intros Hok Hnd Hl. set (cand := fun s : ElfSegment =>
    (fun i => align_down (start (addr s)) + PAGE_SIZE * i) <$> seqZ 0 (len (addr s) / PAGE_SIZE + 2)).
  assert (l ⊆+ (segs ≫= cand)) as Hsub.
  { apply NoDup_submseteq; [done|]. intros p Hp. destruct (Hl p Hp) as (s & Hs & Ht).
    apply list_elem_of_bind. exists s. split; [|done]. apply list_elem_of_fmap.
    rewrite Forall_forall in Hok. pose proof (seg_len _ _ (Hok s Hs)) as Hl0.
    apply touches_range in Ht as [[_ Hm] Ht]; [|done].
    pose proof (align_down_mod (start (addr s))) as Hs0.
    pose proof (align_down_bounds (start (addr s))).
    pose proof (align_down_bounds (start (addr s) + len (addr s))).
    exists ((p - align_down (start (addr s))) / PAGE_SIZE). rewrite elem_of_seqZ.
    assert ((p - align_down (start (addr s))) mod PAGE_SIZE = 0) as Hd
      by (by rewrite Zminus_mod, Hm, Hs0).
    unfold PAGE_SIZE in *. apply Z.div_exact in Hd; [|lia]. split; [lia|].
    pose proof (Z.div_mod (len (addr s)) 4096). pose proof (Z.mod_pos_bound (len (addr s)) 4096). lia. }
  apply submseteq_length in Hsub. etrans; [exact Hsub|]. unfold page_count.
  clear -segs. induction segs as [|s segs IH]; [done|].
  change ((s :: segs) ≫= cand) with (cand s ++ (segs ≫= cand)).
  rewrite length_app. cbn [sum_list_with]. unfold cand at 1. rewrite length_fmap, length_seqZ. lia.
Qed.

Lemma segment_of_present ph s :
  segment_of ph = Some s -> flags_contains (flags s) PRESENT = true.
Proof.
  unfold segment_of. destruct (try_from_primitive (p_type ph)); [|done].
  case_decide; [done|]. destruct (p_memsz ph =? 0); [done|]. intros [= <-]. simpl.
  unfold parse_segment_flags. repeat case_match; by flag_simpl.
Qed.

(** The image of the file: its segments, moved so that the code starts at
    [LOAD_TEXT_SECTION_AT]; [t] is the address the file gives it. *)
Definition image (t : Z) (phs : list ProgramHeader64) : list ElfSegment :=
  shift_segment (LOAD_TEXT_SECTION_AT - t) <$> omap segment_of phs.

(** A file the loader can load in the given address space. *)
Record loadable (bytes : list Z) (phs : list ProgramHeader64) (entry t : Z) (pt : PT) (fa : FA)
  : Prop := {
  ld_headers : Forall header_ok phs;
  ld_text : default_text_addr (omap segment_of phs) = Some t;
  ld_entry : 0 <= entry < 2 ^ 47 /\ 0 <= entry + (LOAD_TEXT_SECTION_AT - t) < 2 ^ 47;
  ld_segments : Forall (segment_ok bytes) (image t phs);
  ld_source : source_ok fa;
  ld_frames : (FRAMES_PER_PAGE * page_count (image t phs) <= length (free fa))%nat;
  ld_fresh : forall s p, s ∈ image t phs -> touches (addr s) p ->
    plain pt p /\ translate pt p = NotMapped
}.

(** The address space and memory after loading [segs]. *)
Record loaded (bytes : list Z) (segs : list ElfSegment) (pt : PT) (fa : FA) (mem : gmap Z Z)
  (pt' : PT) (fa' : FA) (mem' : gmap Z Z) : Prop := {
  loaded_pages : forall a fl, canonical a -> page_flags segs (align_down a) = Some fl ->
    exists f, f ∈ free fa /\ (f ∉ free fa') /\ translate pt' a = Mapped f (a - align_down a) fl;
  loaded_distinct : forall a b f o fl f' o' fl', canonical a -> canonical b ->
    is_Some (page_flags segs (align_down a)) -> is_Some (page_flags segs (align_down b)) ->
    align_down a <> align_down b ->
    translate pt' a = Mapped f o fl -> translate pt' b = Mapped f' o' fl' -> f <> f';
  loaded_elsewhere : forall a, canonical a -> page_flags segs (align_down a) = None ->
    translate pt' a = translate pt a;
  loaded_bytes : forall a b, canonical a -> file_byte bytes segs a = Some b ->
    load_byte pt' a mem' = Some b;
  loaded_rest : forall a, canonical a -> is_Some (page_flags segs (align_down a)) ->
    file_byte bytes segs a = None -> load_byte pt' a mem' = load_byte pt' a mem
}.

Lemma image_present t phs :
  Forall (fun s => flags_contains (flags s) PRESENT = true) (image t phs).
Proof.
  apply Forall_fmap, Forall_forall. intros s Hs. apply list_elem_of_omap in Hs as (ph & _ & Hph).
  by apply segment_of_present in Hph.
Qed.

(** File parts are inside the pages of the image. *)
Lemma file_part_touches bytes s v :
  segment_ok bytes s -> ty s = Load ->
  start (addr s) <= v < start (addr s) + ((file_range s).2 - (file_range s).1) ->
  touches (addr s) (align_down v).
Proof.
  intros Hok Hty Hv. destruct (seg_file _ _ Hok Hty) as (_ & _ & Hle).
  pose proof (seg_start _ _ Hok). pose proof (seg_end _ _ Hok). pose proof (align_down_bounds v).
  left. unfold occupies, PAGE_SIZE in *. split_and!; [apply is_page_align_down, low_canonical; lia|lia..].
Qed.

Lemma file_byte_page bytes segs v b :
  Forall (segment_ok bytes) segs -> file_byte bytes segs v = Some b ->
  is_Some (page_flags segs (align_down v)).
Proof.
  intros Hok Hb. destruct (page_flags segs (align_down v)) eqn:E; [done|]. exfalso.
  apply page_flags_none in E. revert Hb. unfold file_byte.
  induction segs as [|s segs IH] using rev_ind; [done|].
  apply Forall_app in Hok as [Hok Hs], E as [E Es]. rewrite Forall_singleton in Hs, Es.
  rewrite fold_left_app. simpl. unfold file_byte_step at 1.
  destruct (file_range s) as [o e] eqn:Er. case_decide as Hc; [|by apply IH].
  intros _. apply Es, (file_part_touches bytes); [done|apply Hc|]. rewrite Er. apply Hc.
Qed.

(** Everything before the page table is touched. *)
Lemma load_image bytes phs entry t pt fa :
  loadable bytes phs entry t pt fa ->
  parse_segments phs = Ret (omap segment_of phs) /\ VirtAddr_new entry = Ret entry /\
  relocate (mkElf (omap segment_of phs) entry) =
    Ret (mkElf (image t phs) (entry + (LOAD_TEXT_SECTION_AT - t))) /\
  exists m, pages_to_map (image t phs) = Ret m /\ forall p, m !! p = page_flags (image t phs) p.
Proof.
  intros [Hh Ht [He Hed] Hs _ _ _]. split_and!.
  - by apply parse_segments_ret.
  - by apply VirtAddr_new_canonical, low_canonical.
  - apply relocate_ret; [done|done|done|]. apply Forall_forall. intros s Hin.
    rewrite Forall_forall in Hh. rewrite Forall_forall in Hs.
    assert (segment_ok bytes (shift_segment (LOAD_TEXT_SECTION_AT - t) s)) as Hsok
      by (apply Hs, list_elem_of_fmap; by exists s).
    pose proof (seg_start _ _ Hsok). pose proof (seg_len _ _ Hsok). pose proof (seg_end _ _ Hsok).
    apply list_elem_of_omap in Hin as (ph & Hph & Eph).
    destruct (Hh ph Hph s Eph) as (Hv & _). simpl in *.
    assert (start (addr s) = p_vaddr ph) as Es; [|rewrite Es in *; lia].
    revert Eph. unfold segment_of. repeat (case_match; try done). by intros [= <-].
  - by apply (pages_to_map_ret bytes).
Qed.

(** From the mapped image to the final state: [m] holds the flags the file
    asks for, [M] what has been mapped for copying. *)
Section Finish.
Variables (bytes : list Z) (segs : list ElfSegment) (pt : PT) (fa : FA).
Variables (m : gmap Z Z) (M : gmap Z (Z * Z)) (pt1 : PT) (fa1 : FA).
Hypothesis segs_ok : Forall (segment_ok bytes) segs.
Hypothesis segs_present : Forall (fun s => flags_contains (flags s) PRESENT = true) segs.
Hypothesis m_flags : forall p, m !! p = page_flags segs p.
Hypothesis pages_plain : forall s p, s ∈ segs -> touches (addr s) p -> plain pt p.
Hypothesis fa_ok : source_ok fa.
Hypothesis mapped : extends pt fa M pt1 fa1.
Hypothesis M_flags : forall p, fst <$> M !! p = None /\ m !! p = None \/
  exists f fl, M !! p = Some (f, flags_union fl WRITABLE) /\ m !! p = Some fl.

Lemma page_mapped p fl :
  page_flags segs p = Some fl -> exists f, M !! p = Some (f, flags_union fl WRITABLE).
Proof.
  intros Hfl. rewrite <- m_flags in Hfl.
  destruct (M_flags p) as [[_ E]|(f & gl & E & E')]; [congruence|]. exists f. congruence.
Qed.

Lemma mapped_writable : writable_image pt1 M.
Proof.
  pose proof flag_bits_nonneg as (_ & Hwn & _ & _). split; [split; [|by apply mapped]|].
  - intros p f fl Hp. destruct (extends_free _ _ _ _ _ _ _ _ fa_ok mapped Hp) as [Hf _].
    pose proof (free_aligned fa fa_ok) as Hal. rewrite Forall_forall in Hal. by apply Hal.
  - intros v f fl Hc Hv. rewrite (ext_translate _ _ _ _ _ mapped) by done. unfold overlay.
    rewrite Hv. split; [done|].
    destruct (M_flags (align_down v)) as [[E _]|(g & gl & E & _)]; rewrite Hv in E; simplify_eq/=.
    unfold WRITABLE. rewrite contains_union, contains_pow2, bool_decide_true by done.
    apply orb_true_r.
Qed.

Lemma finish_copy mem :
  exists mem2, for_each segs (copy_section bytes pt1) mem = Ret mem2 /\
    forall v, image_read M mem2 v =
      match file_byte bytes segs v with Some b => Some b | None => image_read M mem v end.
Proof.
  apply copy_sections_ret; [apply mapped_writable|done|]. intros s v Hs Hty Hv.
  destruct (page_flags segs (align_down v)) as [fl|] eqn:E.
  - destruct (page_mapped _ _ E) as [f ->]. by eexists.
  - apply page_flags_none in E. rewrite Forall_forall in E, segs_ok. exfalso.
    apply (E s Hs), (file_part_touches bytes); [by apply segs_ok|done|done].
Qed.

Lemma finish_protect :
  exists pt2, for_each (btree_iter m) drop_writable pt1 = Ret pt2 /\
    (forall a fl, canonical a -> page_flags segs (align_down a) = Some fl ->
       exists f g, M !! align_down a = Some (f, g) /\
         translate pt2 a = Mapped f (a - align_down a) fl) /\
    (forall a, canonical a -> page_flags segs (align_down a) = None -> translate pt2 a = translate pt a).
Proof.
  destruct (drop_writable_ret pt pt1 M m) as (pt2 & Edrop & Hpt2).
  - intros p fl Hp. rewrite m_flags in Hp. destruct (page_touched _ _ _ Hp) as (s & Hs & Ht).
    split_and!; [by eapply touches_page| |by eapply page_flags_present|by apply page_mapped].
    apply (ext_plain _ _ _ _ _ mapped). by eapply pages_plain.
  - intros a Ha. rewrite (ext_translate _ _ _ _ _ mapped) by done. unfold overlay, protected.
    destruct (M_flags (align_down a)) as [[E E']|(f & gl & E & E')]; rewrite E'.
    + by destruct (M !! align_down a) as [[]|].
    + rewrite E. by rewrite decide_False by apply not_elem_of_nil.
  - exists pt2. split; [done|]. unfold protected in Hpt2. split.
    + intros a fl Ha Hfl. destruct (page_mapped _ _ Hfl) as [f Hf]. rewrite Hpt2 by done.
      rewrite <- m_flags in Hfl. eexists f, _. split; [done|]. rewrite Hf, Hfl, decide_True; [done|].
      apply list_elem_of_fmap. exists (align_down a, fl). split; [done|by apply elem_of_btree_iter].
    + intros a Ha Hn. rewrite Hpt2 by done. rewrite <- m_flags in Hn. rewrite Hn.
      by destruct (M !! align_down a) as [[]|].
Qed.

Lemma load_finish mem :
  exists mem2 pt2, for_each segs (copy_section bytes pt1) mem = Ret mem2 /\
    for_each (btree_iter m) drop_writable pt1 = Ret pt2 /\
    loaded bytes segs pt fa mem pt2 fa1 mem2.
Proof.
  destruct (finish_copy mem) as (mem2 & Ecopy & Hmem2).
  destruct finish_protect as (pt2 & Edrop & Hin & Hout).
  exists mem2, pt2. split; [done|]. split; [done|].
  assert (forall a mem', canonical a -> is_Some (page_flags segs (align_down a)) ->
    load_byte pt2 a mem' = image_read M mem' a) as Hread.
  { intros a mem' Ha [fl Hfl]. destruct (Hin a fl Ha Hfl) as (f & g & E & E').
    unfold load_byte, image_read. by rewrite E, E'. }
  split; [| |done|..].
  - intros a fl Ha Hfl. destruct (Hin a fl Ha Hfl) as (f & g & E & E'). exists f.
    by destruct (extends_free _ _ _ _ _ _ _ _ fa_ok mapped E).
  - intros a b f o fl f' o' fl' Ha Hb [ga Hga] [gb Hgb] Hne Ta Tb <-.
    destruct (Hin a ga Ha Hga) as (f1 & g1 & E1 & T1), (Hin b gb Hb Hgb) as (f2 & g2 & E2 & T2).
    rewrite T1 in Ta. rewrite T2 in Tb. simplify_eq. by apply Hne, (ext_inj _ _ _ _ _ mapped _ _ _ _ _ E1 E2).
  - intros a b Ha Hb. rewrite Hread by (done || by eapply file_byte_page). by rewrite Hmem2, Hb.
  - intros a Ha Hs Hn. rewrite !Hread by done. by rewrite Hmem2, Hn.
Qed.

End Finish.

Lemma load_ret {EA : ElfApi} bytes hdr phs t pt (fa : FA) mem :
  FileHeader64_parse bytes = Ok hdr -> program_headers hdr bytes = Ok phs ->
  loadable bytes phs (e_entry hdr) t pt fa ->
  exists pt' fa' mem',
    load bytes pt fa mem =
      Ret (mkElf (image t phs) (e_entry hdr + (LOAD_TEXT_SECTION_AT - t)), pt', fa', mem') /\
    loaded bytes (image t phs) pt fa mem pt' fa' mem'.
Proof.
  intros Ehdr Ephs Hld. destruct (load_image _ _ _ _ _ _ Hld) as (Eparse & Eentry & Ereloc & m & Em & Hm).
  assert (forall p fl, m !! p = Some fl -> exists s, s ∈ image t phs /\ touches (addr s) p) as Htouch.
  { intros p fl Hp. apply (page_touched (image t phs) p fl). by rewrite <- Hm. }
  destruct (map_pages_ret pt fa m) as (pt1 & fa1 & M & Emap & Hext & HMm).
  - apply Hld.
  - etrans; [|apply (ld_frames _ _ _ _ _ _ Hld)]. apply Nat.mul_le_mono_l.
    rewrite <- length_btree_iter, <- (length_fmap fst).
    apply (touches_length bytes); [apply Hld|apply NoDup_btree_iter|].
    intros p Hp. apply list_elem_of_fmap in Hp as ([q fl] & -> & Hq).
    apply elem_of_btree_iter in Hq. by eapply Htouch.
  - intros p fl Hp. destruct (Htouch p fl Hp) as (s & Hs & Ht).
    destruct (ld_fresh _ _ _ _ _ _ Hld s p Hs Ht). split_and!; [by eapply touches_page|done|done|].
    rewrite Hm in Hp. by eapply page_flags_present; [apply image_present|].
  - destruct (load_finish bytes (image t phs) pt fa m M pt1 fa1) with (mem := mem)
      as (mem2 & pt2 & Ecopy & Edrop & Hloaded);
      [apply Hld|apply image_present|done| |apply Hld|done|done|].
    { intros s p Hs Ht. by apply (ld_fresh _ _ _ _ _ _ Hld s p). }
    exists pt2, fa1, mem2. split; [|done]. unfold load. rewrite Ehdr. simpl. rewrite Ephs. simpl.
    rewrite Eparse. simpl. rewrite Eentry. simpl. rewrite Ereloc. simpl. rewrite Em. simpl.
    rewrite Emap. simpl. rewrite Ecopy. simpl. by rewrite Edrop.
Qed.

End LoadProofs.

(** ** Properties *)

(** C6: Total correctness of the ELF loader on a loadable file: it returns the
    relocated image; every page that a segment occupies, and the page that
    holds the byte after a segment's last, is mapped with exactly the merged
    flags of those segments on a frame taken from the allocator that no other
    page of the image has; no other translation changes, every byte of the
    file part of a Load segment is in memory at its relocated address, and the
    rest of those pages keeps what the frames held before. *)
Theorem load_correct `{Build} `{AddrLaws} `{FlagLaws} `{ElfConsts} {EA : ElfApi}
  {PT : Type} `{!Mapper PT, !MapperLaws PT} {FA : Type} `{FrameSource FA}
  bytes hdr phs t pt (fa : FA) mem :
  FileHeader64_parse bytes = Ok hdr -> program_headers hdr bytes = Ok phs ->
  loadable bytes phs (e_entry hdr) t pt fa ->
  exists pt' fa' mem',
    load bytes pt fa mem =
      Ret (mkElf (image t phs) (e_entry hdr + (LOAD_TEXT_SECTION_AT - t)), pt', fa', mem') /\
    loaded bytes (image t phs) pt fa mem pt' fa' mem'.
Proof. apply load_ret. Qed.

Lemma land_pow2_nonzero f b : 0 <= b -> (Z.land f (2 ^ b) =? 0) = negb (Z.testbit f b).
Proof.
  intros Hb. apply Bool.eq_iff_eq_true. rewrite Z.eqb_eq, negb_true_iff. split.
  - intros E. apply (f_equal (fun x => Z.testbit x b)) in E.
    by rewrite Z.land_spec, Z.pow2_bits_true, andb_true_r, Z.bits_0 in E.
  - intros E. apply Z.bits_inj'. intros n Hn. rewrite Z.land_spec, Z.bits_0.
    destruct (decide (b = n)) as [->|Hne]; [by rewrite E|].
    by rewrite Z.pow2_bits_false, andb_false_r.
Qed.

(** A segment's page flags: always present, user accessible exactly when
    readable, writable exactly when writable, and no-execute exactly when not
    executable. *)
Theorem parse_segment_flags_permissions `{FlagLaws} `{ElfConstsLaws} ph :
  let fl := parse_segment_flags ph in
  flags_contains fl PRESENT = true /\
  flags_contains fl USER_ACCESSIBLE = Z.testbit (p_flags ph) PF_R_bit /\
  flags_contains fl WRITABLE = Z.testbit (p_flags ph) PF_W_bit /\
  flags_contains fl NO_EXECUTE = negb (Z.testbit (p_flags ph) PF_X_bit).
Proof.
  pose proof permission_bits_range as Hr. repeat (apply Forall_cons in Hr as [? Hr]).
  unfold parse_segment_flags, PF_R, PF_W, PF_X. rewrite !land_pow2_nonzero by lia.
  destruct (Z.testbit (p_flags ph) PF_R_bit), (Z.testbit (p_flags ph) PF_W_bit),
    (Z.testbit (p_flags ph) PF_X_bit); simpl; flag_simpl; done.
Qed.

(** C27: Relocation moves the image as a whole: an executable segment starts
    at LOAD_TEXT_SECTION_AT, and every segment keeps its distance from the
    entry point, its length, file range, flags and type. *)
Theorem relocation_keeps_layout `{Build} `{AddrLaws} `{FlagLaws} segs entry t :
  default_text_addr segs = Some t ->
  let delta := LOAD_TEXT_SECTION_AT - t in
  0 <= entry < 2 ^ 47 -> 0 <= entry + delta < 2 ^ 47 ->
  Forall (fun s => 0 <= start (addr s) < 2 ^ 47 /\ 0 <= start (addr s) + delta < 2 ^ 47) segs ->
  exists e, relocate (mkElf segs entry) = Ret e /\
    (exists s, s ∈ segments e /\ flags_contains (flags s) NO_EXECUTE = false /\
       start (addr s) = LOAD_TEXT_SECTION_AT) /\
    Forall2 (fun s s' => start (addr s') - entry_point e = start (addr s) - entry /\
       len (addr s') = len (addr s) /\ file_range s' = file_range s /\ flags s' = flags s /\ ty s' = ty s)
      segs (segments e).
Proof.
  intros Ht delta He Hed Hs. eexists. split; [by apply relocate_ret|]. simpl. split.
  - destruct (default_text_addr_elem segs t Ht) as (s & Hin & Hx & Est).
    exists (shift_segment delta s). split; [apply list_elem_of_fmap; by exists s|].
    split; [done|]. simpl. unfold delta. lia.
  - apply Forall2_fmap_r, Forall_Forall2_diag. apply Forall_forall. intros s _. simpl.
    split_and!; [lia|done..].
Qed.

(** C26: The page table the loader asks for: a page is mapped exactly when a
    segment occupies it or the byte after a segment's last is on it; it is
    writable (or user accessible) exactly when some such segment is, and
    executable exactly when the last such segment is. So a segment that ends
    on a page boundary has the next page mapped too, and writable if it is
    writable, although it has no byte there. *)
Theorem pages_to_map_permissions `{AddrLaws} `{FlagLaws} bytes segs :
  Forall (segment_ok bytes) segs ->
  exists m, pages_to_map segs = Ret m /\
    (forall p, is_Some (m !! p) <-> exists s, s ∈ segs /\ (occupies (addr s) p \/ holds_end (addr s) p)) /\
    (forall p fl, m !! p = Some fl ->
      (flags_contains fl WRITABLE = true <->
         exists s, s ∈ segs /\ touches (addr s) p /\ flags_contains (flags s) WRITABLE = true) /\
      (flags_contains fl USER_ACCESSIBLE = true <->
         exists s, s ∈ segs /\ touches (addr s) p /\ flags_contains (flags s) USER_ACCESSIBLE = true) /\
      (forall pre s post, segs = pre ++ s :: post -> touches (addr s) p ->
         Forall (fun r => ~ touches (addr r) p) post ->
         flags_contains fl NO_EXECUTE = flags_contains (flags s) NO_EXECUTE)) /\
    (forall s, s ∈ segs -> is_page (start (addr s) + len (addr s)) ->
       ~ occupies (addr s) (start (addr s) + len (addr s)) /\
       exists fl, m !! (start (addr s) + len (addr s)) = Some fl /\
         (flags_contains (flags s) WRITABLE = true -> flags_contains fl WRITABLE = true)).
Proof.
  intros Hok. destruct (pages_to_map_ret bytes segs Hok) as (m & E & Hm). exists m. split; [done|].
  assert (forall p, is_Some (m !! p) <-> exists s, s ∈ segs /\ touches (addr s) p) as Hsome.
  { intros p. rewrite Hm. split; [intros [fl Hfl]; by apply (page_touched segs p fl)|].
    intros (s & Hs & Ht). destruct (page_flags segs p) eqn:Ep; [done|]. apply page_flags_none in Ep.
    rewrite Forall_forall in Ep. by destruct (Ep s Hs). }
  pose proof flag_bits_nonneg as (_ & ? & ? & ?). pose proof flag_bits_ne as (_ & _ & _ & _ & ? & ?).
  split_and!; [done| |].
  - intros p fl Hfl. rewrite Hm in Hfl. split_and!; [by apply page_flags_bit..|].
    intros pre s post -> Ht Hpost. by apply (page_flags_nx pre s post p).
  - intros s Hs Hp. assert (touches (addr s) (start (addr s) + len (addr s))) as Ht
      by (right; split; [done|symmetry; apply align_down_page, Hp]).
    split; [intros (_ & _ & _ & Hlt); lia|]. destruct (proj2 (Hsome (start (addr s) + len (addr s)))) as [fl Hfl]; [by exists s|].
    exists fl. split; [done|]. intros Hw. rewrite Hm in Hfl. unfold WRITABLE in *. eapply page_flags_bit; [done..|by exists s].
Qed.

(** A page shared by an executable and a non-executable segment is
    executable or not depending on the order of the segments in the file. *)
Theorem shared_page_execute_depends_on_order `{AddrLaws} `{FlagLaws} bytes s1 s2 p :
  segment_ok bytes s1 -> segment_ok bytes s2 ->
  touches (addr s1) p -> touches (addr s2) p ->
  flags_contains (flags s1) NO_EXECUTE = false -> flags_contains (flags s2) NO_EXECUTE = true ->
  exists m m' fl fl', pages_to_map [s1; s2] = Ret m /\ pages_to_map [s2; s1] = Ret m' /\
    m !! p = Some fl /\ m' !! p = Some fl' /\
    flags_contains fl NO_EXECUTE = true /\ flags_contains fl' NO_EXECUTE = false.
Proof.
  intros Hok1 Hok2 Ht1 Ht2 Hx1 Hx2.
  destruct (pages_to_map_ret bytes [s1; s2]) as (m & E & Hm); [by repeat apply List.Forall_cons|].
  destruct (pages_to_map_ret bytes [s2; s1]) as (m' & E' & Hm'); [by repeat apply List.Forall_cons|].
  exists m, m', (merge_flags (flags s1) (flags s2)), (merge_flags (flags s2) (flags s1)).
  rewrite Hm, Hm', !merge_flags_nx. unfold page_flags. simpl. unfold page_flags_step.
  by rewrite !decide_True by done.
Qed.

(** A file without an executable segment makes the loader panic on the
    missing text address. *)
Theorem load_without_code_panics `{Build} `{AddrLaws} `{FlagLaws} `{ElfConsts} {EA : ElfApi}
  {PT : Type} `{!Mapper PT} {FA : Type} `{!FrameAllocator FA} bytes hdr phs (pt : PT) (fa : FA) mem :
  FileHeader64_parse bytes = Ok hdr -> program_headers hdr bytes = Ok phs ->
  Forall header_ok phs -> 0 <= e_entry hdr < 2 ^ 47 ->
  Forall (fun s => flags_contains (flags s) NO_EXECUTE = true) (omap segment_of phs) ->
  load bytes pt fa mem = Stop UnwrapNone.
Proof.
  intros Ehdr Ephs Hok He Hnx. unfold load. rewrite Ehdr. simpl. rewrite Ephs. simpl.
  rewrite parse_segments_ret by done. simpl.
  rewrite VirtAddr_new_canonical by (by apply low_canonical). simpl.
  unfold relocate. simpl.
  destruct (default_text_addr (omap segment_of phs)) as [t|] eqn:Et; [|done].
  destruct (default_text_addr_elem _ t Et) as (s & Hs & Hx & _).
  rewrite Forall_forall in Hnx. rewrite (Hnx s Hs) in Hx. done.
Qed.

(** ** The properties at a concrete file *)
Section Witnesses.
#[local] Existing Instance dev_build.
#[local] Existing Instance Ref.addresses.
#[local] Existing Instance Ref.addresses_laws.
#[local] Existing Instance Ref.flag_bits.
#[local] Existing Instance Ref.flag_bits_laws.
#[local] Existing Instance Ref.boot_info.
#[local] Existing Instance Ref.boot_info_laws.
#[local] Existing Instance Ref.mapper.
#[local] Existing Instance Ref.mapper_laws.
#[local] Existing Instance Ref.elf_consts.
#[local] Existing Instance Ref.elf_consts_laws.
#[local] Existing Instance FrameAlloc.BootInfoFrameAllocator_trait.
#[local] Existing Instance FrameAlloc.BootInfoFrameAllocator_source.

(** Code, then data (the text [Test print]) with zero-initialised space after it, then a stack
    marker of length zero, which the loader skips. *)
Definition code_header : ProgramHeader64 := mkPhdr 1 5 0 0x201000 4 0x100 0x1000.
Definition data_header : ProgramHeader64 := mkPhdr 1 6 4 0x202100 10 0x20 0x1000.
Definition stack_header : ProgramHeader64 := mkPhdr 0x6474e551 6 0 0 0 0 0.
Definition program : list ProgramHeader64 := [code_header; data_header; stack_header].
Definition program_bytes : list Z :=
  [0xf4; 0xeb; 0xfe; 0x90; 84; 101; 115; 116; 32; 112; 114; 105; 110; 116].

Definition program_image : list ElfSegment :=
  [mkSegment Load 0x1000 5 (0, 4) (mkDest 0x660000 0x100 0x201000);
   mkSegment Load 0x1000 (2 ^ 63 + 7) (4, 14) (mkDest 0x661100 0x20 0x202100)].

Lemma program_image_eq : image 0x201000 program = program_image.
Proof. vm_compute. reflexivity. Qed.

Lemma program_segments_ok : Forall (segment_ok program_bytes) program_image.
Proof. repeat constructor; vm_compute; congruence. Qed.

Lemma program_headers_ok : Forall header_ok program.
Proof.
  repeat apply List.Forall_cons; [..|constructor]; intros s; vm_compute;
    intros [= <-]; split_and!; congruence.
Qed.

Lemma program_loadable :
  loadable program_bytes program 0x201000 0x201000 Ref.empty_table
    (FrameAlloc.init FrameAlloc.boot_map).
Proof.
  split.
  - apply program_headers_ok.
  - vm_compute. reflexivity.
  - unfold LOAD_TEXT_SECTION_AT. lia.
  - rewrite program_image_eq. apply program_segments_ok.
  - apply FrameAlloc.boot_map_ok.
  - rewrite FrameAlloc.boot_map_free, program_image_eq. vm_compute. lia.
  - intros s p _ _. split; [exact I|reflexivity].
Qed.

Lemma load_correct_witness :
  let fa := FrameAlloc.init FrameAlloc.boot_map in
  exists pt' fa' mem',
    @load _ _ _ _ (Ref.elf_file 0x201000 program) _ _ _ _ program_bytes Ref.empty_table fa ∅ =
      Ret (mkElf (image 0x201000 program) 0x660000, pt', fa', mem') /\
    loaded program_bytes (image 0x201000 program) Ref.empty_table fa ∅ pt' fa' mem'.
Proof.
  apply (load_correct (EA := Ref.elf_file 0x201000 program) program_bytes tt program 0x201000);
    [reflexivity|reflexivity|apply program_loadable].
Defined.

Lemma parse_segment_flags_permissions_witness :
  flags_contains (parse_segment_flags code_header) NO_EXECUTE = false.
Proof. by destruct (parse_segment_flags_permissions code_header) as (_ & _ & _ & ->). Defined.

Lemma relocation_keeps_layout_witness :
  exists e, relocate (mkElf (omap segment_of program) 0x201000) = Ret e /\
    (exists s, s ∈ segments e /\ flags_contains (flags s) NO_EXECUTE = false /\
       start (addr s) = LOAD_TEXT_SECTION_AT) /\
    Forall2 (fun s s' => start (addr s') - entry_point e = start (addr s) - 0x201000 /\
       len (addr s') = len (addr s) /\ file_range s' = file_range s /\ flags s' = flags s /\ ty s' = ty s)
      (omap segment_of program) (segments e).
Proof.
  apply (relocation_keeps_layout _ 0x201000 0x201000).
  - vm_compute. reflexivity.
  - lia.
  - unfold LOAD_TEXT_SECTION_AT. lia.
  - repeat apply List.Forall_cons; [..|constructor]; vm_compute; repeat split; congruence.
Defined.

Lemma pages_to_map_permissions_witness :
  exists m, pages_to_map program_image = Ret m /\ (is_Some (m !! 0x662000) -> False).
Proof.
  destruct (pages_to_map_permissions program_bytes program_image program_segments_ok)
    as (m & E & Hm & _). exists m. split; [exact E|]. intros Hs.
  apply (Hm 0x662000) in Hs as (s & Hs & Ht). unfold program_image in Hs.
  rewrite !elem_of_cons, elem_of_nil in Hs.
  destruct Hs as [->|[->|[]]]; revert Ht; apply (bool_decide_unpack _); vm_compute; exact I.
Defined.

(** A code segment and a read-only segment on one page. *)
Definition shared_code : ElfSegment := mkSegment Load 1 5 (0, 4) (mkDest 0x660000 0x100 0x660000).
Definition shared_rodata : ElfSegment :=
  mkSegment Load 1 (2 ^ 63 + 5) (4, 6) (mkDest 0x660200 0x20 0x660200).

Lemma shared_page_execute_depends_on_order_witness :
  exists m m' fl fl', pages_to_map [shared_code; shared_rodata] = Ret m /\
    pages_to_map [shared_rodata; shared_code] = Ret m' /\
    m !! 0x660000 = Some fl /\ m' !! 0x660000 = Some fl' /\
    flags_contains fl NO_EXECUTE = true /\ flags_contains fl' NO_EXECUTE = false.
Proof.
  apply (shared_page_execute_depends_on_order program_bytes).
  - split; vm_compute; repeat split; congruence.
  - split; vm_compute; repeat split; congruence.
  - apply (bool_decide_unpack _). vm_compute. exact I.
  - apply (bool_decide_unpack _). vm_compute. exact I.
  - vm_compute. reflexivity.
  - vm_compute. reflexivity.
Defined.

Lemma load_without_code_panics_witness :
  @load _ _ _ _ (Ref.elf_file 0x201000 [data_header]) _ _ _ _ program_bytes Ref.empty_table
    (FrameAlloc.init FrameAlloc.boot_map) ∅ = Stop UnwrapNone.
Proof.
  apply (load_without_code_panics (EA := Ref.elf_file 0x201000 [data_header])
    program_bytes tt [data_header]).
  - reflexivity.
  - reflexivity.
  - pose proof program_headers_ok as Hok. unfold program in Hok. apply Forall_cons in Hok as [_ Hok].
    apply Forall_cons in Hok as [Hok _]. by apply List.Forall_cons.
  - simpl. lia.
  - repeat apply List.Forall_cons; [|constructor]. vm_compute. reflexivity.
Defined.

End Witnesses.

End ElfLoad.
