(* ===== verification/SyscallLib.v ===== *)
(** * The system call crate ([syscall/src/lib.rs])

    The numbers and errors the kernel and user programs agree on, and the
    user-side wrappers.  The assembly stub behind them is in [SyscallAbi]. *)
From S2P Require Import Prelude.

Module SyscallLib.

Inductive Syscall : Set := Read | Write | Exit.

#[export] Instance Syscall_eq_dec : EqDecision Syscall.
Proof. solve_decision. Defined.

(** [#[repr(u8)]] discriminants and the derived [TryFromPrimitive]. *)
Definition Syscall_as_u8 (s : Syscall) : Z :=
  match s with Read => 1 | Write => 2 | Exit => 3 end.

Definition Syscall_try_from (n : Z) : option Syscall :=
  match n with 1 => Some Read | 2 => Some Write | 3 => Some Exit | _ => None end.

Inductive Error : Set := NoSys | InvalidArgument.

#[export] Instance Error_eq_dec : EqDecision Error.
Proof. solve_decision. Defined.

Definition Error_as_u8 (e : Error) : Z :=
  match e with NoSys => 0 | InvalidArgument => 1 end.

(** The arguments of a system call: its number, then [arg0] to [arg4]. *)
Record call : Set := mkCall {
  syscall_num : Z; arg0 : Z; arg1 : Z; arg2 : Z; arg3 : Z; arg4 : Z
}.

(** A slice as [as_ptr] and [len] see it. *)
Record slice : Set := mkSlice { data : Z; len : Z }.

(** The calls [write], [read] and [exit] make; [syscall_1] and [syscall_3]
    leave the registers of the other arguments as they are. *)
Definition write (fd : Z) (bytes : slice) (other : call) : call :=
  mkCall (Syscall_as_u8 Write) fd (data bytes) (len bytes) (arg3 other) (arg4 other).
Definition read (fd : Z) (bytes : slice) (other : call) : call :=
  mkCall (Syscall_as_u8 Read) fd (data bytes) (len bytes) (arg3 other) (arg4 other).
Definition exit (code : Z) (other : call) : call :=
  mkCall (Syscall_as_u8 Exit) code (arg1 other) (arg2 other) (arg3 other) (arg4 other).

Lemma Syscall_try_from_Some n s : Syscall_try_from n = Some s -> n = Syscall_as_u8 s.
Proof.
  intros E. unfold Syscall_try_from in E. destruct n as [|n|n]; [done| |done].
  repeat (destruct n as [n|n|]; try discriminate E); by injection E as <-.
Qed.

End SyscallLib.
