(* ===== verification/Machine.v ===== *)
(** * The processor

    An interpreter of the instructions the hand-written assembly of the
    repository uses: the user stub ([syscall/src/lib.rs]), [syscall_handler]
    ([kernel/src/syscall/handler.rs]), [_start] and [enter_user_mode]
    ([kernel/src/main.rs]), [breakpoint_handler] and [crash_by_div]
    ([kernel/src/interrupts.rs]).  The functions that assembly calls or jumps
    to are compiled Rust and parameters of the machine, which carries the
    state [W] they work on as its [world]. *)
From S2P Require Import Prelude Platform.

Module Machine.

Inductive reg : Set :=
  | rax | rbx | rcx | rdx | rsi | rdi | rsp | rbp
  | r8 | r9 | r10 | r11 | r12 | r13 | r14 | r15.

#[export] Instance reg_eq_dec : EqDecision reg.
Proof. solve_decision. Defined.

Inductive privilege : Set := Kernel | User.

#[export] Instance privilege_eq_dec : EqDecision privilege.
Proof. solve_decision. Defined.

(** The Rust functions the assembly names. *)
Inductive symbol : Set :=
  | sym_syscall_handler_inner
  | sym_my_write
  | sym_kernel_main
  | sym_timer_interrupt_handler
  | sym_keyboard_interrupt_handler.

Inductive instr : Set :=
  | MOV (dst src : reg)
  | MOV_imm (dst : reg) (v : Z)
  | MOV_to_gs (offset : Z) (src : reg)
  | MOV_from_gs (dst : reg) (offset : Z)
  | PUSH (src : reg)
  | POP (dst : reg)
  | CALL (f : symbol)
  | JMP (f : symbol)
  | LEAVE
  | RET
  | DIV (src : reg)
  | INT3
  | IRETQ
  | SWAPGS
  | SYSCALL
  | SYSRETQ.

(** The model-specific registers the system call instructions use, and the
    control bit for the GS base instructions. *)
Record control : Set := mkControl {
  LStar : Z;
  SFMask : Z;
  SYSTEM_CALL_EXTENSIONS : bool;
  FSGSBASE : bool
}.

Section Machine.
Context {W : Type}.

Record machine : Type := mkMachine {
  regs : reg -> Z;
  rip : Z;
  rflags : Z;
  gs_base : Z;
  kernel_gs_base : Z;
  ring : privilege;
  mem : Z -> Z;
  world : W
}.

Definition set (r : reg) (v : Z) (m : machine) : machine :=
  mkMachine (fun r' => if decide (r = r') then v else regs m r') (rip m) (rflags m)
    (gs_base m) (kernel_gs_base m) (ring m) (mem m) (world m).

Definition jump (a : Z) (m : machine) : machine :=
  mkMachine (regs m) a (rflags m) (gs_base m) (kernel_gs_base m) (ring m) (mem m) (world m).

Definition set_mem (f : Z -> Z) (m : machine) : machine :=
  mkMachine (regs m) (rip m) (rflags m) (gs_base m) (kernel_gs_base m) (ring m) f (world m).

Definition swap_bases (m : machine) : machine :=
  mkMachine (regs m) (rip m) (rflags m) (kernel_gs_base m) (gs_base m) (ring m) (mem m) (world m).

(** Privilege, instruction pointer and flags change together. *)
Definition switch (p : privilege) (a f : Z) (m : machine) : machine :=
  mkMachine (regs m) a f (gs_base m) (kernel_gs_base m) p (mem m) (world m).

Definition set_world (w : W) (m : machine) : machine :=
  mkMachine (regs m) (rip m) (rflags m) (gs_base m) (kernel_gs_base m) (ring m) (mem m) w.

(** Little-endian words in byte memory. *)
Fixpoint load_bytes (n : nat) (f : Z -> Z) (a : Z) : Z :=
  match n with
  | O => 0
  | S n' => load_bytes n' f a + f (a + Z.of_nat n') * 2 ^ (8 * Z.of_nat n')
  end.
Definition load64 (f : Z -> Z) (a : Z) : Z := load_bytes 8 f a.

Definition store64 (a v : Z) (f : Z -> Z) : Z -> Z :=
  fun x => if decide (a <= x < a + 8) then (v / 2 ^ (8 * (x - a))) mod 256 else f x.

(** What surrounds the running code: the code itself (the instruction at an
    address and the address after it), the compiled functions from their
    entry to their return, the registers above, the interrupt table (the
    address of a handler and the top of its own stack, if it has one; and
    whether user code may raise the interrupt by an instruction), the stack
    the task state segment names for interrupts from user mode, and the
    stack segment the bootloader left in the kernel. *)
Record env : Type := mkEnv {
  code : Z -> option (instr * Z);
  calls : symbol -> machine -> option machine;
  ctl : control;
  gates : Z -> option (Z * option Z);
  user_gates : Z -> bool;
  rsp0 : Z;
  kernel_ss : Z
}.

Variable E : env.

(** Flag bits [sysret] takes from [r11] and [iretq] from the stack; bit 1 is
    always set. *)
Definition sysret_flags (f : Z) : Z := Z.lor (Z.land f 0x3C7FD7) 2.
Definition iretq_flags (f : Z) : Z := Z.lor (Z.land f 0x3D7FD7) 2.

(** Flags an interrupt gate clears (interrupt, trap, nested task, resume and
    virtual mode), and the resume flag a fault saves. *)
Definition gate_mask : Z := 0x34300.
Definition RESUME_FLAG : Z := 0x10000.

(** The selectors of the two privilege levels in [gdt.rs]. *)
Definition cs_of (p : privilege) : Z := match p with Kernel => 0x08 | User => 0x23 end.
Definition ss_of (p : privilege) : Z := match p with Kernel => kernel_ss E | User => 0x1b end.

Definition push (v : Z) (m : machine) : machine :=
  let sp := wrap64 (regs m rsp - 8) in
  set rsp sp (set_mem (store64 sp v (mem m)) m).

(** The stack an interrupt frame goes to, aligned to 16 bytes. *)
Definition frame_top (ist : option Z) (m : machine) : Z :=
  let sp := match ist with
            | Some top => top
            | None => match ring m with User => rsp0 E | Kernel => regs m rsp end
            end in
  sp - sp mod 16.

(** Interrupt or exception [v]: the frame that returns to [ret] with flags
    [fl] is pushed and the handler entered. *)
Definition deliver (v ret fl : Z) (m : machine) : option machine :=
  match gates E v with
  | None => None
  | Some (h, ist) =>
      let m1 := set rsp (frame_top ist m) m in
      Some (switch Kernel h (Z.ldiff (rflags m) gate_mask)
        (push ret (push (cs_of (ring m)) (push fl (push (regs m rsp) (push (ss_of (ring m)) m1))))))
  end.

(** A fault with an error code. *)
Definition deliver_code (v error ret fl : Z) (m : machine) : option machine :=
  m' ← deliver v ret fl m; Some (push error m').

(** A general protection fault of the current instruction.  Without a handler
    for it the processor raises a double fault, whose code is zero. *)
Definition protection_fault (error : Z) (m : machine) : option machine :=
  match gates E 13 with
  | Some _ => deliver_code 13 error (rip m) (Z.lor (rflags m) RESUME_FLAG) m
  | None => deliver_code 8 0 (rip m) (rflags m) m
  end.

(** Whether the running code may raise interrupt [v] by an instruction; the
    processor does not check this for hardware interrupts and faults. *)
Definition may_raise (v : Z) (m : machine) : bool :=
  match ring m with Kernel => true | User => user_gates E v end.

Definition exec (i : instr) (next : Z) (m : machine) : option machine :=
  match i with
  | MOV dst src => Some (jump next (set dst (regs m src) m))
  | MOV_imm dst v => Some (jump next (set dst v m))
  | MOV_to_gs o src => Some (jump next (set_mem (store64 (gs_base m + o) (regs m src) (mem m)) m))
  | MOV_from_gs dst o => Some (jump next (set dst (load64 (mem m) (gs_base m + o)) m))
  | PUSH src => Some (jump next (push (regs m src) m))
  | POP dst =>
      Some (jump next (set dst (load64 (mem m) (regs m rsp)) (set rsp (wrap64 (regs m rsp + 8)) m)))
  | CALL f => calls E f (push next m)
  | JMP f => calls E f m
  | LEAVE =>
      let m := set rsp (regs m rbp) m in
      Some (jump next (set rbp (load64 (mem m) (regs m rsp)) (set rsp (wrap64 (regs m rsp + 8)) m)))
  | RET => Some (jump (load64 (mem m) (regs m rsp)) (set rsp (wrap64 (regs m rsp + 8)) m))
  | DIV src =>
      let dividend := regs m rdx * u64_modulus + regs m rax in
      let divisor := regs m src in
      if (divisor =? 0) || (u64_modulus <=? dividend / divisor)
      then deliver 0 (rip m) (Z.lor (rflags m) RESUME_FLAG) m
      else Some (jump next (set rdx (dividend mod divisor) (set rax (dividend / divisor) m)))
  | INT3 => if may_raise 3 m then deliver 3 next (rflags m) m else protection_fault (8 * 3 + 2) m
  | IRETQ =>
      let sp := regs m rsp in
      if decide (ring m = Kernel) then
        Some (switch (if decide (Z.land (load64 (mem m) (sp + 8)) 3 = 0) then Kernel else User)
                (load64 (mem m) sp) (iretq_flags (load64 (mem m) (sp + 16)))
                (set rsp (load64 (mem m) (sp + 24)) m))
      else None
  | SWAPGS => if decide (ring m = Kernel) then Some (jump next (swap_bases m)) else None
  | SYSCALL =>
      if SYSTEM_CALL_EXTENSIONS (ctl E)
      then Some (switch Kernel (LStar (ctl E)) (Z.ldiff (rflags m) (SFMask (ctl E)))
                   (set r11 (rflags m) (set rcx next m)))
      else None
  | SYSRETQ =>
      if decide (ring m = Kernel) then Some (switch User (regs m rcx) (sysret_flags (regs m r11)) m)
      else None
  end.

Definition step (m : machine) : option machine :=
  match code E (rip m) with
  | Some (i, next) => exec i next m
  | None => None
  end.

Fixpoint run (n : nat) (m : machine) : option machine :=
  match n with
  | O => Some m
  | S n' => m' ← step m; run n' m'
  end.

(** [l] is assembled from [a] to [e]. *)
Fixpoint assembled (a : Z) (l : list instr) (e : Z) : Prop :=
  match l with
  | [] => a = e
  | i :: l' => exists next, code E a = Some (i, next) /\ assembled next l' e
  end.

(** Addresses of instructions are 64-bit numbers. *)
Definition code_u64 : Prop := forall a i n, code E a = Some (i, n) -> is_u64 n.

End Machine.
Arguments machine : clear implicits.
Arguments env : clear implicits.

(** ** Ranges of addresses *)

Definition inside (lo hi a : Z) : Prop := lo <= a < hi.
Definition apart (lo hi lo' hi' : Z) : Prop := hi <= lo' \/ hi' <= lo.

(** ** The [sysv64] calling convention *)

Definition callee_saved : list reg := [rbx; rbp; r12; r13; r14; r15].

(** [m'] is [m], at the entry of a [sysv64] function, after that function
    returned [v] without touching the bytes of [keep]; the [world] is what the
    function made of it. *)
Record returns {W : Type} (keep : Z -> Prop) (v : Z) (w : W) (m m' : machine W) : Prop := {
  ret_rip : rip m' = load64 (mem m) (regs m rsp);
  ret_rsp : regs m' rsp = regs m rsp + 8;
  ret_rax : regs m' rax = v;
  ret_saved : forall r, r ∈ callee_saved -> regs m' r = regs m r;
  ret_regs : forall r, is_u64 (regs m' r);
  ret_gs : gs_base m' = gs_base m;
  ret_kernel_gs : kernel_gs_base m' = kernel_gs_base m;
  ret_ring : ring m' = ring m;
  ret_mem : forall a, keep a -> mem m' a = mem m a;
  ret_world : world m' = w
}.

(** ** Reading the state after an update *)

Section Reading.
Context {W : Type}.
Implicit Types m : machine W.

Lemma regs_set_same r v m : regs (set r v m) r = v.
Proof. simpl. by rewrite decide_True. Qed.

Lemma regs_set_other r r' v m : r <> r' -> regs (set r v m) r' = regs m r'.
Proof. intros Hr. simpl. by rewrite decide_False. Qed.

(** ** Memory *)

Lemma load_bytes_ext n f g a :
  (forall x, a <= x < a + Z.of_nat n -> f x = g x) -> load_bytes n f a = load_bytes n g a.
Proof.
  induction n as [|n IH]; intros Hfg; [done|]. simpl. rewrite IH, Hfg; [done|lia|].
  intros x Hx. apply Hfg. lia.
Qed.

Lemma load64_ext f g a : (forall x, inside a (a + 8) x -> f x = g x) -> load64 f a = load64 g a.
Proof. intros Hfg. by apply (load_bytes_ext 8). Qed.

Lemma load_store_bytes n a v f :
  (n <= 8)%nat -> load_bytes n (store64 a v f) a = v mod 2 ^ (8 * Z.of_nat n).
Proof.
  induction n as [|n IH]; intros Hn; [by rewrite Z.mod_1_r|]. simpl load_bytes. rewrite IH by lia.
  unfold store64. rewrite decide_True by lia.
  replace (a + Z.of_nat n - a) with (Z.of_nat n) by lia.
  replace (8 * Z.of_nat (S n)) with (8 * Z.of_nat n + 8) by lia.
  rewrite Z.pow_add_r by lia. change (2 ^ 8) with 256.
  rewrite Z.rem_mul_r by lia. lia.
Qed.

Lemma load_store_same a v f : is_u64 v -> load64 (store64 a v f) a = v.
Proof. intros Hv. unfold load64. rewrite load_store_bytes by done. by apply Z.mod_small. Qed.

Lemma load_store_other a b v f : apart a (a + 8) b (b + 8) -> load64 (store64 a v f) b = load64 f b.
Proof.
  intros Hd. apply load64_ext. intros x Hx. unfold store64, inside, apart in *.
  rewrite decide_False by lia. done.
Qed.

Lemma store64_other a v f x : ~ inside a (a + 8) x -> store64 a v f x = f x.
Proof. intros Hx. unfold store64, inside in *. by rewrite decide_False. Qed.

(** ** Sequencing *)

Context (E : env W).

Lemma run_app n k m : run E (n + k) m = run E n m ≫= run E k.
Proof.
  revert m. induction n as [|n IH]; intros m; [done|]. simpl.
  destruct (step E m); simpl; [apply IH|done].
Qed.

Lemma run_step n m i next :
  code E (rip m) = Some (i, next) -> run E (S n) m = exec E i next m ≫= run E n.
Proof. intros Ec. simpl. unfold step. by rewrite Ec. Qed.

End Reading.

(** ** Pushing *)
Section Pushing.
Context {W : Type}.
Implicit Types m : machine W.

Record pushed (s v : Z) (m m' : machine W) : Prop := {
  pu_rsp : regs m' rsp = s - 8;
  pu_regs : forall r, r <> rsp -> regs m' r = regs m r;
  pu_mem : mem m' = store64 (s - 8) v (mem m);
  pu_rip : rip m' = rip m;
  pu_flags : rflags m' = rflags m;
  pu_gs : gs_base m' = gs_base m;
  pu_kernel_gs : kernel_gs_base m' = kernel_gs_base m;
  pu_ring : ring m' = ring m;
  pu_world : world m' = world m
}.

Lemma push_pushed v m s : regs m rsp = s -> 8 <= s < u64_modulus -> pushed s v m (push v m).
Proof.
  intros <- Hs. assert (wrap64 (regs m rsp - 8) = regs m rsp - 8) as Ew
    by (apply wrap64_small; unfold is_u64; lia).
  unfold push. rewrite Ew. split; try done. intros r Hr. simpl. by rewrite decide_False.
Qed.

End Pushing.

Create Rewrite HintDb machine.
#[export] Hint Rewrite @regs_set_same : machine.
#[export] Hint Rewrite @regs_set_other using (discriminate || done) : machine.

(** Computes the registers, memory and mode of an updated state. *)
Ltac machine_simpl :=
  unfold push;
  repeat progress (autorewrite with machine;
    repeat match goal with
    | |- context [regs (jump ?a ?m)] => change (regs (jump a m)) with (regs m)
    | |- context [regs (set_mem ?a ?m)] => change (regs (set_mem a m)) with (regs m)
    | |- context [regs (swap_bases ?m)] => change (regs (swap_bases m)) with (regs m)
    | |- context [regs (switch ?p ?a ?f ?m)] => change (regs (switch p a f m)) with (regs m)
    end);
  cbn [rip rflags gs_base kernel_gs_base ring mem world set jump set_mem swap_bases switch].

(** Runs one instruction found in the context. *)
Ltac run_instr :=
  erewrite run_step by eassumption; cbn [exec mbind option_bind];
  try (rewrite decide_True by (by machine_simpl); cbn [mbind option_bind]).

(** ** Concrete code: [l] from [base] on, one byte for each instruction *)

Definition placed (base : Z) (l : list instr) (a : Z) : option (instr * Z) :=
  if decide (base <= a < base + 256) then i ← l !! Z.to_nat (a - base); Some (i, a + 1) else None.

Lemma placed_u64 base l a i n : 0 <= base < 2 ^ 63 -> placed base l a = Some (i, n) -> is_u64 n.
Proof.
  unfold placed. case_decide; [|done]. intros Hb E. apply bind_Some in E as (j & _ & [= _ <-]).
  unfold is_u64, u64_modulus. lia.
Qed.

End Machine.
