(* ===== verification/ThreadData.v ===== *)
(** * The thread data ([kernel/src/syscall/mod.rs])

    [ThreadData] is written by Rust code ([init_thread_data],
    [with_thread_data]) and by the assembly of [syscall_handler], which knows
    its layout: two [Option<NonZeroU64>] words in which zero is [None].  The
    file models the layout, the access through the GS base and the test that
    pins the layout down. *)
From S2P Require Import Prelude Platform RefPlatform Layout Sys Machine.

Module ThreadData.
Import Machine.

(** [Option<NonZeroU64>] takes a word: zero is free to stand for [None]. *)
Definition option_layout : Layout.layout := Layout.mkLayout 8 8.
Definition ThreadData_fields : list Layout.layout := [option_layout; option_layout].

(** [offset_of!(ThreadData, ..)] of the two [repr(C)] fields, as constants for
    the assembly. *)
Definition kernel_rsp_offset : Z := Eval cbv in Layout.offset_of ThreadData_fields 0.
Definition user_rsp_offset : Z := Eval cbv in Layout.offset_of ThreadData_fields 1.

Record ThreadData : Set := mkThreadData {
  kernel_rsp : option Z;
  user_tmp_rsp : option Z
}.

#[export] Instance ThreadData_eq_dec : EqDecision ThreadData.
Proof. solve_decision. Defined.

(** [NonZeroU64::new]. *)
Definition NonZeroU64_new (n : Z) : option Z := if n =? 0 then None else Some n.

(** [Option<NonZeroU64>] as the word it is stored as, and back. *)
Definition option_size : Z := Layout.size option_layout.
Definition option_encode (o : option Z) : Z := default 0 o.
Definition option_decode (n : Z) : option Z := NonZeroU64_new n.

Definition ThreadData_store (a : Z) (d : ThreadData) (f : Z -> Z) : Z -> Z :=
  store64 (a + user_rsp_offset) (option_encode (user_tmp_rsp d))
    (store64 (a + kernel_rsp_offset) (option_encode (kernel_rsp d)) f).

Definition ThreadData_load (a : Z) (f : Z -> Z) : ThreadData :=
  mkThreadData (option_decode (load64 f (a + kernel_rsp_offset)))
    (option_decode (load64 f (a + user_rsp_offset))).

Section Operations.
Context `{Build} `{InterruptsApi}.

(** The processor, its GS base and memory. *)
Record thread : Type := mkThread {
  thread_cpu : cpu;
  GS_base : Z;
  thread_memory : Z -> Z
}.

Definition put_thread_cpu (c : cpu) (t : thread) : thread := mkThread c (GS_base t) (thread_memory t).

(** The closure of [with_thread_data]; [f] changes the data in place and sees
    the processor it runs on.  The profiles with overflow checks are those
    with debug assertions; without them a null base is dereferenced. *)
Definition access {R : Type} (f : stateful (cpu * ThreadData) R) : stateful thread R := fun t =>
  let gs := GS_base t in
  if gs =? 0 then (Stop (if overflow_checks then AssertFailed else Undefined), t)
  else
    let '(r, (c, d)) := f (thread_cpu t, ThreadData_load gs (thread_memory t)) in
    (r, mkThread c gs (ThreadData_store gs d (thread_memory t))).

Definition with_thread_data {R : Type} (f : stateful (cpu * ThreadData) R) : stateful thread R :=
  Sys.without_interrupts thread_cpu put_thread_cpu (access f).

(** [assert_eq!]. *)
Definition assert_eq {A : Type} `{EqDecision A} (x y : A) : outcome unit :=
  if decide (x = y) then Ret tt else Stop AssertFailed.

(** The test [thread_data_alignment]. *)
Definition thread_data_alignment : outcome unit :=
  _ ← assert_eq option_size 8;
  _ ← assert_eq (option_decode 0) None;
  _ ← assert_eq (Layout.offset_of ThreadData_fields 0) 0;
  _ ← assert_eq (Layout.offset_of ThreadData_fields 1) 8;
  ten ← unwrap (NonZeroU64_new 10);
  assert_eq (option_decode 10) (Some ten).

End Operations.

(** A stored pointer is a non-zero 64-bit number. *)
Definition nonzero (o : option Z) : Prop := match o with Some n => 0 < n < u64_modulus | None => True end.
Definition valid (d : ThreadData) : Prop := nonzero (kernel_rsp d) /\ nonzero (user_tmp_rsp d).

Lemma option_decode_encode o : nonzero o -> option_decode (option_encode o) = o.
Proof.
  destruct o as [n|]; simpl; [|done]. intros Hn. unfold option_decode, NonZeroU64_new.
  destruct (Z.eqb_spec n 0); [lia|done].
Qed.

Lemma option_encode_decode n : option_encode (option_decode n) = n.
Proof. unfold option_decode, NonZeroU64_new. by destruct (Z.eqb_spec n 0). Qed.

Lemma option_encode_u64 o : nonzero o -> is_u64 (option_encode o).
Proof. unfold is_u64, u64_modulus. destruct o as [n|]; simpl; unfold u64_modulus; lia. Qed.

Lemma option_decode_nonzero n : is_u64 n -> nonzero (option_decode n).
Proof.
  unfold is_u64, option_decode, NonZeroU64_new. intros Hn. destruct (Z.eqb_spec n 0); simpl; [done|lia].
Qed.

Lemma ThreadData_load_store a d f : valid d -> ThreadData_load a (ThreadData_store a d f) = d.
Proof.
  intros [Hk Hu]. unfold ThreadData_load, ThreadData_store.
  rewrite (load_store_other (a + user_rsp_offset)) by (unfold apart, user_rsp_offset, kernel_rsp_offset; lia).
  rewrite !load_store_same by (by apply option_encode_u64).
  rewrite !option_decode_encode by done. by destruct d.
Qed.

(** What [syscall_handler] reads and writes at the two offsets is what Rust
    code sees in the two fields. *)
Lemma ThreadData_words a f :
  option_encode (kernel_rsp (ThreadData_load a f)) = load64 f (a + kernel_rsp_offset) /\
  option_encode (user_tmp_rsp (ThreadData_load a f)) = load64 f (a + user_rsp_offset).
Proof. split; apply option_encode_decode. Qed.

Lemma ThreadData_store_other a d f x : ~ inside a (a + 16) x -> ThreadData_store a d f x = f x.
Proof.
  intros Hx. unfold ThreadData_store, inside, user_rsp_offset, kernel_rsp_offset in *.
  by rewrite !store64_other by (unfold inside; lia).
Qed.

(** ** Properties *)

(** C38: with_thread_data runs its closure with interrupts off on the thread
    data behind the GS base, whatever the closure does: reading the memory
    back gives what the closure left, the two words are where the system call
    assembly looks for them with zero for None, no other byte changes, and
    interrupts are on again if they were. With a null GS base it fails its
    debug assertion, and is undefined in builds without them. *)
Theorem with_thread_data_spec `{Build} `{InterruptsLaws} {R : Type} (f : stateful (cpu * ThreadData) R) t :
  let off := if are_enabled (thread_cpu t) then interrupts_disable (thread_cpu t) else thread_cpu t in
  are_enabled off = false /\
  (GS_base t = 0 ->
     with_thread_data f t = (Stop (if overflow_checks then AssertFailed else Undefined), put_thread_cpu off t)) /\
  (GS_base t <> 0 ->
     forall r c d', f (off, ThreadData_load (GS_base t) (thread_memory t)) = (r, (c, d')) -> valid d' ->
     exists t', with_thread_data f t = (r, t') /\ GS_base t' = GS_base t /\
       ThreadData_load (GS_base t') (thread_memory t') = d' /\
       load64 (thread_memory t') (GS_base t + kernel_rsp_offset) = option_encode (kernel_rsp d') /\
       load64 (thread_memory t') (GS_base t + user_rsp_offset) = option_encode (user_tmp_rsp d') /\
       (forall a, ~ inside (GS_base t) (GS_base t + 16) a -> thread_memory t' a = thread_memory t a) /\
       (is_ret r -> are_enabled (thread_cpu t) = true -> are_enabled (thread_cpu t') = true) /\
       (are_enabled (thread_cpu t) = false -> thread_cpu t' = c)).
Proof.
  intros off. assert (put_thread_cpu off t = mkThread off (GS_base t) (thread_memory t)) as Eoff by done.
  assert (are_enabled off = false) as Hoff.
  { unfold off. destruct (are_enabled (thread_cpu t)) eqn:Hen; [apply disable_clears|done]. }
  split; [done|].
  assert (with_thread_data f t =
    match access f (put_thread_cpu off t) with
    | (Ret a, t') => (Ret a, if are_enabled (thread_cpu t) then put_thread_cpu (interrupts_enable (thread_cpu t')) t' else t')
    | (Stop s, t') => (Stop s, t')
    end) as Ew.
  { unfold with_thread_data, Sys.without_interrupts, off. rewrite without_interrupts_run.
    destruct (are_enabled (thread_cpu t)); [done|]. replace (put_thread_cpu (thread_cpu t) t) with t by (by destruct t).
    by destruct (access f t) as [[] ?]. }
  split.
  - intros Hgs. rewrite Ew. unfold access. cbn [GS_base put_thread_cpu]. by rewrite Hgs.
  - intros Hgs r c d' Ef Hv. pose proof (ThreadData_load_store (GS_base t) d' (thread_memory t) Hv) as El.
    destruct (ThreadData_words (GS_base t) (ThreadData_store (GS_base t) d' (thread_memory t))) as [W1 W2].
    rewrite El in W1, W2.
    assert (access f (put_thread_cpu off t) =
      (r, mkThread c (GS_base t) (ThreadData_store (GS_base t) d' (thread_memory t)))) as Ea.
    { unfold access. cbn [GS_base put_thread_cpu thread_cpu thread_memory]. apply Z.eqb_neq in Hgs. by rewrite Hgs, Ef. }
    rewrite Ew, Ea. destruct r as [a|s].
    + destruct (are_enabled (thread_cpu t)) eqn:Hen; (eexists; split; [reflexivity|]);
        cbn [put_thread_cpu GS_base thread_memory thread_cpu]; split_and!; try done;
        try (intros x Hx; by apply ThreadData_store_other). intros _ _. apply enable_sets.
    + eexists. split; [reflexivity|]. cbn [GS_base thread_memory thread_cpu]. split_and!; try done.
      * intros x Hx. by apply ThreadData_store_other.
      * by intros [? ?].
Qed.

(** ** The property at concrete data *)
Section Witnesses.
#[local] Existing Instance dev_build.
#[local] Existing Instance Ref.interrupts.
#[local] Existing Instance Ref.interrupts_laws.

(** Thread data at [0x4000] with both pointers absent. *)
Definition sample_thread : thread := mkThread true 0x4000 (fun _ => 0).

(** A closure that stores a kernel stack pointer and reports whether it could
    be interrupted. *)
Definition set_kernel_rsp : stateful (cpu * ThreadData) bool := fun s =>
  (Ret (are_enabled s.1), (s.1, mkThreadData (Some 0x180000) (user_tmp_rsp s.2))).

Lemma with_thread_data_spec_witness :
  exists t', with_thread_data set_kernel_rsp sample_thread = (Ret false, t') /\
    ThreadData_load 0x4000 (thread_memory t') = mkThreadData (Some 0x180000) None /\
    are_enabled (thread_cpu t') = true.
Proof.
  destruct (with_thread_data_spec set_kernel_rsp sample_thread) as (_ & _ & Hs).
  destruct (Hs ltac:(discriminate) (Ret false) false (mkThreadData (Some 0x180000) None))
    as (t' & E & Hgs & Hl & _ & _ & _ & Hen & _).
  - vm_compute. reflexivity.
  - split; simpl; [unfold u64_modulus; lia|exact I].
  - exists t'. split; [exact E|]. split; [rewrite Hgs in Hl; exact Hl|apply Hen; [by eexists|reflexivity]].
Defined.

End Witnesses.

End ThreadData.
