(* ===== verification/UserSlice.v ===== *)
(** * User pointers ([kernel/src/syscall/mod.rs])

    A system call gets a buffer as an untrusted address and length.  The
    kernel checks every page of it against the page table before it makes a
    slice of it. *)
From S2P Require Import Prelude Platform RefPlatform Paging SyscallLib.

Module UserSlice.
Import SyscallLib.

Inductive ReadAccess : Set := ReadOnly | ReadWrite.

Section Operations.
Context `{Build} `{AddrApi} `{FlagBits} {PT : Type} `{Mapper PT}.

Definition check_user_addr (mapper : PT) (addr : Z) (access : ReadAccess) : result unit Error :=
  match translate mapper addr with
  | NotMapped => Err InvalidArgument
  | InvalidFrameAddress _ => Err InvalidArgument
  | Mapped _ _ flags =>
      if negb (flags_contains flags USER_ACCESSIBLE) then Err InvalidArgument
      else match access with
           | ReadOnly => Ok tt
           | ReadWrite =>
               if flags_contains flags WRITABLE then Ok tt else Err InvalidArgument
           end
  end.

(** The loop over the pages; the first error is returned. *)
Fixpoint check_pages (mapper : PT) (access : ReadAccess) (pages : list Z) : result unit Error :=
  match pages with
  | [] => Ok tt
  | page :: rest =>
      match check_user_addr mapper page access with
      | Ok _ => check_pages mapper access rest
      | Err e => Err e
      end
  end.

(** The common body of [construct_user_slice] and [construct_user_slice_mut]. *)
Definition construct (access : ReadAccess) (mapper : PT) (ptr bytes : Z)
  : outcome (result slice Error) :=
  match VirtAddr_try_new ptr with
  | None => mret (Err InvalidArgument)
  | Some addr =>
      if isize_MAX <? bytes then mret (Err InvalidArgument)
      else
        let first_page := Page_containing_address addr in
        n ← usub bytes 1;
        last ← VirtAddr_add addr n;
        let last_page := Page_containing_address last in
        match check_pages mapper access (Page_range_inclusive first_page last_page) with
        | Err e => mret (Err e)
        | Ok _ => mret (Ok (mkSlice ptr bytes))
        end
  end.

Definition construct_user_slice : PT -> Z -> Z -> outcome (result slice Error) :=
  construct ReadOnly.
Definition construct_user_slice_mut : PT -> Z -> Z -> outcome (result slice Error) :=
  construct ReadWrite.

(** [.map(f)]: [f] runs on the slice, with the state [S] it has access to. *)
Definition map_slice {S R : Type} (r : outcome (result slice Error))
  (f : slice -> S -> outcome R * S) (s : S) : outcome (result R Error) * S :=
  match r with
  | Stop e => (Stop e, s)
  | Ret (Err e) => (Ret (Err e), s)
  | Ret (Ok sl) =>
      match f sl s with
      | (Ret r, s') => (Ret (Ok r), s')
      | (Stop e, s') => (Stop e, s')
      end
  end.

Definition with_user_slice {S R : Type} (mapper : PT) (ptr bytes : Z)
  (f : slice -> S -> outcome R * S) (s : S) : outcome (result R Error) * S :=
  map_slice (construct_user_slice mapper ptr bytes) f s.

Definition with_user_slice_mut {S R : Type} (mapper : PT) (ptr bytes : Z)
  (f : slice -> S -> outcome R * S) (s : S) : outcome (result R Error) * S :=
  map_slice (construct_user_slice_mut mapper ptr bytes) f s.

(** Loading byte [v] from physical memory [mem] through the page table. *)
Definition read_byte (mapper : PT) (mem : Z -> Z) (v : Z) : outcome Z :=
  if decide (canonical v) then
    match translate mapper v with
    | Mapped frame offset _ => mret (mem (frame + offset))
    | _ => Stop PageFault
    end
  else Stop GeneralProtection.

(** The bytes of a slice, in order. *)
Definition slice_bytes (mapper : PT) (mem : Z -> Z) (sl : slice) : outcome (list Z) :=
  for_each (seqZ 0 (len sl))
    (fun i done => b ← read_byte mapper mem (wrap64 (data sl + i)); mret (done ++ [b])) [].

End Operations.

(** ** What a program may access *)
Section Access.
Context `{FlagBits} {PT : Type} `{Mapper PT}.

(** User code could itself access address [a] this way. *)
Definition user_can (access : ReadAccess) (mapper : PT) (a : Z) : Prop :=
  match translate mapper a with
  | Mapped _ _ flags =>
      flags_contains flags USER_ACCESSIBLE = true /\
      (access = ReadWrite -> flags_contains flags WRITABLE = true)
  | _ => False
  end.

(** Every byte of a buffer. *)
Definition user_range (access : ReadAccess) (mapper : PT) (ptr bytes : Z) : Prop :=
  forall a, ptr <= a < ptr + bytes -> user_can access mapper a.

End Access.

Section Proofs.
Context `{Build} `{AddrLaws} `{FlagLaws} {PT : Type} `{!Mapper PT, !MapperLaws PT}.

#[export] Instance user_can_dec access mapper a : Decision (user_can access mapper a).
Proof.
  unfold user_can. destruct (translate mapper a); [|apply _..].
  destruct access; apply and_dec; try apply _.
  - left. done.
  - destruct (flags_contains flags WRITABLE); [by left|right]. intros Hw. by specialize (Hw eq_refl).
Defined.

Lemma check_user_addr_spec mapper a access :
  check_user_addr mapper a access =
  if decide (user_can access mapper a) then Ok tt else Err InvalidArgument.
Proof.
  unfold check_user_addr. case_decide as Hu; unfold user_can in Hu;
    destruct (translate mapper a) as [f o fl| |]; try done.
  - destruct Hu as [-> Hw]. simpl. destruct access; [done|]. by rewrite Hw.
  - destruct (flags_contains fl USER_ACCESSIBLE), access, (flags_contains fl WRITABLE); simpl;
      try done; exfalso; apply Hu; done.
Qed.

Lemma check_pages_spec mapper access pages :
  check_pages mapper access pages =
  if decide (Forall (user_can access mapper) pages) then Ok tt else Err InvalidArgument.
Proof.
  induction pages as [|p pages IH]; [done|]. cbn [check_pages].
  rewrite check_user_addr_spec, IH. clear IH. destruct (decide (user_can access mapper p)) as [Hp|Hp].
  - apply decide_ext. rewrite Forall_cons. by split; [|intros [_ ?]].
  - rewrite decide_False; [done|]. by intros [? _]%Forall_cons.
Qed.

(** Access rights do not change inside a page. *)
Lemma user_can_page access mapper a :
  canonical a -> user_can access mapper a <-> user_can access mapper (align_down a).
Proof.
  intros Ha. unfold user_can. rewrite (translate_in_page mapper a Ha).
  by destruct (translate mapper (align_down a)).
Qed.

(** A range whose ends are canonical and that is shorter than half the
    address space does not cross the hole. *)
Lemma canonical_between a n b :
  canonical a -> canonical (a + n) -> n < 2 ^ 63 -> a <= b <= a + n -> canonical b.
Proof. unfold canonical, u64_modulus. lia. Qed.

Lemma pages_of_range access mapper ptr bytes :
  canonical ptr -> 0 < bytes -> bytes <= isize_MAX -> canonical (ptr + (bytes - 1)) ->
  Forall (user_can access mapper)
    (Page_range_inclusive (align_down ptr) (align_down (ptr + (bytes - 1)))) <->
  user_range access mapper ptr bytes.
Proof.
  intros Hp Hb Hmax He. unfold isize_MAX in Hmax. rewrite Forall_forall.
  setoid_rewrite page_range_inclusive_elem; [|auto with paging..]. split.
  - intros Hall a Ha. assert (canonical a) as Hc by (apply (canonical_between ptr (bytes - 1)); auto with lia).
    apply user_can_page; [done|]. apply Hall. split; [auto with paging|].
    split; apply align_down_mono; lia.
  - intros Hall p [[Hcp Hpa] [Hlo Hhi]].
    pose proof (align_down_bounds ptr). pose proof (align_down_bounds (ptr + (bytes - 1))).
    set (a := Z.max p ptr).
    assert (align_down a = p) as Ea.
    { apply align_down_unique; [done|]. unfold a. 
      pose proof (align_down_mono ptr (p + 4095)) as Hm. unfold PAGE_SIZE in *.
      destruct (Z.le_gt_cases ptr p); [lia|].
      assert (align_down ptr = p \/ align_down ptr <= p - 4096) as [|]; [|lia|lia].
      pose proof (align_down_mod ptr) as Hmod. unfold PAGE_SIZE in Hmod.
      apply Z.div_exact in Hmod, Hpa; lia. }
    rewrite <- Ea. apply (user_can_page access mapper a); [|apply Hall; unfold a; lia].
    apply (canonical_between ptr (bytes - 1)); [done|done|lia|]. unfold a. lia.
Qed.

(** The result of the check on a well-formed buffer. *)
Lemma construct_range access mapper ptr bytes :
  canonical ptr -> 0 < bytes <= isize_MAX -> canonical (ptr + (bytes - 1)) ->
  (user_range access mapper ptr bytes /\ construct access mapper ptr bytes = Ret (Ok (mkSlice ptr bytes))) \/
  ((exists a, ptr <= a < ptr + bytes /\ ~ user_can access mapper a) /\
   construct access mapper ptr bytes = Ret (Err InvalidArgument)).
Proof.
  intros Hp Hb He. unfold construct.
  rewrite try_new_spec, sign_extended_canonical by auto with paging.
  destruct (Z.ltb_spec isize_MAX bytes); [lia|].
  rewrite usub_ret by (unfold is_u64, u64_modulus, isize_MAX in *; lia). simpl.
  rewrite VirtAddr_add_canonical by (done || lia). simpl.
  rewrite !page_containing_spec by done. rewrite check_pages_spec. case_decide as Hall.
  - left. split; [|done]. apply pages_of_range; auto with lia.
  - right. split; [|done]. rewrite pages_of_range in Hall by (done || lia).
    unfold user_range in Hall.
    assert (~ Forall (fun a => user_can access mapper a) (seqZ ptr bytes)) as Hn.
    { intros Hf. apply Hall. intros a Ha. rewrite Forall_forall in Hf. apply Hf, elem_of_seqZ. lia. }
    apply not_Forall_Exists in Hn; [|apply _]. apply Exists_exists in Hn as (a & Ha & Hna).
    exists a. apply elem_of_seqZ in Ha. split; [lia|done].
Qed.

(** Bytes of a buffer the program may read can be loaded. *)
Lemma slice_bytes_ret mapper mem ptr bytes :
  canonical ptr -> 0 < bytes <= isize_MAX -> canonical (ptr + (bytes - 1)) ->
  user_range ReadOnly mapper ptr bytes ->
  exists bs, slice_bytes mapper mem (mkSlice ptr bytes) = Ret bs /\ Z.of_nat (length bs) = bytes /\
    forall i b, bs !! i = Some b -> read_byte mapper mem (ptr + Z.of_nat i) = Ret b.
Proof.
  intros Hp Hb He Hall. unfold isize_MAX in Hb.
  assert (forall i, 0 <= i < bytes -> exists b, read_byte mapper mem (wrap64 (ptr + i)) = Ret b /\
            read_byte mapper mem (ptr + i) = Ret b) as Hread.
  { intros i Hi. assert (canonical (ptr + i)) as Hc by (apply (canonical_between ptr (bytes - 1)); auto with lia).
    rewrite wrap64_small by auto with paging. unfold read_byte. rewrite decide_True by done.
    specialize (Hall (ptr + i) ltac:(lia)). unfold user_can in Hall.
    destruct (translate mapper (ptr + i)); [|done..]. by eexists. }
  unfold slice_bytes. simpl.
  assert (forall n, (n <= Z.to_nat bytes)%nat -> exists bs,
    for_each (seqZ 0 (Z.of_nat n)) (fun i done => b ← read_byte mapper mem (wrap64 (ptr + i)); mret (done ++ [b])) []
      = Ret bs /\ length bs = n /\
    forall i b, bs !! i = Some b -> read_byte mapper mem (ptr + Z.of_nat i) = Ret b) as Hgen.
  { induction n as [|n IH]; intros Hn.
    - exists []. split_and!; [done|done|]. intros i b. by rewrite lookup_nil.
    - destruct IH as (bs & E & Hlen & Hbs); [lia|].
      destruct (Hread (Z.of_nat n)) as (b & Eb & Eb'); [lia|].
      exists (bs ++ [b]). rewrite seqZ_S, for_each_app, E, Z.add_0_l.
      simpl. rewrite Eb. simpl. split_and!; [done|rewrite length_app; simpl; lia|].
      intros i c. rewrite lookup_app_Some, list_lookup_singleton_Some.
      intros [Hi|(Hi & Hi' & <-)]; [by apply Hbs|].
      replace i with n by lia. done. }
  destruct (Hgen (Z.to_nat bytes)) as (bs & E & Hlen & Hbs); [lia|].
  rewrite Z2Nat.id in E by lia. exists bs. split_and!; [done|lia|done].
Qed.

(** Whatever the arguments, a slice that is handed out has no address the
    program could not access itself. *)
Lemma construct_sound access mapper ptr bytes s :
  is_u64 ptr -> 0 <= bytes -> ptr + bytes <= u64_modulus ->
  construct access mapper ptr bytes = Ret (Ok s) ->
  s = mkSlice ptr bytes /\ bytes <= isize_MAX /\
  forall a, canonical a -> ptr <= a < ptr + bytes -> user_can access mapper a.
Proof.
  intros Hp Hb Hend. unfold construct. rewrite try_new_spec by done.
  destruct (sign_extended ptr) as [addr|] eqn:Ea; [|done].
  destruct (Z.ltb_spec isize_MAX bytes) as [|Hmax]; [done|].
  destruct (decide (canonical ptr)) as [Hc|Hc].
  - rewrite sign_extended_canonical in Ea by done. injection Ea as <-.
    destruct (decide (bytes = 0)) as [->|Hne].
    { intros Hok. split_and!; [|done|lia]. destruct (usub 0 1); [|done]. simpl in Hok.
      destruct (VirtAddr_add ptr a); [|done]. simpl in Hok. case_match; [by injection Hok as <-|done]. }
    rewrite usub_ret by (unfold is_u64, u64_modulus, isize_MAX in *; lia). simpl.
    rewrite add_spec by (done || unfold is_u64 in *; lia). rewrite new_spec by (unfold is_u64 in *; lia).
    destruct (sign_extended (ptr + (bytes - 1))) as [e|] eqn:Ee; [|done]. simpl.
    assert (canonical e) as Hce by (eapply sign_extended_Some; [|done]; unfold is_u64 in *; lia).
    rewrite !page_containing_spec by done. rewrite check_pages_spec. case_decide as Hall; [|done].
    intros [= <-]. split_and!; [done..|]. intros a Ha Hr. apply user_can_page; [done|].
    rewrite Forall_forall in Hall. apply Hall, page_range_inclusive_elem; [auto with paging..|].
    split; [auto with paging|]. split; apply align_down_mono; [lia|].
    unfold sign_extended in Ee. case_decide; simplify_eq; [lia|].
    destruct (_ && _) eqn:Eh in Ee; simplify_eq. unfold canonical, u64_modulus in *. lia.
  - intros Hok. split_and!; [|done|].
    + destruct (usub bytes 1); [|done]. simpl in Hok. destruct (VirtAddr_add addr a); [|done].
      simpl in Hok. case_match; [by injection Hok as <-|done].
    + intros a Ha Hr. unfold sign_extended in Ea. rewrite decide_False in Ea by done.
      destruct (_ && _) eqn:Eh in Ea; [|done]. apply andb_prop in Eh as [E1 E2].
      apply Z.leb_le in E1. apply Z.ltb_lt in E2.
      unfold canonical, u64_modulus, isize_MAX in *. lia.
Qed.

(** A buffer from the lower half with an address the program cannot access is
    refused: by the check or, when its last address is none that
    [VirtAddr::new] takes, by a panic. *)
Lemma construct_refused access mapper ptr bytes a :
  0 <= ptr < 2 ^ 47 -> ptr <= a < ptr + bytes -> canonical a -> ~ user_can access mapper a ->
  construct access mapper ptr bytes =
    if decide (bytes <= isize_MAX /\ sign_extended (ptr + (bytes - 1)) = None)
    then Stop NonCanonical else Ret (Err InvalidArgument).
Proof.
  intros Hp Ha Hca Hno. assert (canonical ptr) as Hc by (left; lia).
  assert (bytes <= isize_MAX -> forall s, construct access mapper ptr bytes <> Ret (Ok s)) as Hn.
  { intros Hb s Hok. apply (construct_sound access mapper ptr bytes s) in Hok as (_ & _ & Hu);
      [by apply Hno, Hu|unfold is_u64, u64_modulus, isize_MAX in *; lia..]. }
  revert Hn. unfold construct. rewrite try_new_spec, sign_extended_canonical by auto with paging.
  destruct (Z.ltb_spec isize_MAX bytes) as [Hb|Hb]; intros Hn; [rewrite decide_False by lia; done|].
  specialize (Hn Hb). revert Hn. rewrite usub_ret by (unfold is_u64, u64_modulus, isize_MAX in *; lia). simpl.
  rewrite add_spec by (done || unfold is_u64, u64_modulus, isize_MAX in *; lia).
  rewrite new_spec by (unfold is_u64, u64_modulus, isize_MAX in *; lia).
  destruct (sign_extended (ptr + (bytes - 1))) as [e|] eqn:Ee; simpl; intros Hn; [|by rewrite decide_True].
  rewrite decide_False by (by intros [_ ?]). destruct (check_pages _ _ _) as [[]|er] eqn:Ec; [by destruct (Hn (mkSlice ptr bytes))|].
  rewrite check_pages_spec in Ec. case_decide; [done|]. by injection Ec as <-.
Qed.

(** A slice that is handed out is the buffer that was asked for. *)
Lemma construct_ok access mapper ptr bytes s :
  construct access mapper ptr bytes = Ret (Ok s) -> s = mkSlice ptr bytes.
Proof.
  unfold construct. destruct (VirtAddr_try_new ptr) as [a|]; [|done]. destruct (_ <? _); [done|].
  destruct (usub bytes 1) as [n|]; [|done]. simpl. destruct (VirtAddr_add a n) as [l|]; [|done]. simpl.
  destruct (check_pages _ _ _); [|done]. by intros [= <-].
Qed.

End Proofs.

(** ** Properties *)

(** C25: On a canonical, non-empty buffer the user-slice checks are exact: the
    slice is the buffer when every byte of it is accessible to user code in
    the requested way, and the answer is InvalidArgument when some byte is
    not. *)
Theorem user_slice_exact `{Build} `{AddrLaws} `{FlagLaws} {PT : Type} `{!Mapper PT, !MapperLaws PT}
  mapper ptr bytes :
  canonical ptr -> 0 < bytes <= isize_MAX -> canonical (ptr + (bytes - 1)) ->
  ((user_range ReadOnly mapper ptr bytes /\
      construct_user_slice mapper ptr bytes = Ret (Ok (mkSlice ptr bytes))) \/
   ((exists a, ptr <= a < ptr + bytes /\ ~ user_can ReadOnly mapper a) /\
      construct_user_slice mapper ptr bytes = Ret (Err InvalidArgument))) /\
  ((user_range ReadWrite mapper ptr bytes /\
      construct_user_slice_mut mapper ptr bytes = Ret (Ok (mkSlice ptr bytes))) \/
   ((exists a, ptr <= a < ptr + bytes /\ ~ user_can ReadWrite mapper a) /\
      construct_user_slice_mut mapper ptr bytes = Ret (Err InvalidArgument))).
Proof. intros Hp Hb He. split; by apply construct_range. Qed.

(** C8: Whatever address and length a program passes (not wrapping around the
    address space), a slice the kernel makes of them contains no mapped
    address that the program could not access itself: every canonical address
    of it is user accessible, and writable too when the slice is mutable. *)
Theorem user_slice_sound `{Build} `{AddrLaws} `{FlagLaws} {PT : Type} `{!Mapper PT, !MapperLaws PT}
  mapper ptr bytes s :
  is_u64 ptr -> 0 <= bytes -> ptr + bytes <= u64_modulus ->
  (construct_user_slice mapper ptr bytes = Ret (Ok s) ->
     s = mkSlice ptr bytes /\ bytes <= isize_MAX /\
     forall a, canonical a -> ptr <= a < ptr + bytes -> user_can ReadOnly mapper a) /\
  (construct_user_slice_mut mapper ptr bytes = Ret (Ok s) ->
     s = mkSlice ptr bytes /\ bytes <= isize_MAX /\
     forall a, canonical a -> ptr <= a < ptr + bytes -> user_can ReadWrite mapper a).
Proof. intros Hp Hb He. split; by apply construct_sound. Qed.

(** ** The properties at a concrete page table *)
Section Witnesses.
#[local] Existing Instance dev_build.
#[local] Existing Instance Ref.addresses.
#[local] Existing Instance Ref.addresses_laws.
#[local] Existing Instance Ref.flag_bits.
#[local] Existing Instance Ref.flag_bits_laws.
#[local] Existing Instance Ref.mapper.
#[local] Existing Instance Ref.mapper_laws.

(** Two user pages, the second read-only, then a kernel page. *)
Definition user_pages : Ref.page_table :=
  Ref.mkTable {[ 0x660000 := (0x100000, 7); 0x661000 := (0x101000, 5); 0x662000 := (0x102000, 3) ]} ∅.

Lemma user_slice_exact_witness :
  (user_range ReadOnly user_pages 0x660ff0 0x20 /\
     construct_user_slice user_pages 0x660ff0 0x20 = Ret (Ok (mkSlice 0x660ff0 0x20))) /\
  construct_user_slice_mut user_pages 0x660ff0 0x20 = Ret (Err InvalidArgument).
Proof.
  destruct (user_slice_exact user_pages 0x660ff0 0x20) as [Hr Hw];
    [left; lia|unfold isize_MAX; lia|left; lia|]. split.
  - destruct Hr as [Hr|[_ Hr]]; [exact Hr|]. vm_compute in Hr. discriminate Hr.
  - destruct Hw as [[_ Hw]|[_ Hw]]; [|exact Hw]. vm_compute in Hw. discriminate Hw.
Defined.

Lemma user_slice_sound_witness : user_can ReadOnly user_pages 0x661123.
Proof.
  destruct (user_slice_sound user_pages 0x660000 0x2000 (mkSlice 0x660000 0x2000)) as [Hs _];
    [unfold is_u64, u64_modulus; lia|lia|unfold u64_modulus; lia|].
  destruct Hs as (_ & _ & Hs); [vm_compute; reflexivity|]. apply Hs; [left|]; lia.
Defined.

End Witnesses.

End UserSlice.
