(* ===== verification/SyscallHandler.v ===== *)
(** * System call dispatch ([kernel/src/syscall/{handler,io,process}.rs])

    [syscall_handler_inner] decodes the call, checks the buffer it names and
    runs the operation.  The state is the console and physical memory; the
    page table does not change during a call. *)
From S2P Require Import Prelude Platform RefPlatform Sys VgaBuffer Paging FrameAlloc Bump.
From S2P Require Import KernelHeap ElfTypes ElfLoad SyscallLib UserSlice.

Module SyscallHandler.
Import Vga SyscallLib UserSlice.

Section Operations.
Context `{Build} `{InterruptsApi} `{MutexApi} `{AddrApi} `{FlagBits} {PT : Type} `{Mapper PT}.

Record Kernel : Type := mkKernel {
  console : Console;
  memory : Z -> Z
}.

(** Code that uses the console only. *)
Definition on_console {A : Type} (m : Console -> outcome A * Console) : stateful Kernel A :=
  fun k => let '(r, c) := m (console k) in (r, mkKernel c (memory k)).

(** ["write"] and ["read"]. *)
Definition write_text : list Z := [119; 114; 105; 116; 101].
Definition read_text : list Z := [114; 101; 97; 100].

(** [io::write]; the bytes are loaded from the user's memory as they are
    printed. *)
Definition io_write (mapper : PT) (_fd : Z) (bytes : slice) : stateful Kernel (result Z Error) :=
  _ ← on_console (println [write_text]);
  bs ← (fun k => (slice_bytes mapper (memory k) bytes, k)) : stateful Kernel (list Z);
  _ ← on_console (print_bytes bs);
  mret (Ok (len bytes)).

(** [io::read]. *)
Definition io_read (_fd : Z) (bytes : slice) : stateful Kernel (result Z Error) :=
  _ ← on_console (println [read_text]);
  mret (Ok (len bytes)).

(** [process::exit]. *)
Definition process_exit (_code : Z) : stateful Kernel (result Z Error) :=
  on_console (fun k =>
    let '(r, c) := Sys.hlt_loop (Sys.enable_interrupts (console_cpu k)) in (r, put_cpu c k)).

(** The [?] on the result of [with_user_slice]. *)
Definition flatten (r : result (result Z Error) Error) : result Z Error :=
  match r with Ok r => r | Err e => Err e end.

(** The closure [inner].  [STRACE] is [false], so its trace is never
    printed. *)
Definition inner (mapper : PT) (c : call) : stateful Kernel (result Z Error) :=
  if negb ((0 <=? syscall_num c) && (syscall_num c <? 256)) then mret (Err NoSys)
  else match Syscall_try_from (syscall_num c) with
  | None => mret (Err NoSys)
  | Some Read =>
      r ← (with_user_slice_mut mapper (arg1 c) (arg2 c) (io_read (arg0 c))
            : stateful Kernel (result (result Z Error) Error));
      mret (flatten r)
  | Some Write =>
      r ← (with_user_slice mapper (arg1 c) (arg2 c) (io_write mapper (arg0 c))
            : stateful Kernel (result (result Z Error) Error));
      mret (flatten r)
  | Some Exit => process_exit (arg0 c mod 256)
  end.

Definition syscall_handler_inner (mapper : PT) (c : call) : stateful Kernel Z :=
  r ← inner mapper c;
  match r with
  | Ok val => if val <=? isize_MAX then mret (as_u64 val) else lift (Stop ExpectFailed)
  | Err e => mret (as_u64 (- Error_as_u8 e))
  end.

End Operations.

(** ** Proofs *)
Section Proofs.
Context `{Build} `{InterruptsLaws} `{MutexLaws} `{AddrLaws} `{FlagLaws}
  {PT : Type} `{!Mapper PT, !MapperLaws PT}.

(** The kernel between system calls: the console lock is free and the screen
    shows [cur] on its bottom row. *)
Definition ready (k : Kernel) (cur : list ScreenChar) : Prop :=
  is_locked (WRITER (console k)) = false /\ shows cur (contents (WRITER (console k))).

(** The kernel after the bytes [bs] have been printed. *)
Record printed (k : Kernel) (cur : list ScreenChar) (bs : list Z) (k' : Kernel) : Prop := {
  printed_ready : exists cur', ready k' cur';
  printed_cpu : are_enabled (console_cpu (console k')) = are_enabled (console_cpu (console k));
  printed_memory : memory k' = memory k;
  printed_color : color_code (contents (WRITER (console k'))) = color_code (contents (WRITER (console k)));
  printed_screen : buffer (contents (WRITER (console k'))) =
    lastn BUFFER_HEIGHT (take (BUFFER_HEIGHT - 1) (buffer (contents (WRITER (console k)))) ++
      render (color_code (contents (WRITER (console k)))) cur bs)
}.

(** Two critical sections in a row print as one. *)
Lemma on_console_prints k cur f g bs1 bs2 :
  ready k cur -> 
  (forall w, f w = write_bytes bs1 w) -> (forall w, g w = write_bytes bs2 w) ->
  exists k1 k2, on_console (Sys.without_interrupts console_cpu put_cpu (lock_writer f)) k = (Ret tt, k1) /\
    on_console (Sys.without_interrupts console_cpu put_cpu (lock_writer g)) k1 = (Ret tt, k2) /\
    printed k cur bs1 k1 /\ printed k cur (bs1 ++ bs2) k2.
Proof.
  intros [Hfree Hs] Ef Eg. set (w := contents (WRITER (console k))) in *.
  destruct (write_bytes_shows bs1 w cur Hs) as (w1 & cur1 & E1 & Hs1 & Hc1 & Eb1).
  destruct (write_bytes_shows (bs1 ++ bs2) w cur Hs) as (w2 & cur2 & E2 & Hs2 & Hc2 & Eb2).
  assert (write_bytes bs2 w1 = Ret w2) as E12.
  { unfold write_bytes in *. rewrite for_each_app, E1 in E2. exact E2. }
  destruct (critical_section f (console k) w1 Hfree) as (c1 & Ek1 & Hw1 & Hf1 & Hcpu1);
    [by rewrite Ef|].
  destruct (critical_section g c1 w2 Hf1) as (c2 & Ek2 & Hw2 & Hf2 & Hcpu2);
    [by rewrite Hw1, Eg|].
  exists (mkKernel c1 (memory k)), (mkKernel c2 (memory k)). unfold on_console. simpl.
  rewrite Ek1, Ek2. split_and!; [done|done|..].
  - split; simpl; rewrite ?Hw1; try done. exists cur1. split; simpl; by rewrite ?Hw1.
  - split; simpl; rewrite ?Hw2; try done; [|congruence]. exists cur2. split; simpl; by rewrite ?Hw2.
Qed.

Lemma println_writes s w : write_fmt ([s] ++ [[10]]) w = write_bytes (map printable (s ++ [10])) w.
Proof. by rewrite write_fmt_concat. Qed.

Lemma io_write_ret mapper fd k cur ptr bytes :
  ready k cur -> canonical ptr -> 0 < bytes <= isize_MAX -> canonical (ptr + (bytes - 1)) ->
  user_range ReadOnly mapper ptr bytes ->
  exists bs k', io_write mapper fd (mkSlice ptr bytes) k = (Ret (Ok bytes), k') /\
    Z.of_nat (length bs) = bytes /\
    (forall i b, bs !! i = Some b -> read_byte mapper (memory k) (ptr + Z.of_nat i) = Ret b) /\
    printed k cur (write_text ++ [10] ++ bs) k'.
Proof.
  intros Hr Hp Hb He Hu.
  destruct (slice_bytes_ret mapper (memory k) ptr bytes) as (bs & Ebs & Hlen & Hbs); [done..|].
  destruct (on_console_prints k cur (write_fmt ([write_text] ++ [[10]])) (write_bytes bs)
              (write_text ++ [10]) bs) as (k1 & k2 & E1 & E2 & Hk1 & Hk2);
    [done|by intros w; rewrite println_writes|done|].
  exists bs, k2. split_and!; [|done|done|by rewrite <- app_assoc in Hk2].
  unfold io_write. unfold println, print. rewrite (stateful_bind_ret _ _ _ _ _ E1).
  erewrite stateful_bind_ret; [|rewrite (printed_memory _ _ _ _ Hk1); by rewrite Ebs].
  unfold print_bytes. by rewrite (stateful_bind_ret _ _ _ _ _ E2).
Qed.

Lemma io_read_ret fd k cur sl :
  ready k cur ->
  exists k', io_read fd sl k = (Ret (Ok (len sl)), k') /\ printed k cur (read_text ++ [10]) k'.
Proof.
  intros Hr.
  destruct (on_console_prints k cur (write_fmt ([read_text] ++ [[10]])) (write_bytes [])
              (read_text ++ [10]) []) as (k1 & k2 & E1 & _ & Hk1 & _);
    [done|by intros w; rewrite println_writes|done|].
  exists k1. split; [|done]. unfold io_read, println, print.
  by rewrite (stateful_bind_ret _ _ _ _ _ E1).
Qed.

Lemma map_slice_ok {S R} sl (f : slice -> S -> outcome R * S) s r s' :
  f sl s = (Ret r, s') -> map_slice (Ret (Ok sl)) f s = (Ret (Ok r), s').
Proof. simpl. by intros ->. Qed.

(** The handler on a call that is known and does not exit. *)
Lemma handler_write mapper fd sl other k :
  syscall_handler_inner mapper (write fd sl other) k =
  match with_user_slice mapper (data sl) (len sl) (io_write mapper fd) k with
  | (Ret r, k') =>
      match flatten r with
      | Ok v => if v <=? isize_MAX then (Ret (as_u64 v), k') else (Stop ExpectFailed, k')
      | Err e => (Ret (as_u64 (- Error_as_u8 e)), k')
      end
  | (Stop r, k') => (Stop r, k')
  end.
Proof.
  unfold syscall_handler_inner, inner. simpl. unfold mbind, stateful_bind, mret, stateful_ret, lift.
  destruct (with_user_slice _ _ _ _ _) as [[r|] k']; [|done].
  destruct (flatten r) as [v|]; [|done]. by destruct (v <=? isize_MAX).
Qed.

Lemma handler_read mapper fd sl other k :
  syscall_handler_inner mapper (read fd sl other) k =
  match with_user_slice_mut mapper (data sl) (len sl) (io_read fd) k with
  | (Ret r, k') =>
      match flatten r with
      | Ok v => if v <=? isize_MAX then (Ret (as_u64 v), k') else (Stop ExpectFailed, k')
      | Err e => (Ret (as_u64 (- Error_as_u8 e)), k')
      end
  | (Stop r, k') => (Stop r, k')
  end.
Proof.
  unfold syscall_handler_inner, inner. simpl. unfold mbind, stateful_bind, mret, stateful_ret, lift.
  destruct (with_user_slice_mut _ _ _ _ _) as [[r|] k']; [|done].
  destruct (flatten r) as [v|]; [|done]. by destruct (v <=? isize_MAX).
Qed.

(** A length that fits is returned as it is. *)
Lemma length_returned v :
  0 <= v <= isize_MAX -> (v <=? isize_MAX) = true /\ as_u64 v = v.
Proof.
  intros Hv. split; [apply Z.leb_le; lia|]. unfold as_u64. apply wrap64_small.
  unfold is_u64, u64_modulus, isize_MAX in *. lia.
Qed.

(** What [InvalidArgument] is returned as. *)
Definition invalid_argument : Z := u64_modulus - 1.

Lemma write_rejected mapper fd ptr bytes other k :
  construct_user_slice mapper ptr bytes = Ret (Err InvalidArgument) ->
  syscall_handler_inner mapper (write fd (mkSlice ptr bytes) other) k = (Ret invalid_argument, k).
Proof. intros E. rewrite handler_write. unfold with_user_slice. simpl. by rewrite E. Qed.

Lemma read_rejected mapper fd ptr bytes other k :
  construct_user_slice_mut mapper ptr bytes = Ret (Err InvalidArgument) ->
  syscall_handler_inner mapper (read fd (mkSlice ptr bytes) other) k = (Ret invalid_argument, k).
Proof. intros E. rewrite handler_read. unfold with_user_slice_mut. simpl. by rewrite E. Qed.

Lemma write_accepted mapper fd ptr bytes other k cur :
  ready k cur -> canonical ptr -> 0 < bytes <= isize_MAX -> canonical (ptr + (bytes - 1)) ->
  user_range ReadOnly mapper ptr bytes ->
  exists bs k', syscall_handler_inner mapper (write fd (mkSlice ptr bytes) other) k = (Ret bytes, k') /\
    Z.of_nat (length bs) = bytes /\
    (forall i b, bs !! i = Some b -> read_byte mapper (memory k) (ptr + Z.of_nat i) = Ret b) /\
    printed k cur (write_text ++ [10] ++ bs) k'.
Proof.
  intros Hr Hp Hb He Hu.
  destruct (io_write_ret mapper fd k cur ptr bytes) as (bs & k' & E & Hlen & Hbs & Hpr); [done..|].
  exists bs, k'. split_and!; [|done..]. rewrite handler_write. unfold with_user_slice.
  destruct (construct_range ReadOnly mapper ptr bytes) as [[_ Ec]|[(a & Ha & Hna) _]]; [done..| |].
  - unfold construct_user_slice. cbn [data len]. rewrite Ec. rewrite (map_slice_ok _ _ _ _ _ E). simpl.
    destruct (length_returned bytes) as [-> ->]; [lia|done].
  - by destruct (Hna (Hu a Ha)).
Qed.

(** Results fit in a register. *)
Lemma handler_u64 mapper c k v k' : syscall_handler_inner mapper c k = (Ret v, k') -> is_u64 v.
Proof.
  unfold syscall_handler_inner, mbind, stateful_bind. destruct (inner mapper c k) as [[r|] k1]; [|done].
  assert (forall z, is_u64 (as_u64 z)) as Hu by (intros z; by apply Z.mod_pos_bound).
  destruct r as [val|e]; [destruct (val <=? isize_MAX)|]; unfold mret, stateful_ret, lift; intros [= <- _]; apply Hu.
Qed.

(** A call that returns leaves memory alone and the console usable. *)
Definition usable (k : Kernel) (k' : Kernel) : Prop :=
  console_ok (console k') /\ memory k' = memory k.

Lemma on_console_ok (f : Console -> outcome unit * Console) k :
  (exists c, f (console k) = (Ret tt, c) /\ console_ok c) ->
  exists k', on_console f k = (Ret tt, k') /\ usable k k'.
Proof. intros (c & E & Hc). unfold on_console. rewrite E. eexists. by split. Qed.

Lemma println_usable text k :
  console_ok (console k) -> exists k', on_console (println text) k = (Ret tt, k') /\ usable k k'.
Proof.
  intros Hk. apply on_console_ok. destruct (println_ok text (console k) Hk) as (c & E & Hc & _). by exists c.
Qed.

Lemma print_bytes_usable bs k :
  console_ok (console k) -> exists k', on_console (print_bytes bs) k = (Ret tt, k') /\ usable k k'.
Proof.
  intros [Hfree Hwf]. apply on_console_ok. destruct (write_bytes_wf bs _ Hwf) as (w & E & Hw & _).
  destruct (critical_section (write_bytes bs) (console k) w Hfree E) as (c & Ec & Hc1 & Hc2 & _).
  exists c. split; [done|]. split; [done|]. by rewrite Hc1.
Qed.

Lemma io_write_keeps mapper fd sl k r k' :
  console_ok (console k) -> io_write mapper fd sl k = (Ret r, k') -> usable k k'.
Proof.
  intros Hk. unfold io_write. destruct (println_usable [write_text] k Hk) as (k1 & E1 & Hc1 & Hm1).
  rewrite (stateful_bind_ret _ _ _ _ _ E1). unfold mbind at 1, stateful_bind at 1.
  destruct (slice_bytes mapper (memory k1) sl) as [bs|]; [|done].
  destruct (print_bytes_usable bs k1 Hc1) as (k2 & E2 & Hc2 & Hm2).
  rewrite (stateful_bind_ret _ _ _ _ _ E2). intros [= _ <-]. split; [done|congruence].
Qed.

Lemma io_read_keeps fd sl k r k' :
  console_ok (console k) -> io_read fd sl k = (Ret r, k') -> usable k k'.
Proof.
  intros Hk. unfold io_read. destruct (println_usable [read_text] k Hk) as (k1 & E1 & Hu1).
  rewrite (stateful_bind_ret _ _ _ _ _ E1). by intros [= _ <-].
Qed.

Lemma map_slice_keeps {R} (P : Kernel -> Prop) c (f : slice -> Kernel -> outcome R * Kernel) k r k' :
  P k -> (forall sl r k', f sl k = (Ret r, k') -> P k') -> map_slice c f k = (Ret r, k') -> P k'.
Proof.
  intros Hk Hf. destruct c as [[sl|]|]; simpl; [|by intros [= _ <-]|done].
  destruct (f sl k) as [[r'|] k1] eqn:E; [|done]. intros [= _ <-]. by eapply Hf.
Qed.

Lemma handler_keeps mapper c k v k' :
  console_ok (console k) -> syscall_handler_inner mapper c k = (Ret v, k') -> usable k k'.
Proof.
  intros Hk. assert (usable k k) as Hu by done. unfold syscall_handler_inner.
  unfold mbind at 1, stateful_bind at 1. destruct (inner mapper c k) as [[r|] k1] eqn:E; [|done].
  intros Ev. assert (k' = k1) as -> by (destruct r; [destruct (_ <=? _) in Ev|]; by injection Ev as _ <-).
  clear Ev. unfold inner in E. destruct (negb _); [by injection E as _ <-|].
  destruct (Syscall_try_from _) as [[]|]; [..|by injection E as _ <-].
  - unfold mbind, stateful_bind in E. destruct (with_user_slice_mut _ _ _ _ _) as [[r1|] k2] eqn:E2; [|done].
    injection E as _ <-. eapply (map_slice_keeps (usable k)); [done| |exact E2]. intros sl q k3. by apply io_read_keeps.
  - unfold mbind, stateful_bind in E. destruct (with_user_slice _ _ _ _ _) as [[r1|] k2] eqn:E2; [|done].
    injection E as _ <-. eapply (map_slice_keeps (usable k)); [done| |exact E2]. intros sl q k3. by apply io_write_keeps.
  - discriminate E.
Qed.

(** What [io::read] and [io::write] return is the length of the slice. *)
Lemma io_value mapper fd sl k r k' :
  io_read fd sl k = (Ret r, k') \/ io_write mapper fd sl k = (Ret r, k') -> r = Ok (len sl).
Proof.
  unfold io_read, io_write, mbind, stateful_bind. intros [E|E].
  - destruct (on_console (println [read_text]) k) as [[]]; [by injection E as <- _|done].
  - destruct (on_console (println [write_text]) k) as [[] k1]; [|done].
    destruct (slice_bytes mapper (memory k1) sl) as [bs|]; [|done].
    destruct (on_console (print_bytes bs) k1) as [[]]; [by injection E as <- _|done].
Qed.

Lemma slice_value access mapper ptr bytes (f : slice -> stateful Kernel (result Z Error)) k r k' :
  (forall sl k r k', f sl k = (Ret r, k') -> r = Ok (len sl)) ->
  map_slice (construct access mapper ptr bytes) f k = (Ret r, k') ->
  flatten r = Ok bytes \/ exists e, flatten r = Err e.
Proof.
  intros Hf. destruct (construct access mapper ptr bytes) as [[sl|e]|] eqn:Ec; simpl; [| |done].
  - apply construct_ok in Ec as ->. destruct (f _ k) as [[q|] k1] eqn:Ef; [|done].
    intros [= <- _]. left. by rewrite (Hf _ _ _ _ Ef).
  - intros [= <- _]. right. by exists e.
Qed.

(** The values a call can return: those of [NoSys] and [InvalidArgument], or
    the length that was passed. *)
Lemma handler_values mapper c k v k' :
  syscall_handler_inner mapper c k = (Ret v, k') ->
  v = 0 \/ v = invalid_argument \/ (v = as_u64 (arg2 c) /\ arg2 c <= isize_MAX).
Proof.
  unfold syscall_handler_inner. unfold mbind at 1, stateful_bind at 1.
  destruct (inner mapper c k) as [[r|] k1] eqn:E; [|done].
  assert (r = Ok (arg2 c) \/ exists e, r = Err e) as [->|[e ->]].
  { unfold inner in E. destruct (negb _); [injection E as <- _; by eauto|].
    destruct (Syscall_try_from _) as [[]|]; [| |discriminate E|injection E as <- _; by eauto].
    - unfold mbind, stateful_bind in E. destruct (with_user_slice_mut _ _ _ _ _) as [[q|] k2] eqn:E2; [|done].
      injection E as <- _. apply slice_value in E2; [done|]. intros; eapply (io_value mapper); by left.
    - unfold mbind, stateful_bind in E. destruct (with_user_slice _ _ _ _ _) as [[q|] k2] eqn:E2; [|done].
      injection E as <- _. apply slice_value in E2; [done|]. intros; eapply (io_value mapper); by right. }
  - destruct (Z.leb_spec (arg2 c) isize_MAX); [intros [= <- _]; auto|done].
  - intros [= <- _]. destruct e; auto.
Qed.

(** A write of text that lies in readable parts of a mapped image. *)
Lemma text_printed `{ElfConsts} bytes segs pt' (mem' : gmap Z Z) fd ptr text other k cur :
  Forall (ElfLoad.segment_ok bytes) segs ->
  (forall a fl, canonical a -> ElfLoad.page_flags segs (align_down a) = Some fl ->
     exists f, translate pt' a = Mapped f (a - align_down a) fl) ->
  (forall a b, canonical a -> ElfLoad.file_byte bytes segs a = Some b -> ElfLoad.load_byte pt' a mem' = Some b) ->
  ready k cur -> memory k = (fun p => default 0 (mem' !! p)) ->
  0 <= ptr -> text <> [] -> ptr + Z.of_nat (length text) <= 2 ^ 47 ->
  (forall i b, text !! i = Some b ->
     ElfLoad.file_byte bytes segs (ptr + Z.of_nat i) = Some b /\
     forall fl, ElfLoad.page_flags segs (align_down (ptr + Z.of_nat i)) = Some fl ->
       flags_contains fl USER_ACCESSIBLE = true) ->
  exists k', syscall_handler_inner pt' (write fd (mkSlice ptr (Z.of_nat (length text))) other) k =
      (Ret (Z.of_nat (length text)), k') /\
    printed k cur (write_text ++ [10] ++ text) k'.
Proof.
  intros Hsegs Hpages Hbytes Hr Hmem Hp Hne Hend Htext.
  assert (forall i b, text !! i = Some b ->
    user_can ReadOnly pt' (ptr + Z.of_nat i) /\ read_byte pt' (memory k) (ptr + Z.of_nat i) = Ret b) as Hall.
  { intros i b Hi. destruct (Htext i b Hi) as [Hb Hfl].
    apply lookup_lt_Some in Hi. assert (canonical (ptr + Z.of_nat i)) as Hc by (left; lia).
    destruct (ElfLoad.file_byte_page bytes segs (ptr + Z.of_nat i) b) as [fl Ef]; [done..|].
    destruct (Hpages _ fl Hc Ef) as (f & Etr). pose proof (Hbytes _ b Hc Hb) as Hbyte.
    unfold user_can, read_byte, ElfLoad.load_byte in *. rewrite Etr in *. split.
    - split; [by apply Hfl|done].
    - rewrite decide_True by done. by rewrite Hmem, Hbyte. }
  assert (0 < length text)%nat as Hpos by (by destruct text; [|simpl; lia]).
  destruct (write_accepted pt' fd ptr (Z.of_nat (length text)) other k cur) as (bs & k' & Ek & Hlen & Hbs & Hpr);
    [done|left; lia|unfold isize_MAX; lia|left; lia| |].
  { intros a Ha. destruct (lookup_lt_is_Some_2 text (Z.to_nat (a - ptr))) as [b Hb]; [lia|].
    apply Hall in Hb as [Hu _]. by replace (ptr + Z.of_nat (Z.to_nat (a - ptr))) with a in Hu by lia. }
  exists k'. split; [done|]. assert (bs = text) as ->; [|done].
  apply list_eq_same_length with (length text); [done|lia|]. intros i b b' _ Hb Hb'.
  apply Hbs in Hb. apply Hall in Hb' as [_ Hb']. congruence.
Qed.

(** [exit] halts with interrupts enabled and the console as it was. *)
Lemma exit_halts mapper code other k :
  exists k', syscall_handler_inner mapper (exit code other) k = (Stop HltLoop, k') /\
    are_enabled (console_cpu (console k')) = true /\
    WRITER (console k') = WRITER (console k) /\ memory k' = memory k.
Proof.
  unfold syscall_handler_inner, inner. simpl. eexists. split; [done|]. simpl. by rewrite hlt_keeps, enable_sets.
Qed.

End Proofs.

(** ** Properties *)
Section Properties.
Context `{Build} `{InterruptsLaws} `{MutexLaws} `{AddrLaws} `{FlagLaws}
  {PT : Type} `{!Mapper PT, !MapperLaws PT}.

(** C7: The write system call on a canonical, non-empty buffer: if user code
    may read all of it, the call prints the trace line and the buffer's bytes
    in order and returns its length; otherwise it returns -1 and changes
    nothing. *)
Theorem write_syscall_spec mapper fd ptr bytes other k cur :
  ready k cur -> canonical ptr -> 0 < bytes <= isize_MAX -> canonical (ptr + (bytes - 1)) ->
  let run := syscall_handler_inner mapper (write fd (mkSlice ptr bytes) other) k in
  (user_range ReadOnly mapper ptr bytes ->
     exists bs k', run = (Ret bytes, k') /\ Z.of_nat (length bs) = bytes /\
       (forall i b, bs !! i = Some b -> read_byte mapper (memory k) (ptr + Z.of_nat i) = Ret b) /\
       printed k cur (write_text ++ [10] ++ bs) k') /\
  (~ user_range ReadOnly mapper ptr bytes -> run = (Ret invalid_argument, k)).
Proof.
  intros Hr Hp Hb He run. split; [by apply write_accepted|]. intros Hn.
  destruct (construct_range ReadOnly mapper ptr bytes) as [[? _]|[_ Ec]]; [done..|].
  by apply write_rejected.
Qed.

(** C24: The read system call on a canonical, non-empty buffer: if user code
    may write all of it, the call prints its trace line and returns the length
    although memory is unchanged; otherwise it returns -1 and changes nothing.
    *)
Theorem read_syscall_spec mapper fd ptr bytes other k cur :
  ready k cur -> canonical ptr -> 0 < bytes <= isize_MAX -> canonical (ptr + (bytes - 1)) ->
  let run := syscall_handler_inner mapper (read fd (mkSlice ptr bytes) other) k in
  (user_range ReadWrite mapper ptr bytes ->
     exists k', run = (Ret bytes, k') /\ memory k' = memory k /\
       printed k cur (read_text ++ [10]) k') /\
  (~ user_range ReadWrite mapper ptr bytes -> run = (Ret invalid_argument, k)).
Proof.
  intros Hr Hp Hb He run.
  destruct (construct_range ReadWrite mapper ptr bytes) as [[Hu Ec]|[(a & Ha & Hna) Ec]]; [done..| |].
  - split; [intros _|done]. destruct (io_read_ret fd k cur (mkSlice ptr bytes) Hr) as (k' & E & Hpr).
    exists k'. split_and!; [|by apply Hpr|done]. unfold run. rewrite handler_read.
    unfold with_user_slice_mut, construct_user_slice_mut. simpl. rewrite Ec, (map_slice_ok _ _ _ _ _ E).
    simpl. destruct (length_returned bytes) as [-> ->]; [lia|done].
  - split; [intros Hu; by destruct (Hna (Hu a Ha))|]. intros _. by apply read_rejected.
Qed.

(** C28: A system call with an unknown number returns 0 and changes nothing;
    exit never returns, leaving interrupts enabled, the console and memory
    unchanged. *)
Theorem other_syscalls_spec mapper c k :
  (syscall_num c ∉ [1; 2; 3] -> syscall_handler_inner mapper c k = (Ret 0, k)) /\
  (syscall_num c = 3 ->
     exists k', syscall_handler_inner mapper c k = (Stop HltLoop, k') /\
       are_enabled (console_cpu (console k')) = true /\
       WRITER (console k') = WRITER (console k) /\ memory k' = memory k).
Proof.
  unfold syscall_handler_inner, inner. split.
  - intros Hn. destruct (negb _); [done|].
    destruct (Syscall_try_from (syscall_num c)) as [sc|] eqn:E; [|done].
    apply Syscall_try_from_Some in E. exfalso. apply Hn. rewrite E.
    destruct sc; simpl; set_solver.
  - intros ->. simpl. eexists. split; [done|]. simpl.
    by rewrite hlt_keeps, enable_sets.
Qed.


(** C17: Every system call that returns keeps the types: the result is a
    64-bit value, and one of 0, -1 or the length that was passed and fits in
    isize; the console is again unlocked and well formed, and memory is
    unchanged. *)
Theorem syscall_results_typed mapper c k v k' :
  console_ok (console k) -> syscall_handler_inner mapper c k = (Ret v, k') ->
  is_u64 v /\ (v = 0 \/ v = invalid_argument \/ v = as_u64 (arg2 c) /\ arg2 c <= isize_MAX) /\
  console_ok (console k') /\ memory k' = memory k.
Proof.
  intros Hk E. destruct (handler_keeps mapper c k v k' Hk E) as [Hc Hm].
  split_and!; [by eapply handler_u64|by eapply handler_values|done|done].
Qed.


(** C5: End to end over the loader, the page-table checks, the dispatcher and
    the console: after elf::load of a loadable file, a write system call on a
    buffer that lies in readable parts of the image prints exactly the bytes
    the file has there (after the kernel's own trace line) and returns their
    number. *)
Theorem loaded_program_prints `{ElfConsts} {EA : ElfApi} {FA : Type} `{FrameSource FA}
  bytes hdr phs t pt (fa : FA) mem :
  FileHeader64_parse bytes = Ok hdr -> program_headers hdr bytes = Ok phs ->
  ElfLoad.loadable bytes phs (e_entry hdr) t pt fa ->
  exists elf pt' fa' mem', ElfLoad.load bytes pt fa mem = Ret (elf, pt', fa', mem') /\
    forall fd ptr text other k cur,
      ready k cur -> memory k = (fun p => default 0 (mem' !! p)) ->
      0 <= ptr -> text <> [] -> ptr + Z.of_nat (length text) <= 2 ^ 47 ->
      (forall i b, text !! i = Some b ->
         ElfLoad.file_byte bytes (ElfLoad.image t phs) (ptr + Z.of_nat i) = Some b /\
         forall fl, ElfLoad.page_flags (ElfLoad.image t phs) (align_down (ptr + Z.of_nat i)) = Some fl ->
           flags_contains fl USER_ACCESSIBLE = true) ->
      exists k', syscall_handler_inner pt' (write fd (mkSlice ptr (Z.of_nat (length text))) other) k =
          (Ret (Z.of_nat (length text)), k') /\
        printed k cur (write_text ++ [10] ++ text) k'.
Proof.
  intros Ehdr Ephs Hld.
  destruct (ElfLoad.load_ret bytes hdr phs t pt fa mem) as (pt' & fa' & mem' & E & Hl); [done..|].
  eexists _, pt', fa', mem'. split; [done|]. intros fd ptr text other k cur Hr Hmem Hp Hne Hend Htext.
  apply (text_printed bytes (ElfLoad.image t phs) pt' mem'); try done; [apply Hld| |apply Hl].
  intros a fl Hc Ef. destruct (ElfLoad.loaded_pages _ _ _ _ _ _ _ _ Hl a fl Hc Ef) as (f & _ & _ & Etr). eauto.
Qed.

End Properties.

(** ** The properties at concrete calls *)
Section Witnesses.
#[local] Existing Instance dev_build.
#[local] Existing Instance Ref.interrupts.
#[local] Existing Instance Ref.interrupts_laws.
#[local] Existing Instance Ref.mutexes.
#[local] Existing Instance Ref.mutexes_laws.
#[local] Existing Instance Ref.addresses.
#[local] Existing Instance Ref.addresses_laws.
#[local] Existing Instance Ref.flag_bits.
#[local] Existing Instance Ref.flag_bits_laws.
#[local] Existing Instance Ref.boot_info.
#[local] Existing Instance Ref.boot_info_laws.
#[local] Existing Instance Ref.mapper.
#[local] Existing Instance Ref.mapper_laws.
#[local] Existing Instance Ref.elf_consts.
#[local] Existing Instance FrameAlloc.BootInfoFrameAllocator_trait.
#[local] Existing Instance FrameAlloc.BootInfoFrameAllocator_source.

(** A blank screen and a memory of letters [A]. *)
Definition idle : Kernel := mkKernel boot_console (fun _ => 65).
Definition no_args : call := mkCall 0 0 0 0 0 0.

Lemma idle_ready : ready idle [].
Proof. split; [reflexivity|apply blank_screen_shows]. Qed.

Lemma write_syscall_spec_witness :
  exists bs k',
    syscall_handler_inner user_pages (write 1 (mkSlice 0x660ff0 0x20) no_args) idle = (Ret 0x20, k') /\
    Z.of_nat (length bs) = 0x20 /\
    (forall i b, bs !! i = Some b -> read_byte user_pages (memory idle) (0x660ff0 + Z.of_nat i) = Ret b) /\
    printed idle [] (write_text ++ [10] ++ bs) k'.
Proof.
  apply (write_syscall_spec user_pages 1 0x660ff0 0x20 no_args idle []).
  - apply idle_ready.
  - left. lia.
  - unfold isize_MAX. lia.
  - left. lia.
  - destruct (construct_range ReadOnly user_pages 0x660ff0 0x20) as [[Hu _]|[_ E]];
      [left; lia|unfold isize_MAX; lia|left; lia|exact Hu|]. vm_compute in E. discriminate E.
Defined.

Lemma read_syscall_spec_witness :
  syscall_handler_inner user_pages (read 0 (mkSlice 0x660ff0 0x20) no_args) idle =
    (Ret invalid_argument, idle).
Proof.
  apply (read_syscall_spec user_pages 0 0x660ff0 0x20 no_args idle []).
  - apply idle_ready.
  - left. lia.
  - unfold isize_MAX. lia.
  - left. lia.
  - intros Hu. specialize (Hu 0x661000 ltac:(lia)). vm_compute in Hu.
    destruct Hu as [_ Hu]. discriminate (Hu eq_refl).
Defined.

Lemma other_syscalls_spec_witness :
  syscall_handler_inner user_pages no_args idle = (Ret 0, idle).
Proof.
  apply (other_syscalls_spec user_pages no_args idle). simpl. rewrite !not_elem_of_cons.
  split_and!; [discriminate..|apply not_elem_of_nil].
Defined.



Lemma syscall_results_typed_witness :
  exists v k', syscall_handler_inner user_pages (read 1 (mkSlice 0x660000 16) no_args) idle = (Ret v, k') /\
    v = 16 /\ is_u64 v /\ console_ok (console k') /\ memory k' = memory idle.
Proof.
  destruct (syscall_handler_inner user_pages (read 1 (mkSlice 0x660000 16) no_args) idle) as [[v|r] k'] eqn:E.
  - destruct (syscall_results_typed user_pages (read 1 (mkSlice 0x660000 16) no_args) idle v k')
      as (Hu & _ & Hc & Hm); [split; [reflexivity|apply blank_screen_wf]|exact E|].
    exists v, k'. split; [reflexivity|]. split; [|split; [exact Hu|split; [exact Hc|exact Hm]]].
    apply (f_equal fst) in E. vm_compute in E. injection E as <-. reflexivity.
  - apply (f_equal fst) in E. vm_compute in E. discriminate E.
Defined.

Lemma loaded_program_prints_witness :
  exists elf pt' fa' mem',
    @ElfLoad.load _ _ _ _ (Ref.elf_file 0x201000 ElfLoad.program) _ _ _ _ ElfLoad.program_bytes
      Ref.empty_table (FrameAlloc.init FrameAlloc.boot_map) ∅ = Ret (elf, pt', fa', mem') /\
    let k := mkKernel boot_console (fun p => default 0 (mem' !! p)) in
    exists k', syscall_handler_inner pt' (write 1 (mkSlice 0x661100 2) no_args) k = (Ret 2, k') /\
      printed k [] (write_text ++ [10] ++ [84; 101]) k'.
Proof.
  destruct (loaded_program_prints (EA := Ref.elf_file 0x201000 ElfLoad.program)
    ElfLoad.program_bytes tt ElfLoad.program 0x201000 Ref.empty_table
    (FrameAlloc.init FrameAlloc.boot_map) ∅) as (elf & pt' & fa' & mem' & E & Hw);
    [reflexivity|reflexivity|apply ElfLoad.program_loadable|].
  exists elf, pt', fa', mem'. split; [exact E|]. intros k.
  apply (Hw 1 0x661100 [84; 101] no_args k []).
  - split; [reflexivity|apply blank_screen_shows].
  - reflexivity.
  - lia.
  - discriminate.
  - simpl. lia.
  - rewrite ElfLoad.program_image_eq. intros [|[|i]] b Hb; [..|discriminate Hb]; injection Hb as <-;
      (split; [vm_compute; reflexivity|intros fl Hfl; vm_compute in Hfl; injection Hfl as <-; vm_compute; reflexivity]).
Defined.

End Witnesses.

End SyscallHandler.
