(* ===== verification/SyscallAbi.v ===== *)
(** * Entering and leaving the kernel

    The system call path in assembly: the user stub ([syscall/src/lib.rs]),
    [syscall_handler] ([kernel/src/syscall/handler.rs]) and [enter_user_mode]
    and [_start] ([kernel/src/main.rs]), run on [Machine].  The compiled
    [syscall_handler_inner] is assumed to keep the [sysv64] convention; what
    it computes is [SyscallHandler]. *)
From S2P Require Import Prelude Platform RefPlatform Paging SyscallLib Machine ThreadData.

Module SyscallAbi.
Import SyscallLib Machine ThreadData.

(** ** Source code *)

(** The stub behind [syscall_0] to [syscall_5]. *)
Definition syscall_stub : list instr :=
  [PUSH rbp; MOV rbp rsp; MOV r10 rcx; SYSCALL; LEAVE; RET].

Definition syscall_handler : list instr :=
  [SWAPGS;
   MOV_to_gs user_rsp_offset rsp;
   MOV_from_gs rsp kernel_rsp_offset;
   PUSH rcx;
   PUSH r11;
   MOV rcx r10;
   CALL sym_syscall_handler_inner;
   POP r11;
   POP rcx;
   MOV_to_gs kernel_rsp_offset rsp;
   MOV_from_gs rsp user_rsp_offset;
   SWAPGS;
   SYSRETQ].

Definition INTERRUPT_FLAG : Z := 0x200.
Definition user_mode_flags : Z := Z.lor INTERRUPT_FLAG 2.

Definition enter_user_mode : list instr :=
  [MOV rcx rdi; MOV_imm r11 user_mode_flags; MOV rsp rsi; MOV rbp rsi; SWAPGS; SYSRETQ].

Definition _start : list instr := [MOV rsi rsp; JMP sym_kernel_main].

(** [syscall::init] and the registers it writes. *)
Definition init `{AddrApi} (handler : Z) (c : control) : outcome control :=
  syscall_rip ← VirtAddr_new handler;
  let flags_to_clear := Z.lor (SFMask c) INTERRUPT_FLAG in
  mret (mkControl syscall_rip flags_to_clear true true).

(** [init_thread_data], with the address [Box::new] returned. *)
Definition init_thread_data {W : Type} `{AddrApi} (data : ThreadData) (boxed : Z) (m : machine W) : outcome (machine W) :=
  let f := ThreadData_store boxed data (mem m) in
  thread_data ← VirtAddr_new boxed;
  mret (mkMachine (regs m) (rip m) (rflags m) thread_data (kernel_gs_base m) (ring m) f (world m)).

(** ** Specifications *)

(** The arguments a [sysv64] function of six integers sees. *)
Definition args {W : Type} (m : machine W) : call :=
  mkCall (regs m rdi) (regs m rsi) (regs m rdx) (regs m rcx) (regs m r8) (regs m r9).

(** The processor in user mode, with the thread data at [td] and the kernel
    stack pointer [kr] saved in it. *)
Record user_ready {W : Type} (td kr : Z) (m : machine W) : Prop := {
  ur_ring : ring m = User;
  ur_gs : kernel_gs_base m = td;
  ur_rsp : load64 (mem m) (td + kernel_rsp_offset) = kr;
  ur_flags : sysret_flags (rflags m) = rflags m;
  ur_regs : forall r, is_u64 (regs m r)
}.

(** ** Proofs *)
Section RoundTrip.
Context {W : Type} (E : env W) (Hu64 : code_u64 E).
Implicit Types m : machine W.

(** The state in which [syscall] enters the kernel. *)
Record entered (m : machine W) (ret : Z) (m1 : machine W) : Prop := {
  en_rip : rip m1 = LStar (ctl E);
  en_ring : ring m1 = Kernel;
  en_flags : rflags m1 = Z.ldiff (rflags m) (SFMask (ctl E));
  en_rcx : regs m1 rcx = ret;
  en_r11 : regs m1 r11 = rflags m;
  en_regs : forall r, r ∉ [rcx; r11] -> regs m1 r = regs m r;
  en_gs : gs_base m1 = gs_base m;
  en_kernel_gs : kernel_gs_base m1 = kernel_gs_base m;
  en_mem : mem m1 = mem m;
  en_world : world m1 = world m
}.

Lemma syscall_enters m ret :
  code E (rip m) = Some (SYSCALL, ret) -> SYSTEM_CALL_EXTENSIONS (ctl E) = true ->
  exists m1, run E 1 m = Some m1 /\ entered m ret m1.
Proof.
  intros Ec Hsce. eexists. split.
  - rewrite (run_step _ _ _ _ _ Ec). cbn [exec]. rewrite Hsce. reflexivity.
  - split; [..|intros r Hr; rewrite !not_elem_of_cons in Hr; destruct_and! Hr| | | |];
      by machine_simpl.
Qed.

(** User flags fit in 64 bits. *)
Lemma sysret_flags_u64 f : sysret_flags f = f -> is_u64 f.
Proof.
  unfold sysret_flags. intros <-. pose proof (land_mask_range f 0x3C7FD7).
  unfold is_u64, u64_modulus. apply lor_range; lia.
Qed.

Lemma entered_u64 m ret m1 :
  entered m ret m1 -> (forall r, is_u64 (regs m r)) -> is_u64 (rflags m) -> is_u64 ret ->
  forall r, is_u64 (regs m1 r).
Proof.
  intros H1 Hregs Hf Hret r.
  destruct (decide (r ∈ [rcx; r11])) as [Hr|Hr]; [|by rewrite (en_regs _ _ _ H1)].
  rewrite !elem_of_cons, elem_of_nil in Hr. destruct Hr as [->|[->|[]]].
  - by rewrite (en_rcx _ _ _ H1).
  - by rewrite (en_r11 _ _ _ H1).
Qed.

(** The first half of the handler, up to the entry of the Rust code. *)
Record prepared (m1 : machine W) (td kr : Z) (m2 : machine W) : Prop := {
  pr_rsp : regs m2 rsp = kr - 24;
  pr_rcx : regs m2 rcx = regs m1 r10;
  pr_regs : forall r, r ∉ [rcx; rsp] -> regs m2 r = regs m1 r;
  pr_gs : gs_base m2 = td;
  pr_kernel_gs : kernel_gs_base m2 = gs_base m1;
  pr_ring : ring m2 = Kernel;
  pr_flags : rflags m2 = rflags m1;
  pr_r11 : load64 (mem m2) (kr - 16) = regs m1 r11;
  pr_saved_rcx : load64 (mem m2) (kr - 8) = regs m1 rcx;
  pr_user_rsp : load64 (mem m2) (td + user_rsp_offset) = regs m1 rsp;
  pr_mem : forall a, ~ inside (kr - 24) kr a -> ~ inside td (td + 16) a -> mem m2 a = mem m1 a;
  pr_world : world m2 = world m1
}.

(** The stack switch, the first three instructions of the handler. *)
Record switched (m : machine W) (td kr : Z) (m3 : machine W) : Prop := {
  sw_rsp : regs m3 rsp = kr;
  sw_regs : forall r, r <> rsp -> regs m3 r = regs m r;
  sw_gs : gs_base m3 = td;
  sw_kernel_gs : kernel_gs_base m3 = gs_base m;
  sw_ring : ring m3 = Kernel;
  sw_flags : rflags m3 = rflags m;
  sw_mem : mem m3 = store64 (td + user_rsp_offset) (regs m rsp) (mem m);
  sw_world : world m3 = world m
}.

Lemma handler_switches e m td kr :
  assembled E (LStar (ctl E)) syscall_handler e ->
  rip m = LStar (ctl E) -> ring m = Kernel -> kernel_gs_base m = td ->
  load64 (mem m) (td + kernel_rsp_offset) = kr ->
  exists m3, run E 3 m = Some m3 /\
    assembled E (rip m3) (drop 3 syscall_handler) e /\ switched m td kr m3.
Proof.
  intros (a1 & E1 & a2 & E2 & a3 & E3 & Hrest) Hrip Hring Hgs Hkr.
  eexists. split_and!.
  - rewrite <- Hrip in E1. rewrite (run_step _ _ _ _ _ E1). cbn [exec]. rewrite decide_True by done.
    cbn [mbind option_bind].
    do 2 (erewrite run_step by eassumption; cbn [exec mbind option_bind]). reflexivity.
  - done.
  - split; [|intros r Hr|..]; machine_simpl; rewrite ?Hgs; try done.
    rewrite load_store_other; [done|]. unfold apart, user_rsp_offset, kernel_rsp_offset. lia.
Qed.

Lemma handler_prepares e m td kr m3 :
  assembled E (rip m3) (drop 3 syscall_handler) e -> switched m td kr m3 ->
  is_u64 kr -> 24 <= kr -> (forall r, is_u64 (regs m r)) -> apart td (td + 16) (kr - 24) kr ->
  exists ret m2, is_u64 ret /\ assembled E ret (drop 7 syscall_handler) e /\
    run E 4 m3 = calls E sym_syscall_handler_inner m2 /\
    load64 (mem m2) (regs m2 rsp) = ret /\ prepared m td kr m2.
Proof.
  intros (a4 & E4 & a5 & E5 & a6 & E6 & a7 & E7 & Hrest) Hsw Hu Hlow Hregs Hap.
  eassert (run E 3 m3 = Some _) as Erun.
  { rewrite (run_step _ _ _ _ _ E4). cbn [exec mbind option_bind].
    do 2 (erewrite run_step by eassumption; cbn [exec mbind option_bind]). reflexivity. }
  match type of Erun with _ = Some ?x => set (m6 := x) in Erun end.
  assert (wrap64 (kr - 8) = kr - 8 /\ wrap64 (kr - 8 - 8) = kr - 16 /\ wrap64 (kr - 16 - 8) = kr - 24)
    as (Ew8 & Ew16 & Ew24) by (split_and!; rewrite wrap64_small by (unfold is_u64 in *; lia); lia).
  assert (regs m6 rsp = kr - 16) as Ersp.
  { unfold m6. machine_simpl. by rewrite (sw_rsp _ _ _ _ Hsw), Ew8, Ew16. }
  assert (mem m6 = store64 (kr - 16) (regs m r11) (store64 (kr - 8) (regs m rcx) (mem m3))) as Emem.
  { unfold m6. machine_simpl.
    by rewrite (sw_rsp _ _ _ _ Hsw), Ew8, Ew16, !(sw_regs _ _ _ _ Hsw). }
  exists a7, (push a7 m6). split_and!; [by eapply Hu64|done| |..].
  - rewrite (run_app E 3 1), Erun. cbn [mbind option_bind].
    rewrite (run_step E 0 m6 _ _ E7). cbn [exec]. by destruct (calls E sym_syscall_handler_inner (push a7 m6)).
  - machine_simpl. rewrite Ersp, Ew24, load_store_same; [done|by eapply Hu64].
  - assert (mem (push a7 m6) = store64 (kr - 24) a7 (mem m6)) as Emem2
      by (machine_simpl; by rewrite Ersp, Ew24).
    split; rewrite ?Emem2, ?Emem, ?(sw_mem _ _ _ _ Hsw).
    + machine_simpl. by rewrite Ersp, Ew24.
    + unfold m6. machine_simpl. by apply Hsw.
    + intros r Hr. rewrite !not_elem_of_cons in Hr. destruct_and! Hr. unfold m6. machine_simpl.
      by apply Hsw.
    + apply Hsw.
    + apply Hsw.
    + apply Hsw.
    + apply Hsw.
    + rewrite load_store_other by (unfold apart; lia). by rewrite load_store_same.
    + rewrite !load_store_other by (unfold apart; lia). by rewrite load_store_same.
    + rewrite !load_store_other by (unfold apart, user_rsp_offset in *; lia). by rewrite load_store_same.
    + intros a Hk Ht. unfold store64, inside, user_rsp_offset in *. by rewrite !decide_False by lia.
    + apply Hsw.
Qed.

Lemma prepared_u64 m td kr m2 :
  prepared m td kr m2 -> is_u64 kr -> 24 <= kr -> (forall r, is_u64 (regs m r)) ->
  forall r, is_u64 (regs m2 r).
Proof.
  intros H2 Hkr Hlow Hregs r. destruct (decide (r = rcx)) as [->|Hc]; [by rewrite (pr_rcx _ _ _ _ H2)|].
  destruct (decide (r = rsp)) as [->|Hs]; [rewrite (pr_rsp _ _ _ _ H2); unfold is_u64 in *; lia|].
  rewrite (pr_regs _ _ _ _ H2); [done|]. rewrite !not_elem_of_cons. by split_and!; [..|apply not_elem_of_nil].
Qed.

(** The way back: from the return of the Rust code to user mode. *)
Record left_kernel (m7 : machine W) (td kr ret fl ursp : Z) (m8 : machine W) : Prop := {
  lv_rip : rip m8 = ret;
  lv_ring : ring m8 = User;
  lv_flags : rflags m8 = sysret_flags fl;
  lv_rsp : regs m8 rsp = ursp;
  lv_rcx : regs m8 rcx = ret;
  lv_r11 : regs m8 r11 = fl;
  lv_regs : forall r, r ∉ [rcx; r11; rsp] -> regs m8 r = regs m7 r;
  lv_gs : gs_base m8 = kernel_gs_base m7;
  lv_kernel_gs : kernel_gs_base m8 = td;
  lv_mem : mem m8 = store64 (td + kernel_rsp_offset) kr (mem m7);
  lv_world : world m8 = world m7
}.

Lemma handler_leaves e m7 td kr ret fl ursp :
  assembled E (rip m7) (drop 7 syscall_handler) e ->
  ring m7 = Kernel -> gs_base m7 = td -> regs m7 rsp = kr - 16 -> is_u64 kr -> 16 <= kr ->
  load64 (mem m7) (kr - 16) = fl -> load64 (mem m7) (kr - 8) = ret ->
  load64 (mem m7) (td + user_rsp_offset) = ursp ->
  exists m8, run E 6 m7 = Some m8 /\ left_kernel m7 td kr ret fl ursp m8.
Proof.
  intros (a1 & E1 & a2 & E2 & a3 & E3 & a4 & E4 & a5 & E5 & a6 & E6 & _) Hring Hgs Hrsp Hu Hlow Hfl Hret Hur.
  assert (wrap64 (kr - 16 + 8) = kr - 8 /\ wrap64 (kr - 8 + 8) = kr) as (Ew8 & Ew0)
    by (split_and!; rewrite wrap64_small by (unfold is_u64 in *; lia); lia).
  eassert (run E 3 m7 = Some _) as Erun.
  { rewrite (run_step _ _ _ _ _ E1). cbn [exec mbind option_bind].
    do 2 (erewrite run_step by eassumption; cbn [exec mbind option_bind]). reflexivity. }
  match type of Erun with _ = Some ?x => set (m3 := x) in Erun end.
  assert (rip m3 = a3 /\ ring m3 = Kernel /\ gs_base m3 = td /\ kernel_gs_base m3 = kernel_gs_base m7 /\
      world m3 = world m7) as (Hrip3 & Hring3 & Hgs3 & Hkgs3 & Hw3) by (unfold m3; machine_simpl; by rewrite ?Hring, ?Hgs).
  assert (regs m3 r11 = fl /\ regs m3 rcx = ret) as [Hfl3 Hrcx3].
  { unfold m3. machine_simpl. by rewrite Hrsp, Hfl, Ew8, Hret. }
  assert (mem m3 = store64 (td + kernel_rsp_offset) kr (mem m7)) as Hmem3.
  { unfold m3. machine_simpl. by rewrite Hrsp, Hgs, Ew8, Ew0. }
  assert (forall r, r ∉ [rcx; r11; rsp] -> regs m3 r = regs m7 r) as Hregs3.
  { intros r Hr. rewrite !not_elem_of_cons in Hr. destruct_and! Hr. unfold m3. by machine_simpl. }
  clearbody m3. subst a3.
  eexists. split.
  - rewrite (run_app E 3 3), Erun. cbn [mbind option_bind].
    rewrite (run_step _ _ _ _ _ E4). cbn [exec mbind option_bind].
    erewrite run_step by eassumption. cbn [exec]. rewrite decide_True by (by machine_simpl).
    cbn [mbind option_bind]. erewrite run_step by eassumption. cbn [exec].
    rewrite decide_True by (by machine_simpl). reflexivity.
  - split; [..|intros r Hr; pose proof Hr as Hr'; rewrite !not_elem_of_cons in Hr'; destruct_and! Hr'| | | |];
      machine_simpl; try done; [by rewrite Hfl3| |by apply Hregs3].
    rewrite Hgs3, Hmem3, load_store_other; [done|]. unfold apart, user_rsp_offset, kernel_rsp_offset. lia.
Qed.

(** [leave] and [ret] give the caller its frame back. *)
Lemma stub_returns e m8 u b :
  assembled E (rip m8) [LEAVE; RET] e -> regs m8 rbp = u - 8 -> is_u64 u -> u + 8 < u64_modulus -> 8 <= u ->
  load64 (mem m8) (u - 8) = b ->
  exists m9, run E 2 m8 = Some m9 /\
    rip m9 = load64 (mem m8) u /\ regs m9 rsp = u + 8 /\ regs m9 rbp = b /\
    (forall r, r ∉ [rsp; rbp] -> regs m9 r = regs m8 r) /\ ring m9 = ring m8 /\
    rflags m9 = rflags m8 /\ gs_base m9 = gs_base m8 /\ kernel_gs_base m9 = kernel_gs_base m8 /\
    mem m9 = mem m8 /\ world m9 = world m8.
Proof.
  intros (a1 & E1 & a2 & E2 & _) Hrbp Hu Hhi Hlow Hb.
  assert (wrap64 (u - 8 + 8) = u /\ wrap64 (u + 8) = u + 8) as [Ew0 Ew8]
    by (split; rewrite wrap64_small by (unfold is_u64 in *; lia); lia).
  eexists. split.
  - rewrite (run_step _ _ _ _ _ E1). cbn [exec mbind option_bind].
    erewrite run_step by eassumption. cbn [exec mbind option_bind]. reflexivity.
  - split_and!; [..|intros r Hr; rewrite !not_elem_of_cons in Hr; destruct_and! Hr| | | | | |];
      machine_simpl; rewrite ?Hrbp, ?Ew0, ?Ew8, ?Hb; done.
Qed.

(** Where the thread data and the handler's frame lie. *)
Record kernel_layout (td kr : Z) : Prop := {
  lay_kr : is_u64 kr /\ 24 <= kr;
  lay_td_kr : apart td (td + 16) (kr - 24) kr
}.

(** Memory the kernel entry code does not use. *)
Definition foreign (td kr a : Z) : Prop := ~ inside td (td + 16) a /\ ~ inside (kr - 24) kr a.

(** What the Rust code must not overwrite: the user memory [keep], the thread
    data and the frame, apart from the return address it is called with. *)
Definition kept (td kr : Z) (keep : Z -> Prop) (a : Z) : Prop :=
  keep a \/ inside td (td + 16) a \/ inside (kr - 16) kr a.

(** The compiled Rust code computes [inner], where that returns. *)
Definition computes (inner : call -> stateful W Z) (td kr : Z) (keep : Z -> Prop) : Prop :=
  forall m v w, ring m = Kernel -> regs m rsp = kr - 24 -> (forall r, is_u64 (regs m r)) ->
    inner (args m) (world m) = (Ret v, w) ->
    exists m', calls E sym_syscall_handler_inner m = Some m' /\ returns (kept td kr keep) v w m m'.

(** The arguments as [syscall] finds them, the third in [r10]. *)
Definition syscall_args m : call :=
  mkCall (regs m rdi) (regs m rsi) (regs m rdx) (regs m r10) (regs m r8) (regs m r9).

(** User code after a system call that returned [v] to [ret]. *)
Record resumed (td kr ret v : Z) (w : W) (keep : Z -> Prop) (m m' : machine W) : Prop := {
  re_rip : rip m' = ret;
  re_rsp : regs m' rsp = regs m rsp;
  re_rax : regs m' rax = v;
  re_saved : forall r, r ∈ callee_saved -> regs m' r = regs m r;
  re_flags : rflags m' = rflags m;
  re_gs : gs_base m' = gs_base m;
  re_ready : user_ready td kr m';
  re_mem : forall a, keep a -> mem m' a = mem m a;
  re_world : world m' = w
}.

(** The four parts of a system call put together. *)
Lemma resumed_compose m td kr ret v w keep m1 m2 m7 m8 :
  kernel_layout td kr -> sysret_flags (rflags m) = rflags m -> (forall r, is_u64 (regs m r)) -> is_u64 ret ->
  (forall a, keep a -> foreign td kr a) ->
  entered m ret m1 -> prepared m1 td kr m2 -> returns (kept td kr keep) v w m2 m7 ->
  left_kernel m7 td kr ret (rflags m) (regs m rsp) m8 -> resumed td kr ret v w keep m m8.
Proof.
  intros [[Hkr1 Hkr2] Htk] Hfl Hregs Hret Hkeep H1 H2 H7 H8.
  split; [apply H8|apply H8| |intros r Hr|by rewrite (lv_flags _ _ _ _ _ _ _ H8)| | |intros a Ha|].
  - rewrite (lv_regs _ _ _ _ _ _ _ H8) by set_solver. apply H7.
  - unfold callee_saved in Hr. rewrite (lv_regs _ _ _ _ _ _ _ H8), (ret_saved _ _ _ _ _ H7),
      (pr_regs _ _ _ _ H2), (en_regs _ _ _ H1) by (unfold callee_saved; set_solver). done.
  - by rewrite (lv_gs _ _ _ _ _ _ _ H8), (ret_kernel_gs _ _ _ _ _ H7), (pr_kernel_gs _ _ _ _ H2), (en_gs _ _ _ H1).
  - split; [apply H8|apply H8| |by rewrite (lv_flags _ _ _ _ _ _ _ H8), Hfl|intros r].
    + rewrite (lv_mem _ _ _ _ _ _ _ H8). by apply load_store_same.
    + destruct (decide (r ∈ [rcx; r11; rsp])) as [Hr|Hr];
        [|rewrite (lv_regs _ _ _ _ _ _ _ H8) by done; apply (ret_regs _ _ _ _ _ H7)].
      rewrite !elem_of_cons, elem_of_nil in Hr. destruct Hr as [->|[->|[->|[]]]].
      * by rewrite (lv_rcx _ _ _ _ _ _ _ H8).
      * rewrite (lv_r11 _ _ _ _ _ _ _ H8). by apply sysret_flags_u64.
      * by rewrite (lv_rsp _ _ _ _ _ _ _ H8).
  - destruct (Hkeep a Ha) as [Ht Hk]. rewrite (lv_mem _ _ _ _ _ _ _ H8), store64_other.
    + rewrite (ret_mem _ _ _ _ _ H7) by (by left). rewrite (pr_mem _ _ _ _ H2) by done.
      by rewrite (en_mem _ _ _ H1).
    + unfold inside, kernel_rsp_offset in *. lia.
  - by rewrite (lv_world _ _ _ _ _ _ _ H8), (ret_world _ _ _ _ _ H7).
Qed.

Lemma syscall_resumes e m td kr ret keep inner v w :
  assembled E (LStar (ctl E)) syscall_handler e -> SYSTEM_CALL_EXTENSIONS (ctl E) = true ->
  code E (rip m) = Some (SYSCALL, ret) -> user_ready td kr m -> kernel_layout td kr ->
  (forall a, keep a -> foreign td kr a) -> computes inner td kr keep ->
  inner (syscall_args m) (world m) = (Ret v, w) ->
  exists m', run E 14 m = Some m' /\ resumed td kr ret v w keep m m'.
Proof.
  intros Hcode Hsce Ec [Hring Hgs Hkr Hfl Hregs] [[Hkr1 Hkr2] Htk] Hkeep Hinner Ev.
  pose proof (Hu64 _ _ _ Ec) as Hret. pose proof (sysret_flags_u64 _ Hfl) as Hf.
  destruct (syscall_enters m ret Ec Hsce) as (m1 & E1 & H1).
  pose proof (entered_u64 m ret m1 H1 Hregs Hf Hret) as Hregs1.
  destruct (handler_switches e m1 td kr) as (m3 & E3 & Hc3 & H3);
    [done|apply H1|apply H1|by rewrite (en_kernel_gs _ _ _ H1)|by rewrite (en_mem _ _ _ H1)|].
  destruct (handler_prepares e m1 td kr m3) as (rt & m2 & Hrt & Hc7 & E7 & Hload & H2); [done..|].
  assert (args m2 = syscall_args m) as Hargs.
  { unfold args, syscall_args.
    rewrite (pr_rcx _ _ _ _ H2), !(pr_regs _ _ _ _ H2), !(en_regs _ _ _ H1) by set_solver. done. }
  destruct (Hinner m2 v w) as (m7 & Em7 & H7);
    [apply H2|apply H2|by apply (prepared_u64 m1 td kr m2)| |].
  { by rewrite Hargs, (pr_world _ _ _ _ H2), (en_world _ _ _ H1). }
  destruct (handler_leaves e m7 td kr ret (rflags m) (regs m rsp)) as (m8 & E8 & H8);
    [by rewrite (ret_rip _ _ _ _ _ H7), Hload|rewrite (ret_ring _ _ _ _ _ H7); apply H2
    |rewrite (ret_gs _ _ _ _ _ H7); apply H2|rewrite (ret_rsp _ _ _ _ _ H7), (pr_rsp _ _ _ _ H2); lia
    |done|lia|..].
  { rewrite <- (en_r11 _ _ _ H1), <- (pr_r11 _ _ _ _ H2). apply load64_ext. intros a Ha.
    apply (ret_mem _ _ _ _ _ H7). unfold kept, inside in *. lia. }
  { rewrite <- (en_rcx _ _ _ H1), <- (pr_saved_rcx _ _ _ _ H2). apply load64_ext. intros a Ha.
    apply (ret_mem _ _ _ _ _ H7). unfold kept, inside in *. lia. }
  { rewrite <- (en_regs _ _ _ H1) by set_solver. rewrite <- (pr_user_rsp _ _ _ _ H2).
    apply load64_ext. intros a Ha.
    apply (ret_mem _ _ _ _ _ H7). unfold kept, inside, user_rsp_offset in *. lia. }
  exists m8. split.
  - rewrite (run_app E 1 13), E1. cbn [mbind option_bind]. rewrite (run_app E 3 10), E3.
    cbn [mbind option_bind]. by rewrite (run_app E 4 6), E7, Em7.
  - by apply (resumed_compose m td kr ret v w keep m1 m2 m7 m8).
Qed.

(** Where the stub's frame lies. *)
Record stack_apart (td kr u : Z) : Prop := {
  sta_u : is_u64 u /\ 8 <= u /\ u + 8 < u64_modulus;
  sta_td : apart td (td + 16) (u - 8) (u + 8);
  sta_kr : apart (kr - 24) kr (u - 8) (u + 8)
}.

(** The stub up to its [syscall] instruction at [a]. *)
Record framed (td kr a : Z) (m m0 : machine W) : Prop := {
  fr_rip : rip m0 = a;
  fr_ready : user_ready td kr m0;
  fr_rbp : regs m0 rbp = regs m rsp - 8;
  fr_regs : forall r, r ∉ [r10; rsp; rbp] -> regs m0 r = regs m r;
  fr_args : syscall_args m0 = args m;
  fr_flags : rflags m0 = rflags m;
  fr_gs : gs_base m0 = gs_base m;
  fr_mem : mem m0 = store64 (regs m rsp - 8) (regs m rbp) (mem m);
  fr_world : world m0 = world m
}.

Lemma stub_frame stub e m td kr :
  assembled E stub syscall_stub e -> rip m = stub -> user_ready td kr m -> stack_apart td kr (regs m rsp) ->
  exists a ret m0, run E 3 m = Some m0 /\ code E a = Some (SYSCALL, ret) /\
    assembled E ret [LEAVE; RET] e /\ framed td kr a m m0.
Proof.
  intros (a1 & E1 & a2 & E2 & a3 & E3 & a4 & E4 & Hrest) Hrip [Hring Hgs Hkr Hfl Hregs] [(Hu & Hu8 & Huhi) Htu Hku].
  subst stub. assert (wrap64 (regs m rsp - 8) = regs m rsp - 8) as Ew
    by (apply wrap64_small; unfold is_u64 in *; lia).
  exists a3, a4. eexists. split_and!; [|done|done|].
  - rewrite (run_step _ _ _ _ _ E1). cbn [exec mbind option_bind]. do 2 run_instr. reflexivity.
  - split; [| | |intros r Hr; rewrite !not_elem_of_cons in Hr; destruct_and! Hr| | | | |];
      try (machine_simpl; by rewrite ?Ew).
    + split; [by machine_simpl..| |by machine_simpl|].
      * machine_simpl. rewrite Ew, load_store_other; [done|]. unfold apart, kernel_rsp_offset in *. lia.
      * intros r. cbn. rewrite Ew. unfold is_u64 in *. repeat case_decide; try done; lia.
Qed.

End RoundTrip.

(** [_start] hands [kernel_main] the boot information it got and its own
    stack pointer, on the stack it was given. *)
Lemma start_calls_kernel_main {W : Type} (E : env W) e m :
  assembled E (rip m) _start e ->
  exists m', run E 2 m = calls E sym_kernel_main m' /\
    regs m' rdi = regs m rdi /\ regs m' rsi = regs m rsp /\ regs m' rsp = regs m rsp /\ world m' = world m.
Proof.
  intros (a1 & E1 & a2 & E2 & _). exists (jump a1 (set rsi (regs m rsp) m)). split.
  - rewrite (run_step _ _ _ _ _ E1). cbn [exec mbind option_bind].
    erewrite run_step by exact E2. cbn [exec]. by destruct (calls E sym_kernel_main _).
  - by machine_simpl.
Qed.

(** Flags of user code survive [iretq]. *)
Lemma iretq_flags_user f : sysret_flags f = f -> iretq_flags f = f.
Proof.
  unfold sysret_flags, iretq_flags. intros E. rewrite <- E at 1. rewrite Z.land_lor_distr_l, <- Z.land_assoc.
  change (Z.land 0x3C7FD7 0x3D7FD7) with 0x3C7FD7. change (Z.land 2 0x3D7FD7) with 2.
  by rewrite <- Z.lor_assoc.
Qed.

(** ** Properties *)

(** C2: A system call made through the user stub comes back: after the stub,
    the kernel entry code, the compiled Rust handler and sysret, control is at
    the stub's return address, the stack pointer is the caller's, rax holds
    the handler's result on the six arguments, the kernel's state is what the
    handler made of it, the callee-saved registers, the flags and the GS base
    are as before, and the processor is again ready for a system call with the
    same kernel stack pointer. *)
Theorem syscall_round_trip {W : Type} (E : env W) inner stub e1 e2 td kr m v w :
  code_u64 E ->
  assembled E stub syscall_stub e1 -> assembled E (LStar (ctl E)) syscall_handler e2 ->
  SYSTEM_CALL_EXTENSIONS (ctl E) = true ->
  rip m = stub -> user_ready td kr m -> kernel_layout td kr -> stack_apart td kr (regs m rsp) ->
  computes E inner td kr (inside (regs m rsp - 8) (regs m rsp + 8)) ->
  inner (args m) (world m) = (Ret v, w) ->
  exists m', run E 19 m = Some m' /\
    rip m' = load64 (mem m) (regs m rsp) /\ regs m' rsp = regs m rsp + 8 /\
    regs m' rax = v /\ world m' = w /\
    (forall r, r ∈ callee_saved -> regs m' r = regs m r) /\
    rflags m' = rflags m /\ gs_base m' = gs_base m /\ user_ready td kr m'.
Proof.
  intros Hu64 Hstub Hhandler Hsce Hrip Hready Hlay Hst Hinner Ev.
  set (u := regs m rsp) in *. pose proof Hst as [(Hu & Hu8 & Huhi) Htu Hku].
  destruct (stub_frame E stub e1 m td kr) as (a & ret & m0 & E0 & Ec & Hrest & H0); [done..|].
  destruct (syscall_resumes E Hu64 e2 m0 td kr ret (inside (u - 8) (u + 8)) inner v w) as (m8 & E8 & H8);
    [done|done|by rewrite (fr_rip _ _ _ _ _ H0)|apply H0|done| |done| |].
  { intros b Hb. unfold foreign, inside, apart in *. lia. }
  { by rewrite (fr_args _ _ _ _ _ H0), (fr_world _ _ _ _ _ H0). }
  destruct (stub_returns E e1 m8 u (regs m rbp)) as (m9 & E9 & Hrip9 & Hrsp9 & Hrbp9 & Hregs9 & Hring9 & Hfl9 & Hgs9 & Hkgs9 & Hmem9 & Hw9);
    [by rewrite (re_rip _ _ _ _ _ _ _ _ H8)
    |rewrite (re_saved _ _ _ _ _ _ _ _ H8) by (unfold callee_saved; set_solver); apply H0|done..| |].
  { rewrite <- (load_store_same (u - 8) (regs m rbp) (mem m)) by apply Hready. apply load64_ext.
    intros b Hb. rewrite (re_mem _ _ _ _ _ _ _ _ H8) by (unfold inside in *; lia).
    by rewrite (fr_mem _ _ _ _ _ H0). }
  pose proof (re_ready _ _ _ _ _ _ _ _ H8) as [Hring8 Hgs8 Hkr8 Hfl8 Hregs8].
  exists m9. split_and!.
  - rewrite (run_app E 3 16), E0. cbn [mbind option_bind]. by rewrite (run_app E 14 2), E8.
  - rewrite Hrip9. apply load64_ext. intros b Hb.
    rewrite (re_mem _ _ _ _ _ _ _ _ H8) by (unfold inside in *; lia).
    rewrite (fr_mem _ _ _ _ _ H0). apply store64_other. fold u. unfold inside in *. lia.
  - done.
  - rewrite Hregs9 by set_solver. apply H8.
  - rewrite Hw9. apply H8.
  - intros r Hr. destruct (decide (r = rbp)) as [->|Hne]; [done|]. unfold callee_saved in Hr.
    rewrite Hregs9, (re_saved _ _ _ _ _ _ _ _ H8), (fr_regs _ _ _ _ _ H0)
      by (unfold callee_saved; set_solver). done.
  - by rewrite Hfl9, (re_flags _ _ _ _ _ _ _ _ H8), (fr_flags _ _ _ _ _ H0).
  - by rewrite Hgs9, (re_gs _ _ _ _ _ _ _ _ H8), (fr_gs _ _ _ _ _ H0).
  - split; [congruence|congruence|by rewrite Hmem9|by rewrite Hfl9|]. intros r.
    destruct (decide (r = rsp)) as [->|]; [rewrite Hrsp9; unfold is_u64 in *; lia|].
    destruct (decide (r = rbp)) as [->|]; [rewrite Hrbp9; apply Hready|].
    by rewrite Hregs9 by set_solver.
Qed.

(** C18: After syscall::init, a system call from user code reaches the Rust
    handler in kernel mode with the interrupt flag clear, on the kernel stack
    of the thread data, and with the six arguments the user program passed. *)
Theorem handler_runs_without_interrupts {W : Type} `{AddrLaws} (E : env W) ctl0 stub e1 e2 handler td kr m :
  code_u64 E ->
  canonical handler -> init handler ctl0 = Ret (ctl E) ->
  assembled E stub syscall_stub e1 -> assembled E handler syscall_handler e2 ->
  rip m = stub -> user_ready td kr m -> kernel_layout td kr -> stack_apart td kr (regs m rsp) ->
  exists m2, run E 11 m = calls E sym_syscall_handler_inner m2 /\
    ring m2 = Kernel /\ Z.testbit (rflags m2) 9 = false /\
    regs m2 rsp = kr - 24 /\ args m2 = args m.
Proof.
  intros Hu64 Hcan Einit Hstub Hhandler Hrip Hready [[Hkr1 Hkr2] Htk] Hst.
  unfold init in Einit. rewrite VirtAddr_new_canonical in Einit by done. injection Einit as Ectl.
  destruct (stub_frame E stub e1 m td kr) as (a & ret & m0 & E0 & Ec & _ & Hfr); [done..|].
  destruct (fr_ready _ _ _ _ _ Hfr) as [Hring Hgs Hkr Hfl Hregs].
  destruct (syscall_enters E m0 ret) as (m1 & E1 & H1);
    [by rewrite (fr_rip _ _ _ _ _ Hfr)|by rewrite <- Ectl|].
  pose proof (entered_u64 E m0 ret m1 H1 Hregs (sysret_flags_u64 _ Hfl) (Hu64 _ _ _ Ec)) as Hregs1.
  destruct (handler_switches E e2 m1 td kr) as (m3 & E3 & Hc3 & H3);
    [by rewrite <- Ectl|apply H1|apply H1|by rewrite (en_kernel_gs _ _ _ _ H1)|by rewrite (en_mem _ _ _ _ H1)|].
  destruct (handler_prepares E Hu64 e2 m1 td kr m3) as (rt & m2 & _ & _ & E7 & _ & H2); [done..|].
  exists m2. split_and!; [|apply H2| |apply H2|].
  - rewrite (run_app E 3 8), E0. cbn [mbind option_bind]. rewrite (run_app E 1 7), E1.
    cbn [mbind option_bind]. by rewrite (run_app E 3 4), E3.
  - rewrite (pr_flags _ _ _ _ H2), (en_flags _ _ _ _ H1), <- Ectl. cbn [SFMask].
    rewrite Z.ldiff_spec, Z.lor_spec. change (Z.testbit INTERRUPT_FLAG 9) with true.
    by rewrite orb_true_r, andb_false_r.
  - rewrite <- (fr_args _ _ _ _ _ Hfr). unfold args, syscall_args.
    rewrite (pr_rcx _ _ _ _ H2), !(pr_regs _ _ _ _ H2), !(en_regs _ _ _ _ H1) by set_solver. done.
Qed.

(** C19: After init_thread_data, enter_user_mode starts user code at the given
    address and stack in user mode with flags 0x202 (interrupts on), and
    leaves the processor ready for its first system call: the thread data is
    in the swapped-out GS base and holds the kernel stack pointer. *)
Theorem enter_user_mode_ready {W : Type} `{AddrLaws} (E : env W) start e td kr m0 m :
  canonical td -> is_u64 kr ->
  init_thread_data (mkThreadData (Some kr) None) td m0 = Ret m ->
  assembled E start enter_user_mode e ->
  (forall r, is_u64 (regs m r)) -> ring m = Kernel -> rip m = start ->
  exists m', run E 6 m = Some m' /\
    rip m' = regs m rdi /\ regs m' rsp = regs m rsi /\ regs m' rbp = regs m rsi /\
    rflags m' = 0x202 /\ Z.testbit (rflags m') 9 = true /\
    gs_base m' = kernel_gs_base m0 /\ user_ready td kr m'.
Proof.
  intros Htd Hkr Einit (a1 & E1 & a2 & E2 & a3 & E3 & a4 & E4 & a5 & E5 & a6 & E6 & _) Hregs Hring Hrip.
  unfold init_thread_data in Einit. rewrite VirtAddr_new_canonical in Einit by done. simpl in Einit.
  injection Einit as Em. rewrite <- Hrip in E1.
  assert (gs_base m = td /\ kernel_gs_base m = kernel_gs_base m0) as [Hgs Hkgs] by (by subst m).
  assert (load64 (mem m) (td + kernel_rsp_offset) = kr) as Hload.
  { subst m. simpl mem. unfold ThreadData_store. simpl option_encode. rewrite load_store_other, load_store_same; [done|done|].
    unfold apart, user_rsp_offset, kernel_rsp_offset. lia. }
  clear Em. eexists. split_and!.
  - rewrite (run_step _ _ _ _ _ E1). cbn [exec mbind option_bind].
    do 3 (erewrite run_step by eassumption; cbn [exec mbind option_bind]).
    erewrite run_step by eassumption. cbn [exec]. rewrite decide_True by (by machine_simpl).
    cbn [mbind option_bind]. erewrite run_step by eassumption. cbn [exec].
    rewrite decide_True by (by machine_simpl). reflexivity.
  - by machine_simpl.
  - by machine_simpl.
  - by machine_simpl.
  - by machine_simpl.
  - by machine_simpl.
  - by machine_simpl.
  - split; [by machine_simpl..| |].
    + by machine_simpl.
    + intros r. cbn. repeat case_decide; done.
Qed.

(** ** The properties at concrete code *)
Section Witnesses.
#[local] Existing Instance Ref.addresses.
#[local] Existing Instance Ref.addresses_laws.

(** The three routines, one byte for each instruction. *)
Definition image (a : Z) : option (instr * Z) :=
  match placed 0x660100 syscall_stub a, placed 0x200000 syscall_handler a with
  | Some r, _ | None, Some r => Some r
  | None, None => placed 0x200100 enter_user_mode a
  end.

(** A system call that adds its arguments up; the world counts the calls. *)
Definition sum_args (c : call) : Z :=
  wrap64 (syscall_num c + arg0 c + arg1 c + arg2 c + arg3 c + arg4 c).
Definition sum_inner (c : call) : stateful nat Z := fun n => (Ret (sum_args c), S n).
Definition sum_code (_ : symbol) (m : machine nat) : option (machine nat) :=
  Some (mkMachine (regs (set rax (sum_args (args m)) (set rsp (regs m rsp + 8) m)))
    (load64 (mem m) (regs m rsp)) (rflags m) (gs_base m) (kernel_gs_base m) (ring m) (mem m) (S (world m))).

Definition sample_ctl : control := mkControl 0x200000 0x200 true true.
Definition sample_env : env nat := mkEnv image sum_code sample_ctl (fun _ => None) (fun _ => false) 0x170000 0x10.

(** User code about to call the stub with 1 to 6; the return address is on
    the stack at [0xDEADEF00]. *)
Definition sample_user : machine nat :=
  mkMachine (fun r => match r with rdi => 1 | rsi => 2 | rdx => 3 | rcx => 4 | r8 => 5 | r9 => 6
                      | rsp => 0xDEADEF00 | rbp => 0xDEADEF80 | _ => 0 end)
    0x660100 0x202 0 0x444444440000 User
    (store64 0xDEADEF00 0x660010 (store64 0x444444440000 0x180000 (fun _ => 0))) 0%nat.

Lemma image_u64 a i n : image a = Some (i, n) -> is_u64 n.
Proof.
  unfold image. intros E. destruct (placed 0x660100 _ _) as [[]|] eqn:E1; simplify_eq;
    [by eapply (placed_u64 0x660100)|]. destruct (placed 0x200000 _ _) as [[]|] eqn:E2; simplify_eq;
    [by eapply (placed_u64 0x200000)|by eapply (placed_u64 0x200100)].
Qed.

Lemma sample_ready : user_ready 0x444444440000 0x180000 sample_user.
Proof.
  split; [reflexivity..|]. intros r. unfold is_u64, u64_modulus. destruct r; simpl; lia.
Qed.

Lemma sample_layout : kernel_layout 0x444444440000 0x180000.
Proof. split; unfold is_u64, u64_modulus, apart; lia. Qed.

Lemma sample_stack : stack_apart 0x444444440000 0x180000 0xDEADEF00.
Proof. split; unfold is_u64, u64_modulus, apart; lia. Qed.

Lemma sum_computes keep : computes sample_env sum_inner 0x444444440000 0x180000 keep.
Proof.
  intros m v w Hring Hrsp Hregs [= <- <-]. eexists. split; [reflexivity|].
  split; try done; cbn; intros r; [intros Hr|].
  - unfold callee_saved in Hr. rewrite !elem_of_cons, elem_of_nil in Hr.
    repeat (destruct Hr as [->|Hr]; [reflexivity|]). done.
  - repeat case_decide; [|rewrite Hrsp; unfold is_u64, u64_modulus; lia|done].
    unfold sum_args, wrap64, is_u64. apply Z.mod_pos_bound. done.
Qed.

Lemma syscall_round_trip_witness :
  exists m', run sample_env 19 sample_user = Some m' /\
    rip m' = 0x660010 /\ regs m' rsp = 0xDEADEF08 /\ regs m' rax = 21 /\ world m' = 1%nat /\
    (forall r, r ∈ callee_saved -> regs m' r = regs sample_user r) /\
    rflags m' = 0x202 /\ gs_base m' = 0 /\ user_ready 0x444444440000 0x180000 m'.
Proof.
  apply (syscall_round_trip sample_env sum_inner 0x660100 0x660106 0x20000d
           0x444444440000 0x180000 sample_user 21 1%nat).
  - exact image_u64.
  - repeat (eexists; split; [vm_compute; reflexivity|]). reflexivity.
  - repeat (eexists; split; [vm_compute; reflexivity|]). reflexivity.
  - reflexivity.
  - reflexivity.
  - apply sample_ready.
  - apply sample_layout.
  - apply sample_stack.
  - apply sum_computes.
  - reflexivity.
Defined.

Lemma handler_runs_without_interrupts_witness :
  exists m2, run sample_env 11 sample_user = calls sample_env sym_syscall_handler_inner m2 /\
    ring m2 = Kernel /\ Z.testbit (rflags m2) 9 = false /\
    regs m2 rsp = 0x17ffe8 /\ args m2 = args sample_user.
Proof.
  apply (handler_runs_without_interrupts sample_env (mkControl 0 0 false false)
           0x660100 0x660106 0x20000d 0x200000 0x444444440000 0x180000 sample_user).
  - exact image_u64.
  - left. lia.
  - reflexivity.
  - repeat (eexists; split; [vm_compute; reflexivity|]). reflexivity.
  - repeat (eexists; split; [vm_compute; reflexivity|]). reflexivity.
  - reflexivity.
  - apply sample_ready.
  - apply sample_layout.
  - apply sample_stack.
Defined.

(** The kernel at the start of [enter_user_mode(0x660000, 0xDEADF000)]. *)
Definition sample_boot : machine nat :=
  mkMachine (fun r => match r with rdi => 0x660000 | rsi => 0xDEADF000 | rsp => 0x17ff00 | _ => 0 end)
    0x200100 2 0 0 Kernel (fun _ => 0) 0%nat.

Lemma enter_user_mode_ready_witness :
  exists m m', init_thread_data (mkThreadData (Some 0x180000) None) 0x444444440000 sample_boot = Ret m /\
    run sample_env 6 m = Some m' /\
    rip m' = 0x660000 /\ regs m' rsp = 0xDEADF000 /\ user_ready 0x444444440000 0x180000 m'.
Proof.
  destruct (init_thread_data (mkThreadData (Some 0x180000) None) 0x444444440000 sample_boot)
    as [m|] eqn:E; [|discriminate E].
  exists m.
  destruct (enter_user_mode_ready sample_env 0x200100 0x200106 0x444444440000 0x180000 sample_boot m)
    as (m' & E' & Hrip & Hrsp & _ & _ & _ & _ & Hr).
  - left. lia.
  - unfold is_u64, u64_modulus. lia.
  - exact E.
  - repeat (eexists; split; [vm_compute; reflexivity|]). reflexivity.
  - injection E as <-. intros r. unfold is_u64, u64_modulus. destruct r; simpl; lia.
  - by injection E as <-.
  - by injection E as <-.
  - exists m'. split; [reflexivity|]. split; [exact E'|]. injection E as <-. done.
Defined.

End Witnesses.

End SyscallAbi.
