(* ===== verification/InterruptAbi.v ===== *)
(** * Interrupts on the machine ([kernel/src/interrupts.rs])

    How an interrupt or exception leaves the running code and comes back to
    it: the frame the processor pushes, the assembly of [breakpoint_handler]
    and [crash_by_div], and the convention of functions compiled as
    [extern "x86-interrupt"]. *)
From S2P Require Import Prelude Platform RefPlatform Machine.

Module InterruptAbi.
Import Machine.

(** ** Source code *)

Definition breakpoint_handler : list instr :=
  [PUSH r10; PUSH r11; CALL sym_my_write; POP r11; POP r10; IRETQ].

(** ["div rax, r11"] is [div r11], which divides [rdx:rax]. *)
Definition crash_by_div : list instr := [MOV_imm rax 0; MOV_imm r11 0; DIV r11].

(** ** Frames *)
Section Frames.
Context {W : Type} (E : env W).
Implicit Types m : machine W.

(** The five words of an interrupt frame below [top], which return to [ret]
    with flags [fl] in the mode and on the stack of [m]. *)
Record frame_at (top ret fl : Z) (m : machine W) (f : Z -> Z) : Prop := {
  fa_ret : load64 f (top - 40) = ret;
  fa_cs : load64 f (top - 32) = cs_of (ring m);
  fa_flags : load64 f (top - 24) = fl;
  fa_rsp : load64 f (top - 16) = regs m rsp
}.

(** The machine at the first instruction of a handler at [h]. *)
Record delivered (top h ret fl : Z) (m m1 : machine W) : Prop := {
  de_rip : rip m1 = h;
  de_ring : ring m1 = Kernel;
  de_flags : rflags m1 = Z.ldiff (rflags m) gate_mask;
  de_rsp : regs m1 rsp = top - 40;
  de_regs : forall r, r <> rsp -> regs m1 r = regs m r;
  de_gs : gs_base m1 = gs_base m;
  de_kernel_gs : kernel_gs_base m1 = kernel_gs_base m;
  de_frame : frame_at top ret fl m (mem m1);
  de_mem : forall a, ~ inside (top - 40) top a -> mem m1 a = mem m a;
  de_world : world m1 = world m
}.

Lemma frame_top_aligned ist m : frame_top E ist m mod 16 = 0.
Proof. unfold frame_top. rewrite Zminus_mod, Zmod_mod, Z.sub_diag. done. Qed.

(** Five pushes make a frame. *)
Lemma pushed_frame top h ret fl m m1 m2 m3 m4 m5 :
  40 <= top < u64_modulus -> is_u64 ret -> is_u64 fl -> is_u64 (regs m rsp) ->
  pushed top (ss_of E (ring m)) (set rsp top m) m1 -> pushed (top - 8) (regs m rsp) m1 m2 ->
  pushed (top - 8 - 8) fl m2 m3 -> pushed (top - 8 - 8 - 8) (cs_of (ring m)) m3 m4 ->
  pushed (top - 8 - 8 - 8 - 8) ret m4 m5 ->
  delivered top h ret fl m (switch Kernel h (Z.ldiff (rflags m) gate_mask) m5).
Proof.
  intros Htop Hret Hfl Hrsp [S1 R1 M1 _ _ G1 K1 _ W1] [S2 R2 M2 _ _ G2 K2 _ W2] [S3 R3 M3 _ _ G3 K3 _ W3]
    [S4 R4 M4 _ _ G4 K4 _ W4] [S5 R5 M5 _ _ G5 K5 _ W5].
  assert (is_u64 (cs_of (ring m))) as Hcs by (unfold is_u64, u64_modulus; destruct (ring m); simpl; lia).
  assert (mem m5 = store64 (top - 40) ret (store64 (top - 32) (cs_of (ring m)) (store64 (top - 24) fl
    (store64 (top - 16) (regs m rsp) (store64 (top - 8) (ss_of E (ring m)) (mem m)))))) as Hmem.
  { rewrite M5, M4, M3, M2, M1.
    replace (top - 8 - 8 - 8 - 8 - 8) with (top - 40) by lia. replace (top - 8 - 8 - 8 - 8) with (top - 32) by lia.
    replace (top - 8 - 8 - 8) with (top - 24) by lia. by replace (top - 8 - 8) with (top - 16) by lia. }
  split; cbn [switch rip ring rflags regs gs_base kernel_gs_base mem world]; [done..| | | | | | |].
  - rewrite S5. lia.
  - intros r Hr. rewrite R5, R4, R3, R2, R1 by done. by apply regs_set_other.
  - by rewrite G5, G4, G3, G2, G1.
  - by rewrite K5, K4, K3, K2, K1.
  - rewrite Hmem. split; rewrite ?load_store_other by (unfold apart; lia); by rewrite load_store_same.
  - intros a Ha. rewrite Hmem. unfold inside in *. by rewrite !store64_other by (unfold inside; lia).
  - by rewrite W5, W4, W3, W2, W1.
Qed.

Lemma deliver_ret v h ist ret fl m :
  gates E v = Some (h, ist) -> 40 <= frame_top E ist m < u64_modulus ->
  is_u64 ret -> is_u64 fl -> is_u64 (regs m rsp) ->
  exists m1, deliver E v ret fl m = Some m1 /\ delivered (frame_top E ist m) h ret fl m m1.
Proof.
  intros Hg Htop Hret Hfl Hrsp. unfold deliver. rewrite Hg. eexists. split; [reflexivity|].
  set (top := frame_top E ist m) in *. clearbody top.
  pose proof (push_pushed (ss_of E (ring m)) (set rsp top m) top (regs_set_same _ _ _) ltac:(lia)) as P1.
  pose proof (push_pushed (regs m rsp) _ (top - 8) (pu_rsp _ _ _ _ P1) ltac:(lia)) as P2.
  pose proof (push_pushed fl _ (top - 8 - 8) (pu_rsp _ _ _ _ P2) ltac:(lia)) as P3.
  pose proof (push_pushed (cs_of (ring m)) _ (top - 8 - 8 - 8) (pu_rsp _ _ _ _ P3) ltac:(lia)) as P4.
  pose proof (push_pushed ret _ (top - 8 - 8 - 8 - 8) (pu_rsp _ _ _ _ P4) ltac:(lia)) as P5.
  exact (pushed_frame top h ret fl m _ _ _ _ _ Htop Hret Hfl Hrsp P1 P2 P3 P4 P5).
Qed.

(** The machine at the first instruction of a handler that takes an error
    code. *)
Record faulted (top h error ret fl : Z) (m m1 : machine W) : Prop := {
  fd_rip : rip m1 = h;
  fd_ring : ring m1 = Kernel;
  fd_rsp : regs m1 rsp = top - 48;
  fd_error : load64 (mem m1) (top - 48) = error;
  fd_frame : frame_at top ret fl m (mem m1);
  fd_regs : forall r, r <> rsp -> regs m1 r = regs m r;
  fd_mem : forall a, ~ inside (top - 48) top a -> mem m1 a = mem m a;
  fd_world : world m1 = world m
}.

(** A frame survives in memory that agrees on it. *)
Lemma frame_at_ext top ret fl m f g :
  (forall a, inside (top - 40) top a -> g a = f a) -> frame_at top ret fl m f -> frame_at top ret fl m g.
Proof.
  intros Hfg [F1 F2 F3 F4].
  split; [rewrite <- F1|rewrite <- F2|rewrite <- F3|rewrite <- F4];
    apply load64_ext; intros a Ha; apply Hfg; unfold inside in *; lia.
Qed.

Lemma deliver_code_ret v h ist error ret fl m :
  gates E v = Some (h, ist) -> 48 <= frame_top E ist m < u64_modulus ->
  is_u64 error -> is_u64 ret -> is_u64 fl -> is_u64 (regs m rsp) ->
  exists m1, deliver_code E v error ret fl m = Some m1 /\ faulted (frame_top E ist m) h error ret fl m m1.
Proof.
  intros Hg Htop He Hret Hfl Hsp. destruct (deliver_ret v h ist ret fl m) as (m1 & E1 & D); [done|lia|done..|].
  set (top := frame_top E ist m) in *. unfold deliver_code. rewrite E1. eexists. split; [reflexivity|].
  pose proof (push_pushed error m1 (top - 40) (de_rsp _ _ _ _ _ _ D) ltac:(lia)) as [S R M P _ _ _ T W1].
  replace (top - 40 - 8) with (top - 48) in * by lia.
  split; [by rewrite P, (de_rip _ _ _ _ _ _ D)|by rewrite T, (de_ring _ _ _ _ _ _ D)|done|..].
  - by rewrite M, load_store_same.
  - apply (frame_at_ext _ _ _ _ (mem m1)); [|apply D]. intros a Ha. rewrite M.
    apply store64_other. unfold inside in *. lia.
  - intros r Hr. by rewrite R, (de_regs _ _ _ _ _ _ D).
  - intros a Ha. rewrite M, store64_other, (de_mem _ _ _ _ _ _ D); [done|unfold inside in *; lia..].
  - by rewrite W1, (de_world _ _ _ _ _ _ D).
Qed.

(** The interrupted code [m], back from a frame, with registers of [m2]. *)
Record came_back (ret fl : Z) (m m2 m3 : machine W) : Prop := {
  cb_rip : rip m3 = ret;
  cb_ring : ring m3 = ring m;
  cb_flags : rflags m3 = iretq_flags fl;
  cb_rsp : regs m3 rsp = regs m rsp;
  cb_regs : forall r, r <> rsp -> regs m3 r = regs m2 r;
  cb_gs : gs_base m3 = gs_base m2;
  cb_kernel_gs : kernel_gs_base m3 = kernel_gs_base m2;
  cb_mem : mem m3 = mem m2;
  cb_world : world m3 = world m2
}.

Lemma iretq_returns top ret fl m m2 next :
  code E (rip m2) = Some (IRETQ, next) -> ring m2 = Kernel -> regs m2 rsp = top - 40 ->
  frame_at top ret fl m (mem m2) ->
  exists m3, run E 1 m2 = Some m3 /\ came_back ret fl m m2 m3.
Proof.
  intros Ec Hring Hsp [F1 F2 F3 F4]. eexists. split.
  - rewrite (run_step _ _ _ _ _ Ec). cbn [exec]. rewrite decide_True by done. reflexivity.
  - rewrite Hsp. replace (top - 40 + 8) with (top - 32) by lia. replace (top - 40 + 16) with (top - 24) by lia.
    replace (top - 40 + 24) with (top - 16) by lia. rewrite F1, F2, F3, F4.
    split; try (by machine_simpl); [|intros r Hr; by machine_simpl].
    machine_simpl. by destruct (ring m).
Qed.

End Frames.

(** ** The breakpoint handler *)
Section Breakpoint.
Context {W : Type} (E : env W) (Hu64 : code_u64 E).
Implicit Types m : machine W.

(** The compiled [my_write] runs [body] on its two arguments. *)
Definition writes (body : Z -> Z -> stateful W unit) (sp : Z) (keep : Z -> Prop) : Prop :=
  forall m w, ring m = Kernel -> regs m rsp = sp -> (forall r, is_u64 (regs m r)) ->
    body (regs m rdi) (regs m rsi) (world m) = (Ret tt, w) ->
    exists v m', calls E sym_my_write m = Some m' /\ returns keep v w m m'.

(** The handler up to the entry of [my_write], which returns to [ret]. *)
Record calling (top h : Z) (m m4 : machine W) : Prop := {
  ca_ring : ring m4 = Kernel;
  ca_rsp : regs m4 rsp = top - 64;
  ca_regs : forall r, r <> rsp -> regs m4 r = regs m r;
  ca_gs : gs_base m4 = gs_base m;
  ca_kernel_gs : kernel_gs_base m4 = kernel_gs_base m;
  ca_ret : load64 (mem m4) (top - 64) = h;
  ca_r11 : load64 (mem m4) (top - 56) = regs m r11;
  ca_r10 : load64 (mem m4) (top - 48) = regs m r10;
  ca_mem : forall a, ~ inside (top - 64) (top - 40) a -> mem m4 a = mem m a;
  ca_world : world m4 = world m
}.

Lemma breakpoint_calls e m top :
  assembled E (rip m) breakpoint_handler e -> ring m = Kernel -> regs m rsp = top - 40 ->
  64 <= top < u64_modulus -> (forall r, is_u64 (regs m r)) ->
  exists h m4, assembled E h [POP r11; POP r10; IRETQ] e /\
    run E 3 m = calls E sym_my_write m4 /\ calling top h m m4.
Proof.
  intros (a1 & E1 & a2 & E2 & a3 & E3 & Hrest) Hring Hsp Htop Hregs.
  pose proof (push_pushed (regs m r10) m (top - 40) Hsp ltac:(lia)) as P1.
  set (m1 := jump a1 (push (regs m r10) m)).
  pose proof (push_pushed (regs m1 r11) m1 (top - 40 - 8) (pu_rsp _ _ _ _ P1) ltac:(lia)) as P2.
  set (m2 := jump a2 (push (regs m1 r11) m1)).
  pose proof (push_pushed a3 m2 (top - 40 - 8 - 8) (pu_rsp _ _ _ _ P2) ltac:(lia)) as P3.
  exists a3, (push a3 m2). split_and!; [done| |].
  { rewrite (run_step _ _ _ _ _ E1). cbn [exec mbind option_bind]. fold m1.
    rewrite (run_step E 1 m1 _ _ E2). cbn [exec mbind option_bind]. fold m2.
    rewrite (run_step E 0 m2 _ _ E3). cbn [exec]. by destruct (calls E sym_my_write (push a3 m2)). }
  assert (regs m1 r11 = regs m r11) as Hr11 by (by apply (pu_regs _ _ _ _ P1)).
  destruct P1 as [S1 R1 M1 _ _ G1 K1 T1 W1], P2 as [S2 R2 M2 _ _ G2 K2 T2 W2], P3 as [S3 R3 M3 _ _ G3 K3 T3 W3].
  assert (mem (push a3 m2) = store64 (top - 64) a3 (store64 (top - 56) (regs m r11)
            (store64 (top - 48) (regs m r10) (mem m)))) as Hmem.
  { rewrite M3. change (mem m2) with (mem (push (regs m1 r11) m1)). rewrite M2, Hr11.
    change (mem m1) with (mem (push (regs m r10) m)). rewrite M1.
    replace (top - 40 - 8 - 8 - 8) with (top - 64) by lia. replace (top - 40 - 8 - 8) with (top - 56) by lia.
    by replace (top - 40 - 8) with (top - 48) by lia. }
  assert (is_u64 a3) as Ha3 by (by eapply Hu64).
  split; rewrite ?Hmem.
  - rewrite T3. change (ring m2) with (ring (push (regs m1 r11) m1)). rewrite T2.
    change (ring m1) with (ring (push (regs m r10) m)). by rewrite T1.
  - rewrite S3. lia.
  - intros r Hr. rewrite R3 by done. change (regs m2 r) with (regs (push (regs m1 r11) m1) r).
    rewrite R2 by done. change (regs m1 r) with (regs (push (regs m r10) m) r). by apply R1.
  - rewrite G3. change (gs_base m2) with (gs_base (push (regs m1 r11) m1)). rewrite G2.
    change (gs_base m1) with (gs_base (push (regs m r10) m)). done.
  - rewrite K3. change (kernel_gs_base m2) with (kernel_gs_base (push (regs m1 r11) m1)). rewrite K2. done.
  - by rewrite load_store_same.
  - rewrite load_store_other by (unfold apart; lia). by rewrite load_store_same.
  - rewrite !load_store_other by (unfold apart; lia). by rewrite load_store_same.
  - intros a Ha. unfold inside in Ha. by rewrite !store64_other by (unfold inside; lia).
  - rewrite W3. change (world m2) with (world (push (regs m1 r11) m1)). rewrite W2. done.
Qed.

(** The two pops after [my_write] has returned. *)
Record popped (top x y : Z) (m5 m6 : machine W) : Prop := {
  po_rsp : regs m6 rsp = top - 40;
  po_r11 : regs m6 r11 = x;
  po_r10 : regs m6 r10 = y;
  po_regs : forall r, r ∉ [rsp; r11; r10] -> regs m6 r = regs m5 r;
  po_ring : ring m6 = ring m5;
  po_gs : gs_base m6 = gs_base m5;
  po_kernel_gs : kernel_gs_base m6 = kernel_gs_base m5;
  po_mem : mem m6 = mem m5;
  po_world : world m6 = world m5
}.

Lemma breakpoint_pops e m5 top x y :
  assembled E (rip m5) [POP r11; POP r10; IRETQ] e -> regs m5 rsp = top - 56 ->
  64 <= top < u64_modulus -> load64 (mem m5) (top - 56) = x -> load64 (mem m5) (top - 48) = y ->
  exists m6 next, run E 2 m5 = Some m6 /\ code E (rip m6) = Some (IRETQ, next) /\ popped top x y m5 m6.
Proof.
  intros (a1 & E1 & a2 & E2 & a3 & E3 & _) Hsp Htop Hx Hy.
  assert (wrap64 (top - 56 + 8) = top - 48 /\ wrap64 (top - 48 + 8) = top - 40) as [W1 W2]
    by (split; rewrite wrap64_small by (unfold is_u64; lia); lia).
  eexists _, a3. split.
  - rewrite (run_step _ _ _ _ _ E1). cbn [exec mbind option_bind].
    erewrite run_step by exact E2. cbn [exec mbind option_bind]. reflexivity.
  - split; [exact E3|].
    split; [..|intros r Hr; rewrite !not_elem_of_cons in Hr; destruct_and! Hr| | | | |];
      machine_simpl; rewrite ?Hsp, ?W1, ?W2, ?Hx, ?Hy; done.
Qed.

(** The code after an [int3]: where it was, with everything but the
    caller-saved argument and result registers intact. *)
Record resumed_at (next : Z) (w : W) (keep : Z -> Prop) (m m' : machine W) : Prop := {
  ra_rip : rip m' = next;
  ra_ring : ring m' = ring m;
  ra_flags : rflags m' = iretq_flags (rflags m);
  ra_rsp : regs m' rsp = regs m rsp;
  ra_regs : forall r, r ∈ r10 :: r11 :: callee_saved -> regs m' r = regs m r;
  ra_gs : gs_base m' = gs_base m;
  ra_kernel_gs : kernel_gs_base m' = kernel_gs_base m;
  ra_mem : forall a, keep a -> mem m' a = mem m a;
  ra_world : world m' = w
}.

(** The parts of a breakpoint put together. *)
Lemma resumed_chain top h h' next v w (keep : Z -> Prop) m m1 m4 m5 m6 m7 :
  (forall a, keep a -> ~ inside (top - 64) top a) ->
  delivered top h next (rflags m) m m1 -> calling top h' m1 m4 ->
  returns (fun a => keep a \/ inside (top - 56) top a) v w m4 m5 ->
  popped top (regs m r11) (regs m r10) m5 m6 -> came_back next (rflags m) m m6 m7 ->
  resumed_at next w keep m m7.
Proof.
  clear Hu64 E. intros Hkeep D C R P B. split; [apply B..| | | |intros a Ha|].
  - intros r Hr. assert (r <> rsp) as Hne by (unfold callee_saved in Hr; set_solver).
    rewrite (cb_regs _ _ _ _ _ B) by done. rewrite !elem_of_cons in Hr. destruct Hr as [->|[->|Hr]]; [apply P..|].
    assert (r ∉ [rsp; r11; r10]) by (unfold callee_saved in Hr; set_solver).
    by rewrite (po_regs _ _ _ _ _ P), (ret_saved _ _ _ _ _ R), (ca_regs _ _ _ _ C), (de_regs _ _ _ _ _ _ D).
  - by rewrite (cb_gs _ _ _ _ _ B), (po_gs _ _ _ _ _ P), (ret_gs _ _ _ _ _ R), (ca_gs _ _ _ _ C), (de_gs _ _ _ _ _ _ D).
  - by rewrite (cb_kernel_gs _ _ _ _ _ B), (po_kernel_gs _ _ _ _ _ P), (ret_kernel_gs _ _ _ _ _ R),
      (ca_kernel_gs _ _ _ _ C), (de_kernel_gs _ _ _ _ _ _ D).
  - pose proof (Hkeep a Ha) as Hn. rewrite (cb_mem _ _ _ _ _ B), (po_mem _ _ _ _ _ P).
    rewrite (ret_mem _ _ _ _ _ R) by (by left).
    by rewrite (ca_mem _ _ _ _ C), (de_mem _ _ _ _ _ _ D) by (unfold inside in *; lia).
  - by rewrite (cb_world _ _ _ _ _ B), (po_world _ _ _ _ _ P), (ret_world _ _ _ _ _ R).
Qed.

End Breakpoint.

(** ** Functions compiled as [extern "x86-interrupt"]

    They save every register they use, return with [iretq] and so leave the
    interrupted code as it was. *)
Section Functions.
Context {W : Type} (E : env W).
Implicit Types m : machine W.

(** [m2] is [m1], at the entry of such a function, after it returned. *)
Record interrupt_returns (keep : Z -> Prop) (w : W) (m1 m2 : machine W) : Prop := {
  ir_rip : rip m2 = load64 (mem m1) (regs m1 rsp);
  ir_ring : ring m2 = if decide (Z.land (load64 (mem m1) (regs m1 rsp + 8)) 3 = 0) then Kernel else User;
  ir_flags : rflags m2 = iretq_flags (load64 (mem m1) (regs m1 rsp + 16));
  ir_rsp : regs m2 rsp = load64 (mem m1) (regs m1 rsp + 24);
  ir_regs : forall r, r <> rsp -> regs m2 r = regs m1 r;
  ir_gs : gs_base m2 = gs_base m1;
  ir_kernel_gs : kernel_gs_base m2 = kernel_gs_base m1;
  ir_mem : forall a, keep a -> mem m2 a = mem m1 a;
  ir_world : world m2 = w
}.

(** The compiled [f] runs [body], where that returns. *)
Definition handles (f : symbol) (body : stateful W unit) (keep : Z -> Prop) : Prop :=
  forall m w, ring m = Kernel -> body (world m) = (Ret tt, w) ->
    exists m', calls E f m = Some m' /\ interrupt_returns keep w m m'.

(** A hardware interrupt between two instructions. *)
Definition interrupt (v : Z) (f : symbol) (m : machine W) : option (machine W) :=
  m1 ← deliver E v (rip m) (rflags m) m; calls E f m1.

(** The interrupted code goes on as if nothing had happened. *)
Record undisturbed (keep : Z -> Prop) (w : W) (m m' : machine W) : Prop := {
  un_rip : rip m' = rip m;
  un_ring : ring m' = ring m;
  un_flags : rflags m' = iretq_flags (rflags m);
  un_regs : forall r, regs m' r = regs m r;
  un_gs : gs_base m' = gs_base m;
  un_kernel_gs : kernel_gs_base m' = kernel_gs_base m;
  un_mem : forall a, keep a -> mem m' a = mem m a;
  un_world : world m' = w
}.

Lemma interrupt_undisturbed v f h ist body (keep : Z -> Prop) m w :
  gates E v = Some (h, ist) -> 40 <= frame_top E ist m < u64_modulus ->
  is_u64 (rip m) -> is_u64 (rflags m) -> is_u64 (regs m rsp) ->
  (forall a, keep a -> ~ inside (frame_top E ist m - 40) (frame_top E ist m) a) ->
  handles f body keep -> body (world m) = (Ret tt, w) ->
  exists m', interrupt v f m = Some m' /\ undisturbed keep w m m'.
Proof.
  intros Hg Htop Hrip Hf Hsp Hkeep Hh Eb. set (top := frame_top E ist m) in *.
  destruct (deliver_ret E v h ist (rip m) (rflags m) m) as (m1 & E1 & D); [done..|]. fold top in D.
  destruct (Hh m1 w) as (m2 & E2 & R); [apply D|by rewrite (de_world _ _ _ _ _ _ D)|].
  exists m2. split; [unfold interrupt; by rewrite E1|].
  pose proof (de_rsp _ _ _ _ _ _ D) as Hrsp. destruct (de_frame _ _ _ _ _ _ D) as [F1 F2 F3 F4].
  destruct R as [R1 R2 R3 R4 R5 R6 R7 R8 R9]. rewrite Hrsp in R1, R2, R3, R4.
  replace (top - 40 + 8) with (top - 32) in R2 by lia. replace (top - 40 + 16) with (top - 24) in R3 by lia.
  replace (top - 40 + 24) with (top - 16) in R4 by lia. rewrite F1 in R1. rewrite F2 in R2. rewrite F3 in R3.
  rewrite F4 in R4. split; [done| |done| | | | |done].
  - rewrite R2. by destruct (ring m).
  - intros r. destruct (decide (r = rsp)) as [->|Hr]; [done|]. by rewrite R5, (de_regs _ _ _ _ _ _ D).
  - by rewrite R6, (de_gs _ _ _ _ _ _ D).
  - by rewrite R7, (de_kernel_gs _ _ _ _ _ _ D).
  - intros a Ha. rewrite R8 by done. apply (de_mem _ _ _ _ _ _ D). by apply Hkeep.
Qed.

End Functions.

(** ** Properties *)

(** C20: A breakpoint in kernel code comes back: the handler calls my_write
    with the interrupted code's first two registers, and after iretq execution
    is at the instruction after int3 with the same stack, privilege, r10, r11
    and callee-saved registers, the flags that iretq restores, and the effects
    of my_write. In user code int3 does not get there: the gate belongs to the
    kernel, so the processor raises a protection fault, which has no handler,
    and enters the double fault handler on its own stack with error code zero.
    *)
Theorem breakpoint_round_trip {W : Type} (E : env W) body h ist e next (keep : Z -> Prop) m w :
  code_u64 E -> gates E 3 = Some (h, ist) -> assembled E h breakpoint_handler e ->
  code E (rip m) = Some (INT3, next) -> (forall r, is_u64 (regs m r)) -> is_u64 (rflags m) -> is_u64 (rip m) ->
  (ring m = Kernel ->
     let top := frame_top E ist m in
     64 <= top < u64_modulus -> (forall a, keep a -> ~ inside (top - 64) top a) ->
     writes E body (top - 64) (fun a => keep a \/ inside (top - 56) top a) ->
     body (regs m rdi) (regs m rsi) (world m) = (Ret tt, w) ->
     exists m', run E 7 m = Some m' /\ resumed_at next w keep m m') /\
  (forall df stack, ring m = User -> user_gates E 3 = false -> gates E 13 = None -> gates E 8 = Some (df, stack) ->
     48 <= frame_top E stack m < u64_modulus ->
     exists m', run E 1 m = Some m' /\ faulted (frame_top E stack m) df 0 (rip m) (rflags m) m m').
Proof.
  intros Hu64 Hg Hasm Ec Hregs Hf Hrip. split; cycle 1.
  { intros df stack Hring Hno Hgp Hdf Htop. rewrite (run_step E 0 _ _ _ Ec). cbn [exec].
    unfold may_raise, protection_fault. rewrite Hring, Hno, Hgp.
    destruct (deliver_code_ret E 8 df stack 0 (rip m) (rflags m) m) as (m' & E' & F); [done..|].
    exists m'. by rewrite E'. }
  intros Hring top Htop Hkeep Hw Eb.
  destruct (deliver_ret E 3 h ist next (rflags m) m) as (m1 & E1 & D);
    [done|fold top; lia|by eapply Hu64|done|done|]. fold top in D.
  assert (forall r, is_u64 (regs m1 r)) as Hregs1.
  { intros r. destruct (decide (r = rsp)) as [->|Hr]; [|by rewrite (de_regs _ _ _ _ _ _ D)].
    rewrite (de_rsp _ _ _ _ _ _ D). unfold is_u64. lia. }
  destruct (breakpoint_calls E Hu64 e m1 top) as (r & m4 & Hrest & E4 & C);
    [by rewrite (de_rip _ _ _ _ _ _ D)|apply D|apply D|done|done|].
  destruct (Hw m4 w) as (v & m5 & E5 & R5); [apply C|apply C| | |].
  { intros q. destruct (decide (q = rsp)) as [->|Hq]; [|by rewrite (ca_regs _ _ _ _ C)].
    rewrite (ca_rsp _ _ _ _ C). unfold is_u64. lia. }
  { rewrite !(ca_regs _ _ _ _ C), !(de_regs _ _ _ _ _ _ D), (ca_world _ _ _ _ C), (de_world _ _ _ _ _ _ D) by done. done. }
  assert (forall a, inside (top - 56) top a -> mem m5 a = mem m4 a) as Hsaved
    by (intros a Ha; apply (ret_mem _ _ _ _ _ R5); by right).
  destruct (breakpoint_pops E e m5 top (regs m r11) (regs m r10))
    as (m6 & nx & E6 & Ei & P);
    [by rewrite (ret_rip _ _ _ _ _ R5), (ca_rsp _ _ _ _ C), (ca_ret _ _ _ _ C)
    |rewrite (ret_rsp _ _ _ _ _ R5), (ca_rsp _ _ _ _ C); lia|done|..].
  { rewrite <- (de_regs _ _ _ _ _ _ D), <- (ca_r11 _ _ _ _ C) by done. apply load64_ext.
    intros a Ha. apply Hsaved. unfold inside in *. lia. }
  { rewrite <- (de_regs _ _ _ _ _ _ D), <- (ca_r10 _ _ _ _ C) by done. apply load64_ext.
    intros a Ha. apply Hsaved. unfold inside in *. lia. }
  destruct (iretq_returns E top next (rflags m) m m6 nx) as (m7 & E7 & B); [done|..].
  { by rewrite (po_ring _ _ _ _ _ P), (ret_ring _ _ _ _ _ R5), (ca_ring _ _ _ _ C). }
  { apply P. }
  { apply (frame_at_ext _ _ _ _ (mem m1)); [|apply D]. intros a Ha. rewrite (po_mem _ _ _ _ _ P), Hsaved, (ca_mem _ _ _ _ C);
      [done|unfold inside in *; lia..]. }
  exists m7. split.
  - rewrite (run_step E 6 _ _ _ Ec). cbn [exec]. unfold may_raise. rewrite Hring, E1. cbn [mbind option_bind].
    rewrite (run_app E 3 3), E4, E5. cbn [mbind option_bind]. by rewrite (run_app E 2 1), E6.
  - by apply (resumed_chain top h r next v w keep m m1 m4 m5 m6 m7).
Qed.

(** The breakpoint handler calls [my_write] with a stack that is off by eight
    from what the calling convention demands: the processor aligns the frame,
    and five words of frame and two saved registers are an odd number. *)
Theorem breakpoint_misaligns_stack {W : Type} (E : env W) h ist e next m :
  code_u64 E -> gates E 3 = Some (h, ist) -> assembled E h breakpoint_handler e ->
  code E (rip m) = Some (INT3, next) -> (forall r, is_u64 (regs m r)) -> is_u64 (rflags m) ->
  64 <= frame_top E ist m < u64_modulus -> ring m = Kernel ->
  exists m4, run E 4 m = calls E sym_my_write m4 /\
    regs m4 rdi = regs m rdi /\ regs m4 rsi = regs m rsi /\ (regs m4 rsp + 8) mod 16 = 8.
Proof.
  intros Hu64 Hg Hasm Ec Hregs Hf Htop Hring. set (top := frame_top E ist m) in *.
  destruct (deliver_ret E 3 h ist next (rflags m) m) as (m1 & E1 & D);
    [done|fold top; lia|by eapply Hu64|done|done|]. fold top in D.
  destruct (breakpoint_calls E Hu64 e m1 top) as (r & m4 & _ & E4 & C);
    [by rewrite (de_rip _ _ _ _ _ _ D)|apply D|apply D|done| |].
  { intros r. destruct (decide (r = rsp)) as [->|Hr]; [|by rewrite (de_regs _ _ _ _ _ _ D)].
    rewrite (de_rsp _ _ _ _ _ _ D). unfold is_u64. lia. }
  exists m4. split_and!.
  - rewrite (run_step E 3 _ _ _ Ec). cbn [exec]. unfold may_raise. by rewrite Hring, E1.
  - by rewrite (ca_regs _ _ _ _ C), (de_regs _ _ _ _ _ _ D).
  - by rewrite (ca_regs _ _ _ _ C), (de_regs _ _ _ _ _ _ D).
  - rewrite (ca_rsp _ _ _ _ C). replace (top - 64 + 8) with (top + 8 + (-4) * 16) by lia.
    rewrite Z_mod_plus_full, Zplus_mod. unfold top. by rewrite frame_top_aligned.
Qed.

(** Calling [crash_by_div] raises a divide error: the handler at the gate of
    vector 0 is entered with a frame that returns to the division itself, so
    the fault repeats if the handler returns. *)
Theorem crash_by_div_faults {W : Type} (E : env W) h ist e m :
  code_u64 E -> gates E 0 = Some (h, ist) -> assembled E (rip m) crash_by_div e ->
  is_u64 (rip m) -> is_u64 (regs m rsp) -> is_u64 (rflags m) ->
  exists a m2, run E 2 m = Some m2 /\ rip m2 = a /\ code E a = Some (DIV r11, e) /\
    (40 <= frame_top E ist m2 < u64_modulus ->
     exists m3, run E 3 m = Some m3 /\
       delivered (frame_top E ist m2) h a (Z.lor (rflags m) RESUME_FLAG) m2 m3).
Proof.
  intros Hu64 Hg (a1 & E1 & a2 & E2 & a3 & E3 & <-) Hrip Hsp Hf.
  eassert (run E 2 m = Some _) as Erun.
  { rewrite (run_step _ _ _ _ _ E1). cbn [exec mbind option_bind].
    erewrite run_step by exact E2. cbn [exec mbind option_bind]. reflexivity. }
  eexists a2, _. split; [exact Erun|]. split; [done|]. split; [done|]. intros Htop.
  match type of Erun with _ = Some ?x => set (m2 := x) in * end.
  assert (rip m2 = a2 /\ rflags m2 = rflags m /\ regs m2 rsp = regs m rsp /\ regs m2 r11 = 0)
    as (Hr2 & Hf2 & Hs2 & H11) by (unfold m2; by machine_simpl). clearbody m2.
  destruct (deliver_ret E 0 h ist a2 (Z.lor (rflags m) RESUME_FLAG) m2) as (m3 & E3' & D);
    [done|done|by eapply Hu64| |by rewrite Hs2|].
  { unfold is_u64, u64_modulus, RESUME_FLAG in *. apply lor_range; lia. }
  exists m3. split; [|done]. rewrite (run_app E 2 1), Erun. cbn [mbind option_bind].
  rewrite <- Hr2 in E3. rewrite (run_step E 0 m2 _ _ E3). cbn [exec].
  rewrite H11. simpl orb. cbn iota. by rewrite Hr2, Hf2, E3'.
Qed.

(** ** The properties at concrete code *)
Section Witnesses.

(** Kernel code with a breakpoint, the handler and [crash_by_div]. *)
Definition image (a : Z) : option (instr * Z) :=
  match placed 0x300000 [INT3] a, placed 0x200200 breakpoint_handler a with
  | Some r, _ | None, Some r => Some r
  | None, None => placed 0x200300 crash_by_div a
  end.

(** [my_write] counts the bytes it is given; it clobbers [rcx]. *)
Definition count_bytes (_ len : Z) : stateful Z unit := fun n => (Ret tt, n + len).
Definition count_code (_ : symbol) (m : machine Z) : option (machine Z) :=
  Some (mkMachine (regs (set rcx 0 (set rsp (wrap64 (regs m rsp + 8)) m)))
    (load64 (mem m) (regs m rsp)) (rflags m) (gs_base m) (kernel_gs_base m) (ring m) (mem m)
    (world m + regs m rsi)).

Definition sample_env : env Z :=
  mkEnv image count_code (mkControl 0 0 false false)
    (fun v => if v =? 3 then Some (0x200200, None) else if v =? 8 then Some (0x200400, Some 0x190000) else None)
    (fun _ => false) 0x170000 0x10.

(** Kernel code about to run [int3] with [rdi] and [rsi] set. *)
Definition sample_kernel : machine Z :=
  mkMachine (fun r => match r with rdi => 0x4000 | rsi => 5 | r10 => 77 | rsp => 0x180008 | _ => 0 end)
    0x300000 0x202 0 0 Kernel (fun _ => 0) 10.

Lemma interrupt_image_u64 : code_u64 sample_env.
Proof.
  intros a i n. simpl. unfold image. intros E. destruct (placed 0x300000 _ _) as [[]|] eqn:E1; simplify_eq;
    [by eapply (placed_u64 0x300000)|]. destruct (placed 0x200200 _ _) as [[]|] eqn:E2; simplify_eq;
    [by eapply (placed_u64 0x200200)|by eapply (placed_u64 0x200300)].
Qed.

Lemma sample_regs r : is_u64 (regs sample_kernel r).
Proof. unfold is_u64, u64_modulus. destruct r; simpl; lia. Qed.

Lemma count_writes keep : writes sample_env count_bytes (0x180000 - 64) keep.
Proof.
  intros m w Hring Hrsp Hregs [= <-]. eexists _, _. split; [reflexivity|].
  assert (wrap64 (regs m rsp + 8) = regs m rsp + 8) as Ew by (by rewrite Hrsp).
  split; try done; cbn; rewrite ?Ew; intros r; [intros Hr|].
  - unfold callee_saved in Hr. rewrite !elem_of_cons, elem_of_nil in Hr.
    repeat (destruct Hr as [->|Hr]; [reflexivity|]). done.
  - repeat case_decide; [|rewrite Hrsp|done]; unfold is_u64, u64_modulus; lia.
Qed.

(** The same code in user mode. *)
Definition sample_user : machine Z :=
  mkMachine (regs sample_kernel) 0x300000 0x202 0 0 User (fun _ => 0) 10.

Lemma handler_assembled : assembled sample_env 0x200200 breakpoint_handler 0x200206.
Proof. repeat (eexists; split; [vm_compute; reflexivity|]). reflexivity. Qed.

Lemma breakpoint_round_trip_witness :
  (exists m', run sample_env 7 sample_kernel = Some m' /\
    resumed_at 0x300001 15 (fun a => a = 0x180010) sample_kernel m') /\
  (exists m', run sample_env 1 sample_user = Some m' /\ rip m' = 0x200400 /\ world m' = 10).
Proof.
  split.
  - apply (breakpoint_round_trip sample_env count_bytes 0x200200 None 0x200206 0x300001 (fun a => a = 0x180010)
      sample_kernel 15).
    + exact interrupt_image_u64.
    + reflexivity.
    + exact handler_assembled.
    + vm_compute. reflexivity.
    + apply sample_regs.
    + unfold is_u64, u64_modulus. simpl. lia.
    + unfold is_u64, u64_modulus. simpl. lia.
    + reflexivity.
    + unfold u64_modulus. vm_compute. split; congruence.
    + intros a ->. change (frame_top sample_env None sample_kernel) with 0x180000. unfold inside. lia.
    + apply count_writes.
    + reflexivity.
  - destruct (breakpoint_round_trip sample_env count_bytes 0x200200 None 0x200206 0x300001 (fun _ => False)
      sample_user 10) as [_ Hu]; [exact interrupt_image_u64|reflexivity|exact handler_assembled|vm_compute; reflexivity
      |apply sample_regs|unfold is_u64, u64_modulus; simpl; lia|unfold is_u64, u64_modulus; simpl; lia|].
    destruct (Hu 0x200400 (Some 0x190000)) as (m' & E & F); [reflexivity..| |].
    + unfold u64_modulus. vm_compute. split; congruence.
    + exists m'. split; [exact E|]. split; [apply F|apply F].
Defined.

Lemma breakpoint_misaligns_stack_witness :
  exists m4, run sample_env 4 sample_kernel = calls sample_env sym_my_write m4 /\
    regs m4 rdi = 0x4000 /\ regs m4 rsi = 5 /\ (regs m4 rsp + 8) mod 16 = 8.
Proof.
  apply (breakpoint_misaligns_stack sample_env 0x200200 None 0x200206 0x300001 sample_kernel).
  - exact interrupt_image_u64.
  - reflexivity.
  - exact handler_assembled.
  - vm_compute. reflexivity.
  - apply sample_regs.
  - unfold is_u64, u64_modulus. simpl. lia.
  - unfold u64_modulus. vm_compute. split; congruence.
  - reflexivity.
Defined.

End Witnesses.

End InterruptAbi.
