(* ===== verification/Executor.v ===== *)
(** * Tasks and the executor ([kernel/src/task/{mod,executor}.rs])

    Tasks are futures; the executor polls those whose identifiers are in its
    queue, and wakers put identifiers there.  Every waker shares the
    executor's queue, so a waker is modelled by the identifier it pushes. *)
From S2P Require Import Prelude Platform RefPlatform Sys.

Module Executor.

Inductive Poll : Set := Ready | Pending.

(** The futures tasks are made of.  A poll gets the waker of its task, may
    change the world outside the executor and wakes tasks, in order. *)
Class FutureApi := {
  Fut : Type;
  World : Type;
  poll_future : Z -> Fut -> World -> Poll * Fut * World * list Z
}.

Section Tasks.
Context `{FutureApi}.

Record Task : Type := mkTask {
  future : Fut;
  id : Z
}.

(** [TaskId::new], with the value of [NEXT_ID] before and after. *)
Definition TaskId_new (NEXT_ID : Z) : Z * Z := (NEXT_ID, wrap64 (NEXT_ID + 1)).

Definition Task_new (f : Fut) (NEXT_ID : Z) : Task * Z :=
  let '(i, NEXT_ID) := TaskId_new NEXT_ID in (mkTask f i, NEXT_ID).

(** [Task::poll]. *)
Definition Task_poll (t : Task) (waker : Z) (w : World) : Poll * Task * World * list Z :=
  let '(r, f, w, wakes) := poll_future waker (future t) w in (r, mkTask f (id t), w, wakes).

End Tasks.

Definition MAX_TASKS : nat := 128.

Section Operations.
Context `{ArrayQueueApi} `{FutureApi}.

Record Executor : Type := mkExecutor {
  tasks : gmap Z Task;
  task_queue : ArrayQueue Z;
  waker_cache : gmap Z Z
}.

Definition new : Executor := mkExecutor ∅ (queue_new MAX_TASKS) ∅.

(** [TaskWaker::wake_task]; [wake] and [wake_by_ref] call it. *)
Definition wake_task (i : Z) (q : ArrayQueue Z) : outcome (ArrayQueue Z) :=
  let '(r, q) := queue_push i q in
  _ ← expect r;
  mret q.

Definition spawn (task : Task) (ex : Executor) : outcome Executor :=
  let i := id task in
  let old := tasks ex !! i in
  let ts := <[i := task]> (tasks ex) in
  if decide (is_Some old) then Stop ExplicitPanic
  else
    q ← wake_task i (task_queue ex);
    mret (mkExecutor ts q (waker_cache ex)).

(** [waker_cache.entry(id).or_insert_with(..)]. *)
Definition cached_waker (i : Z) (cache : gmap Z Z) : Z * gmap Z Z :=
  match cache !! i with
  | Some w => (w, cache)
  | None => (i, <[i := i]> cache)
  end.

(** What one iteration handled: the identifier and the wakes its poll made;
    no wakes when the task was already stopped. *)
Definition event : Type := Z * list Z.

(** One iteration of the [while let] loop; [None] when the queue was empty. *)
Definition run_ready_task (s : Executor * World) : outcome (option (event * (Executor * World))) :=
  let '(ex, w) := s in
  match queue_pop (task_queue ex) with
  | (None, _) => mret None
  | (Some i, q) =>
      match tasks ex !! i with
      | None => mret (Some ((i, []), (mkExecutor (tasks ex) q (waker_cache ex), w)))
      | Some task =>
          let '(waker, cache) := cached_waker i (waker_cache ex) in
          let '(r, task, w, wakes) := Task_poll task waker w in
          q ← for_each wakes wake_task q;
          mret (Some ((i, wakes),
            (match r with
             | Ready => mkExecutor (delete i (tasks ex)) q (delete i cache)
             | Pending => mkExecutor (<[i := task]> (tasks ex)) q cache
             end, w)))
      end
  end.

(** [run_ready_tasks], at most [fuel] iterations; [None] when they do not
    empty the queue. *)
Fixpoint run_ready_tasks (fuel : nat) (s : Executor * World)
  : option (outcome (list event * (Executor * World))) :=
  match fuel with
  | O => None
  | S n =>
      match run_ready_task s with
      | Stop r => Some (Stop r)
      | Ret None => Some (Ret ([], s))
      | Ret (Some (e, s')) =>
          match run_ready_tasks n s' with
          | Some (Ret (es, s'')) => Some (Ret (e :: es, s''))
          | r => r
          end
      end
  end.

(** The tasks [Task::new(f)] of [fs], made and spawned in order. *)
Fixpoint spawn_all (fs : list Fut) (NEXT_ID : Z) (ex : Executor) : outcome (Executor * Z) :=
  match fs with
  | [] => mret (ex, NEXT_ID)
  | f :: fs' =>
      let '(t, NEXT_ID) := Task_new f NEXT_ID in
      ex ← spawn t ex;
      spawn_all fs' NEXT_ID ex
  end.

End Operations.

(** ** Invariant *)
Section Proofs.
Context `{ArrayQueueLaws} `{FutureApi}.

(** The queue has its fixed capacity, tasks are filed under their own
    identifiers and wakers are cached for live tasks only. *)
Record Inv (ex : Executor) : Prop := {
  inv_capacity : capacity (task_queue ex) = MAX_TASKS;
  inv_bound : (length (elements (task_queue ex)) <= MAX_TASKS)%nat;
  inv_ids : forall i t, tasks ex !! i = Some t -> id t = i;
  inv_cache : forall i w, waker_cache ex !! i = Some w -> w = i /\ is_Some (tasks ex !! i)
}.

Lemma new_inv : Inv new.
Proof.
  split; simpl.
  - apply new_capacity.
  - rewrite new_elements. simpl. lia.
  - intros i t. by rewrite lookup_empty.
  - intros i w. by rewrite lookup_empty.
Qed.

Lemma wake_task_ret i q :
  (length (elements q) < capacity q)%nat ->
  exists q', wake_task i q = Ret q' /\ elements q' = elements q ++ [i] /\ capacity q' = capacity q.
Proof.
  intros Hq. destruct (push_room _ i q Hq) as (q' & E & El & Ec).
  exists q'. unfold wake_task. by rewrite E.
Qed.

Lemma wake_task_full i q :
  (capacity q <= length (elements q))%nat -> wake_task i q = Stop ExpectFailed.
Proof.
  intros Hq. destruct (push_full _ i q Hq) as (q' & E & _). unfold wake_task. by rewrite E.
Qed.

Lemma wake_all_ret js q :
  (length (elements q) + length js <= capacity q)%nat ->
  exists q', for_each js wake_task q = Ret q' /\ elements q' = elements q ++ js /\
    capacity q' = capacity q.
Proof.
  revert q. induction js as [|i js IH]; intros q Hq; simpl in *.
  - exists q. by rewrite app_nil_r.
  - destruct (wake_task_ret i q) as (q1 & E1 & El1 & Ec1); [lia|]. rewrite E1. simpl.
    destruct (IH q1) as (q2 & E2 & El2 & Ec2); [rewrite El1, Ec1, length_app; simpl; lia|].
    exists q2. by rewrite El2, El1, Ec2, Ec1, <- app_assoc.
Qed.

Lemma cached_waker_spec ex i t :
  Inv ex -> tasks ex !! i = Some t ->
  exists cache, cached_waker i (waker_cache ex) = (i, cache) /\
    forall j w, cache !! j = Some w -> w = j /\ is_Some (tasks ex !! j).
Proof.
  intros HI Ht. unfold cached_waker. destruct (waker_cache ex !! i) as [w|] eqn:Ew.
  - destruct (inv_cache _ HI i w Ew) as [-> _]. eexists. split; [done|]. apply HI.
  - eexists. split; [done|]. intros j w. rewrite lookup_insert.
    case_decide as E; [subst|by apply HI]. intros [= <-]. split; [done|by eexists].
Qed.

(** ** A bound on the work left

    [work f] bounds the wakes future [f] will still make. *)
Section Bounded.
Context (work : Fut -> nat).

Definition bounded : Prop := forall i f w r f' w' wakes,
  poll_future i f w = (r, f', w', wakes) ->
  (length wakes + match r with Ready => 0 | Pending => work f' end <= work f)%nat.

Definition total_work (ts : gmap Z Task) : nat :=
  map_fold (fun _ t n => (work (future t) + n)%nat) 0%nat ts.

Definition budget (ex : Executor) : nat :=
  (length (elements (task_queue ex)) + total_work (tasks ex))%nat.

Lemma total_work_delete ts i t :
  ts !! i = Some t -> total_work ts = (work (future t) + total_work (delete i ts))%nat.
Proof.
  intros Ht. unfold total_work. rewrite (map_fold_delete_L _ _ i t ts); [done| |done].
  intros. lia.
Qed.

Lemma total_work_insert ts i t :
  total_work (<[i := t]> ts) = (work (future t) + total_work (delete i ts))%nat.
Proof.
  rewrite (total_work_delete _ i t) by apply lookup_insert_eq. by rewrite delete_insert_eq.
Qed.

(** One iteration on a non-empty queue. *)
Lemma run_ready_task_step ex w i l :
  bounded -> Inv ex -> (budget ex <= MAX_TASKS)%nat -> elements (task_queue ex) = i :: l ->
  exists wakes ex' w', run_ready_task (ex, w) = Ret (Some ((i, wakes), (ex', w'))) /\
    elements (task_queue ex') = l ++ wakes /\ Inv ex' /\ (budget ex' < budget ex)%nat /\
    (forall j, is_Some (tasks ex' !! j) -> is_Some (tasks ex !! j)).
Proof.
  intros Hb HI Hbud El. destruct (pop_some _ _ _ _ El) as (q & Eq & Elq & Ecq).
  unfold run_ready_task. rewrite Eq. unfold budget in *. rewrite El in *. simpl in *.
  destruct (tasks ex !! i) as [t|] eqn:Et.
  - destruct (cached_waker_spec ex i t HI Et) as (cache & -> & Hcache).
    unfold Task_poll. destruct (poll_future i (future t) w) as [[[r f'] w'] wakes] eqn:Ep.
    pose proof (Hb _ _ _ _ _ _ _ Ep) as Hwork. rewrite (total_work_delete _ _ _ Et) in *.
    destruct (wake_all_ret wakes q) as (q' & Ew & Elq' & Ecq').
    { rewrite Elq, Ecq, (inv_capacity _ HI). destruct r; lia. }
    rewrite Ew. simpl. rewrite Elq in Elq'. pose proof (inv_ids _ HI i t Et) as Eid.
    eexists wakes, _, w'. split; [done|]. destruct r; simpl; rewrite Elq', length_app;
      (split; [done|]); (split; [|split]).
    + split; simpl.
      * by rewrite Ecq', Ecq, (inv_capacity _ HI).
      * rewrite Elq', length_app. lia.
      * intros j u. rewrite lookup_delete_Some. intros [_ Hu]. by apply HI.
      * intros j v. rewrite lookup_delete_Some. intros [Hne Hv].
        rewrite lookup_delete_ne by done. by apply Hcache.
    + lia.
    + intros j. rewrite lookup_delete_is_Some. by intros [_ ?].
    + split; simpl.
      * by rewrite Ecq', Ecq, (inv_capacity _ HI).
      * rewrite Elq', length_app. lia.
      * intros j u. rewrite lookup_insert_Some. intros [[<- <-]|[_ Hu]]; [done|by apply HI].
      * intros j v Hv. destruct (Hcache j v Hv). split; [done|].
        rewrite lookup_insert_is_Some. by destruct (decide (i = j)); [left|right].
    + rewrite total_work_insert. simpl. lia.
    + intros j. rewrite lookup_insert_is_Some. intros [<-|[_ ?]]; [by exists t|done].
  - eexists [], _, w. split; [done|]. simpl. rewrite app_nil_r, Elq.
    split; [done|]. split; [|split; [lia|done]]. split; simpl; [|rewrite Elq|apply HI..].
    + by rewrite Ecq, (inv_capacity _ HI).
    + lia.
Qed.

Lemma run_ready_tasks_ret n ex w :
  bounded -> Inv ex -> (budget ex <= MAX_TASKS)%nat -> (budget ex < n)%nat ->
  exists es ex' w', run_ready_tasks n (ex, w) = Some (Ret (es, (ex', w'))) /\
    elements (task_queue ex') = [] /\ Inv ex' /\
    es.*1 = elements (task_queue ex) ++ concat es.*2 /\ (length es <= budget ex)%nat /\
    (forall j, is_Some (tasks ex' !! j) -> is_Some (tasks ex !! j)).
Proof.
  intros Hb. revert ex w. induction n as [|n IH]; intros ex w HI Hbud Hn; [lia|].
  destruct (elements (task_queue ex)) as [|i l] eqn:El.
  - destruct (pop_none _ _ El) as (q & Eq & _). exists [], ex, w. cbn [run_ready_tasks].
    unfold run_ready_task. rewrite Eq. simpl. split_and!; [done|done|done|done|lia|done].
  - destruct (run_ready_task_step ex w i l Hb HI Hbud El) as (wakes & ex1 & w1 & E & El1 & HI1 & Hlt & Hd).
    destruct (IH ex1 w1) as (es & ex' & w' & Er & Hempty & HI' & Hes & Hlen & Hd'); [done|lia|lia|].
    exists ((i, wakes) :: es), ex', w'. cbn [run_ready_tasks]. rewrite E, Er.
    split_and!; [done|done|done| |simpl; lia|auto].
    rewrite !fmap_cons. cbn [fst snd concat]. by rewrite Hes, El1, <- app_assoc.
Qed.

End Bounded.

(** Spawning tasks with fresh identifiers. *)
Lemma spawn_ret ex t :
  Inv ex -> tasks ex !! id t = None -> (length (elements (task_queue ex)) < MAX_TASKS)%nat ->
  exists ex', spawn t ex = Ret ex' /\ Inv ex' /\ tasks ex' = <[id t := t]> (tasks ex) /\
    elements (task_queue ex') = elements (task_queue ex) ++ [id t].
Proof.
  intros HI Hnone Hlen. pose proof (inv_capacity _ HI) as Hc.
  destruct (wake_task_ret (id t) (task_queue ex)) as (q & E & El & Ec); [lia|].
  unfold spawn. rewrite Hnone, decide_False by (by intros []). rewrite E.
  eexists. split; [done|]. split_and!; [|done|done]. split; simpl.
  - congruence.
  - rewrite El, length_app. simpl. lia.
  - intros i u. rewrite lookup_insert_Some. intros [[<- <-]|[_ Hu]]; [done|by apply HI].
  - intros i w Hw. destruct (inv_cache _ HI i w Hw). split; [done|].
    rewrite lookup_insert_is_Some. by destruct (decide (id t = i)); [left|right].
Qed.

(** An executor whose tasks have the identifiers below [n], all queued. *)
Definition spawned (n : nat) (ex : Executor) : Prop :=
  Inv ex /\ elements (task_queue ex) = seqZ 0 (Z.of_nat n) /\
  forall i, is_Some (tasks ex !! i) <-> 0 <= i < Z.of_nat n.

Lemma spawn_all_ret fs n ex :
  spawned n ex -> (n <= MAX_TASKS)%nat ->
  if decide (n + length fs <= MAX_TASKS)%nat
  then exists ex', spawn_all fs (Z.of_nat n) ex = Ret (ex', Z.of_nat (n + length fs)) /\
         spawned (n + length fs) ex'
  else spawn_all fs (Z.of_nat n) ex = Stop ExpectFailed.
Proof.
  revert n ex. induction fs as [|f fs IH]; intros n ex [HI [El Ht]] Hn; simpl.
  { rewrite Nat.add_0_r, decide_True by done. by eexists. }
  assert (tasks ex !! Z.of_nat n = None) as Hnone.
  { apply eq_None_not_Some. rewrite Ht. lia. }
  assert (length (elements (task_queue ex)) = n) as Hlen
    by (rewrite El, length_seqZ; lia).
  destruct (decide (n < MAX_TASKS)%nat) as [Hlt|Hge].
  - destruct (spawn_ret ex (mkTask f (Z.of_nat n))) as (ex1 & E1 & HI1 & Et1 & El1);
      [done|done|lia|]. rewrite E1. cbn [mbind outcome_bind].
    assert (wrap64 (Z.of_nat n + 1) = Z.of_nat (S n)) as ->.
    { rewrite wrap64_small; [lia|]. unfold is_u64, u64_modulus. unfold MAX_TASKS in *. lia. }
    replace (n + S (length fs))%nat with (S n + length fs)%nat by lia. apply IH; [|lia].
    split_and!; [done|by rewrite El1, El, seqZ_S|]. intros i. rewrite Et1. simpl.
    rewrite lookup_insert_is_Some, Ht. lia.
  - rewrite decide_False by lia. unfold spawn. simpl. rewrite Hnone, decide_False by (by intros []).
    rewrite wake_task_full; [done|]. rewrite (inv_capacity _ HI). lia.
Qed.

End Proofs.

(** ** Waiting for interrupts

    [sleep_if_idle] is [wait_for_interrupts_if(|| queue.is_empty())].  Its
    steps can be interleaved with interrupt handlers, which push woken tasks
    whenever interrupts are enabled. *)
Inductive sleep_pc : Set :=
  | Working                        (** in [run_ready_tasks] or before [disable] *)
  | Disabled                       (** after [disable], before [f()] *)
  | Tested (idle : bool)           (** after [f()] *)
  | Halted.                        (** in [enable_and_hlt] *)

Section Sleep.
Context `{InterruptsApi} `{ArrayQueueApi}.

Record sleeper : Type := mkSleeper {
  pc : sleep_pc;
  processor : cpu;
  queue : ArrayQueue Z
}.

Inductive sleep_step : sleeper -> sleeper -> Prop :=
  | step_work c q q' :
      (** the executor pops and its futures push while it works *)
      sleep_step (mkSleeper Working c q) (mkSleeper Working c q')
  | step_disable c q :
      sleep_step (mkSleeper Working c q) (mkSleeper Disabled (Sys.disable_interrupts c) q)
  | step_test c q :
      sleep_step (mkSleeper Disabled c q) (mkSleeper (Tested (queue_is_empty q)) c q)
  | step_halt c q :
      sleep_step (mkSleeper (Tested true) c q) (mkSleeper Halted (interrupts_enable_and_hlt c) q)
  | step_continue c q :
      sleep_step (mkSleeper (Tested false) c q) (mkSleeper Working (Sys.enable_interrupts c) q)
  | step_interrupt p c q js q' :
      (** an interrupt handler wakes [js]; it ends a halt *)
      are_enabled c = true -> for_each js wake_task q = Ret q' ->
      sleep_step (mkSleeper p c q) (mkSleeper (match p with Halted => Working | _ => p end) c q').

Definition put_processor (c : cpu) (s : sleeper) : sleeper := mkSleeper (pc s) c (queue s).

(** [sleep_if_idle], not interrupted. *)
Definition sleep_if_idle (s : sleeper) : outcome unit * sleeper :=
  Sys.wait_for_interrupts_if processor put_processor
    (fun s => (Ret (queue_is_empty (queue s)), s)) s.

(** One iteration of the loop of [run]. *)
Definition run_once `{FutureApi} (fuel : nat) (s : Executor * World) (c : cpu)
  : option (outcome ((Executor * World) * cpu)) :=
  match run_ready_tasks fuel s with
  | None => None
  | Some (Stop r) => Some (Stop r)
  | Some (Ret (_, (ex, w))) =>
      let '(r, sl) := sleep_if_idle (mkSleeper Working c (task_queue ex)) in
      Some (_ ← r; mret ((mkExecutor (tasks ex) (queue sl) (waker_cache ex), w), processor sl))
  end.

(** Halting with work queued would lose the wake-up. *)
Definition sleep_inv (s : sleeper) : Prop :=
  match pc s with
  | Working => True
  | Disabled => are_enabled (processor s) = false
  | Tested b => are_enabled (processor s) = false /\ (b = true <-> elements (queue s) = [])
  | Halted => elements (queue s) = [] /\ are_enabled (processor s) = true
  end.

Lemma sleep_step_inv `{!InterruptsLaws, !ArrayQueueLaws} s s' :
  sleep_inv s -> sleep_step s s' -> sleep_inv s'.
Proof.
  intros HI Hs. destruct Hs; unfold sleep_inv in *; simpl in *; try done.
  - apply disable_clears.
  - split; [done|]. apply is_empty_spec.
  - split; [by apply HI|apply enable_and_hlt_sets].
  - destruct p; try done. destruct HI. congruence.
Qed.

End Sleep.

(** ** Properties *)

(** C13: If the futures make at most as many wakes as fit in the queue,
    run_ready_tasks terminates without a panic within that many iterations,
    leaves the queue empty, and has handled exactly the identifiers queued at
    the start followed by every wake made on the way, in order; the invariant
    on tasks and cached wakers is kept, and the iteration of run then halts
    until an interrupt. *)
Theorem run_ready_tasks_drains `{InterruptsApi} `{ArrayQueueLaws} `{FutureApi} work ex w :
  bounded work -> Inv ex -> (budget work ex <= MAX_TASKS)%nat ->
  exists es ex' w',
    run_ready_tasks (S (budget work ex)) (ex, w) = Some (Ret (es, (ex', w'))) /\
    elements (task_queue ex') = [] /\ Inv ex' /\
    es.*1 = elements (task_queue ex) ++ concat es.*2 /\
    (length es <= budget work ex)%nat /\
    (forall j, is_Some (tasks ex' !! j) -> is_Some (tasks ex !! j)) /\
    (forall c, run_once (S (budget work ex)) (ex, w) c =
       Some (Ret ((ex', w'), interrupts_enable_and_hlt (interrupts_disable c)))).
Proof.
  intros Hb HI Hbud.
  destruct (run_ready_tasks_ret work (S (budget work ex)) ex w) as (es & ex' & w' & E & El & HI' & Hes & Hlen & Hd);
    [done|done|done|lia|].
  exists es, ex', w'. split_and!; [done..|]. intros c. unfold run_once. rewrite E.
  unfold sleep_if_idle, Sys.wait_for_interrupts_if. simpl.
  apply is_empty_spec in El. rewrite El. by destruct ex'.
Qed.

(** C36: Spawning fresh tasks on a new executor: up to 128 of them get the
    identifiers 0, 1, 2, ... and are queued in that order; one more panics
    with a full queue. *)
Theorem spawn_up_to_capacity `{ArrayQueueLaws} `{FutureApi} fs :
  if decide (length fs <= MAX_TASKS)%nat
  then exists ex, spawn_all fs 0 new = Ret (ex, Z.of_nat (length fs)) /\ spawned (length fs) ex
  else spawn_all fs 0 new = Stop ExpectFailed.
Proof.
  apply (spawn_all_ret fs 0 new); [|lia].
  split_and!; [apply new_inv|apply new_elements|]. intros i. simpl. rewrite lookup_empty.
  split; [by intros []|lia].
Qed.

(** C16: For every interleaving of sleep_if_idle with interrupt handlers, the
    processor is halted only with an empty task queue and interrupts enabled;
    between the test of the queue and the halt interrupts are off, so the
    answer of the test stays true; and sleep_if_idle is one of these step
    sequences. *)
Theorem never_sleeps_with_work `{InterruptsLaws} `{ArrayQueueLaws} s0 s :
  pc s0 = Working -> rtc sleep_step s0 s ->
  (pc s = Halted -> elements (queue s) = [] /\ are_enabled (processor s) = true) /\
  (forall b, pc s = Tested b -> are_enabled (processor s) = false /\
     (b = true <-> elements (queue s) = [])) /\
  (pc s = Working -> exists s', sleep_if_idle s = (Ret tt, s') /\ queue s' = queue s /\
     rtc sleep_step s (mkSleeper (if queue_is_empty (queue s) then Halted else Working)
                         (processor s') (queue s'))).
Proof.
  intros Hw Hr. assert (sleep_inv s) as HI.
  { apply (rtc_preserved sleep_inv sleep_step sleep_step_inv _ _ Hr). unfold sleep_inv. by rewrite Hw. }
  unfold sleep_inv in HI. split_and!; [by intros E; rewrite E in HI|by intros b E; rewrite E in HI|].
  destruct s as [p c q]. simpl. intros ->. unfold sleep_if_idle, Sys.wait_for_interrupts_if. simpl.
  pose proof (step_test (Sys.disable_interrupts c) q) as Htest.
  destruct (queue_is_empty q); eexists; (split; [done|]); (split; [done|]);
    (eapply rtc_l; [apply step_disable|]); (eapply rtc_l; [exact Htest|]); apply rtc_once; constructor.
Qed.

(** ** The properties at concrete tasks *)
Section Witnesses.
#[local] Existing Instance Ref.interrupts.
#[local] Existing Instance Ref.interrupts_laws.
#[local] Existing Instance Ref.array_queue.
#[local] Existing Instance Ref.array_queue_laws.

(** A task that wakes itself a given number of times. *)
#[local] Instance countdown : FutureApi := {
  Fut := nat;
  World := unit;
  poll_future := fun i f w =>
    match f with O => (Ready, O, w, []) | S n => (Pending, n, w, [i]) end
}.

Definition wakes_left : @Fut countdown -> nat := fun f => f.

Lemma countdown_bounded : bounded wakes_left.
Proof. intros i [|f] w r f' w' wakes; simpl; intros [= <- <- <- <-]; unfold wakes_left; simpl; lia. Qed.

(** Two tasks, with two wakes and one wake to go. *)
Definition two_tasks : Executor :=
  mkExecutor {[ 0 := mkTask (2%nat : @Fut countdown) 0; 1 := mkTask (1%nat : @Fut countdown) 1 ]} (128%nat, [0; 1]) ∅.

Lemma two_tasks_inv : Inv two_tasks.
Proof.
  split; simpl.
  - done.
  - unfold MAX_TASKS. lia.
  - intros i t. rewrite lookup_insert_Some, lookup_singleton_Some.
    by intros [[<- <-]|(_ & <- & <-)].
  - intros i w. by rewrite lookup_empty.
Qed.

Lemma run_ready_tasks_drains_witness :
  exists es ex' w', run_ready_tasks 6 (two_tasks, tt) = Some (Ret (es, (ex', w'))) /\
    elements (task_queue ex') = [] /\ es.*1 = [0; 1] ++ concat es.*2.
Proof.
  destruct (run_ready_tasks_drains wakes_left two_tasks tt)
    as (es & ex' & w' & E & El & _ & Hes & _).
  - apply countdown_bounded.
  - apply two_tasks_inv.
  - apply Nat.leb_le. vm_compute. reflexivity.
  - exists es, ex', w'. split; [|split; [exact El|exact Hes]].
    assert (budget wakes_left two_tasks = 5%nat) as Eb by (vm_compute; reflexivity).
    rewrite Eb in E. exact E.
Defined.

Lemma spawn_up_to_capacity_witness :
  spawn_all (replicate 129 (0%nat : @Fut countdown)) 0 new = Stop ExpectFailed.
Proof.
  pose proof (spawn_up_to_capacity (replicate 129 (0%nat : @Fut countdown))) as Hs.
  rewrite decide_False in Hs; [exact Hs|]. rewrite length_replicate. unfold MAX_TASKS. lia.
Defined.

Lemma never_sleeps_with_work_witness :
  let s0 := mkSleeper Working true ((128%nat, []) : ArrayQueue Z) in
  exists s', sleep_if_idle s0 = (Ret tt, s') /\
    rtc sleep_step s0 (mkSleeper Halted (processor s') (queue s')).
Proof.
  intros s0. destruct (never_sleeps_with_work s0 s0) as (_ & _ & Hw);
    [reflexivity|apply rtc_refl|]. destruct (Hw eq_refl) as (s' & E & _ & Hr).
  exists s'. split; [exact E|exact Hr].
Defined.

End Witnesses.

End Executor.
