(* ===== verification/SimpleExecutor.v ===== *)
(** * The simple executor ([kernel/src/task/simple_executor.rs])

    Polls its tasks round robin with a waker that does nothing. *)
From S2P Require Import Prelude Platform RefPlatform Executor.

Module SimpleExecutor.
Import Executor.

Section Operations.
Context `{FutureApi}.

(** The [VecDeque] of tasks. *)
Record SimpleExecutor : Type := mkSimple { task_queue : list Task }.

Definition new : SimpleExecutor := mkSimple [].

Definition spawn (task : Task) (ex : SimpleExecutor) : SimpleExecutor :=
  mkSimple (task_queue ex ++ [task]).

(** The data pointer of [dummy_raw_waker]; its functions are no-ops, so the
    wakes of a poll have no effect. *)
Definition dummy_waker : Z := 0.

(** One iteration of the loop of [run]; the boolean says whether the polled
    task is finished. *)
Definition run_task (s : SimpleExecutor * World) : option (bool * (SimpleExecutor * World)) :=
  let '(ex, w) := s in
  match task_queue ex with
  | [] => None
  | task :: rest =>
      let '(r, task, w, _) := Task_poll task dummy_waker w in
      Some (match r with
            | Ready => (true, (mkSimple rest, w))
            | Pending => (false, (mkSimple (rest ++ [task]), w))
            end)
  end.

(** [run]; the first component counts the tasks that finished. *)
Fixpoint run (fuel : nat) (s : SimpleExecutor * World) : option (nat * (SimpleExecutor * World)) :=
  match fuel with
  | O => None
  | S n =>
      match run_task s with
      | None => Some (0%nat, s)
      | Some (b, s') =>
          '(k, s'') ← run n s';
          Some (((if b then 1 else 0) + k)%nat, s'')
      end
  end.

End Operations.

Section Proofs.
Context `{FutureApi} (polls : Fut -> nat).

(** [polls f] bounds the polls after which [f] is ready. *)
Definition finite : Prop := forall i f w f' w' wakes,
  poll_future i f w = (Pending, f', w', wakes) -> (polls f' < polls f)%nat.

Definition polls_left (ex : SimpleExecutor) : nat :=
  sum_list_with (fun t => S (polls (future t))) (task_queue ex).

Lemma run_ret n ex w :
  finite -> (polls_left ex < n)%nat ->
  exists w', run n (ex, w) = Some (length (task_queue ex), (mkSimple [], w')).
Proof.
  intros Hf. revert ex w. induction n as [|n IH]; intros [ts] w Hn; [lia|].
  unfold polls_left in *. cbn [task_queue] in *. destruct ts as [|t ts]; [by exists w|].
  simpl. unfold Task_poll. destruct (poll_future dummy_waker (future t) w) as [[[r f'] w1] wakes] eqn:Ep.
  simpl in Hn. destruct r; simpl.
  - destruct (IH (mkSimple ts) w1) as [w' E]; [simpl; lia|]. exists w'. by rewrite E.
  - apply Hf in Ep. destruct (IH (mkSimple (ts ++ [mkTask f' (id t)])) w1) as [w' E].
    { simpl. rewrite sum_list_with_app. simpl. lia. }
    exists w'. rewrite E. simpl. rewrite length_app. simpl. by rewrite Nat.add_1_r.
Qed.

End Proofs.

(** ** Properties *)

(** C37: If every task is ready after a bounded number of polls, the simple
    executor's run returns: all spawned tasks finish and the queue is empty.
    *)
Theorem simple_executor_finishes `{FutureApi} polls ts w :
  finite polls ->
  let ex := fold_left (fun ex t => spawn t ex) ts new in
  task_queue ex = ts /\
  exists w', run (S (polls_left polls ex)) (ex, w) = Some (length ts, (new, w')).
Proof.
  intros Hf ex. assert (task_queue ex = ts) as Eq.
  { unfold ex. assert (forall l e, task_queue (fold_left (fun ex t => spawn t ex) l e) = task_queue e ++ l) as Hgen.
    { induction l as [|t l IH]; intros e; simpl; [by rewrite app_nil_r|].
      rewrite IH. simpl. by rewrite <- app_assoc. }
    by rewrite Hgen. }
  split; [done|]. rewrite <- Eq. apply (run_ret polls); [done|lia].
Qed.

(** ** The property at concrete tasks *)
Section Witnesses.

(** A task that needs a given number of polls. *)
#[local] Instance countdown : FutureApi := {
  Fut := nat;
  World := unit;
  poll_future := fun i f w =>
    match f with O => (Ready, O, w, []) | S n => (Pending, n, w, []) end
}.
Definition countdown_polls : @Fut countdown -> nat := fun f => f.
Definition three_tasks : list (@Task countdown) := [mkTask 0%nat 0; mkTask 2%nat 1; mkTask 1%nat 2].

Lemma simple_executor_finishes_witness :
  exists w', run 7 (fold_left (fun ex t => spawn t ex) three_tasks new, tt) = Some (3%nat, (new, w')).
Proof.
  apply (simple_executor_finishes countdown_polls three_tasks tt).
  intros i [|f] w f' w' wakes; simpl; intros E; inversion E. unfold countdown_polls. lia.
Defined.

End Witnesses.

End SimpleExecutor.
