(* ===== verification/Keyboard.v ===== *)
(** * The keyboard task ([kernel/src/task/keyboard.rs])

    The keyboard interrupt handler puts scancodes in a queue and wakes the
    task that reads them as a stream.  The file models both sides and every
    interleaving of the stream's steps with interrupts. *)
From S2P Require Import Prelude Platform RefPlatform Sys VgaBuffer Executor.

Module Keyboard.
Import Vga Executor.

Definition SCANCODE_CAPACITY : nat := 128.

(** "WARNING: scancode buf not initialized" *)
Definition warning_text : list Z :=
  [87; 65; 82; 78; 73; 78; 71; 58; 32; 115; 99; 97; 110; 99; 111; 100; 101; 32; 98; 117; 102; 32;
   110; 111; 116; 32; 105; 110; 105; 116; 105; 97; 108; 105; 122; 101; 100].

Section Operations.
Context `{InterruptsApi} `{MutexApi} `{ArrayQueueApi} `{AtomicWakerApi} `{OnceCellApi}.

(** The statics of the module, the queue of the executor whose tasks the
    wakers belong to, and the console. *)
Record keyboard : Type := mkKeyboard {
  SCANCODE_QUEUE : OnceCell (ArrayQueue Z);
  WAKER : AtomicWaker Z;
  task_queue : ArrayQueue Z;
  screen : Console
}.

Definition set_scancodes (q : ArrayQueue Z) (k : keyboard) : keyboard :=
  mkKeyboard (cell_update (fun _ => q) (SCANCODE_QUEUE k)) (WAKER k) (task_queue k) (screen k).
Definition set_waker (w : AtomicWaker Z) (k : keyboard) : keyboard :=
  mkKeyboard (SCANCODE_QUEUE k) w (task_queue k) (screen k).

(** [ScancodeStream::new]. *)
Definition ScancodeStream_new (k : keyboard) : keyboard :=
  mkKeyboard (try_init_once (fun _ => queue_new SCANCODE_CAPACITY) (SCANCODE_QUEUE k))
    (WAKER k) (task_queue k) (screen k).

(** [WAKER.wake()]. *)
Definition wake : stateful keyboard unit := fun k =>
  match waker_take (WAKER k) with
  | (None, w) => (Ret tt, set_waker w k)
  | (Some i, w) =>
      match wake_task i (task_queue k) with
      | Ret q => (Ret tt, mkKeyboard (SCANCODE_QUEUE k) w q (screen k))
      | Stop r => (Stop r, set_waker w k)
      end
  end.

Definition add_scancode (scancode : Z) : stateful keyboard unit := fun k =>
  match try_get (SCANCODE_QUEUE k) with
  | Some queue =>
      match queue_push scancode queue with
      | (Ok _, queue) => wake (set_scancodes queue k)
      | (Err _, queue) => (Ret tt, set_scancodes queue k)
      end
  | None =>
      let '(r, c) := println [warning_text] (screen k) in
      (r, mkKeyboard (SCANCODE_QUEUE k) (WAKER k) (task_queue k) c)
  end.

(** [SCANCODE_QUEUE.try_get().unwrap()], then [pop]. *)
Definition pop_scancode : stateful keyboard (option Z) := fun k =>
  match try_get (SCANCODE_QUEUE k) with
  | Some queue => let '(o, queue) := queue_pop queue in (Ret o, set_scancodes queue k)
  | None => (Stop UnwrapNone, k)
  end.

Definition register (waker : Z) : stateful keyboard unit := fun k =>
  (Ret tt, set_waker (waker_register waker (WAKER k)) k).

Definition take_waker : stateful keyboard unit := fun k =>
  (Ret tt, set_waker (waker_take (WAKER k)).2 k).

(** [poll_next], not interrupted; [None] is [Poll::Pending]. *)
Definition poll_next (waker : Z) : stateful keyboard (option Z) :=
  o ← pop_scancode;
  match o with
  | Some scancode => mret (Some scancode)
  | None =>
      _ ← register waker;
      o ← pop_scancode;
      match o with
      | Some scancode => _ ← take_waker; mret (Some scancode)
      | None => mret None
      end
  end.

(** ** Interleavings

    Where the task is in [poll_next]. *)
Inductive stream_pc : Set :=
  | First                          (** before the first [pop] *)
  | Registering                    (** before [register] *)
  | Second                         (** before the second [pop] *)
  | Taking (c : Z)                 (** before [take] *)
  | Got                            (** returned [Ready], the task runs *)
  | Waiting.                       (** returned [Pending] *)

(** [accepted] are the scancodes that entered the queue, [delivered] those
    the stream returned. *)
Record stream : Type := mkStream {
  pc : stream_pc;
  kb : keyboard;
  accepted : list Z;
  delivered : list Z
}.

(** The scancodes in the queue. *)
Definition scancodes (k : keyboard) : list Z :=
  match try_get (SCANCODE_QUEUE k) with Some q => elements q | None => [] end.

(** The scancode is accepted when there is room for it. *)
Definition accepts (k : keyboard) (c : Z) : list Z :=
  match try_get (SCANCODE_QUEUE k) with
  | Some q => if decide (length (elements q) < capacity q)%nat then [c] else []
  | None => []
  end.

Inductive stream_step (me : Z) : stream -> stream -> Prop :=
  | step_first_some k k' c a d :
      pop_scancode k = (Ret (Some c), k') ->
      stream_step me (mkStream First k a d) (mkStream Got k' a (d ++ [c]))
  | step_first_none k k' a d :
      pop_scancode k = (Ret None, k') ->
      stream_step me (mkStream First k a d) (mkStream Registering k' a d)
  | step_register k k' a d :
      register me k = (Ret tt, k') ->
      stream_step me (mkStream Registering k a d) (mkStream Second k' a d)
  | step_second_some k k' c a d :
      pop_scancode k = (Ret (Some c), k') ->
      stream_step me (mkStream Second k a d) (mkStream (Taking c) k' a d)
  | step_second_none k k' a d :
      pop_scancode k = (Ret None, k') ->
      stream_step me (mkStream Second k a d) (mkStream Waiting k' a d)
  | step_take k k' c a d :
      take_waker k = (Ret tt, k') ->
      stream_step me (mkStream (Taking c) k a d) (mkStream Got k' a (d ++ [c]))
  | step_again k a d :
      (** the task asks for the next scancode *)
      stream_step me (mkStream Got k a d) (mkStream First k a d)
  | step_polled k q a d :
      (** the executor pops the task's identifier and polls it *)
      queue_pop (task_queue k) = (Some me, q) ->
      stream_step me (mkStream Waiting k a d)
        (mkStream First (mkKeyboard (SCANCODE_QUEUE k) (WAKER k) q (screen k)) a d)
  | step_others p k q a d :
      (** other tasks come and go in the executor's queue *)
      (me ∈ elements (task_queue k) -> me ∈ elements q) ->
      stream_step me (mkStream p k a d)
        (mkStream p (mkKeyboard (SCANCODE_QUEUE k) (WAKER k) q (screen k)) a d)
  | step_key p k k' c a d :
      (** a keyboard interrupt, at any point *)
      add_scancode c k = (Ret tt, k') ->
      stream_step me (mkStream p k a d) (mkStream p k' (a ++ accepts k c) d).

End Operations.

(** ** Printing what is typed

    [pc_keyboard] decodes scancodes; a decoded key is the text [print!]
    formats it to. *)
Inductive DecodedKey : Set :=
  | Unicode (character : list Z)
  | RawKey (key : list Z).

Class DecoderApi := {
  Decoder : Type;
  KeyEvent : Type;
  add_byte : Z -> Decoder -> result (option KeyEvent) unit * Decoder;
  process_keyevent : KeyEvent -> Decoder -> option DecodedKey * Decoder
}.

Section Printing.
Context `{InterruptsApi} `{MutexApi} `{DecoderApi}.

(** The body of the loop of [print_keypresses]. *)
Definition print_keypress (scancode : Z) : stateful (Decoder * Console) unit := fun s =>
  let '(keyboard, c) := s in
  match add_byte scancode keyboard with
  | (Ok (Some key_event), keyboard) =>
      match process_keyevent key_event keyboard with
      | (Some key, keyboard) =>
          let '(r, c) := match key with
                         | Unicode character => print [character] c
                         | RawKey key => print [key] c
                         end in
          (r, (keyboard, c))
      | (None, keyboard) => (Ret tt, (keyboard, c))
      end
  | (_, keyboard) => (Ret tt, (keyboard, c))
  end.

(** The loop, on the scancodes the stream delivers. *)
Fixpoint print_keypresses (scancodes : list Z) : stateful (Decoder * Console) unit :=
  match scancodes with
  | [] => mret tt
  | scancode :: rest => _ ← print_keypress scancode; print_keypresses rest
  end.

(** Reference: the text of one scancode and the decoder after it. *)
Definition key_text (scancode : Z) (d : Decoder) : list Z * Decoder :=
  match add_byte scancode d with
  | (Ok (Some e), d) =>
      match process_keyevent e d with
      | (Some (Unicode t | RawKey t), d) => (t, d)
      | (None, d) => ([], d)
      end
  | (_, d) => ([], d)
  end.

Fixpoint keys_text (scancodes : list Z) (d : Decoder) : list Z :=
  match scancodes with
  | [] => []
  | c :: rest => let '(t, d) := key_text c d in t ++ keys_text rest d
  end.

Lemma print_keypress_ret `{!InterruptsLaws, !MutexLaws} c d k cur :
  is_locked (Vga.WRITER k) = false -> shows cur (contents (Vga.WRITER k)) ->
  exists k', print_keypress c (d, k) = (Ret tt, ((key_text c d).2, k')) /\
    exists w', write_bytes (map printable (key_text c d).1) (contents (Vga.WRITER k)) = Ret w' /\
      contents (Vga.WRITER k') = w' /\ is_locked (Vga.WRITER k') = false /\ exists cur', shows cur' w'.
Proof.
  intros Hfree Hs. unfold print_keypress, key_text.
  assert (exists w', write_bytes [] (contents (Vga.WRITER k)) = Ret w' /\
      contents (Vga.WRITER k) = w' /\ is_locked (Vga.WRITER k) = false /\ exists cur', shows cur' w') as Hnone
    by (eexists; by eauto).
  assert (forall t, exists k', print [t] k = (Ret tt, k') /\
    exists w', write_bytes (map printable t) (contents (Vga.WRITER k)) = Ret w' /\
      contents (Vga.WRITER k') = w' /\ is_locked (Vga.WRITER k') = false /\ exists cur', shows cur' w') as Hprint.
  { intros t. destruct (write_bytes_shows (map printable t) (contents (Vga.WRITER k)) cur Hs)
      as (w' & cur' & E & Hs' & _ & _).
    destruct (critical_section (write_fmt [t]) k w' Hfree) as (k' & Ek & Hw & Hf & _).
    { rewrite write_fmt_concat. simpl. by rewrite app_nil_r. }
    exists k'. split; [exact Ek|]. exists w'. by eauto. }
  destruct (add_byte c d) as [[[e|]|] d1]; [|by exists k..].
  destruct (process_keyevent e d1) as [[[t|t]|] d2]; [| |by exists k];
    (destruct (Hprint t) as (k' & E & Hw); rewrite E; by exists k').
Qed.

End Printing.

Section Proofs.
Context `{InterruptsApi} `{MutexApi} `{ArrayQueueLaws} `{AtomicWakerLaws} `{OnceCellLaws}.

(** The stream exists: its queue has been initialised. *)
Definition initialised (k : keyboard) : Prop :=
  exists q, try_get (SCANCODE_QUEUE k) = Some q /\ (0 < capacity q)%nat.

Lemma set_scancodes_spec q k :
  initialised k -> (0 < capacity q)%nat ->
  initialised (set_scancodes q k) /\ scancodes (set_scancodes q k) = elements q.
Proof.
  intros (q0 & E & _) Hc. unfold initialised, scancodes. simpl. rewrite get_update, E. simpl. by eauto.
Qed.

Lemma pop_scancode_spec k o k' :
  initialised k -> pop_scancode k = (Ret o, k') ->
  initialised k' /\ WAKER k' = WAKER k /\ task_queue k' = task_queue k /\
  scancodes k = option_list o ++ scancodes k' /\ (o = None -> scancodes k = []).
Proof.
  intros Hi. pose proof Hi as (q & E & Hc). unfold pop_scancode. rewrite E.
  assert (scancodes k = elements q) as -> by (unfold scancodes; by rewrite E).
  destruct (elements q) as [|c l] eqn:El.
  - destruct (pop_none _ _ El) as (q' & -> & El' & Ec). intros [= <- <-].
    destruct (set_scancodes_spec q' k Hi) as [Hi' Es]; [lia|]. rewrite Es, El'. by split_and!.
  - destruct (pop_some _ _ _ _ El) as (q' & -> & El' & Ec). intros [= <- <-].
    destruct (set_scancodes_spec q' k Hi) as [Hi' Es]; [lia|]. rewrite Es, El'. by split_and!.
Qed.

(** The waker of task [me] is registered. *)
Definition registered (me : Z) (k : keyboard) : Prop := (waker_take (WAKER k)).1 = Some me.

Lemma add_scancode_spec c k k' me :
  initialised k -> add_scancode c k = (Ret tt, k') ->
  initialised k' /\ scancodes k' = scancodes k ++ accepts k c /\
  (me ∈ elements (task_queue k) -> me ∈ elements (task_queue k')) /\
  (registered me k ->
     (registered me k' /\ accepts k c = [] /\ scancodes k <> []) \/ me ∈ elements (task_queue k')).
Proof.
  intros Hi. pose proof Hi as (q & E & Hc). unfold add_scancode. rewrite E.
  assert (scancodes k = elements q) as Esc by (unfold scancodes; by rewrite E).
  unfold accepts. rewrite E, Esc. case_decide as Hroom.
  - destruct (push_room _ c q Hroom) as (q' & -> & El & Ec).
    destruct (set_scancodes_spec q' k Hi) as [Hi' Es]; [lia|].
    unfold wake. simpl. unfold registered. destruct (waker_take (WAKER k)) as [[i|] w] eqn:Ew; simpl.
    + unfold wake_task. destruct (queue_push i (task_queue k)) as [[[]|] tq] eqn:Ep; simpl; [|done].
      intros [= <-]. simpl.
      assert (elements tq = elements (task_queue k) ++ [i]) as Et.
      { destruct (decide (length (elements (task_queue k)) < capacity (task_queue k))%nat) as [Hr|Hr].
        - destruct (push_room _ i _ Hr) as (? & Ep' & ? & _). congruence.
        - destruct (push_full _ i (task_queue k)) as (? & Ep' & _); [lia|]. congruence. }
      split_and!; [done|by rewrite <- El|by rewrite Et; set_solver|].
      intros [= ->]. right. rewrite Et. set_solver.
    + intros [= <-]. by split_and!; [|rewrite <- El| |].
  - destruct (push_full _ c q) as (q' & -> & El & Ec); [lia|]. intros [= <-].
    destruct (set_scancodes_spec q' k Hi) as [Hi' Es]; [lia|]. rewrite Es, El, app_nil_r.
    split_and!; [done..|]. intros Hr. left. split_and!; [done|done|].
    destruct (elements q); [simpl in Hroom; lia|done].
Qed.

(** A scancode taken from the queue but not returned yet. *)
Definition in_flight (p : stream_pc) : list Z := match p with Taking c => [c] | _ => [] end.

Record stream_inv (me : Z) (s : stream) : Prop := {
  st_init : initialised (kb s);
  st_order : delivered s ++ in_flight (pc s) ++ scancodes (kb s) = accepted s;
  st_second : pc s = Second -> registered me (kb s) \/ me ∈ elements (task_queue (kb s));
  st_waiting : pc s = Waiting ->
    (registered me (kb s) /\ scancodes (kb s) = []) \/ me ∈ elements (task_queue (kb s))
}.

Lemma stream_step_inv me s s' : stream_inv me s -> stream_step me s s' -> stream_inv me s'.
Proof.
  intros [Hi Ho Hsec Hwait] Hs.
  destruct Hs as [k k' c a d E|k k' a d E|k k' a d E|k k' c a d E|k k' a d E|k k' c a d E|k a d
    |k q a d E|p k q a d Hq|p k k' c a d E]; simpl in *.
  - destruct (pop_scancode_spec k _ k' Hi E) as (Hi' & _ & _ & Es & _).
    split; simpl; [done| |done|done]. rewrite Es in Ho. by rewrite <- app_assoc.
  - destruct (pop_scancode_spec k _ k' Hi E) as (Hi' & _ & _ & Es & _).
    split; simpl; [done| |done|done]. by rewrite Es in Ho.
  - unfold register in E. injection E as <-. split; simpl; [done|done| |done].
    intros _. left. unfold registered. simpl. apply take_registered.
  - destruct (pop_scancode_spec k _ k' Hi E) as (Hi' & _ & _ & Es & _).
    split; simpl; [done| |done|done]. by rewrite Es in Ho.
  - destruct (pop_scancode_spec k _ k' Hi E) as (Hi' & Ew & Et & Es & Hn). specialize (Hn eq_refl).
    rewrite Hn in *. simpl in Es. split; simpl; [done|by rewrite <- Es|done|].
    intros _. unfold registered in *. rewrite Ew, Et, <- Es. destruct (Hsec eq_refl); auto.
  - unfold take_waker in E. injection E as <-. split; simpl; [done| |done|done].
    by rewrite <- app_assoc.
  - by split.
  - by split.
  - split; simpl; [done|done|..]; intros Hp.
    + destruct (Hsec Hp); [left|right]; auto.
    + destruct (Hwait Hp); [left|right]; auto.
  - destruct (add_scancode_spec c k k' me Hi E) as (Hi' & Es & Hk & Hreg).
    split; simpl; [done|by rewrite Es, <- Ho, !app_assoc|..]; intros Hp.
    + destruct (Hsec Hp) as [Hr|]; [|auto]. destruct (Hreg Hr) as [[? _]|]; auto.
    + destruct (Hwait Hp) as [[Hr Hn]|]; [|auto]. destruct (Hreg Hr) as [(_ & _ & Hne)|]; [by destruct Hne|auto].
Qed.

End Proofs.

(** ** Properties *)

(** C12: For every interleaving of the scancode stream's steps with keyboard
    interrupts: the scancodes delivered so far, the one in flight and those
    still queued are exactly the accepted ones in order; and whenever the task
    waits although scancodes are queued, its identifier is in the executor's
    queue, so no wake-up is lost. *)
Theorem no_lost_keypress `{InterruptsApi} `{MutexApi} `{ArrayQueueLaws} `{AtomicWakerLaws} `{OnceCellLaws}
  me k s :
  let k0 := ScancodeStream_new k in
  try_get (SCANCODE_QUEUE k) = None ->
  rtc (stream_step me) (mkStream First k0 [] []) s ->
  delivered s ++ in_flight (pc s) ++ scancodes (kb s) = accepted s /\
  (pc s = Waiting -> scancodes (kb s) <> [] -> me ∈ elements (task_queue (kb s))).
Proof.
  intros k0 Hnone Hr.
  assert (stream_inv me s) as [_ Ho _ Hw].
  { apply (rtc_preserved (stream_inv me) (stream_step me) (stream_step_inv me) _ _ Hr).
    split; simpl; [|unfold scancodes; simpl; by rewrite get_init, Hnone, new_elements|done|done].
    exists (queue_new SCANCODE_CAPACITY). unfold k0, ScancodeStream_new. simpl.
    rewrite get_init, Hnone, new_capacity. split; [done|]. unfold SCANCODE_CAPACITY. lia. }
  split; [done|]. intros Hp Hne. by destruct (Hw Hp) as [[_ ?]|].
Qed.

(** C30: poll_next on an initialised queue never panics, returns the oldest
    scancode or, when there is none, Pending with the task's waker registered,
    and is one of the step sequences of the interleaving model. *)
Theorem poll_next_refines_steps `{InterruptsApi} `{MutexApi} `{ArrayQueueLaws} `{AtomicWakerLaws} `{OnceCellLaws}
  me k a d :
  initialised k ->
  exists o k', poll_next me k = (Ret o, k') /\ initialised k' /\
    scancodes k = option_list o ++ scancodes k' /\
    (o = None -> scancodes k = [] /\ registered me k') /\
    rtc (stream_step me) (mkStream First k a d)
      (match o with
       | Some c => mkStream Got k' a (d ++ [c])
       | None => mkStream Waiting k' a d
       end).
Proof.
  intros Hi. assert (exists o k1, pop_scancode k = (Ret o, k1)) as (o & k1 & E1).
  { destruct Hi as (q & E & _). unfold pop_scancode. rewrite E. destruct (queue_pop q). by eauto. }
  destruct (pop_scancode_spec k o k1 Hi E1) as (Hi1 & _ & _ & Es1 & Hn1). unfold poll_next.
  rewrite (stateful_bind_ret _ _ _ _ _ E1). destruct o as [c|].
  { exists (Some c), k1. split_and!; [done|done|done|done|]. by apply rtc_once, step_first_some. }
  specialize (Hn1 eq_refl). simpl in Es1.
  set (k2 := set_waker (waker_register me (WAKER k1)) k1).
  assert (register me k1 = (Ret tt, k2)) as E2 by done.
  assert (exists o k3, pop_scancode k2 = (Ret o, k3)) as (o & k3 & E3).
  { destruct Hi1 as (q & E & _). unfold pop_scancode. simpl. rewrite E. destruct (queue_pop q). by eauto. }
  destruct (pop_scancode_spec k2 o k3 Hi1 E3) as (Hi3 & Ew3 & _ & Es3 & _).
  change (scancodes k2) with (scancodes k1) in Es3. rewrite <- Es1, Hn1 in Es3.
  destruct o as [c|]; [discriminate Es3|]. simpl in Es3.
  exists None, k3. rewrite (stateful_bind_ret _ _ _ _ _ E2), (stateful_bind_ret _ _ _ _ _ E3).
  split_and!; [done|done|by rewrite Hn1|intros _; split; [done|]|].
  - unfold registered. rewrite Ew3. apply take_registered.
  - eapply rtc_l; [by apply step_first_none|]. eapply rtc_l; [by apply step_register|].
    by apply rtc_once, step_second_none.
Qed.

(** C31: Handling any sequence of scancodes prints on the terminal the
    concatenation of the texts the decoder gives for them, in order, and
    leaves the console unlocked. *)
Theorem print_keypresses_output `{InterruptsLaws} `{MutexLaws} `{DecoderApi} codes d k cur :
  is_locked (Vga.WRITER k) = false -> shows cur (contents (Vga.WRITER k)) ->
  let w := contents (Vga.WRITER k) in
  exists d' k', print_keypresses codes (d, k) = (Ret tt, (d', k')) /\
    is_locked (Vga.WRITER k') = false /\
    buffer (contents (Vga.WRITER k')) =
      lastn BUFFER_HEIGHT (take (BUFFER_HEIGHT - 1) (buffer w) ++
        render (color_code w) cur (map printable (keys_text codes d))).
Proof.
  intros Hfree Hs w.
  assert (exists d' k' w', print_keypresses codes (d, k) = (Ret tt, (d', k')) /\
    is_locked (Vga.WRITER k') = false /\ contents (Vga.WRITER k') = w' /\
    write_bytes (map printable (keys_text codes d)) w = Ret w') as (d' & k' & w' & E & Hf & Hw & Ew).
  { unfold w. clear w. revert d k cur Hfree Hs. induction codes as [|c codes IH]; intros d k cur Hfree Hs.
    - by exists d, k, (contents (Vga.WRITER k)).
    - destruct (print_keypress_ret c d k cur Hfree Hs) as (k1 & E1 & w1 & Ew1 & Hw1 & Hf1 & cur1 & Hs1).
      simpl. rewrite (stateful_bind_ret _ _ _ _ _ E1). destruct (key_text c d) as [t d1]. simpl in *.
      rewrite <- Hw1 in Hs1. destruct (IH d1 k1 cur1 Hf1 Hs1) as (d' & k' & w' & E & Hf & Hw & Ew).
      exists d', k', w'. split_and!; [done..|]. rewrite map_app. unfold write_bytes in *.
      rewrite for_each_app, Ew1. simpl. by rewrite <- Hw1. }
  exists d', k'. split_and!; [done..|]. rewrite Hw.
  destruct (write_bytes_shows (map printable (keys_text codes d)) w cur Hs) as (w2 & cur2 & Ew2 & _ & _ & Eb).
  congruence.
Qed.

(** ** The properties at a concrete keyboard *)
Section Witnesses.
#[local] Existing Instance Ref.interrupts.
#[local] Existing Instance Ref.interrupts_laws.
#[local] Existing Instance Ref.mutexes.
#[local] Existing Instance Ref.mutexes_laws.
#[local] Existing Instance Ref.array_queue.
#[local] Existing Instance Ref.array_queue_laws.
#[local] Existing Instance Ref.atomic_wakers.
#[local] Existing Instance Ref.atomic_wakers_laws.
#[local] Existing Instance Ref.once_cells.
#[local] Existing Instance Ref.once_cells_laws.

Definition unplugged : keyboard :=
  mkKeyboard (None : option (nat * list Z)) (None : option Z) ((128%nat, []) : nat * list Z) boot_console.

(** Task 7 finds no scancode and waits; then a key is pressed. *)
Definition pressed : stream :=
  mkStream Waiting (mkKeyboard (Some (128%nat, [30]) : option (nat * list Z)) (None : option Z)
    ((128%nat, [7]) : nat * list Z) boot_console) [30] [].

Definition waiting_kb : keyboard :=
  mkKeyboard (Some (128%nat, []) : option (nat * list Z)) (Some 7 : option Z)
    ((128%nat, []) : nat * list Z) boot_console.

Lemma pressed_reachable :
  rtc (stream_step 7) (mkStream First (ScancodeStream_new unplugged) [] []) pressed.
Proof.
  eapply rtc_l; [apply step_first_none; reflexivity|].
  eapply rtc_l; [apply step_register; reflexivity|].
  eapply rtc_l; [apply step_second_none; reflexivity|].
  apply rtc_once. exact (step_key 7 Waiting waiting_kb (kb pressed) 30 [] [] eq_refl).
Qed.

Lemma no_lost_keypress_witness : 7 ∈ elements (task_queue (kb pressed)).
Proof.
  apply (no_lost_keypress 7 unplugged pressed); [reflexivity|apply pressed_reachable|reflexivity|].
  discriminate.
Defined.

Lemma poll_next_refines_steps_witness :
  exists o k', poll_next 7 (kb pressed) = (Ret o, k') /\ [30] = option_list o ++ scancodes k'.
Proof.
  destruct (poll_next_refines_steps 7 (kb pressed) [30] []) as (o & k' & E & _ & Es & _).
  - exists (128%nat, [30]). split; [reflexivity|simpl; lia].
  - exists o, k'. split; [exact E|exact Es].
Defined.

(** A decoder that shows each scancode as a letter. *)
#[local] Instance letters : DecoderApi := {
  Decoder := unit;
  KeyEvent := Z;
  add_byte := fun c d => (Ok (Some c), d);
  process_keyevent := fun e d => (Some (Unicode [e + 35]), d)
}.

Lemma print_keypresses_output_witness :
  exists d' k', print_keypresses [30; 31] (tt, boot_console) = (Ret tt, (d', k')) /\
    is_locked (Vga.WRITER k') = false /\
    buffer (contents (Vga.WRITER k')) = lastn 25 (take 24 blank_screen ++ render 14 [] [65; 66]).
Proof.
  exact (print_keypresses_output [30; 31] tt boot_console [] eq_refl blank_screen_shows).
Defined.

End Witnesses.

End Keyboard.
