(* ===== verification/Gdt.v ===== *)
(** * Segments and stacks ([kernel/src/gdt.rs])

    The descriptor table, the selectors and the task state segment the kernel
    builds before it can take interrupts or system calls. *)
From S2P Require Import Prelude Platform RefPlatform Paging.

Module Gdt.

(** The descriptors the kernel uses. *)
Inductive Descriptor : Set :=
  | kernel_code_segment
  | kernel_data_segment
  | user_data_segment
  | user_code_segment
  | tss_segment.

(** 64-bit slots of a descriptor and the privilege level of its selector. *)
Definition slots (d : Descriptor) : nat := match d with tss_segment => 2 | _ => 1 end.
Definition rpl (d : Descriptor) : Z :=
  match d with user_data_segment | user_code_segment => 3 | _ => 0 end.

(** [x86_64::structures::gdt] and [registers::model_specific::Star]. *)
Class GdtApi := {
  GlobalDescriptorTable : Type;
  gdt_new : GlobalDescriptorTable;
  add_entry : Descriptor -> GlobalDescriptorTable -> outcome (Z * GlobalDescriptorTable);
  used : GlobalDescriptorTable -> nat;
  Star_write : Z -> Z -> Z -> Z -> result unit unit
}.

(** The table has eight slots, the first of which is the null descriptor;
    entries are added behind each other.  [Star::write] wants the user
    selectors 8 apart at privilege 3, the kernel ones 8 apart at privilege
    0. *)
Class GdtLaws `{GdtApi} : Prop := {
  new_used : used gdt_new = 1%nat;
  add_entry_room : forall d g, (used g + slots d <= 8)%nat ->
    exists g', add_entry d g = Ret (8 * Z.of_nat (used g) + rpl d, g') /\
      used g' = (used g + slots d)%nat;
  star_write_ok : forall cs_sysret ss_sysret cs_syscall ss_syscall,
    cs_sysret = ss_sysret + 8 -> ss_syscall = cs_syscall + 8 ->
    ss_sysret mod 4 = 3 -> ss_syscall mod 4 = 0 ->
    Star_write cs_sysret ss_sysret cs_syscall ss_syscall = Ok tt
}.

Record Selectors : Set := mkSelectors {
  kernel_code_selector : Z;
  kernel_data_selector : Z;
  user_code_selector : Z;
  user_data_selector : Z;
  tss_selector : Z;
  kernel_data_selector2 : Z
}.

Definition DOUBLE_FAULT_STACK_INDEX : nat := 0.
Definition PAGE_FAULT_STACK_INDEX : nat := 1.
Definition STACK_SIZE : Z := 1024 * 20.

(** The stacks of the task state segment. *)
Record TaskStateSegment : Set := mkTss {
  interrupt_stack_table : list Z;
  privilege_stack_table : list Z
}.

Section Operations.
Context `{AddrApi} `{GdtApi}.

(** The top of a static array of [STACK_SIZE] bytes at [stack]. *)
Definition stack_top (stack : Z) : outcome Z :=
  stack_start ← VirtAddr_new stack;
  VirtAddr_add stack_start STACK_SIZE.

(** [TSS], with the addresses of its three static stacks. *)
Definition TSS (double_fault page_fault privilege : Z) : outcome TaskStateSegment :=
  s0 ← stack_top double_fault;
  s1 ← stack_top page_fault;
  s2 ← stack_top privilege;
  mret (mkTss (<[PAGE_FAULT_STACK_INDEX := s1]> (<[DOUBLE_FAULT_STACK_INDEX := s0]> (replicate 7 0)))
          (<[0%nat := s2]> (replicate 3 0))).

Definition GDT : outcome (GlobalDescriptorTable * Selectors) :=
  '(kernel_code, gdt) ← add_entry kernel_code_segment gdt_new;
  '(kernel_data, gdt) ← add_entry kernel_data_segment gdt;
  '(user_data, gdt) ← add_entry user_data_segment gdt;
  '(user_code, gdt) ← add_entry user_code_segment gdt;
  '(tss, gdt) ← add_entry tss_segment gdt;
  '(kernel_data2, gdt) ← add_entry kernel_data_segment gdt;
  mret (gdt, mkSelectors kernel_code kernel_data user_code user_data tss kernel_data2).

(** The segment registers [gdt_init] loads. *)
Record segments : Set := mkSegments { CS : Z; DS : Z; GS : Z; TR : Z }.

Definition gdt_init (has_fsgsbase : bool) : outcome segments :=
  if has_fsgsbase then
    '(gdt, sel) ← GDT;
    _ ← expect (Star_write (user_code_selector sel) (user_data_selector sel)
                  (kernel_code_selector sel) (kernel_data_selector sel));
    mret (mkSegments (kernel_code_selector sel) (kernel_data_selector sel)
            (kernel_data_selector2 sel) (tss_selector sel))
  else Stop AssertFailed.

End Operations.

Lemma TSS_ret `{AddrLaws} s0 s1 s2 :
  Forall (fun s => 0 <= s /\ s + STACK_SIZE < 2 ^ 47) [s0; s1; s2] ->
  TSS s0 s1 s2 = Ret (mkTss
    [s0 + STACK_SIZE; s1 + STACK_SIZE; 0; 0; 0; 0; 0] [s2 + STACK_SIZE; 0; 0]).
Proof.
  intros Hs. repeat (apply Forall_cons in Hs as [? Hs]).
  assert (forall s, 0 <= s /\ s + STACK_SIZE < 2 ^ 47 -> stack_top s = Ret (s + STACK_SIZE)) as Htop.
  { intros s [Hlo Hhi]. unfold stack_top, STACK_SIZE in *.
    rewrite VirtAddr_new_canonical by (left; lia). simpl.
    apply VirtAddr_add_canonical; [left; lia|lia|left; lia]. }
  unfold TSS. by rewrite !Htop.
Qed.

Lemma GDT_ret `{GdtLaws} :
  exists g, GDT = Ret (g, mkSelectors 0x08 0x10 0x23 0x1b 0x28 0x38) /\ used g = 8%nat.
Proof.
  unfold GDT.
  destruct (add_entry_room kernel_code_segment gdt_new) as (g1 & -> & U1); [rewrite new_used; simpl; lia|].
  rewrite new_used in U1 |- *. simpl in U1 |- *.
  destruct (add_entry_room kernel_data_segment g1) as (g2 & -> & U2); [simpl; lia|].
  rewrite U1 in *. simpl in U2 |- *.
  destruct (add_entry_room user_data_segment g2) as (g3 & -> & U3); [simpl; lia|].
  rewrite U2 in *. simpl in U3 |- *.
  destruct (add_entry_room user_code_segment g3) as (g4 & -> & U4); [simpl; lia|].
  rewrite U3 in *. simpl in U4 |- *.
  destruct (add_entry_room tss_segment g4) as (g5 & -> & U5); [simpl; lia|].
  rewrite U4 in *. simpl in U5 |- *.
  destruct (add_entry_room kernel_data_segment g5) as (g6 & -> & U6); [simpl; lia|].
  rewrite U5 in *. simpl in U6 |- *. by exists g6.
Qed.

Lemma gdt_init_ret `{GdtLaws} : gdt_init true = Ret (mkSegments 0x08 0x10 0x38 0x28).
Proof.
  destruct GDT_ret as (g & E & _). unfold gdt_init. rewrite E. simpl. by rewrite star_write_ok.
Qed.

(** ** Properties *)

(** C33: The descriptor table fits: its entries fill the eight slots exactly
    with the selectors 0x08, 0x10, 0x1b, 0x23, 0x28 and 0x38, which satisfy
    the constraints of Star::write, so gdt_init loads them without a panic;
    without FSGSBASE it fails its assertion. *)
Theorem gdt_init_loads `{GdtLaws} :
  (exists g, GDT = Ret (g, mkSelectors 0x08 0x10 0x23 0x1b 0x28 0x38) /\ used g = 8%nat) /\
  gdt_init true = Ret (mkSegments 0x08 0x10 0x38 0x28) /\
  gdt_init false = Stop AssertFailed.
Proof. split_and!; [apply GDT_ret|apply gdt_init_ret|done]. Qed.

(** ** The properties at a concrete table *)
Section Witnesses.

(** A table that only counts its slots. *)
Definition counting_gdt : GdtApi := {|
  GlobalDescriptorTable := nat;
  gdt_new := 1%nat;
  add_entry := fun d g =>
    if decide (g + slots d <= 8)%nat then Ret (8 * Z.of_nat g + rpl d, (g + slots d)%nat) else Stop CratePanic;
  used := fun g => g;
  Star_write := fun cs ss kcs kss =>
    if bool_decide (cs = ss + 8 /\ kss = kcs + 8 /\ ss mod 4 = 3 /\ kss mod 4 = 0) then Ok tt else Err tt
|}.

Lemma counting_gdt_laws : @GdtLaws counting_gdt.
Proof.
  split; simpl; [done|..].
  - intros d g Hr. rewrite decide_True by done. by eexists.
  - intros. by rewrite bool_decide_true.
Qed.

Lemma gdt_init_loads_witness : @gdt_init counting_gdt true = Ret (mkSegments 0x08 0x10 0x38 0x28).
Proof. apply (@gdt_init_loads counting_gdt counting_gdt_laws). Defined.

End Witnesses.

End Gdt.
