(* ===== verification/Interrupts.v ===== *)
(** * Interrupts ([kernel/src/interrupts.rs])

    The interrupt descriptor table and the handlers of the two hardware
    interrupts. *)
From S2P Require Import Prelude Platform RefPlatform Paging Sys VgaBuffer Executor Keyboard Gdt.

Module Interrupts.

Definition PIC_1_OFFSET : Z := 32.
Definition PIC_2_OFFSET : Z := PIC_1_OFFSET + 8.

Inductive InterruptIndex : Set := TimerIndex | KeyboardIndex.

(** [as_u8] and [as_usize]. *)
Definition as_u8 (i : InterruptIndex) : Z :=
  match i with TimerIndex => PIC_1_OFFSET | KeyboardIndex => PIC_1_OFFSET + 1 end.

Inductive handler : Set :=
  | breakpoint_handler
  | divide_error_handler
  | double_fault_handler
  | page_fault_handler
  | timer_interrupt_handler_fn
  | keyboard_interrupt_handler_fn.

#[export] Instance handler_eq_dec : EqDecision handler.
Proof. solve_decision. Defined.

(** An entry: the handler, the interrupt stack it runs on, if any, and the
    privilege level from which software may raise the interrupt. *)
Record idt_entry : Set := mkEntry {
  entry_handler : handler;
  stack_index : option nat;
  privilege_level : Z
}.

#[export] Instance idt_entry_eq_dec : EqDecision idt_entry.
Proof. solve_decision. Defined.

(** Vectors of the named exceptions. *)
Definition divide_error : Z := 0.
Definition breakpoint : Z := 3.
Definition double_fault : Z := 8.
Definition page_fault : Z := 14.

(** [Entry::set_handler_fn] leaves the entry to the kernel; the source never
    calls [set_privilege_level]. *)
Definition set_handler_fn (v : Z) (h : handler) (idt : gmap Z idt_entry) : gmap Z idt_entry :=
  <[v := mkEntry h None 0]> idt.

Definition set_stack_index (v : Z) (i : nat) (idt : gmap Z idt_entry) : gmap Z idt_entry :=
  alter (fun e => mkEntry (entry_handler e) (Some i) (privilege_level e)) v idt.

(** [IDT], built in the order of the source. *)
Definition IDT : gmap Z idt_entry :=
  let idt := set_handler_fn breakpoint breakpoint_handler ∅ in
  let idt := set_handler_fn divide_error divide_error_handler idt in
  let idt := set_handler_fn double_fault double_fault_handler idt in
  let idt := set_stack_index double_fault Gdt.DOUBLE_FAULT_STACK_INDEX idt in
  let idt := set_handler_fn page_fault page_fault_handler idt in
  let idt := set_stack_index page_fault Gdt.PAGE_FAULT_STACK_INDEX idt in
  let idt := set_handler_fn (as_u8 TimerIndex) timer_interrupt_handler_fn idt in
  set_handler_fn (as_u8 KeyboardIndex) keyboard_interrupt_handler_fn idt.

(** [init_idt]: the table the processor uses from then on. *)
Definition init_idt : gmap Z idt_entry := IDT.

(** [pic8259::ChainedPics]: two controllers of eight interrupts each. *)
Class PicApi := {
  ChainedPics : Type;
  pics_new : Z -> Z -> ChainedPics;
  first_offset : ChainedPics -> Z;
  second_offset : ChainedPics -> Z;
  pics_initialize : ChainedPics -> ChainedPics;
  notify_end_of_interrupt : Z -> ChainedPics -> ChainedPics
}.

(** An end of interrupt concerns a controller, not a single interrupt of
    it. *)
Class PicLaws `{PicApi} : Prop := {
  new_first : forall a b, first_offset (pics_new a b) = a;
  new_second : forall a b, second_offset (pics_new a b) = b;
  initialize_offsets : forall p, first_offset (pics_initialize p) = first_offset p /\
    second_offset (pics_initialize p) = second_offset p;
  notify_offsets : forall i p, first_offset (notify_end_of_interrupt i p) = first_offset p /\
    second_offset (notify_end_of_interrupt i p) = second_offset p;
  notify_first : forall i j p,
    first_offset p <= i < first_offset p + 8 -> first_offset p <= j < first_offset p + 8 ->
    second_offset p = first_offset p + 8 ->
    notify_end_of_interrupt i p = notify_end_of_interrupt j p
}.

Section Handlers.
Context `{InterruptsApi} `{MutexApi} `{ArrayQueueApi} `{AtomicWakerApi} `{OnceCellApi} `{PicApi}.

(** The devices and the keyboard module; [data_port] is what port [0x60]
    holds. *)
Record machine : Type := mkMachine {
  keys : Keyboard.keyboard;
  PICS : mutex ChainedPics;
  data_port : Z
}.

Definition PICS_init : mutex ChainedPics := mutex_new (pics_new PIC_1_OFFSET PIC_2_OFFSET).

(** [PICS.lock().notify_end_of_interrupt(index)]. *)
Definition end_of_interrupt (i : InterruptIndex) : stateful machine unit := fun m =>
  let '(r, p) := with_lock (fun p => (Ret tt, notify_end_of_interrupt (as_u8 i) p)) (PICS m) in
  (r, mkMachine (keys m) p (data_port m)).

Definition timer_interrupt_handler : stateful machine unit := end_of_interrupt TimerIndex.

Definition keyboard_interrupt_handler : stateful machine unit :=
  scancode ← (fun m => (Ret (data_port m), m)) : stateful machine Z;
  _ ← (fun m => let '(r, k) := Keyboard.add_scancode scancode (keys m) in
                (r, mkMachine k (PICS m) (data_port m))) : stateful machine unit;
  end_of_interrupt TimerIndex.

End Handlers.

(** The table as a list. *)
Lemma IDT_entries :
  IDT = list_to_map
    [(0, mkEntry divide_error_handler None 0); (3, mkEntry breakpoint_handler None 0);
     (8, mkEntry double_fault_handler (Some 0%nat) 0); (14, mkEntry page_fault_handler (Some 1%nat) 0);
     (32, mkEntry timer_interrupt_handler_fn None 0); (33, mkEntry keyboard_interrupt_handler_fn None 0)].
Proof. apply (bool_decide_unpack _). vm_compute. exact I. Qed.

(** ** Properties *)

(** C35: The interrupt table has exactly six entries: the handlers of vectors
    0, 3, 8, 14, 32 and 33, all reserved to the kernel; double faults and page
    faults run on the separate stacks the task state segment gives them, and
    the others on the current or the privilege stack. *)
Theorem idt_handlers `{AddrLaws} s0 s1 s2 :
  Forall (fun s => 0 <= s /\ s + Gdt.STACK_SIZE < 2 ^ 47) [s0; s1; s2] ->
  (forall v e, IDT !! v = Some e <->
     (v, e) ∈ [(0, mkEntry divide_error_handler None 0); (3, mkEntry breakpoint_handler None 0);
       (8, mkEntry double_fault_handler (Some 0%nat) 0); (14, mkEntry page_fault_handler (Some 1%nat) 0);
       (32, mkEntry timer_interrupt_handler_fn None 0); (33, mkEntry keyboard_interrupt_handler_fn None 0)]) /\
  exists tss i j, Gdt.TSS s0 s1 s2 = Ret tss /\
    IDT !! double_fault = Some (mkEntry double_fault_handler (Some i) 0) /\
    IDT !! page_fault = Some (mkEntry page_fault_handler (Some j) 0) /\
    Gdt.interrupt_stack_table tss !! i = Some (s0 + Gdt.STACK_SIZE) /\
    Gdt.interrupt_stack_table tss !! j = Some (s1 + Gdt.STACK_SIZE) /\
    Gdt.privilege_stack_table tss !! 0%nat = Some (s2 + Gdt.STACK_SIZE).
Proof.
  intros Hs. split.
  - intros v e. rewrite IDT_entries. symmetry. apply elem_of_list_to_map.
    apply (bool_decide_unpack _). vm_compute. exact I.
  - rewrite (Gdt.TSS_ret s0 s1 s2 Hs). by eexists _, 0%nat, 1%nat.
Qed.

(** C34: A keyboard interrupt with the controllers unlocked stores the
    scancode from the data port as add_scancode does and acknowledges the
    interrupt: although it names the timer, the controllers end up as after an
    end of interrupt for the keyboard, because both belong to the first
    controller. *)
Theorem keyboard_interrupt_spec `{InterruptsApi} `{MutexLaws} `{ArrayQueueApi} `{AtomicWakerApi} `{OnceCellApi} `{PicLaws}
  m k :
  is_locked (PICS m) = false ->
  first_offset (contents (PICS m)) = PIC_1_OFFSET -> second_offset (contents (PICS m)) = PIC_2_OFFSET ->
  Keyboard.add_scancode (data_port m) (keys m) = (Ret tt, k) ->
  exists m', keyboard_interrupt_handler m = (Ret tt, m') /\ keys m' = k /\
    is_locked (PICS m') = false /\
    contents (PICS m') = notify_end_of_interrupt (as_u8 KeyboardIndex) (contents (PICS m)).
Proof.
  intros Hfree Ho1 Ho2 Ek. unfold keyboard_interrupt_handler.
  erewrite stateful_bind_ret by done. erewrite stateful_bind_ret by (by rewrite Ek).
  unfold end_of_interrupt. cbn [PICS].
  destruct (with_lock_free _ _ (fun p => (Ret tt, notify_end_of_interrupt (as_u8 TimerIndex) p)) _ Hfree)
    as (E1 & E2 & E3).
  destruct (with_lock _ (PICS m)) as [r p]. simpl in E1, E2, E3. subst r.
  eexists. split; [done|]. split_and!; [done|apply E3; by eexists|]. simpl. rewrite E2.
  apply notify_first; rewrite ?Ho1, ?Ho2; unfold as_u8, PIC_2_OFFSET; lia.
Qed.

(** ** The properties at concrete devices *)
Section Witnesses.
#[local] Existing Instance Ref.interrupts.
#[local] Existing Instance Ref.mutexes.
#[local] Existing Instance Ref.mutexes_laws.
#[local] Existing Instance Ref.array_queue.
#[local] Existing Instance Ref.atomic_wakers.
#[local] Existing Instance Ref.once_cells.

(** Controllers that count the ends of interrupts they are sent. *)
Definition counting_pics : PicApi := {|
  ChainedPics := (Z * Z * Z * Z)%type;
  pics_new := fun a b => (a, b, 0, 0);
  first_offset := fun p => p.1.1.1;
  second_offset := fun p => p.1.1.2;
  pics_initialize := fun p => p;
  notify_end_of_interrupt := fun i p =>
    let '(a, b, n, k) := p in
    if decide (b <= i < b + 8) then (a, b, n + 1, k + 1)
    else if decide (a <= i < a + 8) then (a, b, n + 1, k) else p
|}.

Lemma counting_pics_laws : @PicLaws counting_pics.
Proof.
  split; simpl; [done|done|done|..].
  - intros i [[[a b] n] k]. by repeat case_decide.
  - intros i j [[[a b] n] k] Hi Hj Hb. simpl in *. repeat case_decide; try done; lia.
Qed.

#[local] Existing Instance counting_pics.
#[local] Existing Instance counting_pics_laws.

Lemma idt_handlers_witness :
  exists tss i j, @Gdt.TSS Ref.addresses 0x10000 0x20000 0x30000 = Ret tss /\
    IDT !! double_fault = Some (mkEntry double_fault_handler (Some i) 0) /\
    IDT !! page_fault = Some (mkEntry page_fault_handler (Some j) 0) /\
    Gdt.interrupt_stack_table tss !! i = Some 0x15000 /\
    Gdt.interrupt_stack_table tss !! j = Some 0x25000 /\
    Gdt.privilege_stack_table tss !! 0%nat = Some 0x35000.
Proof.
  apply (@idt_handlers Ref.addresses Ref.addresses_laws 0x10000 0x20000 0x30000).
  repeat constructor; unfold Gdt.STACK_SIZE; lia.
Defined.

Definition key_stored : Keyboard.keyboard :=
  Keyboard.mkKeyboard (Some (128%nat, [30]) : option (nat * list Z)) (None : option Z)
    ((128%nat, []) : nat * list Z) Vga.boot_console.

Lemma keyboard_interrupt_spec_witness :
  exists m', keyboard_interrupt_handler
      (mkMachine (Keyboard.ScancodeStream_new Keyboard.unplugged) PICS_init 30) = (Ret tt, m') /\
    Keyboard.scancodes (keys m') = [30].
Proof.
  destruct (keyboard_interrupt_spec
    (mkMachine (Keyboard.ScancodeStream_new Keyboard.unplugged) PICS_init 30) key_stored)
    as (m' & E & Ek & _ & _); [reflexivity|reflexivity|reflexivity|reflexivity|].
  exists m'. split; [exact E|]. rewrite Ek. reflexivity.
Defined.

End Witnesses.

End Interrupts.
