(* ===== verification/Exceptions.v ===== *)
(** * Exceptions ([kernel/src/interrupts.rs])

    What the exception handlers do and how exceptions reach them through the
    interrupt table, page faults inside the page fault handler included; and
    [my_write], the Rust half of the breakpoint handler. *)
From S2P Require Import Prelude Fmt Platform RefPlatform Sys VgaBuffer Serial Panic Paging SyscallLib UserSlice.
From S2P Require Import Executor Keyboard Gdt Interrupts.

Module Exceptions.
Import Fmt Vga Serial Panic.

Record InterruptStackFrame : Set := mkFrame {
  instruction_pointer : Z;
  code_segment : Z;
  cpu_flags : Z;
  stack_pointer : Z;
  stack_segment : Z
}.

(** [{:?}] and [{:#?}] of the [x86_64] types. *)
Class FrameFmt := {
  frame_debug : InterruptStackFrame -> list Z;
  frame_pretty : InterruptStackFrame -> list Z;
  code_debug : Z -> list Z
}.

Section Operations.
Context `{InterruptsApi} `{MutexApi} `{SerialApi} `{PanicFmt} `{FrameFmt} {PT : Type} `{Mapper PT}.
(** The page table and memory, which the handlers only read. *)
Context (mapper : PT) (memory : Z -> Z).

Definition my_write (ptr len : Z) : stateful Host unit :=
  slice ← lift (UserSlice.slice_bytes mapper memory (SyscallLib.mkSlice ptr len));
  string ← lift (expect (from_utf8 slice));
  at_console (print [string]).

Definition divide_error_handler {A : Type} (frame : InterruptStackFrame) : stateful Host A :=
  _ ← at_console (println [str "got divide error!: "; frame_pretty frame]);
  lift (Stop SpinLoop).

Definition double_fault_handler {A : Type} (frame : InterruptStackFrame) (code : Z) : stateful Host A :=
  _ ← at_console (println [str "DOUBLE FAULT. Code: "; decimal code; [10]; frame_pretty frame]);
  exit_qemu Failed.

(** Reading a [u64] through a pointer. *)
Definition read_u64 (a : Z) : outcome Z :=
  bytes ← UserSlice.slice_bytes mapper memory (SyscallLib.mkSlice a 8);
  mret (foldr (fun b acc => b + 256 * acc) 0 bytes).

(** The message of the panic. *)
Definition page_fault_text (frame : InterruptStackFrame) (code top_of_stack : Z) : list Z :=
  concat [str "PAGE FAULT. Code: "; code_debug code; [10]; frame_debug frame; [10];
          str "top of stack: 0x"; upper_hex top_of_stack].

Definition page_fault_handler {A : Type} (frame : InterruptStackFrame) (code : Z) : stateful Host A :=
  top_of_stack ← lift (read_u64 (stack_pointer frame));
  panic (panic_info (page_fault_text frame code top_of_stack)).

(** An exception [v] of the code [frame] describes.  A vector without an
    entry in the table becomes a double fault with code zero.  The page fault
    handler can fault itself, when it reads the interrupted stack: [again]
    describes the handler at that moment, on its own stack.  The handlers that
    return to the interrupted code are [returning]. *)
Fixpoint raise {A : Type} (returning : Interrupts.handler -> stateful Host A) (fuel : nat) (again : InterruptStackFrame) (v : Z) (frame : InterruptStackFrame)
  (code : Z) : stateful Host A := fun h =>
  match fuel with
  | O => (Stop SpinLoop, h)
  | S fuel' =>
      match Interrupts.IDT !! v with
      | Some e =>
          match Interrupts.entry_handler e with
          | Interrupts.divide_error_handler => divide_error_handler frame h
          | Interrupts.page_fault_handler =>
              match page_fault_handler frame code h with
              | (Stop PageFault, h') => raise returning fuel' again Interrupts.page_fault again 0 h'
              | (Stop GeneralProtection, h') => double_fault_handler again 0 h'
              | r => r
              end
          | Interrupts.double_fault_handler => double_fault_handler frame code h
          | Interrupts.breakpoint_handler => returning Interrupts.breakpoint_handler h
          | Interrupts.timer_interrupt_handler_fn => returning Interrupts.timer_interrupt_handler_fn h
          | Interrupts.keyboard_interrupt_handler_fn => returning Interrupts.keyboard_interrupt_handler_fn h
          end
      | None => double_fault_handler frame 0 h
      end
  end.

End Operations.

(** ** Proofs *)
Section Proofs.
Context `{InterruptsLaws} `{MutexLaws} `{SerialApi} `{PanicFmt} `{FrameFmt} {PT : Type} `{Mapper PT}.
Context (mapper : PT) (memory : Z -> Z).

(** The console is free and shows [cur] on its bottom row. *)
Definition console_free (h : Host) (cur : list ScreenChar) : Prop :=
  is_locked (WRITER (host_console h)) = false /\ shows cur (contents (WRITER (host_console h))).

Lemma divide_error_spins {A} frame h cur :
  console_free h cur ->
  exists h', divide_error_handler (A := A) frame h = (Stop SpinLoop, h') /\
    line_printed cur (str "got divide error!: " ++ frame_pretty frame) h h' /\ port_writes h' = port_writes h.
Proof.
  intros [Hf Hs]. destruct (println_prints [str "got divide error!: "; frame_pretty frame] h cur Hf Hs)
    as (h1 & E1 & P & Hp). cbn [concat] in P. rewrite app_nil_r in P.
  exists h1. split; [|done]. unfold divide_error_handler. by rewrite (stateful_bind_ret _ _ _ _ _ E1).
Qed.

Definition double_fault_text (frame : InterruptStackFrame) (code : Z) : list Z :=
  str "DOUBLE FAULT. Code: " ++ decimal code ++ [10] ++ frame_pretty frame.

Lemma double_fault_exits {A} frame code h cur :
  console_free h cur ->
  exists h', double_fault_handler (A := A) frame code h = (Stop HltLoop, h') /\
    line_printed cur (double_fault_text frame code) h h' /\
    port_writes h' = port_writes h ++ [(0xf4, 0x11)].
Proof.
  intros [Hf Hs]. unfold double_fault_text.
  destruct (println_prints [str "DOUBLE FAULT. Code: "; decimal code; [10]; frame_pretty frame] h cur Hf Hs)
    as (h1 & E1 & P & Hp). cbn [concat] in P. rewrite app_nil_r in P.
  destruct (exit_qemu_stops (A := A) Failed h1) as (h2 & E2 & Hp2 & Hs2 & Hw2).
  exists h2. unfold double_fault_handler. rewrite (stateful_bind_ret _ _ _ _ _ E1).
  split_and!; [exact E2|exact (line_printed_kept _ _ _ _ _ P Hw2 Hs2)|by rewrite Hp2, Hp].
Qed.

Lemma page_fault_panics {A} frame code top h cur :
  console_free h cur -> read_u64 mapper memory (stack_pointer frame) = Ret top ->
  exists h', page_fault_handler mapper memory (A := A) frame code h = (Stop HltLoop, h') /\
    line_printed cur (panic_info (page_fault_text frame code top)) h h' /\ port_writes h' = port_writes h.
Proof.
  intros [Hf Hs] Er.
  destruct (panic_prints (A := A) (panic_info (page_fault_text frame code top)) h cur Hf Hs) as (h' & E & P).
  exists h'. split; [|done]. unfold page_fault_handler, mbind, stateful_bind, lift. by rewrite Er.
Qed.

(** [my_write] on bytes it can read. *)
Lemma my_write_runs ptr len bs h :
  UserSlice.slice_bytes mapper memory (SyscallLib.mkSlice ptr len) = Ret bs ->
  my_write mapper memory ptr len h =
    if valid_utf8 bs then at_console (print [bs]) h else (Stop ExpectFailed, h).
Proof.
  intros E. unfold my_write, mbind, stateful_bind, lift. rewrite E. unfold from_utf8. by destruct (valid_utf8 bs).
Qed.

(** A fault on the interrupted stack changes nothing before it is raised. *)
Lemma page_fault_faults {A} frame code r h :
  read_u64 mapper memory (stack_pointer frame) = Stop r ->
  page_fault_handler mapper memory (A := A) frame code h = (Stop r, h).
Proof. intros Er. unfold page_fault_handler, mbind, stateful_bind, lift. by rewrite Er. Qed.

End Proofs.

(** ** Properties *)

(** C21: What an exception does when the console is free and the page fault
    handler's own stack is mapped: a divide error prints and spins; a vector
    without a handler becomes a double fault, which prints and leaves the
    emulator with the failure code; a page fault panics with the word on top
    of the interrupted stack, or, when that stack is itself unmapped or not
    canonical, faults once more and reports its own frame. *)
Theorem exceptions_end_the_kernel `{InterruptsLaws} `{MutexLaws} `{SerialApi} `{PanicFmt} `{FrameFmt}
  {PT : Type} `{Mapper PT} (mapper : PT) memory {A : Type} returning again frame v code h cur top' :
  console_free h cur -> read_u64 mapper memory (stack_pointer again) = Ret top' ->
  let run := raise mapper memory (A := A) returning 2 again v frame code h in
  (v = 0 -> exists h', run = (Stop SpinLoop, h') /\
     line_printed cur (str "got divide error!: " ++ frame_pretty frame) h h') /\
  (Interrupts.IDT !! v = None -> exists h', run = (Stop HltLoop, h') /\
     line_printed cur (double_fault_text frame 0) h h' /\
     port_writes h' = port_writes h ++ [(0xf4, 0x11)]) /\
  (v = 14 ->
     (forall top, read_u64 mapper memory (stack_pointer frame) = Ret top ->
        exists h', run = (Stop HltLoop, h') /\
          line_printed cur (panic_info (page_fault_text frame code top)) h h') /\
     (read_u64 mapper memory (stack_pointer frame) = Stop PageFault ->
        exists h', run = (Stop HltLoop, h') /\
          line_printed cur (panic_info (page_fault_text again 0 top')) h h') /\
     (read_u64 mapper memory (stack_pointer frame) = Stop GeneralProtection ->
        exists h', run = (Stop HltLoop, h') /\
          line_printed cur (double_fault_text again 0) h h')).
Proof.
  intros Hfree Hagain run. unfold run. split_and!; [intros ->|intros Hnone|intros ->; split_and!].
  - clear Hagain. destruct (divide_error_spins (A := A) frame h cur Hfree) as (h' & E & P & _). by exists h'.
  - destruct (double_fault_exits (A := A) frame 0 h cur Hfree) as (h' & E & P & Hp).
    exists h'. split; [|done]. cbn [raise]. by rewrite Hnone.
  - intros top Er. destruct (page_fault_panics mapper memory (A := A) frame code top h cur Hfree Er) as (h' & E & P & _).
    exists h'. split; [|done]. change (raise mapper memory (A := A) returning 2 again 14 frame code h) with
      (match page_fault_handler mapper memory (A := A) frame code h with
       | (Stop PageFault, h') => raise mapper memory returning 1 again Interrupts.page_fault again 0 h'
       | (Stop GeneralProtection, h') => double_fault_handler again 0 h'
       | r => r
       end). by rewrite E.
  - intros Er. destruct (page_fault_panics mapper memory (A := A) again 0 top' h cur Hfree Hagain) as (h' & E & P & _).
    exists h'. split; [|done]. cbn [raise].
    change (Interrupts.IDT !! 14) with (Some (Interrupts.mkEntry Interrupts.page_fault_handler (Some 1%nat) 0)).
    change (Interrupts.IDT !! Interrupts.page_fault) with (Some (Interrupts.mkEntry Interrupts.page_fault_handler (Some 1%nat) 0)).
    cbn [Interrupts.entry_handler]. by rewrite (page_fault_faults mapper memory frame code PageFault h Er), E.
  - intros Er. destruct (double_fault_exits (A := A) again 0 h cur Hfree) as (h' & E & P & _).
    exists h'. split; [|done]. cbn [raise].
    change (Interrupts.IDT !! 14) with (Some (Interrupts.mkEntry Interrupts.page_fault_handler (Some 1%nat) 0)).
    cbn [Interrupts.entry_handler]. by rewrite (page_fault_faults mapper memory frame code GeneralProtection h Er).
Qed.

(** [my_write] prints text that is valid UTF-8 and panics, with nothing
    printed, on any other bytes. *)
Theorem my_write_spec `{InterruptsLaws} `{MutexLaws} `{SerialApi} {PT : Type} `{Mapper PT}
  (mapper : PT) memory ptr len bs h cur :
  console_free h cur -> UserSlice.slice_bytes mapper memory (SyscallLib.mkSlice ptr len) = Ret bs ->
  (valid_utf8 bs = true -> exists h', my_write mapper memory ptr len h = (Ret tt, h') /\
     is_locked (WRITER (host_console h')) = false /\
     let w := contents (WRITER (host_console h)) in
     buffer (contents (WRITER (host_console h'))) =
       lastn BUFFER_HEIGHT (take (BUFFER_HEIGHT - 1) (buffer w) ++ render (color_code w) cur (map printable bs))) /\
  (valid_utf8 bs = false -> my_write mapper memory ptr len h = (Stop ExpectFailed, h)).
Proof.
  intros [Hf Hs] E. rewrite (my_write_runs mapper memory ptr len bs h E).
  destruct (valid_utf8 bs); split; try done; intros _.
  destruct (print_shows [bs] (host_console h) cur Hf Hs) as (k & w' & Ek & (Hk1 & Hk2 & _) & Hb).
  eexists. split; [exact (at_console_ret _ _ _ _ Ek)|]. cbn [host_console]. rewrite Hk1.
  split; [exact Hk2|]. cbn [concat] in Hb. by rewrite app_nil_r in Hb.
Qed.

(** ** The properties at concrete states *)
Section Witnesses.
#[local] Existing Instance Ref.interrupts.
#[local] Existing Instance Ref.interrupts_laws.
#[local] Existing Instance Ref.mutexes.
#[local] Existing Instance Ref.mutexes_laws.
#[local] Existing Instance Ref.addresses.
#[local] Existing Instance Ref.addresses_laws.
#[local] Existing Instance Ref.flag_bits.
#[local] Existing Instance Ref.mapper.
#[local] Existing Instance wire.

(** Formatting that shows the instruction pointer. *)
Definition plain_frame : FrameFmt := {|
  frame_debug := fun f => upper_hex (instruction_pointer f);
  frame_pretty := fun f => upper_hex (instruction_pointer f);
  code_debug := decimal
|}.
#[local] Existing Instance plain_panic.
#[local] Existing Instance plain_frame.

(** The interrupted code ran on a page that is gone; the handler's own stack
    is mapped. *)
Definition lost_stack : InterruptStackFrame := mkFrame 0x1234 8 2 0x900000 16.
Definition handler_frame : InterruptStackFrame := mkFrame 0x200300 8 2 0x660800 16.
Definition zeroes : Z -> Z := fun _ => 0.

Lemma exceptions_end_the_kernel_witness :
  exists h', raise UserSlice.user_pages zeroes (A := unit) (fun _ h => (Ret tt, h)) 2 handler_frame 14
      lost_stack 2 idle_host = (Stop HltLoop, h') /\
    line_printed [] (panic_info (page_fault_text handler_frame 0 0)) idle_host h'.
Proof.
  destruct (exceptions_end_the_kernel UserSlice.user_pages zeroes (A := unit) (fun _ h => (Ret tt, h)) handler_frame
    lost_stack 14 2 idle_host [] 0) as (_ & _ & H14).
  - split; [reflexivity|apply blank_screen_shows].
  - vm_compute. reflexivity.
  - destruct (H14 eq_refl) as (_ & Hpf & _). apply Hpf. vm_compute. reflexivity.
Defined.

Lemma my_write_spec_witness :
  exists h', my_write UserSlice.user_pages (fun a => 65 + a mod 16) 0x660000 3 idle_host = (Ret tt, h') /\
    is_locked (WRITER (host_console h')) = false /\
    buffer (contents (WRITER (host_console h'))) =
      lastn 25 (take 24 blank_screen ++ render 14 [] (str "ABC")).
Proof.
  apply (my_write_spec UserSlice.user_pages (fun a => 65 + a mod 16) 0x660000 3 (str "ABC") idle_host []).
  - split; [reflexivity|apply blank_screen_shows].
  - vm_compute. reflexivity.
  - vm_compute. reflexivity.
Defined.

End Witnesses.

End Exceptions.
