(* ===== verification/System.v ===== *)
(** * The running system

    User code, system calls and hardware interrupts on one machine.  The
    machine's [world] is the kernel's state: the devices and the console
    ([Interrupts]) and physical memory.  The steps are the instructions of the
    program itself, whole system calls through [syscall_handler] and hardware
    interrupts through their gates; the file shows that every sequence of them
    keeps the kernel ready for the next one. *)
From S2P Require Import Prelude Platform RefPlatform Sys VgaBuffer Paging SyscallLib UserSlice SyscallHandler.
From S2P Require Import Machine ThreadData SyscallAbi InterruptAbi Executor Keyboard Gdt Interrupts.

Module System.
Import Machine ThreadData SyscallAbi InterruptAbi.

Section Operations.
Context `{Build} `{InterruptsApi} `{MutexApi} `{AddrApi} `{FlagBits} {PT : Type} `{Mapper PT}.
Context `{ArrayQueueApi} `{AtomicWakerApi} `{OnceCellApi} `{Interrupts.PicApi}.

Record system : Type := mkSystem {
  devices : Interrupts.machine;
  physical : Z -> Z
}.

Definition console_of (s : system) : Vga.Console := Keyboard.screen (Interrupts.keys (devices s)).

(** The console and memory, as system calls see them, and put back. *)
Definition kernel_of (s : system) : SyscallHandler.Kernel := SyscallHandler.mkKernel (console_of s) (physical s).
Definition put_kernel (k : SyscallHandler.Kernel) (s : system) : system :=
  let d := devices s in let kb := Interrupts.keys d in
  mkSystem (Interrupts.mkMachine
    (Keyboard.mkKeyboard (Keyboard.SCANCODE_QUEUE kb) (Keyboard.WAKER kb) (Keyboard.task_queue kb)
       (SyscallHandler.console k))
    (Interrupts.PICS d) (Interrupts.data_port d)) (SyscallHandler.memory k).

(** [syscall_handler_inner] on the whole state. *)
Definition syscall (mapper : PT) (c : SyscallLib.call) : stateful system Z := fun s =>
  let '(r, k) := SyscallHandler.syscall_handler_inner mapper c (kernel_of s) in (r, put_kernel k s).

(** The two interrupt handlers on the whole state. *)
Definition on_devices (f : stateful Interrupts.machine unit) : stateful system unit := fun s =>
  let '(r, d) := f (devices s) in (r, mkSystem d (physical s)).
Definition timer : stateful system unit := on_devices Interrupts.timer_interrupt_handler.
Definition keyboard : stateful system unit := on_devices Interrupts.keyboard_interrupt_handler.

(** A key is pressed: the data port holds its scancode. *)
Definition key_pressed (scancode : Z) (s : system) : system :=
  mkSystem (Interrupts.mkMachine (Interrupts.keys (devices s)) (Interrupts.PICS (devices s)) scancode) (physical s).

(** ** Steps *)

Context (E : env system) (mapper : PT) (user_mem : Z -> Prop).

Definition timer_vector : Z := Interrupts.as_u8 Interrupts.TimerIndex.
Definition keyboard_vector : Z := Interrupts.as_u8 Interrupts.KeyboardIndex.
Definition interrupts_on (m : machine system) : Prop := Z.testbit (rflags m) 9 = true.

(** One instruction of the program: it changes its registers and its own
    memory, not the kernel's state, and cannot turn interrupts off. *)
Record user_instr (m m' : machine system) : Prop := {
  ui_ring : ring m = User /\ ring m' = User;
  ui_rip : is_u64 (rip m');
  ui_flags : sysret_flags (rflags m') = rflags m' /\ interrupts_on m';
  ui_regs : forall r, is_u64 (regs m' r);
  ui_kernel_gs : kernel_gs_base m' = kernel_gs_base m;
  ui_mem : forall a, ~ user_mem a -> mem m' a = mem m a;
  ui_world : world m' = world m
}.

Inductive sys_step : machine system -> machine system -> Prop :=
  | step_user m m' : user_instr m m' -> sys_step m m'
  | step_syscall m ret v w m' :
      ring m = User -> code E (rip m) = Some (SYSCALL, ret) ->
      syscall mapper (syscall_args m) (world m) = (Ret v, w) ->
      run E 14 m = Some m' -> sys_step m m'
  | step_timer m m' :
      interrupts_on m -> interrupt E timer_vector sym_timer_interrupt_handler m = Some m' -> sys_step m m'
  | step_keyboard scancode m m' :
      interrupts_on m ->
      interrupt E keyboard_vector sym_keyboard_interrupt_handler
        (set_world (key_pressed scancode (world m)) m) = Some m' -> sys_step m m'.

(** What the kernel's image and tables are: the entry code, gates without a
    stack of their own (as in [IDT]), and compiled functions that behave as
    their translations, on stacks apart from the thread data. *)
Definition protected (td a : Z) : Prop := user_mem a \/ inside td (td + 16) a.

Record linked (td kr : Z) : Prop := {
  ln_code : code_u64 E;
  ln_handler : exists e, assembled E (LStar (ctl E)) syscall_handler e;
  ln_sce : SYSTEM_CALL_EXTENSIONS (ctl E) = true;
  ln_layout : kernel_layout td kr;
  ln_user : forall a, user_mem a -> foreign td kr a;
  ln_inner : computes E (syscall mapper) td kr user_mem;
  ln_timer_gate : exists h, gates E timer_vector = Some (h, None);
  ln_keyboard_gate : exists h, gates E keyboard_vector = Some (h, None);
  ln_rsp0 : 56 <= rsp0 E < u64_modulus;
  ln_stack : forall a, protected td a -> ~ inside (rsp0 E - 56) (rsp0 E) a;
  ln_timer : handles E sym_timer_interrupt_handler timer (protected td);
  ln_keyboard : handles E sym_keyboard_interrupt_handler keyboard (protected td)
}.

(** The kernel's state between steps: nobody holds a lock, the screen is well
    formed, and no task reads the keyboard. *)
Record calm (s : system) : Prop := {
  calm_console : Vga.console_ok (console_of s);
  calm_pics : is_locked (Interrupts.PICS (devices s)) = false;
  calm_keys : try_get (Keyboard.SCANCODE_QUEUE (Interrupts.keys (devices s))) = None
}.

(** The machine between steps. *)
Record sys_ok (td kr : Z) (m : machine system) : Prop := {
  ok_ready : user_ready td kr m;
  ok_rip : is_u64 (rip m);
  ok_on : interrupts_on m;
  ok_calm : calm (world m)
}.

End Operations.

(** ** Proofs *)
Section Proofs.
Context `{Build} `{InterruptsLaws} `{MutexLaws} `{AddrLaws} `{FlagLaws} {PT : Type} `{!Mapper PT, !MapperLaws PT}.
Context `{ArrayQueueApi} `{AtomicWakerApi} `{OnceCellApi} `{Interrupts.PicApi}.

Lemma syscall_calm mapper c s v w : calm s -> syscall mapper c s = (Ret v, w) -> calm w.
Proof.
  intros [Hc Hp Hk]. unfold syscall.
  destruct (SyscallHandler.syscall_handler_inner mapper c (kernel_of s)) as [r k] eqn:Ek. intros [= -> <-].
  destruct (SyscallHandler.handler_keeps mapper c (kernel_of s) v k Hc Ek) as [Hok _]. by split.
Qed.

(** Acknowledging an interrupt with the controllers free. *)
Lemma end_of_interrupt_ret i d :
  is_locked (Interrupts.PICS d) = false ->
  exists d', Interrupts.end_of_interrupt i d = (Ret tt, d') /\
    Interrupts.keys d' = Interrupts.keys d /\ is_locked (Interrupts.PICS d') = false.
Proof.
  intros Hfree. unfold Interrupts.end_of_interrupt.
  destruct (with_lock_free _ _ (fun p => (Ret tt, Interrupts.notify_end_of_interrupt (Interrupts.as_u8 i) p)) _ Hfree)
    as (E1 & _ & E3). destruct (with_lock _ (Interrupts.PICS d)) as [r p]. simpl in E1, E3. subst r.
  eexists. split; [done|]. split; [done|]. apply E3. by eexists.
Qed.

Lemma timer_calm s : calm s -> exists w, timer s = (Ret tt, w) /\ calm w.
Proof.
  intros [Hc Hp Hk]. unfold timer, on_devices, Interrupts.timer_interrupt_handler.
  destruct (end_of_interrupt_ret Interrupts.TimerIndex (devices s) Hp) as (d & E & Ek & Hd).
  rewrite E. eexists. split; [done|]. split; unfold console_of; simpl; by rewrite ?Ek.
Qed.

Lemma keyboard_calm s : calm s -> exists w, keyboard s = (Ret tt, w) /\ calm w.
Proof.
  intros [Hc Hp Hk]. unfold keyboard, on_devices, Interrupts.keyboard_interrupt_handler.
  destruct (Vga.println_ok [Keyboard.warning_text] (console_of s) Hc) as (c & Ec & Hok & _).
  erewrite stateful_bind_ret by done.
  erewrite stateful_bind_ret by (unfold Keyboard.add_scancode; rewrite Hk; unfold console_of in Ec; by rewrite Ec).
  match goal with |- context [Interrupts.end_of_interrupt _ ?x] => set (d := x) end.
  destruct (end_of_interrupt_ret Interrupts.TimerIndex d Hp) as (d' & E & Ek & Hd).
  rewrite E. eexists. split; [done|]. split; unfold console_of; simpl; by rewrite ?Ek.
Qed.

Context (E : env system) (mapper : PT) (user_mem : Z -> Prop) (td kr : Z).
Context (L : linked E mapper user_mem td kr).
Implicit Types m : machine system.

(** The thread data is intact where memory agrees on it. *)
Lemma td_word f g :
  (forall a, inside td (td + 16) a -> g a = f a) ->
  load64 g (td + kernel_rsp_offset) = load64 f (td + kernel_rsp_offset).
Proof.
  intros Hfg. apply load64_ext. intros a Ha. apply Hfg. unfold inside, kernel_rsp_offset in *. lia.
Qed.

Lemma rsp0_top m : ring m = User -> frame_top E None m = rsp0 E - rsp0 E mod 16 /\
  40 <= frame_top E None m < u64_modulus.
Proof.
  intros Hr. unfold frame_top. rewrite Hr. split; [done|].
  pose proof (ln_rsp0 _ _ _ _ _ L). pose proof (Z.mod_pos_bound (rsp0 E) 16). lia.
Qed.

Lemma user_instr_ok m m' : sys_ok td kr m -> user_instr user_mem m m' -> sys_ok td kr m'.
Proof.
  intros [[Hring Hgs Hkr Hfl Hregs] Hrip Hon Hc] [[_ U1] U2 [U3 U3'] U4 U5 U6 U7].
  split; [split; [done|congruence| |done|done]|done|done|by rewrite U7].
  rewrite <- Hkr. apply td_word. intros a Ha. apply U6. intros Hu.
  by destruct (ln_user _ _ _ _ _ L a Hu) as [Hn _].
Qed.

Lemma syscall_ok m ret v w :
  sys_ok td kr m -> code E (rip m) = Some (SYSCALL, ret) ->
  syscall mapper (syscall_args m) (world m) = (Ret v, w) ->
  exists m', run E 14 m = Some m' /\ resumed td kr ret v w user_mem m m' /\ sys_ok td kr m'.
Proof.
  intros [Hr Hrip Hon Hc] Ec Ev. destruct (ln_handler _ _ _ _ _ L) as [e Hh].
  destruct (syscall_resumes E (ln_code _ _ _ _ _ L) e m td kr ret user_mem (syscall mapper) v w)
    as (m' & E' & R); [done|apply L|done|done|apply L|apply L|apply L|done|].
  exists m'. split; [done|]. split; [done|]. split; [apply R| | |].
  - rewrite (re_rip _ _ _ _ _ _ _ _ R). by eapply (ln_code _ _ _ _ _ L).
  - unfold interrupts_on. by rewrite (re_flags _ _ _ _ _ _ _ _ R).
  - rewrite (re_world _ _ _ _ _ _ _ _ R). by eapply syscall_calm.
Qed.

(** Either hardware interrupt, given its gate, function and effect. *)
Lemma interrupt_ok v f body m w :
  sys_ok td kr m -> (exists h, gates E v = Some (h, None)) ->
  handles E f body (protected user_mem td) -> body (world m) = (Ret tt, w) -> calm w ->
  exists m', interrupt E v f m = Some m' /\ undisturbed (protected user_mem td) w m m' /\ sys_ok td kr m'.
Proof.
  intros [[Hring Hgs Hkr Hfl Hregs] Hrip Hon Hc] [h Hg] Hf Eb Hw.
  destruct (rsp0_top m Hring) as [Etop Htop].
  destruct (interrupt_undisturbed E v f h None body (protected user_mem td) m w) as (m' & E' & U);
    [done|done|done|by apply sysret_flags_u64|done| |done|done|].
  { intros a Ha Hin. apply (ln_stack _ _ _ _ _ L a Ha). rewrite Etop in Hin.
    pose proof (Z.mod_pos_bound (rsp0 E) 16). unfold inside in *. lia. }
  assert (rflags m' = rflags m) as Ef by (rewrite (un_flags _ _ _ _ U); by apply iretq_flags_user).
  exists m'. split; [done|]. split; [done|]. split; [split| | |].
  - by rewrite (un_ring _ _ _ _ U).
  - by rewrite (un_kernel_gs _ _ _ _ U).
  - rewrite <- Hkr. apply td_word. intros a Ha. apply (un_mem _ _ _ _ U). by right.
  - by rewrite Ef.
  - intros r. by rewrite (un_regs _ _ _ _ U).
  - by rewrite (un_rip _ _ _ _ U).
  - unfold interrupts_on. by rewrite Ef.
  - by rewrite (un_world _ _ _ _ U).
Qed.

Lemma timer_ok m :
  sys_ok td kr m ->
  exists w m', interrupt E timer_vector sym_timer_interrupt_handler m = Some m' /\
    undisturbed (protected user_mem td) w m m' /\ sys_ok td kr m'.
Proof.
  intros Hok. destruct (timer_calm (world m) (ok_calm _ _ _ Hok)) as (w & Ew & Hw). exists w.
  by apply (interrupt_ok _ _ timer); [..|apply L|apply L| |].
Qed.

Lemma keyboard_ok scancode m :
  sys_ok td kr m ->
  let m0 := set_world (key_pressed scancode (world m)) m in
  exists w m', interrupt E keyboard_vector sym_keyboard_interrupt_handler m0 = Some m' /\
    undisturbed (protected user_mem td) w m0 m' /\ sys_ok td kr m'.
Proof.
  intros [[Hring Hgs Hkr Hfl Hregs] Hrip Hon [Hc1 Hc2 Hc3]] m0.
  assert (calm (world m0)) as Hcalm by done.
  destruct (keyboard_calm (world m0) Hcalm) as (w & Ew & Hw). exists w.
  by apply (interrupt_ok _ _ keyboard); [|apply L|apply L| |].
Qed.

Lemma sys_step_ok m m' : sys_ok td kr m -> sys_step E mapper user_mem m m' -> sys_ok td kr m'.
Proof.
  intros Hok Hs. destruct Hs as [m m' Hu|m ret v w m' Hr Ec Ev Er|m m' _ Ei|sc m m' _ Ei].
  - by apply (user_instr_ok m).
  - destruct (syscall_ok m ret v w Hok Ec Ev) as (m2 & E2 & _ & Hok2). congruence.
  - destruct (timer_ok m Hok) as (w & m2 & E2 & _ & Hok2). congruence.
  - destruct (keyboard_ok sc m Hok) as (w & m2 & E2 & _ & Hok2). congruence.
Qed.

End Proofs.

(** ** Properties *)

(** C3: The running system as one transition system of user instructions,
    system calls through the kernel's entry assembly, and timer and keyboard
    interrupts at any moment: every reachable machine is still ready for the
    next event. A system call whose handler returns is back after 14
    instructions with its result and the user's memory and stack intact, and
    either hardware interrupt is handled without a trace in the interrupted
    program. *)
Theorem system_stays_ready `{Build} `{InterruptsLaws} `{MutexLaws} `{AddrLaws} `{FlagLaws}
  {PT : Type} `{!Mapper PT, !MapperLaws PT}
  `{ArrayQueueApi} `{AtomicWakerApi} `{OnceCellApi} `{Interrupts.PicApi}
  (E : env system) (mapper : PT) user_mem td kr m0 m :
  linked E mapper user_mem td kr -> sys_ok td kr m0 -> rtc (sys_step E mapper user_mem) m0 m ->
  sys_ok td kr m /\
  (forall ret, code E (rip m) = Some (SYSCALL, ret) ->
     match syscall mapper (syscall_args m) (world m) with
     | (Ret v, w) => exists m', run E 14 m = Some m' /\ sys_step E mapper user_mem m m' /\
         resumed td kr ret v w user_mem m m'
     | (Stop _, _) => True
     end) /\
  (exists w m', interrupt E timer_vector sym_timer_interrupt_handler m = Some m' /\
     sys_step E mapper user_mem m m' /\ undisturbed (protected user_mem td) w m m') /\
  (forall scancode, let mk := set_world (key_pressed scancode (world m)) m in
     exists w m', interrupt E keyboard_vector sym_keyboard_interrupt_handler mk = Some m' /\
       sys_step E mapper user_mem m m' /\ undisturbed (protected user_mem td) w mk m').
Proof.
  intros L Hok0 Hrtc.
  assert (sys_ok td kr m) as Hok
    by (by apply (rtc_preserved (sys_ok td kr) _ (sys_step_ok E mapper user_mem td kr L) m0)).
  split_and!; [done|intros ret Ec| |intros scancode mk].
  - destruct (syscall mapper (syscall_args m) (world m)) as [[v|] w] eqn:Ev; [|done].
    destruct (syscall_ok E mapper user_mem td kr L m ret v w Hok Ec Ev) as (m' & E' & R & _).
    exists m'. split_and!; [done| |done]. eapply step_syscall; [apply Hok|done..].
  - destruct (timer_ok E mapper user_mem td kr L m Hok) as (w & m' & E' & U & _).
    exists w, m'. split_and!; [done| |done]. apply step_timer; [apply Hok|done].
  - destruct (keyboard_ok E mapper user_mem td kr L scancode m Hok) as (w & m' & E' & U & _).
    exists w, m'. split_and!; [done| |done]. apply (step_keyboard _ _ _ scancode); [apply Hok|done].
Qed.

(** ** The property at a concrete system *)
Section Witnesses.
#[local] Existing Instance dev_build.
#[local] Existing Instance Ref.interrupts.
#[local] Existing Instance Ref.interrupts_laws.
#[local] Existing Instance Ref.mutexes.
#[local] Existing Instance Ref.mutexes_laws.
#[local] Existing Instance Ref.addresses.
#[local] Existing Instance Ref.addresses_laws.
#[local] Existing Instance Ref.flag_bits.
#[local] Existing Instance Ref.flag_bits_laws.
#[local] Existing Instance Ref.mapper.
#[local] Existing Instance Ref.mapper_laws.
#[local] Existing Instance Ref.array_queue.
#[local] Existing Instance Ref.atomic_wakers.
#[local] Existing Instance Ref.once_cells.
#[local] Existing Instance Interrupts.counting_pics.

Abbreviation pages := UserSlice.user_pages.

(** A program that makes one system call after another, and the handler. *)
Definition image (a : Z) : option (instr * Z) :=
  match placed 0x660000 [SYSCALL; SYSCALL] a with
  | Some r => Some r
  | None => placed 0x200000 syscall_handler a
  end.

(** Compiled functions that do what their translations say and touch no
    memory. *)
Definition return_to (v : Z) (w : system) (m : machine system) : machine system :=
  set_world w (jump (load64 (mem m) (regs m rsp)) (set rax v (set rsp (regs m rsp + 8) m))).
Definition return_from_interrupt (w : system) (m : machine system) : machine system :=
  let sp := regs m rsp in
  set_world w (switch (if decide (Z.land (load64 (mem m) (sp + 8)) 3 = 0) then Kernel else User)
    (load64 (mem m) sp) (iretq_flags (load64 (mem m) (sp + 16))) (set rsp (load64 (mem m) (sp + 24)) m)).

Definition compiled (f : symbol) (m : machine system) : option (machine system) :=
  match f with
  | sym_syscall_handler_inner =>
      match syscall pages (args m) (world m) with
      | (Ret v, w) => Some (return_to v w m)
      | _ => None
      end
  | sym_timer_interrupt_handler =>
      match timer (world m) with (Ret _, w) => Some (return_from_interrupt w m) | _ => None end
  | sym_keyboard_interrupt_handler =>
      match keyboard (world m) with (Ret _, w) => Some (return_from_interrupt w m) | _ => None end
  | _ => None
  end.

Definition sample_env : env system :=
  mkEnv image compiled (mkControl 0x200000 0x200 true true)
    (fun v => if v =? 32 then Some (0x210000, None) else if v =? 33 then Some (0x211000, None) else None)
    (fun _ => false) 0x170008 0x10.

Definition in_image (a : Z) : Prop := inside 0x660000 0x670000 a.

Lemma system_image_u64 : code_u64 sample_env.
Proof.
  intros a i n. simpl. unfold image. intros E1. destruct (placed 0x660000 _ _) as [[]|] eqn:E2; simplify_eq;
    [by eapply (placed_u64 0x660000)|by eapply (placed_u64 0x200000)].
Qed.

Lemma sample_linked : linked sample_env pages in_image 0x444444440000 0x180000.
Proof.
  split.
  - apply system_image_u64.
  - eexists. repeat (eexists; split; [vm_compute; reflexivity|]). reflexivity.
  - reflexivity.
  - split; unfold is_u64, u64_modulus, apart; lia.
  - unfold in_image, foreign, inside. lia.
  - intros m v w Hring Hrsp Hregs Ev. exists (return_to v w m). split; [cbn [calls sample_env compiled]; by rewrite Ev|].
    assert (is_u64 v) as Hv.
    { unfold syscall in Ev. destruct (SyscallHandler.syscall_handler_inner _ _ _) as [r k] eqn:Ek.
      injection Ev as -> _. by eapply SyscallHandler.handler_u64. }
    split; try done; cbn; intros r; [intros Hr|].
    + unfold callee_saved in Hr. rewrite !elem_of_cons, elem_of_nil in Hr.
      repeat (destruct Hr as [->|Hr]; [reflexivity|]). done.
    + repeat case_decide; [done|rewrite Hrsp; unfold is_u64, u64_modulus; lia|done].
  - by eexists.
  - by eexists.
  - unfold u64_modulus. simpl. lia.
  - unfold protected, in_image, inside. simpl. lia.
  - intros m w Hring Ew. exists (return_from_interrupt w m). split; [cbn [calls sample_env compiled]; by rewrite Ew|].
    split; try done; cbn; intros r Hr; by rewrite decide_False.
  - intros m w Hring Ew. exists (return_from_interrupt w m). split; [cbn [calls sample_env compiled]; by rewrite Ew|].
    split; try done; cbn; intros r Hr; by rewrite decide_False.
Qed.

(** The program about to make a call with the unknown number 9. *)
Definition sample_system : system :=
  mkSystem (Interrupts.mkMachine Keyboard.unplugged Interrupts.PICS_init 0) (fun _ => 65).
Definition sample_machine : machine system :=
  mkMachine (fun r => match r with rdi => 9 | rsp => 0x66ff00 | _ => 0 end)
    0x660000 0x202 0 0x444444440000 User (store64 0x444444440000 0x180000 (fun _ => 0)) sample_system.

Lemma sample_ok : sys_ok 0x444444440000 0x180000 sample_machine.
Proof.
  split; [split; [reflexivity..|]| |reflexivity|].
  - intros r. unfold is_u64, u64_modulus. destruct r; simpl; lia.
  - unfold is_u64, u64_modulus. simpl. lia.
  - split; [split; [reflexivity|apply Vga.blank_screen_wf]|reflexivity|reflexivity].
Qed.

Lemma system_stays_ready_witness :
  exists m', run sample_env 14 sample_machine = Some m' /\ rip m' = 0x660001 /\ regs m' rax = 0 /\
    sys_step sample_env pages in_image sample_machine m'.
Proof.
  destruct (system_stays_ready sample_env pages in_image 0x444444440000 0x180000 sample_machine sample_machine)
    as (_ & Hsys & _); [apply sample_linked|apply sample_ok|apply rtc_refl|].
  specialize (Hsys 0x660001 eq_refl).
  change (syscall pages (syscall_args sample_machine) (world sample_machine)) with ((Ret 0 : outcome Z, sample_system)) in Hsys.
  destruct Hsys as (m' & E & S & R). exists m'. split; [exact E|].
  split; [exact (re_rip _ _ _ _ _ _ _ _ R)|]. split; [exact (re_rax _ _ _ _ _ _ _ _ R)|exact S].
Defined.

End Witnesses.

End System.
