(* ===== verification/Boot.v ===== *)
(** * Boot ([kernel/src/main.rs], [kernel/src/lib.rs])

    [kernel_main] puts the parts together: it initialises the processor's
    tables, the heap, the thread data and the user stack, loads the embedded
    program and enters it in user mode. *)
From S2P Require Import Prelude Platform RefPlatform Paging Memory FrameAlloc Bump KernelHeap ElfTypes ElfLoad.
From S2P Require Import Machine ThreadData SyscallAbi Gdt Interrupts.

Module Boot.
Import ElfTypes.

Definition stack_size : Z := 4096 * 4.

(** What [zulu_os::init] sets up. *)
Record hardware `{MutexApi} `{Interrupts.PicApi} : Type := mkHardware {
  segment_registers : Gdt.segments;
  loaded_idt : gmap Z Interrupts.idt_entry;
  PICS : mutex Interrupts.ChainedPics;
  syscall_registers : Machine.control
}.

(** [zulu_os::init]; [syscall_entry] is the address of the entry code and
    [ctl] what the bootloader left in the registers. *)
Definition init `{AddrApi} `{MutexApi} `{Gdt.GdtApi} `{Interrupts.PicApi}
  (has_fsgsbase : bool) (syscall_entry : Z) (ctl : Machine.control) : outcome hardware :=
  segs ← Gdt.gdt_init has_fsgsbase;
  let idt := Interrupts.init_idt in
  let '(r, pics) := with_lock (fun p => (Ret tt, Interrupts.pics_initialize p)) Interrupts.PICS_init in
  _ ← r;
  ctl ← SyscallAbi.init syscall_entry ctl;
  mret (mkHardware _ _ segs idt pics ctl).

(** What [enter_user_mode] is called with, and the kernel at that moment. *)
Record user_start {HW PT FA : Type} : Type := mkStart {
  hw : HW;
  entry : Z;
  top_of_stack : Z;
  thread_data : Z;
  thread : ThreadData.ThreadData;
  MAPPER : option PT;
  frames : FA;
  heap : Bump.BumpAllocator;
  ram : gmap Z Z
}.
Arguments user_start : clear implicits.

Section Operations.
Context `{Build} `{AddrApi} `{MutexApi} `{Gdt.GdtApi} `{Interrupts.PicApi} `{FlagBits} `{BootInfoApi}
  `{ElfConsts} `{ElfApi} {PT : Type} `{Mapper PT} `{Memory.OffsetApi PT}.

Definition stack_flags : Z := flags_union (flags_union PRESENT USER_ACCESSIBLE) WRITABLE.

(** The pages of the user stack. *)
Definition user_stack : outcome (Z * list Z) :=
  a ← VirtAddr_new 0xDEADBEEF;
  let lowest_stack_page := Page_containing_address a in
  e ← VirtAddr_add lowest_stack_page stack_size;
  let highest_stack_page := Page_containing_address e in
  mret (lowest_stack_page, Page_range lowest_stack_page highest_stack_page).

Definition map_stack_page {FA : Type} `{FrameAllocator FA} (page : Z) (s : PT * FA) : outcome (PT * FA) :=
  let '(mapper, frame_allocator) := s in
  '(o, frame_allocator) ← allocate_frame frame_allocator;
  frame ← unwrap o;
  '(r, mapper, frame_allocator) ← map_to page frame stack_flags mapper frame_allocator;
  _ ← expect r;
  mret (mapper, frame_allocator).

(** [alloc_error_handler] panics. *)
Definition alloc_error_handler {A : Type} (layout : Bump.Layout) : outcome A := Stop ExplicitPanic.

(** [Box::new(ThreadData)]: 16 bytes, 8-aligned; a null pointer ends in
    [alloc_error_handler]. *)
Definition box_thread_data (heap : Bump.BumpAllocator) : outcome (Z * Bump.BumpAllocator) :=
  let layout := Bump.mkLayout 16 8 in
  '(p, heap) ← Bump.alloc layout heap;
  if decide (p = Bump.null_mut) then alloc_error_handler layout else
  a ← VirtAddr_new p;
  mret (a, heap).

#[local] Existing Instance FrameAlloc.BootInfoFrameAllocator_trait.

(** What the kernel finds: the features and registers of the processor, the
    frame in [Cr3], the tables at virtual addresses, the boot information and
    the memory the bootloader left. *)
Record boot_info : Type := mkBoot {
  has_fsgsbase : bool;
  syscall_entry : Z;
  boot_control : Machine.control;
  level4_frame : Z;
  table_at : Z -> Memory.PageTable;
  physical_memory_offset : Z;
  memory_map : list MemoryRegion;
  boot_memory : gmap Z Z
}.

(** The closure that sets up the heap. *)
Definition setup_heap (memory_map : list MemoryRegion) (mapper : PT)
  : outcome (FrameAlloc.BootInfoFrameAllocator * Bump.BumpAllocator * PT) :=
  let frame_allocator := FrameAlloc.init memory_map in
  '(r, mapper, frame_allocator, heap) ← KernelHeap.init_kernel_heap mapper frame_allocator Bump.new;
  _ ← expect r;
  mret (frame_allocator, heap, mapper).

(** The closure that maps the user stack and loads the program. *)
Definition setup_process (user_stack : list Z) (CHILD_PROCESS : list Z) (mem : gmap Z Z)
  (frame_allocator : FrameAlloc.BootInfoFrameAllocator) (mapper : PT)
  : outcome (ElfFile * FrameAlloc.BootInfoFrameAllocator * gmap Z Z * PT) :=
  '(mapper, frame_allocator) ← for_each user_stack map_stack_page (mapper, frame_allocator);
  '(bin, mapper, frame_allocator, mem) ← ElfLoad.load CHILD_PROCESS mapper frame_allocator mem;
  mret (bin, frame_allocator, mem, mapper).

Definition kernel_main (boot : boot_info) (rsp : Z) (CHILD_PROCESS : list Z)
  : outcome (user_start hardware PT FrameAlloc.BootInfoFrameAllocator) :=
  hw ← init (has_fsgsbase boot) (syscall_entry boot) (boot_control boot);
  phys_mem_offset ← VirtAddr_new (physical_memory_offset boot);
  '(g, MAPPER) ← Memory.init (level4_frame boot) (table_at boot) phys_mem_offset;
  '(frame_allocator, heap, MAPPER) ← Memory.with_mapper g (setup_heap (memory_map boot)) MAPPER;
  let data := ThreadData.mkThreadData (ThreadData.NonZeroU64_new rsp) None in
  '(td, heap) ← box_thread_data heap;
  '(lowest_stack_page, pages) ← user_stack;
  g ← Memory.mapper MAPPER;
  '(bin, frame_allocator, mem, MAPPER) ←
    Memory.with_mapper g (setup_process pages CHILD_PROCESS (boot_memory boot) frame_allocator) MAPPER;
  top ← uadd lowest_stack_page stack_size;
  mret (mkStart _ _ _ hw (entry_point bin) top td data MAPPER frame_allocator heap mem).

(** The mapper [memory::init] makes. *)
Definition boot_table (boot : boot_info) : PT :=
  Memory.OffsetPageTable_new (table_at boot (physical_memory_offset boot + level4_frame boot))
    (physical_memory_offset boot).

End Operations.

(** ** What has to hold for the kernel to boot *)
Section Proofs.
Context `{Build} `{AddrLaws} `{FlagLaws} `{BootInfoLaws} `{ElfConsts} {PT : Type} `{!Mapper PT, !MapperLaws PT}.
#[local] Existing Instance FrameAlloc.BootInfoFrameAllocator_trait.
#[local] Existing Instance FrameAlloc.BootInfoFrameAllocator_source.

Definition STACK_BOTTOM : Z := 0xDEADB000.
Definition STACK_TOP : Z := 0xDEADF000.
Definition in_stack (a : Z) : Prop := STACK_BOTTOM <= a < STACK_TOP.

(** The embedded program is well formed and its image, the heap and the
    stack are unmapped and apart from each other; there are frames for all
    three. *)
Record bootable (bytes : list Z) (phs : list ProgramHeader64) (e t : Z) (pt : PT)
  (fa : FrameAlloc.BootInfoFrameAllocator) : Prop := {
  bt_headers : Forall ElfLoad.header_ok phs;
  bt_text : ElfLoad.default_text_addr (omap ElfLoad.segment_of phs) = Some t;
  bt_entry : 0 <= e < 2 ^ 47 /\ 0 <= e + (ElfLoad.LOAD_TEXT_SECTION_AT - t) < 2 ^ 47;
  bt_segments : Forall (ElfLoad.segment_ok bytes) (ElfLoad.image t phs);
  bt_source : source_ok fa;
  bt_frames : (116 + FRAMES_PER_PAGE * ElfLoad.page_count (ElfLoad.image t phs) <= length (free fa))%nat;
  bt_fresh : forall p, is_page p ->
    KernelHeap.in_heap p \/ in_stack p \/
      (exists s, s ∈ ElfLoad.image t phs /\ ElfLoad.touches (addr s) p) ->
    plain pt p /\ translate pt p = NotMapped;
  bt_apart : forall s p, s ∈ ElfLoad.image t phs -> ElfLoad.touches (addr s) p ->
    ~ KernelHeap.in_heap p /\ ~ in_stack p
}.

Lemma stack_flags_present : flags_contains stack_flags PRESENT = true.
Proof. unfold stack_flags. by flag_simpl. Qed.

Lemma user_stack_ret :
  exists pages, user_stack = Ret (STACK_BOTTOM, pages) /\ NoDup pages /\ (length pages <= 4)%nat /\
    forall p, p ∈ pages <-> is_page p /\ STACK_BOTTOM <= p < STACK_TOP.
Proof.
  assert (is_page STACK_BOTTOM /\ is_page STACK_TOP) as [Hlo Hhi]
    by (unfold STACK_BOTTOM, STACK_TOP; split; (split; [left; lia|done])).
  unfold user_stack. rewrite VirtAddr_new_canonical by (left; lia). simpl.
  rewrite page_containing_spec by (left; lia). change (align_down 0xDEADBEEF) with STACK_BOTTOM.
  rewrite VirtAddr_add_canonical by (unfold stack_size, STACK_BOTTOM; solve [left; lia | lia]). simpl.
  rewrite page_containing_spec by (unfold stack_size, STACK_BOTTOM; left; lia).
  change (align_down (STACK_BOTTOM + stack_size)) with STACK_TOP.
  eexists. split; [done|].
  assert (NoDup (Page_range STACK_BOTTOM STACK_TOP)) as Hnd
    by (by apply StronglySorted_lt_NoDup, page_range_sorted).
  split_and!; [done| |intros p; by apply page_range_elem].
  apply (pages_length _ STACK_BOTTOM 4); [done|lia|done|]. intros p Hp.
  apply page_range_elem in Hp as [[_ Hm] Hr]; [|done..]. split; [done|exact Hr].
Qed.

Lemma map_stack_ret (pt : PT) (fa : FrameAlloc.BootInfoFrameAllocator) pages :
  source_ok fa -> NoDup pages -> (FRAMES_PER_PAGE * length pages <= length (free fa))%nat ->
  (forall p, p ∈ pages -> is_page p /\ plain pt p /\ translate pt p = NotMapped) ->
  exists pt' fa', for_each pages map_stack_page (pt, fa) = Ret (pt', fa') /\
    mapped_prefix pt fa ((fun p => (p, stack_flags)) <$> pages) (pt', fa').
Proof.
  intros Hok Hnd Hlen Hp.
  pose proof (with_flags_fresh pt stack_flags pages stack_flags_present Hnd Hp) as Hfresh.
  destruct (for_each_prefix (fun done => mapped_prefix pt fa ((fun p => (p, stack_flags)) <$> done))
    pages map_stack_page (pt, fa)) as ([pt' fa'] & E & HP).
  - by apply mapped_prefix_nil.
  - intros done p rest [pt1 fa1] Epages Hpre.
    edestruct (mapped_prefix_step pt fa) as (f & fa2 & [pt' fa'] & E1 & E2 & H');
      [done|exact Hfresh|by rewrite length_fmap|rewrite Epages, fmap_app; reflexivity|exact Hpre|].
    exists (pt', fa'). simpl in *. rewrite E1. simpl. rewrite E2. split; [done|].
    by rewrite fmap_app.
  - by exists pt', fa'.
Qed.

Lemma box_thread_data_ret :
  box_thread_data (Bump.mkBump Bump.HEAP_START (Bump.HEAP_START + Bump.HEAP_SIZE) Bump.HEAP_START) =
  Ret (Bump.HEAP_START,
       Bump.mkBump Bump.HEAP_START (Bump.HEAP_START + Bump.HEAP_SIZE) (Bump.HEAP_START + 16)).
Proof.
  unfold box_thread_data. rewrite Bump.alloc_ret.
  - simpl. rewrite VirtAddr_new_canonical by (left; unfold Bump.HEAP_START; lia). done.
  - split; [exists 3; split; [lia|done]|vm_compute; split; congruence].
Qed.

(** The machine handed to the user program. *)
Record booted {HW : Type} (bytes : list Z) (segs : list ElfSegment) (e : Z) (pt : PT)
  (fa : FrameAlloc.BootInfoFrameAllocator) (pt' : PT)
  (st : user_start HW PT FrameAlloc.BootInfoFrameAllocator) : Prop := {
  bo_entry : entry st = e;
  bo_top : top_of_stack st = STACK_TOP;
  bo_thread_data : thread_data st = Bump.HEAP_START;
  bo_mapper : MAPPER st = Some pt';
  bo_heap : forall a, KernelHeap.in_heap a ->
    exists f, translate pt' a = Mapped f (a - align_down a) (flags_union PRESENT WRITABLE);
  bo_stack : forall a, in_stack a ->
    exists f, translate pt' a = Mapped f (a - align_down a) stack_flags;
  bo_image : forall a fl, canonical a -> ElfLoad.page_flags segs (align_down a) = Some fl ->
    exists f, translate pt' a = Mapped f (a - align_down a) fl;
  bo_bytes : forall a b, canonical a -> ElfLoad.file_byte bytes segs a = Some b ->
    ElfLoad.load_byte pt' a (ram st) = Some b;
  bo_rest : forall a, canonical a -> ~ KernelHeap.in_heap a -> ~ in_stack a ->
    ElfLoad.page_flags segs (align_down a) = None -> translate pt' a = translate pt a;
  bo_isolated : forall a b f o fl f' o' fl', KernelHeap.in_heap a -> canonical b ->
    in_stack b \/ is_Some (ElfLoad.page_flags segs (align_down b)) ->
    translate pt' a = Mapped f o fl -> translate pt' b = Mapped f' o' fl' -> f <> f';
  bo_exclusive : (forall c g o fl, canonical c -> translate pt c = Mapped g o fl -> g ∉ free fa) ->
    forall a b f o fl f' o' fl', KernelHeap.in_heap a -> canonical b -> ~ KernelHeap.in_heap b ->
    translate pt' a = Mapped f o fl -> translate pt' b = Mapped f' o' fl' -> f <> f'
}.

Lemma in_heap_canonical a : KernelHeap.in_heap a -> canonical a.
Proof. intros Ha. left. unfold KernelHeap.in_heap, Bump.HEAP_START, Bump.HEAP_SIZE in Ha. lia. Qed.

Lemma in_stack_canonical a : in_stack a -> canonical a.
Proof. intros Ha. left. unfold in_stack, STACK_BOTTOM, STACK_TOP in Ha. lia. Qed.

Lemma in_heap_page a : KernelHeap.in_heap (align_down a) <-> KernelHeap.in_heap a.
Proof. by apply page_in_range. Qed.

Lemma in_stack_page a : in_stack (align_down a) <-> in_stack a.
Proof. by apply page_in_range. Qed.

(** The three mappings in a row leave a booted machine. *)
Lemma booted_compose {HW : Type} bytes phs e t pt fa pt1 fa1 pt2 fa2 mem pt3 fa3 mem3
  (st : user_start HW PT FrameAlloc.BootInfoFrameAllocator) :
  bootable bytes phs e t pt fa ->
  range_mapped pt fa Bump.HEAP_START (Bump.HEAP_START + Bump.HEAP_SIZE) (flags_union PRESENT WRITABLE) pt1 fa1 ->
  range_mapped pt1 fa1 STACK_BOTTOM STACK_TOP stack_flags pt2 fa2 ->
  ElfLoad.loaded bytes (ElfLoad.image t phs) pt2 fa2 mem pt3 fa3 mem3 ->
  entry st = e + (ElfLoad.LOAD_TEXT_SECTION_AT - t) -> top_of_stack st = STACK_TOP ->
  thread_data st = Bump.HEAP_START -> MAPPER st = Some pt3 -> ram st = mem3 ->
  booted bytes (ElfLoad.image t phs) (e + (ElfLoad.LOAD_TEXT_SECTION_AT - t)) pt fa pt3 st.
Proof.
  intros Hb R1 R2 L3 Ee Et Etd Ept Emem. set (segs := ElfLoad.image t phs) in *.
  assert (forall a, KernelHeap.in_heap a \/ in_stack a -> ElfLoad.page_flags segs (align_down a) = None) as Hout.
  { intros a Ha. apply ElfLoad.page_flags_none, Forall_forall. intros s Hs Ht.
    destruct (bt_apart _ _ _ _ _ _ Hb s _ Hs Ht) as [Hnh Hns]. rewrite in_heap_page in Hnh.
    rewrite in_stack_page in Hns. tauto. }
  assert (forall a, in_stack a -> ~ KernelHeap.in_heap a) as Hdis.
  { unfold in_stack, KernelHeap.in_heap, STACK_BOTTOM, STACK_TOP, Bump.HEAP_START. lia. }
  assert (forall a, KernelHeap.in_heap a -> translate pt3 a = translate pt1 a) as Hheap.
  { intros a Ha. pose proof (in_heap_canonical a Ha) as Hc.
    rewrite (ElfLoad.loaded_elsewhere _ _ _ _ _ _ _ _ L3) by auto.
    apply (range_outside _ _ _ _ _ _ _ R2); [done|]. intros Hs. by apply (Hdis a). }
  assert (forall a, in_stack a -> translate pt3 a = translate pt2 a) as Hstack.
  { intros a Ha. apply (ElfLoad.loaded_elsewhere _ _ _ _ _ _ _ _ L3); auto using in_stack_canonical. }
  assert (forall a b f o fl f' o' fl', KernelHeap.in_heap a -> canonical b ->
    in_stack b \/ is_Some (ElfLoad.page_flags segs (align_down b)) ->
    translate pt3 a = Mapped f o fl -> translate pt3 b = Mapped f' o' fl' -> f <> f') as Hiso.
  { intros a b f o fl f' o' fl' Ha Hcb Hub. rewrite Hheap by done.
    destruct (range_inside _ _ _ _ _ _ _ R1 a (in_heap_canonical a Ha) Ha) as (g & _ & Hng & ->).
    intros [= <- _ _].
    assert (forall x, x ∈ free fa2 -> x ∈ free fa1) as Hsub.
    { destruct (range_free _ _ _ _ _ _ _ R2) as (n & _ & ->). intros x. apply elem_of_drop_sub. }
    destruct Hub as [Hs|[gl Hgl]].
    - rewrite Hstack by done.
      destruct (range_inside _ _ _ _ _ _ _ R2 b Hcb Hs) as (g' & Hg' & _ & ->). intros [= <- _ _]. congruence.
    - destruct (ElfLoad.loaded_pages _ _ _ _ _ _ _ _ L3 b gl Hcb Hgl) as (g' & Hg' & _ & ->).
      intros [= <- _ _]. apply Hsub in Hg'. congruence. }
  assert (forall a, canonical a -> ~ KernelHeap.in_heap a -> ~ in_stack a ->
    ElfLoad.page_flags segs (align_down a) = None -> translate pt3 a = translate pt a) as Hrest.
  { intros a Hc Hh Hs Hn. rewrite (ElfLoad.loaded_elsewhere _ _ _ _ _ _ _ _ L3) by done.
    rewrite (range_outside _ _ _ _ _ _ _ R2) by done. by apply (range_outside _ _ _ _ _ _ _ R1). }
  subst mem3. split; [done..| | | | |done|done|].
  - intros a Ha. rewrite Hheap by done.
    destruct (range_inside _ _ _ _ _ _ _ R1 a (in_heap_canonical a Ha) Ha) as (f & _ & _ & E). eauto.
  - intros a Ha. rewrite Hstack by done.
    destruct (range_inside _ _ _ _ _ _ _ R2 a (in_stack_canonical a Ha) Ha) as (f & _ & _ & E). eauto.
  - intros a fl Hc Hfl. destruct (ElfLoad.loaded_pages _ _ _ _ _ _ _ _ L3 a fl Hc Hfl) as (f & _ & _ & E). eauto.
  - apply L3.
  - intros Hboot a b f o fl f' o' fl' Ha Hcb Hnb Ea Eb.
    destruct (ElfLoad.page_flags segs (align_down b)) as [g|] eqn:Eg;
      [apply (Hiso a b f o fl f' o' fl'); eauto|].
    destruct (decide (STACK_BOTTOM <= b < STACK_TOP)) as [Hs|Hs]; [apply (Hiso a b f o fl f' o' fl'); auto|].
    rewrite (Hrest b) in Eb by done. rewrite Hheap in Ea by done.
    destruct (range_inside _ _ _ _ _ _ _ R1 a (in_heap_canonical a Ha) Ha) as (g & Hg & _ & Eg').
    rewrite Eg' in Ea. injection Ea as <- _ _. intros <-. by apply (Hboot b g o' fl').
Qed.

(** Pages outside a mapped range are as fresh as before, and enough frames
    are left. *)
Lemma range_mapped_fresh (pt : PT) (fa : FrameAlloc.BootInfoFrameAllocator) lo hi fl pt' fa' p :
  range_mapped pt fa lo hi fl pt' fa' -> is_page p -> ~ (lo <= p < hi) ->
  plain pt p /\ translate pt p = NotMapped -> plain pt' p /\ translate pt' p = NotMapped.
Proof.
  intros R Hp Hn [Hpl Htr]. split; [by apply (range_plain _ _ _ _ _ _ _ R)|].
  rewrite (range_outside _ _ _ _ _ _ _ R); [done|apply Hp|done].
Qed.

Lemma range_mapped_frames (pt : PT) (fa : FrameAlloc.BootInfoFrameAllocator) lo hi fl pt' fa' k n :
  range_mapped pt fa lo hi fl pt' fa' -> (FRAMES_PER_PAGE * Z.to_nat ((hi - lo) / PAGE_SIZE) = k)%nat ->
  (k + n <= length (free fa))%nat -> (n <= length (free fa'))%nat.
Proof.
  intros R <- Hlen. destruct (range_free _ _ _ _ _ _ _ R) as (m & Hm & ->). rewrite length_drop. lia.
Qed.

Lemma stack_ret pt fa :
  source_ok fa -> (16 <= length (free fa))%nat ->
  (forall p, is_page p -> in_stack p -> plain pt p /\ translate pt p = NotMapped) ->
  exists pages pt' fa', user_stack = Ret (STACK_BOTTOM, pages) /\
    for_each pages map_stack_page (pt, fa) = Ret (pt', fa') /\
    range_mapped pt fa STACK_BOTTOM STACK_TOP stack_flags pt' fa'.
Proof.
  intros Hok Hlen Hfresh. destruct user_stack_ret as (pages & Eus & Hnd & Hl4 & Hin).
  destruct (map_stack_ret pt fa pages) as (pt' & fa' & Emap & m & Hext & Hcov);
    [done|done|unfold FRAMES_PER_PAGE; lia| |].
  { intros p Hp. apply Hin in Hp as [Hp Hs]. by destruct (Hfresh p Hp Hs). }
  exists pages, pt', fa'. split_and!; [done|done|].
  by apply (extends_range pt fa m pt' fa' pages).
Qed.

End Proofs.

(** The tables and registers after [zulu_os::init]: the descriptor table's
    selectors, the interrupt table, the interrupt controllers behind a free
    lock, and system calls that enter at [handler] with interrupts off. *)
Record initialised `{MutexApi} `{Interrupts.PicApi} (handler : Z) (h : hardware) : Prop := {
  hw_segments : segment_registers h = Gdt.mkSegments 0x08 0x10 0x38 0x28;
  hw_idt : loaded_idt h = Interrupts.IDT;
  hw_pics : is_locked (PICS h) = false /\
    Interrupts.first_offset (contents (PICS h)) = Interrupts.PIC_1_OFFSET /\
    Interrupts.second_offset (contents (PICS h)) = Interrupts.PIC_2_OFFSET;
  hw_syscall : Machine.LStar (syscall_registers h) = handler /\
    Z.testbit (Machine.SFMask (syscall_registers h)) 9 = true /\
    Machine.SYSTEM_CALL_EXTENSIONS (syscall_registers h) = true
}.

Lemma init_ret `{AddrLaws} `{MutexLaws} `{Gdt.GdtLaws} `{Interrupts.PicLaws} handler ctl :
  canonical handler -> exists h, init true handler ctl = Ret h /\ initialised handler h.
Proof.
  intros Hh. assert (forall f, Z.testbit (Z.lor f SyscallAbi.INTERRUPT_FLAG) 9 = true) as Hif
    by (intros f; by rewrite Z.lor_spec, orb_true_r).
  unfold init. rewrite Gdt.gdt_init_ret. simpl.
  destruct (with_lock_free _ _ (fun p => (Ret tt, Interrupts.pics_initialize p)) Interrupts.PICS_init)
    as (E1 & E2 & E3); [apply new_unlocked|].
  destruct (with_lock _ Interrupts.PICS_init) as [r p]. simpl in E1, E2, E3. subst r. simpl.
  unfold SyscallAbi.init. rewrite VirtAddr_new_canonical by done. simpl. eexists. split; [done|].
  split; simpl; [done|done| |].
  - rewrite E2. unfold Interrupts.PICS_init. rewrite new_contents.
    destruct (Interrupts.initialize_offsets (Interrupts.pics_new Interrupts.PIC_1_OFFSET Interrupts.PIC_2_OFFSET)) as [-> ->].
    rewrite Interrupts.new_first, Interrupts.new_second. split; [apply E3; by eexists|done].
  - split_and!; [done|apply Hif|done].
Qed.

(** ** Properties *)
Section Properties.
#[local] Existing Instance FrameAlloc.BootInfoFrameAllocator_trait.
#[local] Existing Instance FrameAlloc.BootInfoFrameAllocator_source.

Lemma kernel_main_ret `{Build} `{AddrLaws} `{MutexLaws} `{Gdt.GdtLaws} `{Interrupts.PicLaws}
  `{FlagLaws} `{BootInfoLaws} `{ElfConsts} {EA : ElfApi} {PT : Type} `{!Mapper PT, !MapperLaws PT, !Memory.OffsetApi PT}
  (boot : boot_info) rsp bytes hdr phs t :
  has_fsgsbase boot = true -> canonical (syscall_entry boot) ->
  canonical (physical_memory_offset boot) -> 0 <= level4_frame boot ->
  canonical (physical_memory_offset boot + level4_frame boot) ->
  FileHeader64_parse bytes = Ok hdr -> program_headers hdr bytes = Ok phs ->
  bootable bytes phs (e_entry hdr) t (boot_table boot) (FrameAlloc.init (memory_map boot)) -> rsp <> 0 ->
  exists st pt, kernel_main boot rsp bytes = Ret st /\
    initialised (syscall_entry boot) (hw st) /\
    thread st = ThreadData.mkThreadData (Some rsp) None /\
    booted bytes (ElfLoad.image t phs) (e_entry hdr + (ElfLoad.LOAD_TEXT_SECTION_AT - t))
      (boot_table boot) (FrameAlloc.init (memory_map boot)) pt st.
Proof.
  intros Hfs Hh Hoff Hl4 Hroot Ehdr Ephs Hb Hrsp. pose proof (bt_frames _ _ _ _ _ _ Hb) as Hlen.
  destruct (init_ret (syscall_entry boot) (boot_control boot) Hh) as (hws & E0 & Hhw).
  set (pt := boot_table boot) in *. set (map := memory_map boot) in *. set (mem := boot_memory boot).
  set (n := (FRAMES_PER_PAGE * ElfLoad.page_count (ElfLoad.image t phs))%nat) in *.
  destruct (KernelHeap.init_kernel_heap_ret pt (FrameAlloc.init map)) as (pt1 & fa1 & E1 & R1);
    [apply Hb|lia|intros p Hp Hin; apply (bt_fresh _ _ _ _ _ _ Hb); auto|].
  pose proof (range_mapped_frames _ _ _ _ _ _ _ 100 (16 + n) R1 eq_refl ltac:(lia)) as Hlen1.
  destruct (stack_ret pt1 fa1) as (pages & pt2 & fa2 & Eus & E2 & R2);
    [apply R1|lia|intros p Hp Hs|].
  { apply (range_mapped_fresh _ _ _ _ _ _ _ _ R1 Hp); [|apply (bt_fresh _ _ _ _ _ _ Hb); auto].
    unfold in_stack, STACK_BOTTOM, STACK_TOP, Bump.HEAP_START in *. lia. }
  pose proof (range_mapped_frames _ _ _ _ _ _ _ 16 n R2 eq_refl ltac:(lia)) as Hlen2.
  destruct (ElfLoad.load_ret bytes hdr phs t pt2 fa2 mem) as (pt3 & fa3 & mem3 & E3 & L3); [done|done| |].
  { split; try apply Hb; [apply R2|done|]. intros s p Hs Ht.
    destruct (bt_apart _ _ _ _ _ _ Hb s p Hs Ht) as [Hnh Hns].
    apply (range_mapped_fresh _ _ _ _ _ _ _ _ R2 (ElfLoad.touches_page _ _ Ht)); [done|].
    apply (range_mapped_fresh _ _ _ _ _ _ _ _ R1 (ElfLoad.touches_page _ _ Ht)); [done|].
    apply (bt_fresh _ _ _ _ _ _ Hb); [by eapply ElfLoad.touches_page|]. right. right. eauto. }
  eexists _, pt3. split.
  - unfold kernel_main. rewrite Hfs, E0. simpl. rewrite VirtAddr_new_canonical by done. simpl.
    rewrite Memory.memory_init_ret by done. simpl. unfold setup_heap, setup_process. fold map mem.
    change (Memory.OffsetPageTable_new _ _) with pt. rewrite E1. simpl.
    rewrite box_thread_data_ret. simpl. rewrite Eus. simpl. rewrite E2. simpl. rewrite E3. simpl. reflexivity.
  - split_and!; [done| |].
    { simpl. unfold ThreadData.NonZeroU64_new. by destruct (Z.eqb_spec rsp 0). }
    by apply (booted_compose bytes phs (e_entry hdr) t pt (FrameAlloc.init map) pt1 fa1 pt2 fa2 mem pt3 fa3 mem3).
Qed.

(** C1: The kernel boots: on a machine with the needed features, with the
    heap, stack and image ranges unmapped and apart and enough frames,
    kernel_main reaches enter_user_mode. The descriptor tables, interrupt
    controllers and system call registers are set up; the arguments are the
    relocated entry point and 0xDEADF000; the heap is mapped for the kernel
    only, the stack and the image for the user with their flags, the file's
    bytes are in place, no other translation changed, and no frame of the heap
    is also mapped for the stack or the image, nor anywhere else if the
    bootloader mapped none of the usable frames. *)
Theorem kernel_main_boots `{Build} `{AddrLaws} `{MutexLaws} `{Gdt.GdtLaws} `{Interrupts.PicLaws}
  `{FlagLaws} `{BootInfoLaws} `{ElfConsts} {EA : ElfApi} {PT : Type} `{!Mapper PT, !MapperLaws PT, !Memory.OffsetApi PT}
  (boot : boot_info) rsp bytes hdr phs t :
  has_fsgsbase boot = true -> canonical (syscall_entry boot) ->
  canonical (physical_memory_offset boot) -> 0 <= level4_frame boot ->
  canonical (physical_memory_offset boot + level4_frame boot) ->
  FileHeader64_parse bytes = Ok hdr -> program_headers hdr bytes = Ok phs ->
  bootable bytes phs (e_entry hdr) t (boot_table boot) (FrameAlloc.init (memory_map boot)) -> rsp <> 0 ->
  exists st pt, kernel_main boot rsp bytes = Ret st /\
    initialised (syscall_entry boot) (hw st) /\
    thread st = ThreadData.mkThreadData (Some rsp) None /\
    booted bytes (ElfLoad.image t phs) (e_entry hdr + (ElfLoad.LOAD_TEXT_SECTION_AT - t))
      (boot_table boot) (FrameAlloc.init (memory_map boot)) pt st.
Proof. apply kernel_main_ret. Qed.

End Properties.

(** ** The property at a concrete machine *)
Section Witnesses.
#[local] Existing Instance dev_build.
#[local] Existing Instance Ref.addresses.
#[local] Existing Instance Ref.addresses_laws.
#[local] Existing Instance Ref.flag_bits.
#[local] Existing Instance Ref.flag_bits_laws.
#[local] Existing Instance Ref.boot_info.
#[local] Existing Instance Ref.boot_info_laws.
#[local] Existing Instance Ref.mapper.
#[local] Existing Instance Ref.mapper_laws.
#[local] Existing Instance Ref.elf_consts.
#[local] Existing Instance Ref.mutexes.
#[local] Existing Instance Ref.mutexes_laws.
#[local] Existing Instance Gdt.counting_gdt.
#[local] Existing Instance Gdt.counting_gdt_laws.
#[local] Existing Instance Interrupts.counting_pics.
#[local] Existing Instance Interrupts.counting_pics_laws.

(** The reference mapper needs no table: it starts with nothing mapped. *)
#[local] Instance empty_offset : Memory.OffsetApi Ref.page_table := {
  Memory.PageTable := unit;
  Memory.OffsetPageTable_new := fun _ _ => Ref.empty_table
}.

Definition sample_boot : boot_info :=
  mkBoot true 0x200000 (Machine.mkControl 0 0 false false) 0x1000 (fun _ => tt) 0x10000000000 FrameAlloc.boot_map ∅.

Lemma program_bootable :
  bootable ElfLoad.program_bytes ElfLoad.program 0x201000 0x201000 (boot_table sample_boot)
    (FrameAlloc.init (memory_map sample_boot)).
Proof.
  destruct ElfLoad.program_loadable as [H1 H2 H3 H4 H5 H6 H7]. split; [done..| | |].
  - change (memory_map sample_boot) with FrameAlloc.boot_map.
    rewrite FrameAlloc.boot_map_free, ElfLoad.program_image_eq. vm_compute. lia.
  - intros p _ _. split; [exact I|reflexivity].
  - rewrite ElfLoad.program_image_eq. intros s p Hs Ht.
    unfold KernelHeap.in_heap, in_stack, Bump.HEAP_START, STACK_BOTTOM.
    unfold ElfLoad.program_image in Hs. rewrite !elem_of_cons, elem_of_nil in Hs.
    pose proof (align_down_bounds (start (addr s) + len (addr s))) as Hb.
    unfold ElfLoad.touches, ElfLoad.occupies, ElfLoad.holds_end in Ht.
    destruct Hs as [->|[->|[]]]; cbn [addr start len] in *; lia.
Qed.

Lemma kernel_main_boots_witness :
  exists st pt, @kernel_main _ _ _ _ _ _ _ _ (Ref.elf_file 0x201000 ElfLoad.program) _ _ _
      sample_boot 0x180000 ElfLoad.program_bytes = Ret st /\
    initialised 0x200000 (hw st) /\
    thread st = ThreadData.mkThreadData (Some 0x180000) None /\
    booted ElfLoad.program_bytes (ElfLoad.image 0x201000 ElfLoad.program) 0x660000 Ref.empty_table
      (FrameAlloc.init FrameAlloc.boot_map) pt st.
Proof.
  apply (kernel_main_boots (EA := Ref.elf_file 0x201000 ElfLoad.program) sample_boot
    0x180000 ElfLoad.program_bytes tt ElfLoad.program 0x201000);
    [reflexivity|left; simpl; lia|left; simpl; lia|simpl; lia|left; simpl; lia|reflexivity|reflexivity
    |apply program_bootable|lia].
Defined.

End Witnesses.

End Boot.
