(* ===== verification/TestHarness.v ===== *)
(** * The test kernel ([kernel/src/lib.rs], tests of [kernel/src/vga_buffer.rs]
      and [kernel/src/syscall/mod.rs])

    The runner that reports the tests over the serial line and ends the
    emulator, the unit tests of the kernel, and the test kernel that runs
    them. *)
From S2P Require Import Prelude Fmt Platform RefPlatform Sys VgaBuffer Serial Panic ThreadData Machine Gdt Interrupts Boot.

Module TestHarness.
Import Fmt Vga Serial Panic.

Section Operations.
Context `{InterruptsApi} `{MutexApi} `{SerialApi}.

(** A [&dyn Testable]: the function with the name of its type. *)
Record Testable : Type := mkTest { type_name : list Z; test_fn : stateful Host unit }.

(** [Testable::run]. *)
Definition Testable_run (t : Testable) : stateful Host unit :=
  _ ← serial_print [type_name t; str "..."; [9]];
  _ ← test_fn t;
  serial_println [str "[ok]"].

Definition test_runner (tests : list Testable) : stateful Host unit :=
  _ ← serial_println [str "Running "; decimal (Z.of_nat (length tests)); str " tests"];
  _ ← stateful_each tests Testable_run;
  exit_qemu Success.

(** The test kernel: a panic anywhere in it reaches [test_panic_handler]. *)
Definition kernel_main_test `{AddrApi} `{Gdt.GdtApi} `{Interrupts.PicApi} `{PanicFmt} (has_fsgsbase : bool)
  (syscall_entry : Z) (ctl : Machine.control) (tests : list Testable) : stateful Host unit :=
  on_panic test_panic_handler
    (_ ← lift (Boot.init has_fsgsbase syscall_entry ctl);
     _ ← test_runner tests;
     host_hlt_loop).

(** ** The unit tests *)

Definition println_simple : stateful Console unit := println [str "test_println_simple output"].

Definition println_many : stateful Console unit :=
  stateful_each (range 0 200) (fun _ => println [str "test_println_many output"]).

Definition single_line : list Z := str "Some test string that fits on a single line".

(** The body of the loop over the characters. *)
Definition check_char (p : nat * Z) : stateful Console unit :=
  screen_char ← (fun k =>
    let '(r, m) := with_lock (fun w => (chars_read (buffer w) (BUFFER_HEIGHT - 2) p.1, w)) (WRITER k) in
    (r, mkConsole (console_cpu k) m));
  lift (ThreadData.assert_eq (ascii_character screen_char) p.2).

Definition println_output : stateful Console unit :=
  Sys.without_interrupts console_cpu put_cpu
    (_ ← println [];
     _ ← println [single_line];
     stateful_each (imap pair single_line) check_char).

(** In the order of the modules of [lib.rs]; [prefix] is the path of the test
    modules in the crate. *)
Definition kernel_tests : list Testable :=
  [ mkTest (str "zulu_os::syscall::tests::thread_data_alignment") (lift ThreadData.thread_data_alignment);
    mkTest (str "zulu_os::vga_buffer::tests::println_simple") (at_console println_simple);
    mkTest (str "zulu_os::vga_buffer::tests::println_many") (at_console println_many);
    mkTest (str "zulu_os::vga_buffer::tests::println_output") (at_console println_output) ].

End Operations.

(** ** What a run reports *)

(** The panic of the first test that does not pass. *)
Definition first_failure (verdicts : list (option stop)) : option stop := head (omap id verdicts).

Definition ended {A : Type} (o : option stop) (a : A) : outcome A :=
  match o with None => Ret a | Some s => Stop s end.

Section Reports.
Context `{InterruptsApi} `{MutexApi} `{SerialApi}.

(** One line for each test up to the first failure. *)
Fixpoint progress (tests : list Testable) (verdicts : list (option stop)) : list Z :=
  match tests, verdicts with
  | t :: tests', None :: verdicts' => type_name t ++ str "..." ++ [9] ++ str "[ok]" ++ [10] ++ progress tests' verdicts'
  | t :: _, Some _ :: _ => type_name t ++ str "..." ++ [9]
  | _, _ => []
  end.

Definition report `{PanicFmt} (tests : list Testable) (verdicts : list (option stop)) : list Z :=
  str "Running " ++ decimal (Z.of_nat (length tests)) ++ str " tests" ++ [10] ++ progress tests verdicts ++
  match first_failure verdicts with
  | None => []
  | Some s => str "[failed]" ++ [10; 10] ++ str "Error: " ++ panic_info (panic_message s) ++ [10; 10]
  end.

Definition exit_value (verdicts : list (option stop)) : Z :=
  QemuExitCode_as_u32 (match first_failure verdicts with None => Success | Some _ => Failed end).

(** A test that ends with [v], from hosts of [I] to hosts of [I], and that
    leaves the serial line and the debug port alone. *)
Record behaves (I : Host -> Prop) (t : Testable) (v : option stop) : Prop := {
  be_panic : forall s, v = Some s -> is_panic s = true;
  be_runs : forall h, I h -> line_free h -> exists h', test_fn t h = (ended v tt, h') /\
    line h' = line h /\ line_free h' /\ port_writes h' = port_writes h /\ (v = None -> I h')
}.

End Reports.

Section Proofs.
Context `{InterruptsLaws} `{MutexLaws} `{SerialLaws}.
(** What the tests rely on, and that reporting keeps it. *)
Context (I : Host -> Prop) (I_kept : forall bs h h', transmitted bs h h' -> I h -> I h').

Lemma run_reports t v h :
  behaves I t v -> Forall plain (type_name t) -> I h -> line_free h ->
  exists h', Testable_run t h = (ended v tt, h') /\ line h' = line h ++ progress [t] [v] /\
    line_free h' /\ port_writes h' = port_writes h /\ (v = None -> I h').
Proof.
  intros [_ Hb] Hn HI Hf.
  destruct (serial_print_sends [type_name t; str "..."; [9]] h Hf) as (h1 & E1 & T1).
  { cbn [concat]. apply Forall_app. split; [done|]. by repeat constructor. }
  destruct (Hb h1 (I_kept _ _ _ T1 HI) (tr_free _ _ _ T1)) as (h2 & E2 & L2 & F2 & P2 & I2).
  unfold Testable_run. rewrite (stateful_bind_ret _ _ _ _ _ E1).
  assert (line h2 = line h ++ type_name t ++ str "..." ++ [9]) as L2'
    by (rewrite L2, (tr_line _ _ _ T1); done).
  destruct v as [s|]; cbn [ended] in E2.
  - exists h2. rewrite (stateful_bind_stop _ _ _ _ _ E2). split_and!; [done|done|done|by rewrite P2, (tr_ports _ _ _ T1)|done].
  - rewrite (stateful_bind_ret _ _ _ _ _ E2).
    destruct (serial_println_sends [str "[ok]"] h2 F2) as (h3 & E3 & T3); [by repeat constructor|].
    exists h3. split_and!; [done| |apply T3| |intros _; apply (I_kept _ _ _ T3); auto].
    + rewrite (tr_line _ _ _ T3), L2'. cbn [progress concat]. by rewrite <- !app_assoc.
    + by rewrite (tr_ports _ _ _ T3), P2, (tr_ports _ _ _ T1).
Qed.

Lemma each_reports tests verdicts h :
  Forall2 (behaves I) tests verdicts -> Forall (fun t => Forall plain (type_name t)) tests -> I h -> line_free h ->
  exists h', stateful_each tests Testable_run h = (ended (first_failure verdicts) tt, h') /\
    line h' = line h ++ progress tests verdicts /\ line_free h' /\ port_writes h' = port_writes h.
Proof.
  intros Hall. revert h. induction Hall as [|t v tests verdicts Ht Hall IH]; intros h Hn HI Hf.
  - exists h. by rewrite app_nil_r.
  - inversion Hn as [|t' tests' Hnt Hns]; subst.
    destruct (run_reports t v h Ht Hnt HI Hf) as (h1 & E1 & L1 & F1 & P1 & I1).
    destruct v as [s|]; cbn [ended] in E1.
    + exists h1. cbn [stateful_each]. by rewrite (stateful_bind_stop _ _ _ _ _ E1).
    + destruct (IH h1 Hns (I1 eq_refl) F1) as (h2 & E2 & L2 & F2 & P2).
      exists h2. cbn [stateful_each]. rewrite (stateful_bind_ret _ _ _ _ _ E1).
      split_and!; [done| |done|congruence]. rewrite L2, L1. cbn [progress]. rewrite <- !app_assoc. by repeat f_equal.
Qed.

Lemma first_failure_panics tests verdicts s :
  Forall2 (behaves I) tests verdicts -> first_failure verdicts = Some s -> is_panic s = true.
Proof.
  induction 1 as [|t v tests verdicts [Hp _] _ IH]; [done|].
  destruct v as [s'|]; [|exact IH]. intros [= ->]. by apply Hp.
Qed.

Lemma plain_decimal n : 0 <= n -> Forall plain (decimal n).
Proof. intros Hn. eapply Forall_impl; [by apply decimal_chars|]. intros c Hc. simpl in Hc. split; lia. Qed.

(** The runner followed by anything: it never gets there. *)
Lemma runner_reports `{PanicFmt} tests verdicts h (after : stateful Host unit) :
  Forall2 (behaves I) tests verdicts -> Forall (fun t => Forall plain (type_name t)) tests ->
  (forall s, Forall plain (panic_info (panic_message s))) -> I h -> line_free h ->
  exists h', on_panic test_panic_handler (_ ← test_runner tests; after) h = (Stop HltLoop, h') /\
    line h' = line h ++ report tests verdicts /\
    port_writes h' = port_writes h ++ [(0xf4, exit_value verdicts)].
Proof.
  intros Hall Hn Hi HI Hf.
  destruct (serial_println_sends [str "Running "; decimal (Z.of_nat (length tests)); str " tests"] h Hf)
    as (h1 & E1 & T1).
  { cbn [concat]. apply Forall_app. split; [by repeat constructor|]. apply Forall_app.
    split; [apply plain_decimal; lia|by repeat constructor]. }
  destruct (each_reports tests verdicts h1 Hall Hn (I_kept _ _ _ T1 HI) (tr_free _ _ _ T1)) as (h2 & E2 & L2 & F2 & P2).
  rewrite (tr_line _ _ _ T1) in L2. cbn [concat] in L2. rewrite (tr_ports _ _ _ T1) in P2.
  unfold on_panic, report, exit_value.
  destruct (first_failure verdicts) as [s|] eqn:Ev; cbn [ended] in E2.
  - assert ((_ ← test_runner tests; after) h = (Stop s, h2)) as ->.
    { apply stateful_bind_stop. unfold test_runner.
      rewrite (stateful_bind_ret _ _ _ _ _ E1). by apply stateful_bind_stop. }
    rewrite (first_failure_panics tests verdicts s Hall Ev).
    destruct (test_panic_handler_reports (A := unit) (panic_info (panic_message s)) h2 F2 (Hi s))
      as (h3 & E3 & L3 & P3 & _).
    exists h3. split_and!; [done| |by rewrite P3, P2]. rewrite L3, L2. by rewrite <- !app_assoc.
  - destruct (exit_qemu_stops (A := unit) Success h2) as (h3 & E3 & P3 & S3 & _).
    assert ((_ ← test_runner tests; after) h = (Stop HltLoop, h3)) as ->.
    { apply stateful_bind_stop. unfold test_runner.
      rewrite (stateful_bind_ret _ _ _ _ _ E1), (stateful_bind_ret _ _ _ _ _ E2). exact E3. }
    exists h3. split_and!; [done| |by rewrite P3, P2]. unfold line in *. rewrite S3, L2. rewrite (app_nil_r (progress _ _)). by rewrite <- !app_assoc.
Qed.

End Proofs.

(** ** The unit tests pass *)
Section UnitTests.
Context `{InterruptsLaws} `{MutexLaws} `{SerialLaws}.

(** The console is in order. *)
Definition console_host (h : Host) : Prop := console_ok (host_console h).

Lemma console_host_kept bs h h' : transmitted bs h h' -> console_host h -> console_host h'.
Proof. intros T. unfold console_host, console_ok. by rewrite (tr_writer _ _ _ T). Qed.

(** Tests that use the console only. *)
Lemma console_test name (f : stateful Console unit) :
  (forall k, console_ok k -> exists k', f k = (Ret tt, k') /\ console_ok k') ->
  behaves console_host (mkTest name (at_console f)) None.
Proof.
  intros Hf. split; [done|]. intros h Hh Hl. destruct (Hf _ Hh) as (k & E & Hk).
  eexists. split; [exact (at_console_ret _ _ _ _ E)|done].
Qed.

Lemma println_many_ret k : console_ok k -> exists k', println_many k = (Ret tt, k') /\ console_ok k'.
Proof.
  intros Hk. apply stateful_each_inv; [done|]. intros i k1 _ Hk1.
  destruct (println_ok [str "test_println_many output"] k1 Hk1) as (k2 & E & Hk2 & _). by exists k2.
Qed.

Lemma check_char_ret k i c color :
  console_ok k -> chars_read (buffer (contents (WRITER k))) (BUFFER_HEIGHT - 2) i = Ret (mkScreenChar c color) ->
  exists k', check_char (i, c) k = (Ret tt, k') /\ console_ok k' /\ contents (WRITER k') = contents (WRITER k).
Proof.
  intros [Hf Hw] E.
  destruct (with_lock_free _ _ (fun w => (chars_read (buffer w) (BUFFER_HEIGHT - 2) i, w)) _ Hf) as (L1 & L2 & L3).
  rewrite E in L1, L3. unfold check_char, mbind, stateful_bind. cbn [fst snd].
  destruct (with_lock _ (WRITER k)) as [r m]. cbn [fst snd] in *. subst r.
  unfold ThreadData.assert_eq, lift. cbn [ascii_character]. rewrite decide_True by done.
  eexists. split; [done|]. unfold console_ok. cbn [WRITER]. rewrite L2. by split; [split; [apply L3; by eexists|]|].
Qed.

(** Inside the critical section. *)
Lemma println_output_body k :
  console_ok k -> exists k', (_ ← println []; _ ← println [single_line];
     stateful_each (imap pair single_line) check_char) k = (Ret tt, k') /\ console_ok k'.
Proof.
  intros Hk. destruct (println_shown single_line k Hk) as (k1 & k2 & E1 & E2 & Hk2 & _ & Hshown).
  { apply (bool_decide_unpack _). vm_compute. done. }
  { vm_compute. lia. }
  rewrite (stateful_bind_ret _ _ _ _ _ E1), (stateful_bind_ret _ _ _ _ _ E2).
  destruct (stateful_each_inv (fun k' => console_ok k' /\ contents (WRITER k') = contents (WRITER k2))
    (imap pair single_line) check_char k2) as (k3 & E3 & Hk3 & _); [done| |by exists k3].
  intros [i c] k' Hin [Hk' Ek']. apply elem_of_lookup_imap in Hin as (j & d & [= -> ->] & Hd).
  destruct (check_char_ret k' j d (color_code (contents (WRITER k)))) as (k'' & E & Hok & Ec);
    [done|rewrite Ek'; by apply Hshown|]. exists k''. by rewrite Ec.
Qed.

Lemma put_cpu_ok c k : console_ok (put_cpu c k) <-> console_ok k.
Proof. done. Qed.

Lemma println_output_ret k : console_ok k -> exists k', println_output k = (Ret tt, k') /\ console_ok k'.
Proof.
  intros Hk. unfold println_output, Sys.without_interrupts. rewrite without_interrupts_run.
  destruct (are_enabled (console_cpu k)); [|by apply println_output_body].
  destruct (println_output_body (put_cpu (interrupts_disable (console_cpu k)) k)) as (k' & -> & Hk'); [done|].
  eexists. split; [done|]. by apply put_cpu_ok.
Qed.

Lemma thread_data_alignment_ret : ThreadData.thread_data_alignment = Ret tt.
Proof. reflexivity. Qed.

Lemma kernel_tests_behave : Forall2 (behaves console_host) kernel_tests [None; None; None; None].
Proof.
  repeat apply Forall2_cons_2; [..|apply Forall2_nil_2].
  - split; [done|]. intros h Hh Hl. exists h. unfold lift. cbn [test_fn]. by rewrite thread_data_alignment_ret.
  - apply console_test. intros k Hk. destruct (println_ok [str "test_println_simple output"] k Hk) as (k' & E & H' & _).
    by exists k'.
  - apply console_test, println_many_ret.
  - apply console_test, println_output_ret.
Qed.

Lemma kernel_test_names : Forall (fun t => Forall plain (type_name t)) kernel_tests.
Proof. repeat constructor; by vm_compute. Qed.

End UnitTests.

(** ** Properties *)
Section Properties.
Context `{InterruptsLaws} `{MutexLaws} `{SerialLaws} `{AddrLaws} `{Gdt.GdtLaws} `{Interrupts.PicLaws} `{PanicFmt}.

Lemma kernel_main_test_runs entry ctl tests h :
  canonical entry ->
  kernel_main_test true entry ctl tests h =
  on_panic test_panic_handler (_ ← test_runner tests; host_hlt_loop) h.
Proof.
  intros Hc. destruct (Boot.init_ret entry ctl Hc) as (hw & E & _).
  unfold kernel_main_test, on_panic. by rewrite (stateful_bind_ret _ _ h hw h) by (unfold lift; by rewrite E).
Qed.

(** C22: The test kernel's report: for tests that each pass or panic, the
    serial line carries the number of tests and one line for each up to the
    first failure, then the failure's message if there is one; later tests do
    not run, and the code written to the debug port is success exactly when
    all tests passed. *)
Theorem test_runner_reports (I : Host -> Prop) entry ctl tests verdicts h :
  (forall bs h h', transmitted bs h h' -> I h -> I h') ->
  canonical entry -> Forall2 (behaves I) tests verdicts -> Forall (fun t => Forall plain (type_name t)) tests ->
  (forall s, Forall plain (panic_info (panic_message s))) -> I h -> line_free h ->
  exists h', kernel_main_test true entry ctl tests h = (Stop HltLoop, h') /\
    line h' = line h ++ report tests verdicts /\
    port_writes h' = port_writes h ++ [(0xf4, exit_value verdicts)].
Proof.
  intros HI Hc Hall Hn Hp Hh Hl. rewrite kernel_main_test_runs by done. by apply (runner_reports I).
Qed.

(** C23: The kernel's four unit tests pass on every well-formed console:
    thread_data_alignment, println_simple, println_many and println_output
    each report ok, and the emulator ends with status 33, the one Cargo.toml
    takes for success. *)
Theorem kernel_tests_pass entry ctl h :
  canonical entry -> (forall s, Forall plain (panic_info (panic_message s))) -> console_host h -> line_free h ->
  exists h', kernel_main_test true entry ctl kernel_tests h = (Stop HltLoop, h') /\
    line h' = line h ++ report kernel_tests [None; None; None; None] /\
    exists v, port_writes h' = port_writes h ++ [(0xf4, v)] /\ emulator_status v = test_success_exit_code.
Proof.
  intros Hc Hp Hh Hl. rewrite kernel_main_test_runs by done.
  destruct (runner_reports console_host console_host_kept kernel_tests [None; None; None; None] h host_hlt_loop)
    as (h' & E & L & P); [apply kernel_tests_behave|apply kernel_test_names|done..|].
  exists h'. split_and!; [done|done|]. by eexists.
Qed.

End Properties.

(** ** The properties at concrete runs *)
Section Witnesses.
#[local] Existing Instance Ref.interrupts.
#[local] Existing Instance Ref.interrupts_laws.
#[local] Existing Instance Ref.mutexes.
#[local] Existing Instance Ref.mutexes_laws.
#[local] Existing Instance Ref.addresses.
#[local] Existing Instance Ref.addresses_laws.
#[local] Existing Instance Gdt.counting_gdt.
#[local] Existing Instance Gdt.counting_gdt_laws.
#[local] Existing Instance Interrupts.counting_pics.
#[local] Existing Instance Interrupts.counting_pics_laws.
#[local] Existing Instance wire.
#[local] Existing Instance wire_laws.
#[local] Existing Instance plain_panic.

Lemma plain_panic_plain s : Forall plain (panic_info (panic_message s)).
Proof. repeat constructor; discriminate. Qed.

(** A test that passes, one that does not and one that is not reached. *)
Definition three_tests : list Testable :=
  [ mkTest (str "a") (mret tt); mkTest (str "b") (lift (Stop AssertFailed)); mkTest (str "c") (mret tt) ].

Lemma test_runner_reports_witness :
  exists h', kernel_main_test true 0x200000 (Machine.mkControl 0 0 false false) three_tests idle_host = (Stop HltLoop, h') /\
    line h' = str "Running 3 tests" ++ [10] ++ str "a..." ++ [9] ++ str "[ok]" ++ [10] ++ str "b..." ++ [9] ++
      str "[failed]" ++ [10; 10] ++ str "Error: panicked: runtime error" ++ [10; 10] /\
    port_writes h' = [(0xf4, 0x11)].
Proof.
  destruct (test_runner_reports (fun _ => True) 0x200000 (Machine.mkControl 0 0 false false) three_tests
    [None; Some AssertFailed; None] idle_host) as (h' & E & L & P).
  - done.
  - left; lia.
  - repeat apply Forall2_cons_2; [..|apply Forall2_nil_2]; (split; [intros s [= <-]; reflexivity|]);
      intros h _ Hl; exists h; done.
  - repeat constructor; discriminate.
  - exact plain_panic_plain.
  - exact I.
  - reflexivity.
  - exists h'. split; [exact E|]. split; [rewrite L; vm_compute; reflexivity|exact P].
Defined.

Lemma kernel_tests_pass_witness :
  exists h', kernel_main_test true 0x200000 (Machine.mkControl 0 0 false false) kernel_tests idle_host = (Stop HltLoop, h') /\
    line h' = report kernel_tests [None; None; None; None] /\
    exists v, port_writes h' = [(0xf4, v)] /\ emulator_status v = 33.
Proof.
  destruct (kernel_tests_pass 0x200000 (Machine.mkControl 0 0 false false) idle_host) as (h' & E & L & P);
    [left; lia|exact plain_panic_plain|split; [reflexivity|apply blank_screen_wf]|reflexivity|].
  exists h'. split; [exact E|]. split; [exact L|exact P].
Defined.

End Witnesses.

End TestHarness.
