(* ===== verification/UserProgram.v ===== *)
(** * The test program ([userspace_test/src/main.rs])

    The program the kernel embeds and runs, as the system calls it makes, and
    the whole run: boot, load, print, exit. *)
From S2P Require Import Prelude Fmt Platform RefPlatform Sys VgaBuffer Paging Memory FrameAlloc Bump KernelHeap.
From S2P Require Import ElfTypes ElfLoad SyscallLib UserSlice SyscallHandler Machine ThreadData SyscallAbi.
From S2P Require Import Gdt Interrupts Boot.

Module UserProgram.
Import SyscallLib SyscallHandler Vga Fmt.

(** A user program between system calls: the next call and what follows its
    result, or [unreachable_unchecked]. *)
Inductive program : Type :=
  | SysCall (c : call) (next : Z -> program)
  | UnreachableUnchecked.

(** [syscall::exit]. *)
Definition exit_program (code : Z) (other : call) : program :=
  SysCall (exit code other) (fun _ => UnreachableUnchecked).

Definition test_text : list Z := str "Test print".

(** [_start]; [s] is the address the linker gave the literal, and [other]
    what the registers of the unused arguments hold. *)
Definition _start (s : Z) (other : call) : program :=
  SysCall (write 0 (mkSlice s (Z.of_nat (length test_text))) other) (fun _ => exit_program 0 other).

(** The panic handler. *)
Definition panic (other : call) : program := exit_program 1 other.

Section Operations.
Context `{Build} `{InterruptsApi} `{MutexApi} `{AddrApi} `{FlagBits} {PT : Type} `{Mapper PT}.

(** The kernel serving a program's system calls. *)
Fixpoint serve (mapper : PT) (p : program) : stateful Kernel unit :=
  match p with
  | SysCall c next => v ← syscall_handler_inner mapper c; serve mapper (next v)
  | UnreachableUnchecked => lift (Stop Undefined)
  end.

End Operations.

(** The image has the program's text at [s], readable by the program. *)
Definition has_text `{FlagBits} bytes segs (s : Z) : Prop :=
  0 <= s /\ s + Z.of_nat (length test_text) <= 2 ^ 47 /\
  forall i b, test_text !! i = Some b ->
    ElfLoad.file_byte bytes segs (s + Z.of_nat i) = Some b /\
    forall fl, ElfLoad.page_flags segs (align_down (s + Z.of_nat i)) = Some fl ->
      flags_contains fl USER_ACCESSIBLE = true.

(** Serving a program on a booted machine. *)
Lemma served `{Build} `{InterruptsLaws} `{MutexLaws} `{AddrLaws} `{FlagLaws} `{BootInfoLaws} `{ElfConsts}
  {PT : Type} `{!Mapper PT, !MapperLaws PT} {HW : Type} bytes segs e pt0 fa0 pt
  (st : Boot.user_start HW PT FrameAlloc.BootInfoFrameAllocator) s other k cur :
  Forall (ElfLoad.segment_ok bytes) segs -> Boot.booted bytes segs e pt0 fa0 pt st -> has_text bytes segs s ->
  ready k cur -> memory k = (fun p => default 0 (Boot.ram st !! p)) ->
  exists k', serve pt (_start s other) k = (Stop HltLoop, k') /\
    are_enabled (console_cpu (console k')) = true /\
    is_locked (WRITER (console k')) = false /\ memory k' = memory k /\
    buffer (contents (WRITER (console k'))) =
      lastn BUFFER_HEIGHT (take (BUFFER_HEIGHT - 1) (buffer (contents (WRITER (console k)))) ++
        render (color_code (contents (WRITER (console k)))) cur (str "write" ++ [10] ++ test_text)).
Proof.
  intros Hsegs Hb (Hs0 & Hs1 & Htext) Hr Hmem.
  destruct (text_printed bytes segs pt (Boot.ram st) 0 s test_text other k cur) as (k1 & E1 & P1);
    [done|apply Hb|apply Hb|done..|].
  destruct (exit_halts pt 0 other k1) as (k2 & E2 & Hon & Hw & Hm).
  exists k2. split_and!.
  - unfold _start. cbn [serve]. rewrite (stateful_bind_ret _ _ _ _ _ E1). cbn [serve exit_program].
    by rewrite (stateful_bind_stop _ _ _ _ _ E2).
  - done.
  - rewrite Hw. by destruct (printed_ready _ _ _ _ P1) as (c & [? _]).
  - rewrite Hm. apply P1.
  - rewrite Hw. apply (printed_screen _ _ _ _ P1).
Qed.

(** ** Properties *)

(** C4: From power-on to the end of the test program: kernel_main returns, and
    the embedded program then reaches its exit: the screen shows the kernel's
    trace line and 'Test print', and the processor halts in exit with
    interrupts enabled and the console unlocked. *)
Theorem test_program_runs `{Build} `{InterruptsLaws} `{AddrLaws} `{MutexLaws} `{Gdt.GdtLaws} `{Interrupts.PicLaws}
  `{FlagLaws} `{BootInfoLaws} `{ElfConsts} {EA : ElfApi} {PT : Type} `{!Mapper PT, !MapperLaws PT, !Memory.OffsetApi PT}
  (boot : Boot.boot_info) rsp bytes hdr phs t s other :
  Boot.has_fsgsbase boot = true -> canonical (Boot.syscall_entry boot) ->
  canonical (Boot.physical_memory_offset boot) -> 0 <= Boot.level4_frame boot ->
  canonical (Boot.physical_memory_offset boot + Boot.level4_frame boot) ->
  FileHeader64_parse bytes = Ok hdr -> program_headers hdr bytes = Ok phs ->
  Boot.bootable bytes phs (e_entry hdr) t (Boot.boot_table boot) (FrameAlloc.init (Boot.memory_map boot)) ->
  rsp <> 0 -> has_text bytes (ElfLoad.image t phs) s ->
  exists st pt, Boot.kernel_main boot rsp bytes = Ret st /\ Boot.MAPPER st = Some pt /\
    forall k cur, ready k cur -> memory k = (fun p => default 0 (Boot.ram st !! p)) ->
    exists k', serve pt (_start s other) k = (Stop HltLoop, k') /\
      are_enabled (console_cpu (console k')) = true /\
      is_locked (WRITER (console k')) = false /\
      buffer (contents (WRITER (console k'))) =
        lastn BUFFER_HEIGHT (take (BUFFER_HEIGHT - 1) (buffer (contents (WRITER (console k)))) ++
          render (color_code (contents (WRITER (console k)))) cur (str "write" ++ [10] ++ test_text)).
Proof.
  intros Hfs Hh Hoff Hl4 Hroot Ehdr Ephs Hb Hrsp Htext.
  destruct (Boot.kernel_main_ret boot rsp bytes hdr phs t) as (st & pt & E & _ & _ & Hbooted); [done..|].
  exists st, pt. split_and!; [done|apply Hbooted|]. intros k cur Hr Hmem.
  destruct (served _ _ _ _ _ pt st s other k cur (Boot.bt_segments _ _ _ _ _ _ Hb) Hbooted Htext Hr Hmem)
    as (k' & Es & Hon & Hl & _ & Hscr). by exists k'.
Qed.

(** ** The property at a concrete machine *)
Section Witnesses.
#[local] Existing Instance dev_build.
#[local] Existing Instance Ref.interrupts.
#[local] Existing Instance Ref.interrupts_laws.
#[local] Existing Instance Ref.addresses.
#[local] Existing Instance Ref.addresses_laws.
#[local] Existing Instance Ref.flag_bits.
#[local] Existing Instance Ref.flag_bits_laws.
#[local] Existing Instance Ref.boot_info.
#[local] Existing Instance Ref.boot_info_laws.
#[local] Existing Instance Ref.mapper.
#[local] Existing Instance Ref.mapper_laws.
#[local] Existing Instance Ref.elf_consts.
#[local] Existing Instance Ref.mutexes.
#[local] Existing Instance Ref.mutexes_laws.
#[local] Existing Instance Gdt.counting_gdt.
#[local] Existing Instance Gdt.counting_gdt_laws.
#[local] Existing Instance Interrupts.counting_pics.
#[local] Existing Instance Interrupts.counting_pics_laws.
#[local] Existing Instance Boot.empty_offset.

Lemma program_has_text : has_text ElfLoad.program_bytes (ElfLoad.image 0x201000 ElfLoad.program) 0x661100.
Proof.
  rewrite ElfLoad.program_image_eq. split_and!; [lia|simpl; lia|]. intros i b Hi.
  do 10 (destruct i as [|i]; [injection Hi as <-; split; [vm_compute; reflexivity
    |intros fl Hfl; vm_compute in Hfl; injection Hfl as <-; vm_compute; reflexivity]|]).
  discriminate Hi.
Qed.

Lemma test_program_runs_witness :
  exists st pt, @Boot.kernel_main _ _ _ _ _ _ _ _ (Ref.elf_file 0x201000 ElfLoad.program) _ _ _
      Boot.sample_boot 0x180000 ElfLoad.program_bytes = Ret st /\ Boot.MAPPER st = Some pt /\
    exists k', serve pt (_start 0x661100 no_args)
        (mkKernel boot_console (fun p => default 0 (Boot.ram st !! p))) = (Stop HltLoop, k') /\
      are_enabled (console_cpu (console k')) = true /\
      buffer (contents (WRITER (console k'))) =
        lastn 25 (take 24 blank_screen ++ render 14 [] (str "write" ++ [10] ++ str "Test print")).
Proof.
  destruct (test_program_runs (EA := Ref.elf_file 0x201000 ElfLoad.program) Boot.sample_boot
    0x180000 ElfLoad.program_bytes tt ElfLoad.program 0x201000 0x661100 no_args) as (st & pt & E & Hm & Hrun);
    [reflexivity|left; simpl; lia|left; simpl; lia|simpl; lia|left; simpl; lia|reflexivity|reflexivity
    |apply Boot.program_bootable|lia|apply program_has_text|].
  exists st, pt. split; [exact E|]. split; [exact Hm|].
  destruct (Hrun (mkKernel boot_console (fun p => default 0 (Boot.ram st !! p))) []) as (k' & Es & Hon & _ & Hs);
    [split; [reflexivity|apply blank_screen_shows]|reflexivity|].
  exists k'. split; [exact Es|]. split; [exact Hon|exact Hs].
Defined.

End Witnesses.

End UserProgram.
