(* ===== verification/Embed.v ===== *)
(** * The embedded program ([kernel/build.rs], [CHILD_PROCESS] of
      [kernel/src/main.rs])

    The build script compiles the user program and copies it to where the
    kernel includes it; the kernel places the included bytes on a page
    boundary. *)
From S2P Require Import Prelude Fmt Layout.

(** ** The build script *)
Module BuildScript.
Import Fmt.

Record Command : Type := mkCommand {
  program : list Z;
  args : list (list Z);
  current_dir : list Z
}.

(** [std::process::Output]. *)
Record Output : Type := mkOutput { success : bool; stdout : list Z; stderr : list Z }.

(** What the script reaches through the standard library: [W] is the machine
    it runs on. *)
Class HostApi (W : Type) := {
  output : Command -> W -> result Output unit * W;
  stderr_write : list Z -> W -> result nat unit * W;
  now_debug : W -> list Z
}.

Section Script.
Context {W : Type} `{HostApi W}.

(** The machine, the lines printed for cargo and the variable the script sets. *)
Record script : Type := mkScript {
  outside : W;
  printed : list (list Z);
  REBUILD : option (list Z)
}.

Definition put_outside (w : W) (s : script) : script := mkScript w (printed s) (REBUILD s).

(** [println!]. *)
Definition say (line : list Z) : stateful script unit := fun s =>
  (Ret tt, mkScript (outside s) (printed s ++ [line]) (REBUILD s)).

Definition set_rebuild : stateful script unit := fun s =>
  (Ret tt, mkScript (outside s) (printed s) (Some (now_debug (outside s)))).

(** [.output().expect("failed to execute process")]. *)
Definition execute (c : Command) : stateful script Output := fun s =>
  let '(r, w) := output c (outside s) in (expect r, put_outside w s).

(** [let _ = std::io::stderr().write(bytes).unwrap()]. *)
Definition to_stderr (bytes : list Z) : stateful script nat := fun s =>
  let '(r, w) := stderr_write bytes (outside s) in (expect r, put_outside w s).

Definition user_dir : list Z := str "../userspace_test/".

Definition cargo_build (debug_assertions : bool) : Command :=
  mkCommand (str "cargo") (if debug_assertions then [str "build"] else [str "build"; str "--release"]) user_dir.

Definition profile (debug_assertions : bool) : list Z := if debug_assertions then str "debug" else str "release".

Definition copy_program (debug_assertions : bool) : Command :=
  mkCommand (str "cp")
    [str "target/x86_64/" ++ profile debug_assertions ++ str "/userspace_test"; str "../kernel/processes/"] user_dir.

(** When cargo has to run the script again. *)
Definition rerun_rules : stateful script unit :=
  _ ← say (str "cargo:rerun-if-changed=../userspace_test/");
  _ ← set_rebuild;
  say (str "cargo:rerun-if-env-changed=REBUILD").

Definition main (debug_assertions : bool) : stateful script unit :=
  _ ← rerun_rules;
  out ← execute (cargo_build debug_assertions);
  _ ← (if success out then mret tt else
    _ ← to_stderr (stdout out);
    _ ← to_stderr (stderr out);
    _ ← say (str "cargo:rerun-if-changed=../userspace_test/");
    lift (Stop ExplicitPanic));
  _ ← execute (copy_program debug_assertions);
  mret tt.

Lemma rerun_rules_ret s : exists s', rerun_rules s = (Ret tt, s') /\ outside s' = outside s.
Proof. by eexists. Qed.

Lemma execute_cases c s :
  match output c (outside s) with
  | (Ok out, w) => execute c s = (Ret out, put_outside w s)
  | (Err _, w) => execute c s = (Stop ExpectFailed, put_outside w s)
  end.
Proof. unfold execute. by destruct (output c (outside s)) as [[]]. Qed.

(** The failure branch never returns. *)
Lemma failed_build_stops out (s : script) :
  exists r s', (_ ← to_stderr (stdout out); _ ← to_stderr (stderr out);
    _ ← say (str "cargo:rerun-if-changed=../userspace_test/");
    lift (A := unit) (Stop ExplicitPanic)) s = (Stop r, s') /\ is_panic r = true.
Proof.
  unfold mbind, stateful_bind, to_stderr.
  destruct (stderr_write (stdout out) (outside s)) as [[n|e] w]; [|by eexists _, _].
  cbn [expect]. destruct (stderr_write (stderr out) _) as [[n'|e] w']; by eexists _, _.
Qed.

(** The build script returns exactly when cargo could be started and succeeded
    and cp could be started; a failed compilation, or a program that cannot be
    started, is a panic.  The exit status of cp does not matter. *)
Theorem build_script_spec debug s :
  let '(r1, w1) := output (cargo_build debug) (outside s) in
  let '(r2, w2) := output (copy_program debug) w1 in
  match r1, r2 with
  | Ok o1, Ok o2 =>
      if success o1 then exists s', main debug s = (Ret tt, s') /\ outside s' = w2
      else exists r s', main debug s = (Stop r, s') /\ is_panic r = true
  | Ok o1, Err _ => exists r s', main debug s = (Stop r, s') /\ is_panic r = true
  | Err _, _ => exists s', main debug s = (Stop ExpectFailed, s') /\ outside s' = w1
  end.
Proof.
  unfold main. destruct (rerun_rules_ret s) as (s1 & E0 & Ew). rewrite (stateful_bind_ret _ _ _ _ _ E0).
  pose proof (execute_cases (cargo_build debug) s1) as E1. rewrite Ew in E1.
  destruct (output (cargo_build debug) (outside s)) as [[o1|[]] w1]; cycle 1.
  { rewrite (stateful_bind_stop _ _ _ _ _ E1). destruct (output _ w1) as [r2 w2]. by eexists. }
  rewrite (stateful_bind_ret _ _ _ _ _ E1).
  pose proof (execute_cases (copy_program debug) (put_outside w1 s1)) as E2. cbn [outside put_outside] in E2.
  destruct (output (copy_program debug) w1) as [r2 w2].
  destruct (success o1).
  - rewrite (stateful_bind_ret (mret tt) _ _ tt _ eq_refl). destruct r2 as [o2|e2].
    + rewrite (stateful_bind_ret _ _ _ _ _ E2). by eexists.
    + rewrite (stateful_bind_stop _ _ _ _ _ E2). by eexists _, _.
  - destruct (failed_build_stops o1 (put_outside w1 s1)) as (r & s' & E & Hr).
    rewrite (stateful_bind_stop _ _ _ _ _ E). destruct r2; by eexists _, _.
Qed.

End Script.

(** A machine where every program starts, compiles succeed and copies fail:
    the script returns all the same. *)
Definition full_disk : HostApi nat := {|
  output := fun c n => (Ok (mkOutput (bool_decide (program c = str "cargo")) [] []), S n);
  stderr_write := fun bytes n => (Ok (length bytes), n);
  now_debug := fun _ => []
|}.

Example failed_copy_is_ignored :
  let '(r, s) := @main nat full_disk true (mkScript 0%nat [] None) in r = Ret tt /\ outside s = 2%nat.
Proof. by vm_compute. Qed.

End BuildScript.

(** ** The alignment of the included bytes *)
Module AlignedAs.

Import Layout.

Definition Align4096 : layout := mkLayout 0 4096.
Definition byte_slice (bytes : list Z) : layout := mkLayout (Z.of_nat (length bytes)) 1.

(** The fields of [AlignedAs<Align, [u8]>]. *)
Definition AlignedAs (align_ty : layout) (bytes : list Z) : list layout := [zero_array align_ty; byte_slice bytes].

(** The address of [ALIGNED.bytes] in a structure at [base]. *)
Definition include_bytes_align_as (align_ty : layout) (bytes : list Z) (base : Z) : Z :=
  base + offset_of (AlignedAs align_ty bytes) 1.

(** Where the compiler may put [ALIGNED], [CHILD_PROCESS] starts a page. *)
Lemma child_process_aligned bytes base :
  base mod struct_align (AlignedAs Align4096 bytes) = 0 ->
  include_bytes_align_as Align4096 bytes base mod 4096 = 0.
Proof. intros Hb. change (struct_align _) with 4096 in Hb. unfold include_bytes_align_as. cbn. by rewrite Z.add_0_r. Qed.

End AlignedAs.
